(** * Boiler dosing controller: control core

    A shallow embedding of the control-core subsystems of the ESP32
    boiler controller firmware, and the properties established for them:

    - [Blowdown]: [BlowdownController] (src/blowdown.cpp), the valve state
      machine with its four sampling modes;
    - [Pump]: [ChemicalPump] and [PumpManager] (src/chemical_pump.cpp);
    - [Fuzzy]: [FuzzyController] (src/fuzzy_logic.cpp);
    - [WaterMeter]: [WaterMeter] with its interrupt handler
      (src/water_meter.cpp).

    Conventions of the embedding.

    - [uint32_t] values are integers in [0, 2^32); every [uint32_t]
      operation that can leave the range is wrapped with [wrap32].
      [uint16_t] and [uint8_t] configuration fields are promoted to [int]
      before arithmetic in C++, so [x * 1000] and [setpoint - deadband] are
      plain integer operations (no wrap-around is possible for them).
    - [millis()] is an input of every operation: one tick reads the clock
      once ([now]); the firmware reads it several times within a tick.
    - [float] quantities are rationals ([Q]): every finite binary32 value is
      a rational, and a comparison of a [float] against an integer below
      2^24 is exact.  In [Blowdown], [Pump] and [WaterMeter] every [float]
      operation and every conversion of a [uint32_t] to [float] is
      rounded to binary32 ([round32], round to nearest, ties to even), and
      a cast to [uint32_t] truncates ([float_to_uint32]).  In [Fuzzy] the
      arithmetic is exact (no rounding).  NaN, the infinities and
      overflow are left out.
    - Member variables are fields of a controller record that is passed in
      and returned; the configuration structs the firmware reaches through
      pointers are held in the record ([None] is the null pointer).
    - GPIO writes and [Serial] output are not part of the model; the relay
      command is visible through [relay_energized]. *)

From Stdlib Require Import ZArith QArith Qpower Qround Qabs Qminmax List Bool
  Lia Lqa String.
Import ListNotations.

Local Open Scope Z_scope.

(** ** Machine arithmetic shared by the three subsystems *)

Definition wrap32 (z : Z) : Z := z mod 2 ^ 32.

(** [a - b] on [uint32_t], as in [millis() - start]. *)
Definition sub32 (a b : Z) : Z := wrap32 (a - b).

(** [a + b] on [uint32_t]. *)
Definition add32 (a b : Z) : Z := wrap32 (a + b).

(** [a * b] on [uint32_t]. *)
Definition mul32 (a b : Z) : Z := wrap32 (a * b).

(** [x < y] and [x > y] on [float], for finite values. *)
Definition Qltb (x y : Q) : bool := negb (Qle_bool y x).
Definition Qgtb (x y : Q) : bool := Qltb y x.

(** ** Binary floating point

    A finite [float] or [double] is a rational, and each arithmetic
    operation of the firmware on them yields the exact result rounded to
    the nearest value of the format, ties to even (IEEE 754).  A format is
    given by its precision [prec] and its least exponent [emin]: its
    values are the [m * 2^k] with [|m| < 2^prec] and [k >= emin].  The
    greatest exponent is not modelled: a result beyond the range of the
    format is rounded on the same grid instead of becoming an infinity. *)

Definition Qpow2 (e : Z) : Q := (2 ^ e)%Q.

(** The nearest integer, ties to even. *)
Definition rne (x : Q) : Z :=
  let f := Qfloor x in
  match (x - inject_Z f ?= 1 # 2)%Q with
  | Lt => f
  | Gt => f + 1
  | Eq => if Z.even f then f else f + 1
  end.

(** For [q > 0], the exponent [e] with [2^e <= q < 2^(e+1)]. *)
Definition ilog2 (q : Q) : Z :=
  let e0 := Z.log2 (Qnum q) - Z.log2 (Zpos (Qden q)) in
  if Qle_bool (Qpow2 e0) q then e0 else e0 - 1.

(** The exponent of the last place of [q > 0] in the format. *)
Definition quantum (prec emin : Z) (q : Q) : Z :=
  Z.max emin (ilog2 q - (prec - 1)).

Definition round_pos (prec emin : Z) (q : Q) : Q :=
  let k := quantum prec emin q in
  Qred (inject_Z (rne (q / Qpow2 k)) * Qpow2 k).

Definition round_binary (prec emin : Z) (q : Q) : Q :=
  match (q ?= 0)%Q with
  | Eq => 0%Q
  | Gt => round_pos prec emin q
  | Lt => (- round_pos prec emin (- q))%Q
  end.

(** [float] (binary32) and [double] (binary64). *)
Definition round32 : Q -> Q := round_binary 24 (-149).
Definition round64 : Q -> Q := round_binary 53 (-1074).

(** [(uint32_t)f]: the fraction is dropped (truncation towards zero).  A
    value outside [0, 2^32) is reduced modulo 2^32 here; C++ leaves the
    cast undefined there. *)
Definition Qtrunc (f : Q) : Z := if Qle_bool 0 f then Qfloor f else Qceiling f.
Definition float_to_uint32 (f : Q) : Z := wrap32 (Qtrunc f).

(** config.h *)
Inductive hoa_mode_t : Set := HOA_AUTO | HOA_OFF | HOA_HAND.

Definition HOA_HAND_TIMEOUT_SEC : Z := 600.

Inductive sample_mode_t : Set :=
| SAMPLE_MODE_CONTINUOUS
| SAMPLE_MODE_INTERMITTENT
| SAMPLE_MODE_TIMED_BLOWDOWN
| SAMPLE_MODE_TIME_PROPORTIONAL.

Inductive feed_mode_t : Set :=
| FEED_MODE_DISABLED
| FEED_MODE_A_BLOWDOWN_FEED
| FEED_MODE_B_PERCENT_BLOWDOWN
| FEED_MODE_C_PERCENT_TIME
| FEED_MODE_D_WATER_CONTACT
| FEED_MODE_E_PADDLEWHEEL
| FEED_MODE_S_SCHEDULED.

(** * Blowdown controller (blowdown.h, blowdown.cpp) *)

Module Blowdown.

Inductive blowdown_state_t : Set :=
| BD_STATE_IDLE
| BD_STATE_VALVE_OPENING
| BD_STATE_BLOWING_DOWN
| BD_STATE_VALVE_CLOSING
| BD_STATE_SAMPLING
| BD_STATE_HOLDING
| BD_STATE_WAITING
| BD_STATE_TIMEOUT
| BD_STATE_ERROR.

Definition state_eqb (a b : blowdown_state_t) : bool :=
  match a, b with
  | BD_STATE_IDLE, BD_STATE_IDLE
  | BD_STATE_VALVE_OPENING, BD_STATE_VALVE_OPENING
  | BD_STATE_BLOWING_DOWN, BD_STATE_BLOWING_DOWN
  | BD_STATE_VALVE_CLOSING, BD_STATE_VALVE_CLOSING
  | BD_STATE_SAMPLING, BD_STATE_SAMPLING
  | BD_STATE_HOLDING, BD_STATE_HOLDING
  | BD_STATE_WAITING, BD_STATE_WAITING
  | BD_STATE_TIMEOUT, BD_STATE_TIMEOUT
  | BD_STATE_ERROR, BD_STATE_ERROR => true
  | _, _ => false
  end.

(** The sampling fields of [conductivity_config_t]; the measurement
    settings of the struct are not read by the blowdown controller. *)
Record conductivity_config_t : Type := {
  sample_mode : sample_mode_t;
  interval_seconds : Z;
  duration_seconds : Z;
  hold_time_seconds : Z;
  blow_time_seconds : Z;
  prop_band : Z;
  max_prop_time_seconds : Z
}.

Record blowdown_config_t : Type := {
  setpoint : Z;
  deadband : Z;
  time_limit_seconds : Z;
  control_direction : Z;
  ball_valve_delay : Z;
  cfg_hoa_mode : hoa_mode_t;
  cfg_timeout_flag : bool;
  accumulated_time : Z
}.

Record blowdown_status_t : Type := {
  state : blowdown_state_t;
  valve_open : bool;
  relay_energized : bool;
  hoa_mode : hoa_mode_t;
  state_start_time : Z;
  blowdown_start_time : Z;
  current_blowdown_time : Z;
  total_blowdown_time : Z;
  accumulated_blowdown_time : Z;
  timeout_flag : bool;
  waiting_for_reset : bool;
  last_conductivity : Q;
  trapped_sample_conductivity : Q
}.

(** The members of [BlowdownController], and [hand_start_time], the
    function-static variable of [processHOA]. *)
Record BlowdownController : Type := {
  _config : option blowdown_config_t;
  _cond_config : option conductivity_config_t;
  _status : blowdown_status_t;
  _valve_action_start : Z;
  _valve_target_state : bool;
  _interval_timer : Z;
  _duration_timer : Z;
  _hold_timer : Z;
  _prop_blowdown_time : Z;
  hand_start_time : Z
}.

(** Field assignments ([s.field = v]). *)

Definition set_state (v : blowdown_state_t) (s : blowdown_status_t) : blowdown_status_t :=
  {| state := v;
     valve_open := valve_open s;
     relay_energized := relay_energized s;
     hoa_mode := hoa_mode s;
     state_start_time := state_start_time s;
     blowdown_start_time := blowdown_start_time s;
     current_blowdown_time := current_blowdown_time s;
     total_blowdown_time := total_blowdown_time s;
     accumulated_blowdown_time := accumulated_blowdown_time s;
     timeout_flag := timeout_flag s;
     waiting_for_reset := waiting_for_reset s;
     last_conductivity := last_conductivity s;
     trapped_sample_conductivity := trapped_sample_conductivity s |}.

Definition set_valve_open (v : bool) (s : blowdown_status_t) : blowdown_status_t :=
  {| state := state s;
     valve_open := v;
     relay_energized := relay_energized s;
     hoa_mode := hoa_mode s;
     state_start_time := state_start_time s;
     blowdown_start_time := blowdown_start_time s;
     current_blowdown_time := current_blowdown_time s;
     total_blowdown_time := total_blowdown_time s;
     accumulated_blowdown_time := accumulated_blowdown_time s;
     timeout_flag := timeout_flag s;
     waiting_for_reset := waiting_for_reset s;
     last_conductivity := last_conductivity s;
     trapped_sample_conductivity := trapped_sample_conductivity s |}.

Definition set_relay_energized (v : bool) (s : blowdown_status_t) : blowdown_status_t :=
  {| state := state s;
     valve_open := valve_open s;
     relay_energized := v;
     hoa_mode := hoa_mode s;
     state_start_time := state_start_time s;
     blowdown_start_time := blowdown_start_time s;
     current_blowdown_time := current_blowdown_time s;
     total_blowdown_time := total_blowdown_time s;
     accumulated_blowdown_time := accumulated_blowdown_time s;
     timeout_flag := timeout_flag s;
     waiting_for_reset := waiting_for_reset s;
     last_conductivity := last_conductivity s;
     trapped_sample_conductivity := trapped_sample_conductivity s |}.

Definition set_hoa_mode (v : hoa_mode_t) (s : blowdown_status_t) : blowdown_status_t :=
  {| state := state s;
     valve_open := valve_open s;
     relay_energized := relay_energized s;
     hoa_mode := v;
     state_start_time := state_start_time s;
     blowdown_start_time := blowdown_start_time s;
     current_blowdown_time := current_blowdown_time s;
     total_blowdown_time := total_blowdown_time s;
     accumulated_blowdown_time := accumulated_blowdown_time s;
     timeout_flag := timeout_flag s;
     waiting_for_reset := waiting_for_reset s;
     last_conductivity := last_conductivity s;
     trapped_sample_conductivity := trapped_sample_conductivity s |}.

Definition set_state_start_time (v : Z) (s : blowdown_status_t) : blowdown_status_t :=
  {| state := state s;
     valve_open := valve_open s;
     relay_energized := relay_energized s;
     hoa_mode := hoa_mode s;
     state_start_time := v;
     blowdown_start_time := blowdown_start_time s;
     current_blowdown_time := current_blowdown_time s;
     total_blowdown_time := total_blowdown_time s;
     accumulated_blowdown_time := accumulated_blowdown_time s;
     timeout_flag := timeout_flag s;
     waiting_for_reset := waiting_for_reset s;
     last_conductivity := last_conductivity s;
     trapped_sample_conductivity := trapped_sample_conductivity s |}.

Definition set_blowdown_start_time (v : Z) (s : blowdown_status_t) : blowdown_status_t :=
  {| state := state s;
     valve_open := valve_open s;
     relay_energized := relay_energized s;
     hoa_mode := hoa_mode s;
     state_start_time := state_start_time s;
     blowdown_start_time := v;
     current_blowdown_time := current_blowdown_time s;
     total_blowdown_time := total_blowdown_time s;
     accumulated_blowdown_time := accumulated_blowdown_time s;
     timeout_flag := timeout_flag s;
     waiting_for_reset := waiting_for_reset s;
     last_conductivity := last_conductivity s;
     trapped_sample_conductivity := trapped_sample_conductivity s |}.

Definition set_current_blowdown_time (v : Z) (s : blowdown_status_t) : blowdown_status_t :=
  {| state := state s;
     valve_open := valve_open s;
     relay_energized := relay_energized s;
     hoa_mode := hoa_mode s;
     state_start_time := state_start_time s;
     blowdown_start_time := blowdown_start_time s;
     current_blowdown_time := v;
     total_blowdown_time := total_blowdown_time s;
     accumulated_blowdown_time := accumulated_blowdown_time s;
     timeout_flag := timeout_flag s;
     waiting_for_reset := waiting_for_reset s;
     last_conductivity := last_conductivity s;
     trapped_sample_conductivity := trapped_sample_conductivity s |}.

Definition set_total_blowdown_time (v : Z) (s : blowdown_status_t) : blowdown_status_t :=
  {| state := state s;
     valve_open := valve_open s;
     relay_energized := relay_energized s;
     hoa_mode := hoa_mode s;
     state_start_time := state_start_time s;
     blowdown_start_time := blowdown_start_time s;
     current_blowdown_time := current_blowdown_time s;
     total_blowdown_time := v;
     accumulated_blowdown_time := accumulated_blowdown_time s;
     timeout_flag := timeout_flag s;
     waiting_for_reset := waiting_for_reset s;
     last_conductivity := last_conductivity s;
     trapped_sample_conductivity := trapped_sample_conductivity s |}.

Definition set_accumulated_blowdown_time (v : Z) (s : blowdown_status_t) : blowdown_status_t :=
  {| state := state s;
     valve_open := valve_open s;
     relay_energized := relay_energized s;
     hoa_mode := hoa_mode s;
     state_start_time := state_start_time s;
     blowdown_start_time := blowdown_start_time s;
     current_blowdown_time := current_blowdown_time s;
     total_blowdown_time := total_blowdown_time s;
     accumulated_blowdown_time := v;
     timeout_flag := timeout_flag s;
     waiting_for_reset := waiting_for_reset s;
     last_conductivity := last_conductivity s;
     trapped_sample_conductivity := trapped_sample_conductivity s |}.

Definition set_timeout_flag (v : bool) (s : blowdown_status_t) : blowdown_status_t :=
  {| state := state s;
     valve_open := valve_open s;
     relay_energized := relay_energized s;
     hoa_mode := hoa_mode s;
     state_start_time := state_start_time s;
     blowdown_start_time := blowdown_start_time s;
     current_blowdown_time := current_blowdown_time s;
     total_blowdown_time := total_blowdown_time s;
     accumulated_blowdown_time := accumulated_blowdown_time s;
     timeout_flag := v;
     waiting_for_reset := waiting_for_reset s;
     last_conductivity := last_conductivity s;
     trapped_sample_conductivity := trapped_sample_conductivity s |}.

Definition set_waiting_for_reset (v : bool) (s : blowdown_status_t) : blowdown_status_t :=
  {| state := state s;
     valve_open := valve_open s;
     relay_energized := relay_energized s;
     hoa_mode := hoa_mode s;
     state_start_time := state_start_time s;
     blowdown_start_time := blowdown_start_time s;
     current_blowdown_time := current_blowdown_time s;
     total_blowdown_time := total_blowdown_time s;
     accumulated_blowdown_time := accumulated_blowdown_time s;
     timeout_flag := timeout_flag s;
     waiting_for_reset := v;
     last_conductivity := last_conductivity s;
     trapped_sample_conductivity := trapped_sample_conductivity s |}.

Definition set_last_conductivity (v : Q) (s : blowdown_status_t) : blowdown_status_t :=
  {| state := state s;
     valve_open := valve_open s;
     relay_energized := relay_energized s;
     hoa_mode := hoa_mode s;
     state_start_time := state_start_time s;
     blowdown_start_time := blowdown_start_time s;
     current_blowdown_time := current_blowdown_time s;
     total_blowdown_time := total_blowdown_time s;
     accumulated_blowdown_time := accumulated_blowdown_time s;
     timeout_flag := timeout_flag s;
     waiting_for_reset := waiting_for_reset s;
     last_conductivity := v;
     trapped_sample_conductivity := trapped_sample_conductivity s |}.

Definition set_trapped_sample_conductivity (v : Q) (s : blowdown_status_t) : blowdown_status_t :=
  {| state := state s;
     valve_open := valve_open s;
     relay_energized := relay_energized s;
     hoa_mode := hoa_mode s;
     state_start_time := state_start_time s;
     blowdown_start_time := blowdown_start_time s;
     current_blowdown_time := current_blowdown_time s;
     total_blowdown_time := total_blowdown_time s;
     accumulated_blowdown_time := accumulated_blowdown_time s;
     timeout_flag := timeout_flag s;
     waiting_for_reset := waiting_for_reset s;
     last_conductivity := last_conductivity s;
     trapped_sample_conductivity := v |}.

Definition set_config (v : option blowdown_config_t) (c : BlowdownController) : BlowdownController :=
  {| _config := v;
     _cond_config := _cond_config c;
     _status := _status c;
     _valve_action_start := _valve_action_start c;
     _valve_target_state := _valve_target_state c;
     _interval_timer := _interval_timer c;
     _duration_timer := _duration_timer c;
     _hold_timer := _hold_timer c;
     _prop_blowdown_time := _prop_blowdown_time c;
     hand_start_time := hand_start_time c |}.

Definition set_cond_config (v : option conductivity_config_t) (c : BlowdownController) : BlowdownController :=
  {| _config := _config c;
     _cond_config := v;
     _status := _status c;
     _valve_action_start := _valve_action_start c;
     _valve_target_state := _valve_target_state c;
     _interval_timer := _interval_timer c;
     _duration_timer := _duration_timer c;
     _hold_timer := _hold_timer c;
     _prop_blowdown_time := _prop_blowdown_time c;
     hand_start_time := hand_start_time c |}.

Definition set_status (v : blowdown_status_t) (c : BlowdownController) : BlowdownController :=
  {| _config := _config c;
     _cond_config := _cond_config c;
     _status := v;
     _valve_action_start := _valve_action_start c;
     _valve_target_state := _valve_target_state c;
     _interval_timer := _interval_timer c;
     _duration_timer := _duration_timer c;
     _hold_timer := _hold_timer c;
     _prop_blowdown_time := _prop_blowdown_time c;
     hand_start_time := hand_start_time c |}.

Definition set_valve_action_start (v : Z) (c : BlowdownController) : BlowdownController :=
  {| _config := _config c;
     _cond_config := _cond_config c;
     _status := _status c;
     _valve_action_start := v;
     _valve_target_state := _valve_target_state c;
     _interval_timer := _interval_timer c;
     _duration_timer := _duration_timer c;
     _hold_timer := _hold_timer c;
     _prop_blowdown_time := _prop_blowdown_time c;
     hand_start_time := hand_start_time c |}.

Definition set_valve_target_state (v : bool) (c : BlowdownController) : BlowdownController :=
  {| _config := _config c;
     _cond_config := _cond_config c;
     _status := _status c;
     _valve_action_start := _valve_action_start c;
     _valve_target_state := v;
     _interval_timer := _interval_timer c;
     _duration_timer := _duration_timer c;
     _hold_timer := _hold_timer c;
     _prop_blowdown_time := _prop_blowdown_time c;
     hand_start_time := hand_start_time c |}.

Definition set_interval_timer (v : Z) (c : BlowdownController) : BlowdownController :=
  {| _config := _config c;
     _cond_config := _cond_config c;
     _status := _status c;
     _valve_action_start := _valve_action_start c;
     _valve_target_state := _valve_target_state c;
     _interval_timer := v;
     _duration_timer := _duration_timer c;
     _hold_timer := _hold_timer c;
     _prop_blowdown_time := _prop_blowdown_time c;
     hand_start_time := hand_start_time c |}.

Definition set_duration_timer (v : Z) (c : BlowdownController) : BlowdownController :=
  {| _config := _config c;
     _cond_config := _cond_config c;
     _status := _status c;
     _valve_action_start := _valve_action_start c;
     _valve_target_state := _valve_target_state c;
     _interval_timer := _interval_timer c;
     _duration_timer := v;
     _hold_timer := _hold_timer c;
     _prop_blowdown_time := _prop_blowdown_time c;
     hand_start_time := hand_start_time c |}.

Definition set_hold_timer (v : Z) (c : BlowdownController) : BlowdownController :=
  {| _config := _config c;
     _cond_config := _cond_config c;
     _status := _status c;
     _valve_action_start := _valve_action_start c;
     _valve_target_state := _valve_target_state c;
     _interval_timer := _interval_timer c;
     _duration_timer := _duration_timer c;
     _hold_timer := v;
     _prop_blowdown_time := _prop_blowdown_time c;
     hand_start_time := hand_start_time c |}.

Definition set_prop_blowdown_time (v : Z) (c : BlowdownController) : BlowdownController :=
  {| _config := _config c;
     _cond_config := _cond_config c;
     _status := _status c;
     _valve_action_start := _valve_action_start c;
     _valve_target_state := _valve_target_state c;
     _interval_timer := _interval_timer c;
     _duration_timer := _duration_timer c;
     _hold_timer := _hold_timer c;
     _prop_blowdown_time := v;
     hand_start_time := hand_start_time c |}.

Definition set_hand_start_time (v : Z) (c : BlowdownController) : BlowdownController :=
  {| _config := _config c;
     _cond_config := _cond_config c;
     _status := _status c;
     _valve_action_start := _valve_action_start c;
     _valve_target_state := _valve_target_state c;
     _interval_timer := _interval_timer c;
     _duration_timer := _duration_timer c;
     _hold_timer := _hold_timer c;
     _prop_blowdown_time := _prop_blowdown_time c;
     hand_start_time := v |}.

(** [c._status.field = v] *)
Definition upd_status (f : blowdown_status_t -> blowdown_status_t)
  (c : BlowdownController) : BlowdownController :=
  set_status (f (_status c)) c.

(** The state of a controller after its constructor: valve closed, Idle,
    Auto, every timer zero ([memset] of the status). *)
Definition init_status : blowdown_status_t :=
  {| state := BD_STATE_IDLE;
     valve_open := false;
     relay_energized := false;
     hoa_mode := HOA_AUTO;
     state_start_time := 0;
     blowdown_start_time := 0;
     current_blowdown_time := 0;
     total_blowdown_time := 0;
     accumulated_blowdown_time := 0;
     timeout_flag := false;
     waiting_for_reset := false;
     last_conductivity := 0%Q;
     trapped_sample_conductivity := 0%Q |}.

Definition init_controller : BlowdownController :=
  {| _config := None;
     _cond_config := None;
     _status := init_status;
     _valve_action_start := 0;
     _valve_target_state := false;
     _interval_timer := 0;
     _duration_timer := 0;
     _hold_timer := 0;
     _prop_blowdown_time := 0;
     hand_start_time := 0 |}.

(** [BlowdownController::configure] *)
Definition configure (config : option blowdown_config_t)
  (c : BlowdownController) : BlowdownController :=
  let c := set_config config c in
  match config with
  | Some cfg => upd_status (set_hoa_mode (cfg_hoa_mode cfg)) c
  | None => c
  end.

(** [BlowdownController::setConductivityConfig] *)
Definition setConductivityConfig (cond_config : option conductivity_config_t)
  (c : BlowdownController) : BlowdownController :=
  set_cond_config cond_config c.

(** [_config->timeout_flag = v] *)
Definition cfg_set_timeout_flag (v : bool) (cfg : blowdown_config_t)
  : blowdown_config_t :=
  {| setpoint := setpoint cfg;
     deadband := deadband cfg;
     time_limit_seconds := time_limit_seconds cfg;
     control_direction := control_direction cfg;
     ball_valve_delay := ball_valve_delay cfg;
     cfg_hoa_mode := cfg_hoa_mode cfg;
     cfg_timeout_flag := v;
     accumulated_time := accumulated_time cfg |}.

(** [_config->hoa_mode = v] *)
Definition cfg_set_hoa_mode (v : hoa_mode_t) (cfg : blowdown_config_t)
  : blowdown_config_t :=
  {| setpoint := setpoint cfg;
     deadband := deadband cfg;
     time_limit_seconds := time_limit_seconds cfg;
     control_direction := control_direction cfg;
     ball_valve_delay := ball_valve_delay cfg;
     cfg_hoa_mode := v;
     cfg_timeout_flag := cfg_timeout_flag cfg;
     accumulated_time := accumulated_time cfg |}.

(** [BlowdownController::transitionState] *)
Definition transitionState (now : Z) (new_state : blowdown_state_t)
  (c : BlowdownController) : BlowdownController :=
  let c := upd_status (set_state new_state) c in
  upd_status (set_state_start_time now) c.

(** [BlowdownController::setRelayState] *)
Definition setRelayState (energize : bool) (c : BlowdownController)
  : BlowdownController :=
  upd_status (set_relay_energized energize) c.

(** [BlowdownController::startBallValve] *)
Definition startBallValve (now : Z) (opening : bool) (c : BlowdownController)
  : BlowdownController :=
  let c := set_valve_target_state opening c in
  let c := set_valve_action_start now c in
  let c := setRelayState opening c in
  transitionState now
    (if opening then BD_STATE_VALVE_OPENING else BD_STATE_VALVE_CLOSING) c.

(** [_config && _config->ball_valve_delay > 0] *)
Definition has_ball_valve (c : BlowdownController) : bool :=
  match _config c with
  | Some cfg => 0 <? ball_valve_delay cfg
  | None => false
  end.

(** [BlowdownController::openValve] *)
Definition openValve (now : Z) (c : BlowdownController) : BlowdownController :=
  if has_ball_valve c then startBallValve now true c
  else
    let c := setRelayState true c in
    let c := upd_status (set_valve_open true) c in
    let c := upd_status (set_blowdown_start_time now) c in
    transitionState now BD_STATE_BLOWING_DOWN c.

(** [BlowdownController::closeValve] *)
Definition closeValve (now : Z) (c : BlowdownController) : BlowdownController :=
  if has_ball_valve c then startBallValve now false c
  else
    let c := setRelayState false c in
    let c := upd_status (set_valve_open false) c in
    let c :=
      if state_eqb (state (_status c)) BD_STATE_BLOWING_DOWN then
        let cur := current_blowdown_time (_status c) in
        let c :=
          upd_status (fun s => set_accumulated_blowdown_time
                                 (add32 (accumulated_blowdown_time s) cur) s) c in
        upd_status (fun s => set_total_blowdown_time
                               (add32 (total_blowdown_time s) (cur / 1000)) s) c
      else c in
    transitionState now BD_STATE_IDLE c.

(** [BlowdownController::setHOA] *)
Definition setHOA (mode : hoa_mode_t) (c : BlowdownController)
  : BlowdownController :=
  let c := upd_status (set_hoa_mode mode) c in
  match _config c with
  | Some cfg => set_config (Some (cfg_set_hoa_mode mode cfg)) c
  | None => c
  end.

(** [BlowdownController::resetTimeout] *)
Definition resetTimeout (now : Z) (c : BlowdownController) : BlowdownController :=
  let c := upd_status (set_timeout_flag false) c in
  let c := upd_status (set_waiting_for_reset false) c in
  let c :=
    match _config c with
    | Some cfg => set_config (Some (cfg_set_timeout_flag false cfg)) c
    | None => c
    end in
  transitionState now BD_STATE_IDLE c.

(** [BlowdownController::isActive] *)
Definition isActive (c : BlowdownController) : bool :=
  valve_open (_status c)
  || state_eqb (state (_status c)) BD_STATE_BLOWING_DOWN
  || state_eqb (state (_status c)) BD_STATE_VALVE_OPENING.

(** [BlowdownController::isTimeout] *)
Definition isTimeout (c : BlowdownController) : bool :=
  timeout_flag (_status c).

(** [BlowdownController::processHOA] *)
Definition processHOA (now : Z) (c : BlowdownController) : BlowdownController :=
  match hoa_mode (_status c) with
  | HOA_HAND =>
      if negb (valve_open (_status c)) then
        openValve now (set_hand_start_time now c)
      else if HOA_HAND_TIMEOUT_SEC * 1000 <=? sub32 now (hand_start_time c) then
        upd_status (set_hoa_mode HOA_AUTO) (closeValve now c)
      else c
  | HOA_OFF =>
      if valve_open (_status c) then closeValve now c else c
  | HOA_AUTO => c
  end.

(** [BlowdownController::processContinuousMode] *)
Definition processContinuousMode (now : Z) (conductivity : Q)
  (c : BlowdownController) : BlowdownController :=
  match _config c with
  | None => c
  | Some cfg =>
      if waiting_for_reset (_status c) then c
      else
        let setpoint := setpoint cfg in
        let deadband := deadband cfg in
        let high_control := control_direction cfg =? 0 in
        if high_control then
          if Qgtb conductivity (inject_Z setpoint)
             && negb (valve_open (_status c))
          then openValve now c
          else if Qltb conductivity (inject_Z (setpoint - deadband))
                  && valve_open (_status c)
          then closeValve now c
          else c
        else
          if Qltb conductivity (inject_Z setpoint)
             && negb (valve_open (_status c))
          then openValve now c
          else if Qgtb conductivity (inject_Z (setpoint + deadband))
                  && valve_open (_status c)
          then closeValve now c
          else c
  end.

(** [BlowdownController::calculateProportionalTime].  The difference,
    the quotient and the product are [float] operations, each rounded to
    binary32; [setpoint] and [prop_band] are [uint16_t] and convert to
    [float] as they are, [max_time_ms] is a [uint32_t] and is rounded by
    its conversion.  A zero [prop_band] makes the quotient +infinity,
    which the clamp turns into 1.0.  The cast to [uint32_t] truncates. *)
Definition calculateProportionalTime (conductivity : Q)
  (c : BlowdownController) : Z :=
  match _config c, _cond_config c with
  | Some cfg, Some cc =>
      let deviation := round32 (conductivity - inject_Z (setpoint cfg)) in
      if Qle_bool deviation 0 then 0
      else
        let percentage :=
          if prop_band cc =? 0 then 1%Q
          else round32 (deviation / inject_Z (prop_band cc)) in
        let percentage := if Qgtb percentage 1 then 1%Q else percentage in
        let max_time_ms := max_prop_time_seconds cc * 1000 in
        float_to_uint32 (round32 (percentage * round32 (inject_Z max_time_ms)))
  | _, _ => 0
  end.

(** The [BD_STATE_IDLE]/[BD_STATE_WAITING] case shared by the three
    interval modes: start a sample cycle once the interval has elapsed. *)
Definition startCycleIfDue (now : Z) (cc : conductivity_config_t)
  (c : BlowdownController) : BlowdownController :=
  if interval_seconds cc * 1000 <=? sub32 now (_interval_timer c) then
    let c := set_interval_timer now c in
    let c := set_duration_timer now c in
    let c := transitionState now BD_STATE_SAMPLING c in
    openValve now c
  else c.

(** The end of a sample or of a discharge: close the valve and hold. *)
Definition closeAndHold (now : Z) (trap : option Q) (c : BlowdownController)
  : BlowdownController :=
  let c := closeValve now c in
  let c := set_hold_timer now c in
  let c :=
    match trap with
    | Some v => upd_status (set_trapped_sample_conductivity v) c
    | None => c
    end in
  transitionState now BD_STATE_HOLDING c.

(** [BlowdownController::processIntermittentMode] *)
Definition processIntermittentMode (now : Z) (conductivity : Q)
  (c : BlowdownController) : BlowdownController :=
  match _config c, _cond_config c with
  | Some cfg, Some cc =>
      if waiting_for_reset (_status c) then c
      else
        let setpoint := inject_Z (setpoint cfg) in
        match state (_status c) with
        | BD_STATE_IDLE | BD_STATE_WAITING => startCycleIfDue now cc c
        | BD_STATE_SAMPLING =>
            if duration_seconds cc * 1000 <=? sub32 now (_duration_timer c) then
              if Qgtb conductivity setpoint then
                transitionState now BD_STATE_BLOWING_DOWN c
              else closeAndHold now (Some conductivity) c
            else c
        | BD_STATE_BLOWING_DOWN =>
            if Qltb conductivity setpoint then
              closeAndHold now (Some conductivity) c
            else c
        | BD_STATE_HOLDING =>
            if hold_time_seconds cc * 1000 <=? sub32 now (_hold_timer c) then
              if Qgtb conductivity setpoint then
                let c := set_duration_timer now c in
                let c := transitionState now BD_STATE_SAMPLING c in
                openValve now c
              else transitionState now BD_STATE_WAITING c
            else c
        | _ => c
        end
  | _, _ => c
  end.

(** The body shared, statement for statement, by [processTimedBlowdown]
    and [processTimeProportional]; they differ in the discharge time
    [blow_ms] chosen when the hold finds conductivity above setpoint. *)
Definition processTimedCycle (blow_ms : Z) (now : Z) (conductivity : Q)
  (c : BlowdownController) : BlowdownController :=
  match _config c, _cond_config c with
  | Some cfg, Some cc =>
      if waiting_for_reset (_status c) then c
      else
        let setpoint := inject_Z (setpoint cfg) in
        match state (_status c) with
        | BD_STATE_IDLE | BD_STATE_WAITING => startCycleIfDue now cc c
        | BD_STATE_SAMPLING =>
            if duration_seconds cc * 1000 <=? sub32 now (_duration_timer c) then
              closeAndHold now (Some conductivity) c
            else c
        | BD_STATE_HOLDING =>
            if hold_time_seconds cc * 1000 <=? sub32 now (_hold_timer c) then
              if Qgtb conductivity setpoint then
                let c := set_prop_blowdown_time blow_ms c in
                let c := transitionState now BD_STATE_BLOWING_DOWN c in
                openValve now c
              else transitionState now BD_STATE_WAITING c
            else c
        | BD_STATE_BLOWING_DOWN =>
            if _prop_blowdown_time c
               <=? sub32 now (blowdown_start_time (_status c)) then
              closeAndHold now None c
            else c
        | _ => c
        end
  | _, _ => c
  end.

(** [BlowdownController::processTimedBlowdown] *)
Definition processTimedBlowdown (now : Z) (conductivity : Q)
  (c : BlowdownController) : BlowdownController :=
  let blow_ms :=
    match _cond_config c with
    | Some cc => blow_time_seconds cc * 1000
    | None => 0
    end in
  processTimedCycle blow_ms now conductivity c.

(** [BlowdownController::processTimeProportional] *)
Definition processTimeProportional (now : Z) (conductivity : Q)
  (c : BlowdownController) : BlowdownController :=
  processTimedCycle (calculateProportionalTime conductivity c)
    now conductivity c.

(** [BlowdownController::checkBallValveComplete] *)
Definition checkBallValveComplete (now : Z) (c : BlowdownController)
  : BlowdownController :=
  match _config c with
  | None => c
  | Some cfg =>
      let delay_ms := ball_valve_delay cfg * 1000 in
      if delay_ms <=? sub32 now (_valve_action_start c) then
        let c := upd_status (set_valve_open (_valve_target_state c)) c in
        if _valve_target_state c then
          let c := upd_status (set_blowdown_start_time now) c in
          transitionState now BD_STATE_BLOWING_DOWN c
        else transitionState now BD_STATE_IDLE c
      else c
  end.

(** [BlowdownController::checkTimeout] *)
Definition checkTimeout (now : Z) (c : BlowdownController) : BlowdownController :=
  match _config c with
  | None => c
  | Some cfg =>
      if time_limit_seconds cfg =? 0 then c
      else if state_eqb (state (_status c)) BD_STATE_BLOWING_DOWN then
        let limit_ms := time_limit_seconds cfg * 1000 in
        if limit_ms <=? current_blowdown_time (_status c) then
          let c := closeValve now c in
          let c := upd_status (set_timeout_flag true) c in
          let c := upd_status (set_waiting_for_reset true) c in
          let c :=
            match _config c with
            | Some cfg => set_config (Some (cfg_set_timeout_flag true cfg)) c
            | None => c
            end in
          transitionState now BD_STATE_TIMEOUT c
        else c
      else c
  end.

(** The dispatch on the sampling mode in [update]; a missing
    conductivity configuration selects the continuous mode. *)
Definition processSamplingMode (now : Z) (conductivity : Q)
  (c : BlowdownController) : BlowdownController :=
  match _cond_config c with
  | None => processContinuousMode now conductivity c
  | Some cc =>
      match sample_mode cc with
      | SAMPLE_MODE_CONTINUOUS => processContinuousMode now conductivity c
      | SAMPLE_MODE_INTERMITTENT => processIntermittentMode now conductivity c
      | SAMPLE_MODE_TIMED_BLOWDOWN => processTimedBlowdown now conductivity c
      | SAMPLE_MODE_TIME_PROPORTIONAL =>
          processTimeProportional now conductivity c
      end
  end.

(** The last statement of [update]: refresh the discharge timer. *)
Definition updateBlowdownTimer (now : Z) (c : BlowdownController)
  : BlowdownController :=
  if state_eqb (state (_status c)) BD_STATE_BLOWING_DOWN then
    upd_status (fun s => set_current_blowdown_time
                           (sub32 now (blowdown_start_time s)) s) c
  else c.

(** [BlowdownController::update]: one control tick. *)
Definition update (now : Z) (conductivity : Q) (flow_ok : bool)
  (c : BlowdownController) : BlowdownController :=
  let c := upd_status (set_last_conductivity conductivity) c in
  if negb flow_ok then
    if valve_open (_status c) then closeValve now c else c
  else
    let c := processHOA now c in
    match hoa_mode (_status c) with
    | HOA_AUTO =>
        match state (_status c) with
        | BD_STATE_VALVE_OPENING | BD_STATE_VALVE_CLOSING =>
            checkBallValveComplete now c
        | _ =>
            let c := processSamplingMode now conductivity c in
            let c := checkTimeout now c in
            updateBlowdownTimer now c
        end
    | _ => c
    end.

(** One input of a tick: the clock, the reading and the flow switch. *)
Record tick_t : Type := {
  t_now : Z;
  t_conductivity : Q;
  t_flow_ok : bool
}.

Definition tick (c : BlowdownController) (t : tick_t) : BlowdownController :=
  update (t_now t) (t_conductivity t) (t_flow_ok t) c.

(** A run of the control loop: [update] once per element. *)
Definition run (ticks : list tick_t) (c : BlowdownController)
  : BlowdownController :=
  fold_left tick ticks c.

(** ** Example configurations *)

(** The default blowdown settings of config.h (setpoint 2500 uS/cm,
    deadband 50, solenoid valve) with a 300 s time limit. *)
Definition solenoid_config : blowdown_config_t :=
  {| setpoint := 2500;
     deadband := 50;
     time_limit_seconds := 300;
     control_direction := 0;
     ball_valve_delay := 0;
     cfg_hoa_mode := HOA_AUTO;
     cfg_timeout_flag := false;
     accumulated_time := 0 |}.

(** The same settings for a motorized ball valve that takes 5 s to
    travel. *)
Definition ball_valve_config : blowdown_config_t :=
  {| setpoint := 2500;
     deadband := 50;
     time_limit_seconds := 300;
     control_direction := 0;
     ball_valve_delay := 5;
     cfg_hoa_mode := HOA_AUTO;
     cfg_timeout_flag := false;
     accumulated_time := 0 |}.

(** The default sampling settings of config.h for a given mode. *)
Definition sampling_config (mode : sample_mode_t) : conductivity_config_t :=
  {| sample_mode := mode;
     interval_seconds := 3600;
     duration_seconds := 300;
     hold_time_seconds := 60;
     blow_time_seconds := 600;
     prop_band := 200;
     max_prop_time_seconds := 600 |}.

Definition solenoid_controller : BlowdownController :=
  configure (Some solenoid_config) init_controller.

Definition ball_valve_controller : BlowdownController :=
  configure (Some ball_valve_config) init_controller.

Definition interval_controller (mode : sample_mode_t) : BlowdownController :=
  setConductivityConfig (Some (sampling_config mode)) solenoid_controller.

(** ** Predicates used in the statements *)

(** The continuous mode is the one [update] dispatches to. *)
Definition is_continuous (c : BlowdownController) : bool :=
  match _cond_config c with
  | None => true
  | Some cc =>
      match sample_mode cc with
      | SAMPLE_MODE_CONTINUOUS => true
      | _ => false
      end
  end.

(** The tick starts in one of the two ball-valve travel states. *)
Definition in_transition (c : BlowdownController) : bool :=
  state_eqb (state (_status c)) BD_STATE_VALVE_OPENING
  || state_eqb (state (_status c)) BD_STATE_VALVE_CLOSING.

(** [checkTimeout] will not fire on the discharge time recorded so far. *)
Definition timeout_not_due (c : BlowdownController) : Prop :=
  match _config c with
  | Some cfg =>
      time_limit_seconds cfg = 0
      \/ current_blowdown_time (_status c) < time_limit_seconds cfg * 1000
  | None => True
  end.

(** The latch of the timeout: what every tick after a timeout preserves,
    whatever its inputs. *)
Definition latched (c : BlowdownController) : Prop :=
  hoa_mode (_status c) = HOA_AUTO
  /\ timeout_flag (_status c) = true
  /\ waiting_for_reset (_status c) = true
  /\ relay_energized (_status c) = false.

(** What every tick after a timeout preserves for a solenoid valve. *)
Definition latched_closed (c : BlowdownController) : Prop :=
  latched c
  /\ has_ball_valve c = false
  /\ valve_open (_status c) = false
  /\ state (_status c) = BD_STATE_TIMEOUT.

(** What a tick with flow preserves after a timeout that left the valve
    flagged open. *)
Definition latched_open (c : BlowdownController) : Prop :=
  latched c
  /\ valve_open (_status c) = true
  /\ state (_status c) = BD_STATE_TIMEOUT.

(** The flow switch is closed on every tick of a run. *)
Definition flow_present (ticks : list tick_t) : Prop :=
  Forall (fun t => t_flow_ok t = true) ticks.

(** The two places where an interval mode opens the valve. *)
Definition open_is_due (now : Z) (v : Q) (c : BlowdownController)
  (cc : conductivity_config_t) : Prop :=
  ((state (_status c) = BD_STATE_IDLE \/ state (_status c) = BD_STATE_WAITING)
   /\ interval_seconds cc * 1000 <= sub32 now (_interval_timer c))
  \/ (state (_status c) = BD_STATE_HOLDING
      /\ hold_time_seconds cc * 1000 <= sub32 now (_hold_timer c)
      /\ exists cfg, _config c = Some cfg /\ (inject_Z (setpoint cfg) < v)%Q).

(** A run of an interval mode with the default timing (interval 3600 s,
    hold 60 s): a cycle starts at 3600000 ms, the valve is closed on the
    next tick and the controller holds, and at 3660100 ms the valve is
    open again, 60.1 s after the cycle began. *)
Definition reopens_before_interval (mode : sample_mode_t) : Prop :=
  let c1 := update 3600000 2600 true (interval_controller mode) in
  let c2 := update 3600100 2400 true c1 in
  let c3 := update 3660100 2600 true c2 in
  valve_open (_status c1) = true
  /\ _interval_timer c2 = 3600000
  /\ valve_open (_status c2) = false
  /\ state (_status c2) = BD_STATE_HOLDING
  /\ valve_open (_status c3) = true
  /\ relay_energized (_status c3) = true
  /\ sub32 3660100 (_interval_timer c2) = 60100
  /\ 60100 < interval_seconds (sampling_config mode) * 1000.

(** [BlowdownController::getAccumulatedTime], [clearAccumulatedTime],
    [getTotalBlowdownTime], [resetDailyTotal] *)
Definition getAccumulatedTime (c : BlowdownController) : Z :=
  accumulated_blowdown_time (_status c).

Definition clearAccumulatedTime (c : BlowdownController) : BlowdownController :=
  upd_status (set_accumulated_blowdown_time 0) c.

Definition getTotalBlowdownTime (c : BlowdownController) : Z :=
  total_blowdown_time (_status c).

Definition resetDailyTotal (c : BlowdownController) : BlowdownController :=
  upd_status (set_total_blowdown_time 0) c.

(** A solenoid valve (no travel time) outside the travel states whose
    status flag agrees with the relay command. *)
Definition solenoid_consistent (c : BlowdownController) : Prop :=
  has_ball_valve c = false
  /\ in_transition c = false
  /\ relay_energized (_status c) = valve_open (_status c).

(** Every tick of a list has flow and is earlier than [limit_ms] after
    [t0] on the 32-bit clock. *)
Definition travel_ticks (t0 limit_ms : Z) (ticks : list tick_t) : Prop :=
  Forall (fun t => t_flow_ok t = true /\ sub32 (t_now t) t0 < limit_ms) ticks.

(** Two controllers that differ at most in the stored reading. *)
Definition same_but_reading (c1 c2 : BlowdownController) : Prop :=
  exists q, c2 = upd_status (set_last_conductivity q) c1.

(** A controller that timed out, was reset and is asked to discharge
    again: the run used for the re-timeout property. *)
Definition timed_out_and_reset : BlowdownController :=
  resetTimeout 400000
    (run [ {| t_now := 1000; t_conductivity := 2600; t_flow_ok := true |};
           {| t_now := 301000; t_conductivity := 2600; t_flow_ok := true |};
           {| t_now := 301100; t_conductivity := 2600; t_flow_ok := true |} ]
       solenoid_controller).

(** The default settings with direction LOW (discharge below the
    setpoint). *)
Definition low_direction_config : blowdown_config_t :=
  {| setpoint := 2500;
     deadband := 50;
     time_limit_seconds := 0;
     control_direction := 1;
     ball_valve_delay := 0;
     cfg_hoa_mode := HOA_AUTO;
     cfg_timeout_flag := false;
     accumulated_time := 0 |}.

Definition low_direction_controller : BlowdownController :=
  configure (Some low_direction_config) init_controller.

(** The fields no valve operation writes: the configuration, the operator
    mode, the two timeout flags and the recorded discharge time. *)
Definition same_latch (c1 c2 : BlowdownController) : Prop :=
  _config c2 = _config c1
  /\ _cond_config c2 = _cond_config c1
  /\ hoa_mode (_status c2) = hoa_mode (_status c1)
  /\ timeout_flag (_status c2) = timeout_flag (_status c1)
  /\ waiting_for_reset (_status c2) = waiting_for_reset (_status c1)
  /\ current_blowdown_time (_status c2) = current_blowdown_time (_status c1).


(** The discharge totals and the valve type are the same in two
    controllers. *)
Definition same_totals (c1 c2 : BlowdownController) : Prop :=
  has_ball_valve c2 = has_ball_valve c1
  /\ accumulated_blowdown_time (_status c2)
     = accumulated_blowdown_time (_status c1)
  /\ total_blowdown_time (_status c2) = total_blowdown_time (_status c1).

(** A ball-valve discharge: open command at 1 s, travel complete at 7 s,
    discharging until the reading falls below the deadband at 60 s,
    closed at 66 s. *)
Definition ball_valve_discharge : list tick_t :=
  [ {| t_now := 1000; t_conductivity := 2600; t_flow_ok := true |};
    {| t_now := 7000; t_conductivity := 2600; t_flow_ok := true |};
    {| t_now := 30000; t_conductivity := 2600; t_flow_ok := true |};
    {| t_now := 60000; t_conductivity := 2400; t_flow_ok := true |};
    {| t_now := 66000; t_conductivity := 2400; t_flow_ok := true |} ].

End Blowdown.

(** * Chemical pumps (chemical_pump.h, chemical_pump.cpp) *)

Module Pump.

Inductive pump_id_t : Set := PUMP_H2SO3 | PUMP_NAOH | PUMP_AMINE.

Definition PUMP_COUNT : Z := 3.

Inductive pump_state_t : Set :=
| PUMP_STATE_IDLE
| PUMP_STATE_RUNNING
| PUMP_STATE_PRIMING
| PUMP_STATE_CALIBRATING
| PUMP_STATE_LOCKED_OUT
| PUMP_STATE_ERROR.

Definition pump_state_eqb (a b : pump_state_t) : bool :=
  match a, b with
  | PUMP_STATE_IDLE, PUMP_STATE_IDLE
  | PUMP_STATE_RUNNING, PUMP_STATE_RUNNING
  | PUMP_STATE_PRIMING, PUMP_STATE_PRIMING
  | PUMP_STATE_CALIBRATING, PUMP_STATE_CALIBRATING
  | PUMP_STATE_LOCKED_OUT, PUMP_STATE_LOCKED_OUT
  | PUMP_STATE_ERROR, PUMP_STATE_ERROR => true
  | _, _ => false
  end.

(** [pump_config_t] (config.h). *)
Record pump_config_t : Type := {
  cfg_enabled : bool;
  cfg_name : string;
  feed_mode : feed_mode_t;
  cfg_hoa_mode : hoa_mode_t;
  lockout_seconds : Z;
  percent_of_blowdown : Z;
  max_time_seconds : Z;
  percent_of_time : Z;
  cycle_time_seconds : Z;
  time_per_contact_ms : Z;
  contact_divider : Z;
  assigned_meter : Z;
  time_per_volume_ms : Z;
  volume_to_initiate : Z;
  time_limit_seconds : Z;
  steps_per_ml : Z;
  max_speed : Z;
  acceleration : Z;
  cfg_total_steps : Z;
  total_runtime_sec : Z
}.

Record pump_status_t : Type := {
  state : pump_state_t;
  enabled : bool;
  running : bool;
  hoa_mode : hoa_mode_t;
  start_time : Z;
  runtime_ms : Z;
  total_runtime_ms : Z;
  total_steps : Z;
  volume_dispensed_ml : Q;
  lockout_end_time : Z;
  accumulated_feed_time : Z;
  contact_count : Z;
  accumulated_volume : Q
}.

(** The part of the AccelStepper driver object the pump reads back: the
    current position and the target ([distanceToGo] is their difference).
    AccelStepper is a third-party library; [stop] is taken to cancel the
    remaining distance, and whether [run] makes a step on a given call is
    an input of the tick. *)
Record AccelStepper : Type := {
  currentPosition : Z;
  targetPos : Z;
  maxSpeed : Z;
  accel : Z
}.

(** The members of [ChemicalPump] (the GPIO pin numbers are left out). *)
Record ChemicalPump : Type := {
  _id : pump_id_t;
  _name : string;
  _stepper : AccelStepper;
  _config : option pump_config_t;
  _status : pump_status_t;
  _target_steps : Z;
  _target_time_ms : Z;
  _time_limited : bool;
  _steps_limited : bool;
  _mode_b_accumulated_blowdown : Z;
  _mode_a_was_blowing : bool;
  _mode_c_cycle_start : Z
}.

(** Field assignments. *)
Definition set_state (v : pump_state_t) (s : pump_status_t) : pump_status_t :=
  {| state := v;
     enabled := enabled s;
     running := running s;
     hoa_mode := hoa_mode s;
     start_time := start_time s;
     runtime_ms := runtime_ms s;
     total_runtime_ms := total_runtime_ms s;
     total_steps := total_steps s;
     volume_dispensed_ml := volume_dispensed_ml s;
     lockout_end_time := lockout_end_time s;
     accumulated_feed_time := accumulated_feed_time s;
     contact_count := contact_count s;
     accumulated_volume := accumulated_volume s |}.

Definition set_enabled (v : bool) (s : pump_status_t) : pump_status_t :=
  {| state := state s;
     enabled := v;
     running := running s;
     hoa_mode := hoa_mode s;
     start_time := start_time s;
     runtime_ms := runtime_ms s;
     total_runtime_ms := total_runtime_ms s;
     total_steps := total_steps s;
     volume_dispensed_ml := volume_dispensed_ml s;
     lockout_end_time := lockout_end_time s;
     accumulated_feed_time := accumulated_feed_time s;
     contact_count := contact_count s;
     accumulated_volume := accumulated_volume s |}.

Definition set_running (v : bool) (s : pump_status_t) : pump_status_t :=
  {| state := state s;
     enabled := enabled s;
     running := v;
     hoa_mode := hoa_mode s;
     start_time := start_time s;
     runtime_ms := runtime_ms s;
     total_runtime_ms := total_runtime_ms s;
     total_steps := total_steps s;
     volume_dispensed_ml := volume_dispensed_ml s;
     lockout_end_time := lockout_end_time s;
     accumulated_feed_time := accumulated_feed_time s;
     contact_count := contact_count s;
     accumulated_volume := accumulated_volume s |}.

Definition set_hoa_mode (v : hoa_mode_t) (s : pump_status_t) : pump_status_t :=
  {| state := state s;
     enabled := enabled s;
     running := running s;
     hoa_mode := v;
     start_time := start_time s;
     runtime_ms := runtime_ms s;
     total_runtime_ms := total_runtime_ms s;
     total_steps := total_steps s;
     volume_dispensed_ml := volume_dispensed_ml s;
     lockout_end_time := lockout_end_time s;
     accumulated_feed_time := accumulated_feed_time s;
     contact_count := contact_count s;
     accumulated_volume := accumulated_volume s |}.

Definition set_start_time (v : Z) (s : pump_status_t) : pump_status_t :=
  {| state := state s;
     enabled := enabled s;
     running := running s;
     hoa_mode := hoa_mode s;
     start_time := v;
     runtime_ms := runtime_ms s;
     total_runtime_ms := total_runtime_ms s;
     total_steps := total_steps s;
     volume_dispensed_ml := volume_dispensed_ml s;
     lockout_end_time := lockout_end_time s;
     accumulated_feed_time := accumulated_feed_time s;
     contact_count := contact_count s;
     accumulated_volume := accumulated_volume s |}.

Definition set_runtime_ms (v : Z) (s : pump_status_t) : pump_status_t :=
  {| state := state s;
     enabled := enabled s;
     running := running s;
     hoa_mode := hoa_mode s;
     start_time := start_time s;
     runtime_ms := v;
     total_runtime_ms := total_runtime_ms s;
     total_steps := total_steps s;
     volume_dispensed_ml := volume_dispensed_ml s;
     lockout_end_time := lockout_end_time s;
     accumulated_feed_time := accumulated_feed_time s;
     contact_count := contact_count s;
     accumulated_volume := accumulated_volume s |}.

Definition set_total_runtime_ms (v : Z) (s : pump_status_t) : pump_status_t :=
  {| state := state s;
     enabled := enabled s;
     running := running s;
     hoa_mode := hoa_mode s;
     start_time := start_time s;
     runtime_ms := runtime_ms s;
     total_runtime_ms := v;
     total_steps := total_steps s;
     volume_dispensed_ml := volume_dispensed_ml s;
     lockout_end_time := lockout_end_time s;
     accumulated_feed_time := accumulated_feed_time s;
     contact_count := contact_count s;
     accumulated_volume := accumulated_volume s |}.

Definition set_total_steps (v : Z) (s : pump_status_t) : pump_status_t :=
  {| state := state s;
     enabled := enabled s;
     running := running s;
     hoa_mode := hoa_mode s;
     start_time := start_time s;
     runtime_ms := runtime_ms s;
     total_runtime_ms := total_runtime_ms s;
     total_steps := v;
     volume_dispensed_ml := volume_dispensed_ml s;
     lockout_end_time := lockout_end_time s;
     accumulated_feed_time := accumulated_feed_time s;
     contact_count := contact_count s;
     accumulated_volume := accumulated_volume s |}.

Definition set_volume_dispensed_ml (v : Q) (s : pump_status_t) : pump_status_t :=
  {| state := state s;
     enabled := enabled s;
     running := running s;
     hoa_mode := hoa_mode s;
     start_time := start_time s;
     runtime_ms := runtime_ms s;
     total_runtime_ms := total_runtime_ms s;
     total_steps := total_steps s;
     volume_dispensed_ml := v;
     lockout_end_time := lockout_end_time s;
     accumulated_feed_time := accumulated_feed_time s;
     contact_count := contact_count s;
     accumulated_volume := accumulated_volume s |}.

Definition set_lockout_end_time (v : Z) (s : pump_status_t) : pump_status_t :=
  {| state := state s;
     enabled := enabled s;
     running := running s;
     hoa_mode := hoa_mode s;
     start_time := start_time s;
     runtime_ms := runtime_ms s;
     total_runtime_ms := total_runtime_ms s;
     total_steps := total_steps s;
     volume_dispensed_ml := volume_dispensed_ml s;
     lockout_end_time := v;
     accumulated_feed_time := accumulated_feed_time s;
     contact_count := contact_count s;
     accumulated_volume := accumulated_volume s |}.

Definition set_accumulated_feed_time (v : Z) (s : pump_status_t) : pump_status_t :=
  {| state := state s;
     enabled := enabled s;
     running := running s;
     hoa_mode := hoa_mode s;
     start_time := start_time s;
     runtime_ms := runtime_ms s;
     total_runtime_ms := total_runtime_ms s;
     total_steps := total_steps s;
     volume_dispensed_ml := volume_dispensed_ml s;
     lockout_end_time := lockout_end_time s;
     accumulated_feed_time := v;
     contact_count := contact_count s;
     accumulated_volume := accumulated_volume s |}.

Definition set_contact_count (v : Z) (s : pump_status_t) : pump_status_t :=
  {| state := state s;
     enabled := enabled s;
     running := running s;
     hoa_mode := hoa_mode s;
     start_time := start_time s;
     runtime_ms := runtime_ms s;
     total_runtime_ms := total_runtime_ms s;
     total_steps := total_steps s;
     volume_dispensed_ml := volume_dispensed_ml s;
     lockout_end_time := lockout_end_time s;
     accumulated_feed_time := accumulated_feed_time s;
     contact_count := v;
     accumulated_volume := accumulated_volume s |}.

Definition set_accumulated_volume (v : Q) (s : pump_status_t) : pump_status_t :=
  {| state := state s;
     enabled := enabled s;
     running := running s;
     hoa_mode := hoa_mode s;
     start_time := start_time s;
     runtime_ms := runtime_ms s;
     total_runtime_ms := total_runtime_ms s;
     total_steps := total_steps s;
     volume_dispensed_ml := volume_dispensed_ml s;
     lockout_end_time := lockout_end_time s;
     accumulated_feed_time := accumulated_feed_time s;
     contact_count := contact_count s;
     accumulated_volume := v |}.

Definition set_name (v : string) (p : ChemicalPump) : ChemicalPump :=
  {| _id := _id p;
     _name := v;
     _stepper := _stepper p;
     _config := _config p;
     _status := _status p;
     _target_steps := _target_steps p;
     _target_time_ms := _target_time_ms p;
     _time_limited := _time_limited p;
     _steps_limited := _steps_limited p;
     _mode_b_accumulated_blowdown := _mode_b_accumulated_blowdown p;
     _mode_a_was_blowing := _mode_a_was_blowing p;
     _mode_c_cycle_start := _mode_c_cycle_start p |}.

Definition set_stepper (v : AccelStepper) (p : ChemicalPump) : ChemicalPump :=
  {| _id := _id p;
     _name := _name p;
     _stepper := v;
     _config := _config p;
     _status := _status p;
     _target_steps := _target_steps p;
     _target_time_ms := _target_time_ms p;
     _time_limited := _time_limited p;
     _steps_limited := _steps_limited p;
     _mode_b_accumulated_blowdown := _mode_b_accumulated_blowdown p;
     _mode_a_was_blowing := _mode_a_was_blowing p;
     _mode_c_cycle_start := _mode_c_cycle_start p |}.

Definition set_config (v : option pump_config_t) (p : ChemicalPump) : ChemicalPump :=
  {| _id := _id p;
     _name := _name p;
     _stepper := _stepper p;
     _config := v;
     _status := _status p;
     _target_steps := _target_steps p;
     _target_time_ms := _target_time_ms p;
     _time_limited := _time_limited p;
     _steps_limited := _steps_limited p;
     _mode_b_accumulated_blowdown := _mode_b_accumulated_blowdown p;
     _mode_a_was_blowing := _mode_a_was_blowing p;
     _mode_c_cycle_start := _mode_c_cycle_start p |}.

Definition set_status (v : pump_status_t) (p : ChemicalPump) : ChemicalPump :=
  {| _id := _id p;
     _name := _name p;
     _stepper := _stepper p;
     _config := _config p;
     _status := v;
     _target_steps := _target_steps p;
     _target_time_ms := _target_time_ms p;
     _time_limited := _time_limited p;
     _steps_limited := _steps_limited p;
     _mode_b_accumulated_blowdown := _mode_b_accumulated_blowdown p;
     _mode_a_was_blowing := _mode_a_was_blowing p;
     _mode_c_cycle_start := _mode_c_cycle_start p |}.

Definition set_target_steps (v : Z) (p : ChemicalPump) : ChemicalPump :=
  {| _id := _id p;
     _name := _name p;
     _stepper := _stepper p;
     _config := _config p;
     _status := _status p;
     _target_steps := v;
     _target_time_ms := _target_time_ms p;
     _time_limited := _time_limited p;
     _steps_limited := _steps_limited p;
     _mode_b_accumulated_blowdown := _mode_b_accumulated_blowdown p;
     _mode_a_was_blowing := _mode_a_was_blowing p;
     _mode_c_cycle_start := _mode_c_cycle_start p |}.

Definition set_target_time_ms (v : Z) (p : ChemicalPump) : ChemicalPump :=
  {| _id := _id p;
     _name := _name p;
     _stepper := _stepper p;
     _config := _config p;
     _status := _status p;
     _target_steps := _target_steps p;
     _target_time_ms := v;
     _time_limited := _time_limited p;
     _steps_limited := _steps_limited p;
     _mode_b_accumulated_blowdown := _mode_b_accumulated_blowdown p;
     _mode_a_was_blowing := _mode_a_was_blowing p;
     _mode_c_cycle_start := _mode_c_cycle_start p |}.

Definition set_time_limited (v : bool) (p : ChemicalPump) : ChemicalPump :=
  {| _id := _id p;
     _name := _name p;
     _stepper := _stepper p;
     _config := _config p;
     _status := _status p;
     _target_steps := _target_steps p;
     _target_time_ms := _target_time_ms p;
     _time_limited := v;
     _steps_limited := _steps_limited p;
     _mode_b_accumulated_blowdown := _mode_b_accumulated_blowdown p;
     _mode_a_was_blowing := _mode_a_was_blowing p;
     _mode_c_cycle_start := _mode_c_cycle_start p |}.

Definition set_steps_limited (v : bool) (p : ChemicalPump) : ChemicalPump :=
  {| _id := _id p;
     _name := _name p;
     _stepper := _stepper p;
     _config := _config p;
     _status := _status p;
     _target_steps := _target_steps p;
     _target_time_ms := _target_time_ms p;
     _time_limited := _time_limited p;
     _steps_limited := v;
     _mode_b_accumulated_blowdown := _mode_b_accumulated_blowdown p;
     _mode_a_was_blowing := _mode_a_was_blowing p;
     _mode_c_cycle_start := _mode_c_cycle_start p |}.

Definition set_mode_b_accumulated_blowdown (v : Z) (p : ChemicalPump) : ChemicalPump :=
  {| _id := _id p;
     _name := _name p;
     _stepper := _stepper p;
     _config := _config p;
     _status := _status p;
     _target_steps := _target_steps p;
     _target_time_ms := _target_time_ms p;
     _time_limited := _time_limited p;
     _steps_limited := _steps_limited p;
     _mode_b_accumulated_blowdown := v;
     _mode_a_was_blowing := _mode_a_was_blowing p;
     _mode_c_cycle_start := _mode_c_cycle_start p |}.

Definition set_mode_a_was_blowing (v : bool) (p : ChemicalPump) : ChemicalPump :=
  {| _id := _id p;
     _name := _name p;
     _stepper := _stepper p;
     _config := _config p;
     _status := _status p;
     _target_steps := _target_steps p;
     _target_time_ms := _target_time_ms p;
     _time_limited := _time_limited p;
     _steps_limited := _steps_limited p;
     _mode_b_accumulated_blowdown := _mode_b_accumulated_blowdown p;
     _mode_a_was_blowing := v;
     _mode_c_cycle_start := _mode_c_cycle_start p |}.

Definition set_mode_c_cycle_start (v : Z) (p : ChemicalPump) : ChemicalPump :=
  {| _id := _id p;
     _name := _name p;
     _stepper := _stepper p;
     _config := _config p;
     _status := _status p;
     _target_steps := _target_steps p;
     _target_time_ms := _target_time_ms p;
     _time_limited := _time_limited p;
     _steps_limited := _steps_limited p;
     _mode_b_accumulated_blowdown := _mode_b_accumulated_blowdown p;
     _mode_a_was_blowing := _mode_a_was_blowing p;
     _mode_c_cycle_start := v |}.

Definition cfg_set_enabled (v : bool) (cfg : pump_config_t) : pump_config_t :=
  {| cfg_enabled := v;
     cfg_name := cfg_name cfg;
     feed_mode := feed_mode cfg;
     cfg_hoa_mode := cfg_hoa_mode cfg;
     lockout_seconds := lockout_seconds cfg;
     percent_of_blowdown := percent_of_blowdown cfg;
     max_time_seconds := max_time_seconds cfg;
     percent_of_time := percent_of_time cfg;
     cycle_time_seconds := cycle_time_seconds cfg;
     time_per_contact_ms := time_per_contact_ms cfg;
     contact_divider := contact_divider cfg;
     assigned_meter := assigned_meter cfg;
     time_per_volume_ms := time_per_volume_ms cfg;
     volume_to_initiate := volume_to_initiate cfg;
     time_limit_seconds := time_limit_seconds cfg;
     steps_per_ml := steps_per_ml cfg;
     max_speed := max_speed cfg;
     acceleration := acceleration cfg;
     cfg_total_steps := cfg_total_steps cfg;
     total_runtime_sec := total_runtime_sec cfg |}.

Definition cfg_set_hoa_mode (v : hoa_mode_t) (cfg : pump_config_t) : pump_config_t :=
  {| cfg_enabled := cfg_enabled cfg;
     cfg_name := cfg_name cfg;
     feed_mode := feed_mode cfg;
     cfg_hoa_mode := v;
     lockout_seconds := lockout_seconds cfg;
     percent_of_blowdown := percent_of_blowdown cfg;
     max_time_seconds := max_time_seconds cfg;
     percent_of_time := percent_of_time cfg;
     cycle_time_seconds := cycle_time_seconds cfg;
     time_per_contact_ms := time_per_contact_ms cfg;
     contact_divider := contact_divider cfg;
     assigned_meter := assigned_meter cfg;
     time_per_volume_ms := time_per_volume_ms cfg;
     volume_to_initiate := volume_to_initiate cfg;
     time_limit_seconds := time_limit_seconds cfg;
     steps_per_ml := steps_per_ml cfg;
     max_speed := max_speed cfg;
     acceleration := acceleration cfg;
     cfg_total_steps := cfg_total_steps cfg;
     total_runtime_sec := total_runtime_sec cfg |}.

Definition cfg_set_steps_per_ml (v : Z) (cfg : pump_config_t) : pump_config_t :=
  {| cfg_enabled := cfg_enabled cfg;
     cfg_name := cfg_name cfg;
     feed_mode := feed_mode cfg;
     cfg_hoa_mode := cfg_hoa_mode cfg;
     lockout_seconds := lockout_seconds cfg;
     percent_of_blowdown := percent_of_blowdown cfg;
     max_time_seconds := max_time_seconds cfg;
     percent_of_time := percent_of_time cfg;
     cycle_time_seconds := cycle_time_seconds cfg;
     time_per_contact_ms := time_per_contact_ms cfg;
     contact_divider := contact_divider cfg;
     assigned_meter := assigned_meter cfg;
     time_per_volume_ms := time_per_volume_ms cfg;
     volume_to_initiate := volume_to_initiate cfg;
     time_limit_seconds := time_limit_seconds cfg;
     steps_per_ml := v;
     max_speed := max_speed cfg;
     acceleration := acceleration cfg;
     cfg_total_steps := cfg_total_steps cfg;
     total_runtime_sec := total_runtime_sec cfg |}.

Definition upd_status (f : pump_status_t -> pump_status_t) (p : ChemicalPump)
  : ChemicalPump :=
  set_status (f (_status p)) p.

(** AccelStepper: [move], [stop], [run], [setCurrentPosition]. *)
Definition stepper_move (relative : Z) (st : AccelStepper) : AccelStepper :=
  {| currentPosition := currentPosition st;
     targetPos := currentPosition st + relative;
     maxSpeed := maxSpeed st;
     accel := accel st |}.

Definition stepper_stop (st : AccelStepper) : AccelStepper :=
  {| currentPosition := currentPosition st;
     targetPos := currentPosition st;
     maxSpeed := maxSpeed st;
     accel := accel st |}.

Definition distanceToGo (st : AccelStepper) : Z :=
  targetPos st - currentPosition st.

Definition stepper_run (stepped : bool) (st : AccelStepper) : AccelStepper :=
  if stepped && negb (distanceToGo st =? 0) then
    {| currentPosition := currentPosition st + Z.sgn (distanceToGo st);
       targetPos := targetPos st;
       maxSpeed := maxSpeed st;
       accel := accel st |}
  else st.

Definition stepper_setCurrentPosition (pos : Z) (st : AccelStepper)
  : AccelStepper :=
  {| currentPosition := pos;
     targetPos := pos;
     maxSpeed := maxSpeed st;
     accel := accel st |}.

Definition stepper_configure (speed acc : Z) (st : AccelStepper)
  : AccelStepper :=
  {| currentPosition := currentPosition st;
     targetPos := targetPos st;
     maxSpeed := speed;
     accel := acc |}.

Definition PUMP_DEFAULT_MAX_SPEED : Z := 1000.
Definition PUMP_DEFAULT_ACCELERATION : Z := 500.

(** The state of a pump after its constructor and [begin]. *)
Definition init_status : pump_status_t :=
  {| state := PUMP_STATE_IDLE;
     enabled := false;
     running := false;
     hoa_mode := HOA_AUTO;
     start_time := 0;
     runtime_ms := 0;
     total_runtime_ms := 0;
     total_steps := 0;
     volume_dispensed_ml := 0%Q;
     lockout_end_time := 0;
     accumulated_feed_time := 0;
     contact_count := 0;
     accumulated_volume := 0%Q |}.

Definition init_pump (id : pump_id_t) : ChemicalPump :=
  {| _id := id;
     _name := match id with
              | PUMP_H2SO3 => "H2SO3"%string
              | PUMP_NAOH => "NaOH"%string
              | PUMP_AMINE => "Amine"%string
              end;
     _stepper := {| currentPosition := 0; targetPos := 0;
                    maxSpeed := PUMP_DEFAULT_MAX_SPEED;
                    accel := PUMP_DEFAULT_ACCELERATION |};
     _config := None;
     _status := init_status;
     _target_steps := 0;
     _target_time_ms := 0;
     _time_limited := false;
     _steps_limited := false;
     _mode_b_accumulated_blowdown := 0;
     _mode_a_was_blowing := false;
     _mode_c_cycle_start := 0 |}.

(** [ChemicalPump::configure] *)
Definition configure (config : option pump_config_t) (p : ChemicalPump)
  : ChemicalPump :=
  let p := set_config config p in
  match config with
  | Some cfg =>
      let p := set_stepper
                 (stepper_configure (max_speed cfg) (acceleration cfg)
                    (_stepper p)) p in
      let p := upd_status (set_enabled (cfg_enabled cfg)) p in
      let p := upd_status (set_hoa_mode (cfg_hoa_mode cfg)) p in
      set_name (cfg_name cfg) p
  | None => p
  end.

(** [ChemicalPump::start].  [volume_ml] is a [float] and [steps_per_ml]
    a [uint32_t], converted to [float] for the product; the cast of the
    product to [uint32_t] truncates. *)
Definition start (now : Z) (duration_ms : Z) (volume_ml : Q) (p : ChemicalPump)
  : ChemicalPump :=
  if negb (enabled (_status p)) then p
  else if pump_state_eqb (state (_status p)) PUMP_STATE_LOCKED_OUT
          && (now <? lockout_end_time (_status p))
  then p
  else
    let p :=
      if pump_state_eqb (state (_status p)) PUMP_STATE_LOCKED_OUT
      then upd_status (set_state PUMP_STATE_IDLE) p else p in
    let p := upd_status (set_state PUMP_STATE_RUNNING) p in
    let p := upd_status (set_running true) p in
    let p := upd_status (set_start_time now) p in
    let p := upd_status (set_runtime_ms 0) p in
    let volume_target :=
      match _config p with
      | Some cfg => Qgtb volume_ml 0 && (0 <? steps_per_ml cfg)
      | None => false
      end in
    let p :=
      if volume_target then
        let spm := match _config p with
                   | Some cfg => steps_per_ml cfg
                   | None => 0
                   end in
        let p := set_target_steps
                   (float_to_uint32
                      (round32 (volume_ml * round32 (inject_Z spm)))) p in
        let p := set_steps_limited true p in
        set_stepper (stepper_move (_target_steps p) (_stepper p)) p
      else
        let p := set_steps_limited false p in
        set_stepper (stepper_move 1000000000 (_stepper p)) p in
    if 0 <? duration_ms then
      let p := set_target_time_ms duration_ms p in
      set_time_limited true p
    else set_time_limited false p.

(** [ChemicalPump::stop] *)
Definition stop (p : ChemicalPump) : ChemicalPump :=
  let p := set_stepper (stepper_stop (_stepper p)) p in
  let p := upd_status (set_running false) p in
  if pump_state_eqb (state (_status p)) PUMP_STATE_RUNNING
  then upd_status (set_state PUMP_STATE_IDLE) p
  else p.

(** [ChemicalPump::setEnabled] *)
Definition setEnabled (enable : bool) (p : ChemicalPump) : ChemicalPump :=
  let p := upd_status (set_enabled enable) p in
  let p :=
    match _config p with
    | Some cfg => set_config (Some (cfg_set_enabled enable cfg)) p
    | None => p
    end in
  if negb enable && running (_status p) then stop p else p.

(** [ChemicalPump::setHOA] *)
Definition setHOA (mode : hoa_mode_t) (p : ChemicalPump) : ChemicalPump :=
  let p := upd_status (set_hoa_mode mode) p in
  match _config p with
  | Some cfg => set_config (Some (cfg_set_hoa_mode mode cfg)) p
  | None => p
  end.

(** [ChemicalPump::prime] *)
Definition prime (now : Z) (duration_ms : Z) (p : ChemicalPump) : ChemicalPump :=
  if negb (enabled (_status p)) then p
  else start now duration_ms 0 (upd_status (set_state PUMP_STATE_PRIMING) p).

(** [ChemicalPump::startCalibration] *)
Definition startCalibration (now : Z) (steps : Z) (p : ChemicalPump)
  : ChemicalPump :=
  if negb (enabled (_status p)) then p
  else
    let p := upd_status (set_state PUMP_STATE_CALIBRATING) p in
    let p := set_stepper (stepper_move steps (_stepper p)) p in
    let p := upd_status (set_running true) p in
    let p := upd_status (set_start_time now) p in
    let p := set_target_steps steps p in
    let p := set_steps_limited true p in
    set_time_limited false p.

(** [ChemicalPump::setCalibration] *)
Definition setCalibration (steps_per_ml : Z) (p : ChemicalPump) : ChemicalPump :=
  match _config p with
  | Some cfg => set_config (Some (cfg_set_steps_per_ml steps_per_ml cfg)) p
  | None => p
  end.

Definition isRunning (p : ChemicalPump) : bool := running (_status p).

Definition hasError (p : ChemicalPump) : bool :=
  pump_state_eqb (state (_status p)) PUMP_STATE_ERROR.

(** [ChemicalPump::clearError] *)
Definition clearError (p : ChemicalPump) : ChemicalPump :=
  if pump_state_eqb (state (_status p)) PUMP_STATE_ERROR
  then upd_status (set_state PUMP_STATE_IDLE) p else p.

(** [ChemicalPump::processHOA].  [hand_start_time] is a function-static
    variable: one object for every [ChemicalPump].  It is passed in and
    returned next to the pump. *)
Definition processHOA (now : Z) (hand_start_time : Z) (p : ChemicalPump)
  : Z * ChemicalPump :=
  match hoa_mode (_status p) with
  | HOA_HAND =>
      if negb (running (_status p)) then
        (now, start now (HOA_HAND_TIMEOUT_SEC * 1000) 0 p)
      else if HOA_HAND_TIMEOUT_SEC * 1000 <=? sub32 now hand_start_time then
        (hand_start_time, upd_status (set_hoa_mode HOA_AUTO) (stop p))
      else (hand_start_time, p)
  | HOA_OFF =>
      (hand_start_time, if running (_status p) then stop p else p)
  | HOA_AUTO => (hand_start_time, p)
  end.

(** [ChemicalPump::checkTimeout] *)
Definition checkTimeout (p : ChemicalPump) : ChemicalPump :=
  match _config p with
  | None => p
  | Some cfg =>
      if negb (running (_status p)) then p
      else if 0 <? time_limit_seconds cfg then
        if time_limit_seconds cfg * 1000 <=? runtime_ms (_status p) then
          upd_status (set_state PUMP_STATE_LOCKED_OUT) (stop p)
        else p
      else p
  end.

(** [ChemicalPump::updateStats].  The volume estimate is the quotient of
    two [uint32_t] counts converted to [float]. *)
Definition updateStats (now : Z) (p : ChemicalPump) : ChemicalPump :=
  if running (_status p) then
    let delta := sub32 now (start_time (_status p)) in
    let p := upd_status (set_runtime_ms delta) p in
    let p := upd_status (fun s => set_total_runtime_ms
                                    (add32 (total_runtime_ms s) delta) s) p in
    let steps := currentPosition (_stepper p) in
    let p := upd_status (fun s => set_total_steps
                                    (add32 (total_steps s) (Z.abs steps)) s) p in
    let p := set_stepper (stepper_setCurrentPosition 0 (_stepper p)) p in
    match _config p with
    | Some cfg =>
        if 0 <? steps_per_ml cfg then
          upd_status (fun s => set_volume_dispensed_ml
                                 (round32
                                    (round32 (inject_Z (total_steps s))
                                     / round32 (inject_Z (steps_per_ml cfg))))
                                 s) p
        else p
    | None => p
    end
  else p.

(** [ChemicalPump::update] *)
Definition update (now : Z) (stepped : bool) (hand_start_time : Z)
  (p : ChemicalPump) : Z * ChemicalPump :=
  let '(hand_start_time, p) := processHOA now hand_start_time p in
  let p := checkTimeout p in
  let p :=
    if running (_status p) then
      let p := set_stepper (stepper_run stepped (_stepper p)) p in
      let p :=
        if _steps_limited p && (distanceToGo (_stepper p) =? 0)
        then stop p else p in
      let p :=
        if _time_limited p then
          let elapsed := sub32 now (start_time (_status p)) in
          if _target_time_ms p <=? elapsed then stop p else p
        else p in
      updateStats now p
    else p in
  (hand_start_time, p).

(** [ChemicalPump::processModeA] *)
Definition processModeA (now : Z) (cfg : pump_config_t) (blowdown_active : bool)
  (p : ChemicalPump) : ChemicalPump :=
  if blowdown_active then
    let p :=
      if negb (running (_status p)) then
        if 0 <? lockout_seconds cfg
        then start now (lockout_seconds cfg * 1000) 0 p
        else start now 0 0 p
      else p in
    set_mode_a_was_blowing true p
  else
    let p :=
      if _mode_a_was_blowing p && running (_status p) then stop p else p in
    set_mode_a_was_blowing false p.

(** [ChemicalPump::processModeB].  The product is computed on
    [uint32_t]. *)
Definition processModeB (now : Z) (cfg : pump_config_t) (blowdown_active : bool)
  (blowdown_time_ms : Z) (p : ChemicalPump) : ChemicalPump :=
  if blowdown_active then
    let p := set_mode_b_accumulated_blowdown blowdown_time_ms p in
    if running (_status p) then stop p else p
  else
    if (0 <? _mode_b_accumulated_blowdown p) && negb (running (_status p)) then
      let feed_time :=
        mul32 (_mode_b_accumulated_blowdown p) (percent_of_blowdown cfg) / 100 in
      let feed_time :=
        if 0 <? max_time_seconds cfg then
          let max_ms := max_time_seconds cfg * 1000 in
          if max_ms <? feed_time then max_ms else feed_time
        else feed_time in
      let p := if 0 <? feed_time then start now feed_time 0 p else p in
      set_mode_b_accumulated_blowdown 0 p
    else p.

(** [ChemicalPump::processModeC] *)
Definition processModeC (now : Z) (cfg : pump_config_t) (p : ChemicalPump)
  : ChemicalPump :=
  let p :=
    if _mode_c_cycle_start p =? 0 then set_mode_c_cycle_start now p else p in
  let cycle_time_ms := cycle_time_seconds cfg * 1000 in
  let on_time_ms := mul32 cycle_time_ms (percent_of_time cfg) / 1000 in
  let elapsed := sub32 now (_mode_c_cycle_start p) in
  if elapsed <? on_time_ms then
    if negb (running (_status p))
    then start now (sub32 on_time_ms elapsed) 0 p else p
  else if cycle_time_ms <=? elapsed then set_mode_c_cycle_start now p
  else if running (_status p) then stop p else p.

(** The tail shared by modes D and E: cap the accumulated feed time at
    the time limit. *)
Definition capFeedTime (cfg : pump_config_t) (p : ChemicalPump) : ChemicalPump :=
  if 0 <? time_limit_seconds cfg then
    let limit_ms := time_limit_seconds cfg * 1000 in
    if limit_ms <? accumulated_feed_time (_status p)
    then upd_status (set_accumulated_feed_time limit_ms) p else p
  else p.

(** The tail shared by modes D and E: run the accumulated feed time. *)
Definition runAccumulated (now : Z) (p : ChemicalPump) : ChemicalPump :=
  if (0 <? accumulated_feed_time (_status p)) && negb (running (_status p))
  then
    let run_time := accumulated_feed_time (_status p) in
    let p := upd_status (set_accumulated_feed_time 0) p in
    start now run_time 0 p
  else p.

(** [ChemicalPump::processModeD] *)
Definition processModeD (now : Z) (cfg : pump_config_t) (water_contacts : Z)
  (p : ChemicalPump) : ChemicalPump :=
  let p := upd_status (fun s => set_contact_count
                                  (add32 (contact_count s) water_contacts) s) p in
  let p :=
    if contact_divider cfg <=? contact_count (_status p) then
      let p := upd_status (fun s => set_accumulated_feed_time
                                      (add32 (accumulated_feed_time s)
                                         (time_per_contact_ms cfg)) s) p in
      let p := capFeedTime cfg p in
      upd_status (fun s => set_contact_count
                             (sub32 (contact_count s) (contact_divider cfg)) s) p
    else p in
  runAccumulated now p.

(** [ChemicalPump::processModeE].  [accumulated_volume] is a [float]:
    the sum and the difference are rounded; [volume_to_initiate] is a
    [uint16_t]. *)
Definition processModeE (now : Z) (cfg : pump_config_t) (water_volume : Q)
  (p : ChemicalPump) : ChemicalPump :=
  let p := upd_status (fun s => set_accumulated_volume
                                  (round32
                                     (accumulated_volume s + water_volume))
                                  s) p in
  let p :=
    if Qle_bool (inject_Z (volume_to_initiate cfg))
         (accumulated_volume (_status p)) then
      let p := upd_status (fun s => set_accumulated_feed_time
                                      (add32 (accumulated_feed_time s)
                                         (time_per_volume_ms cfg)) s) p in
      let p := capFeedTime cfg p in
      upd_status (fun s => set_accumulated_volume
                             (round32
                                (accumulated_volume s
                                 - inject_Z (volume_to_initiate cfg)))
                             s) p
    else p in
  runAccumulated now p.

(** [ChemicalPump::processFeedMode] *)
Definition processFeedMode (now : Z) (blowdown_active : bool)
  (blowdown_time_ms : Z) (water_contacts : Z) (water_volume : Q)
  (p : ChemicalPump) : ChemicalPump :=
  match _config p with
  | None => p
  | Some cfg =>
      if negb (enabled (_status p)) then p
      else
        match hoa_mode (_status p) with
        | HOA_AUTO =>
            match feed_mode cfg with
            | FEED_MODE_A_BLOWDOWN_FEED => processModeA now cfg blowdown_active p
            | FEED_MODE_B_PERCENT_BLOWDOWN =>
                processModeB now cfg blowdown_active blowdown_time_ms p
            | FEED_MODE_C_PERCENT_TIME => processModeC now cfg p
            | FEED_MODE_D_WATER_CONTACT => processModeD now cfg water_contacts p
            | FEED_MODE_E_PADDLEWHEEL => processModeE now cfg water_volume p
            | _ => p
            end
        | _ => p
        end
  end.

(** [PumpManager]: the three pumps in index order, and the function-static
    [hand_start_time] of [ChemicalPump::processHOA] that they share. *)
Record PumpManager : Type := {
  _pumps : list ChemicalPump;
  _initialized : bool;
  _emergency_stop : bool;
  hand_start_time : Z
}.

Definition init_manager : PumpManager :=
  {| _pumps := [init_pump PUMP_H2SO3; init_pump PUMP_NAOH; init_pump PUMP_AMINE];
     _initialized := true;
     _emergency_stop := false;
     hand_start_time := 0 |}.

Definition set_pumps (ps : list ChemicalPump) (m : PumpManager) : PumpManager :=
  {| _pumps := ps;
     _initialized := _initialized m;
     _emergency_stop := _emergency_stop m;
     hand_start_time := hand_start_time m |}.

(** The loop of [PumpManager::update]: each pump in turn, the static
    timestamp carried from one pump to the next. *)
Fixpoint update_pumps (now : Z) (stepped : pump_id_t -> bool) (hst : Z)
  (ps : list ChemicalPump) : Z * list ChemicalPump :=
  match ps with
  | [] => (hst, [])
  | p :: rest =>
      let '(hst, p) := update now (stepped (_id p)) hst p in
      let '(hst, rest) := update_pumps now stepped hst rest in
      (hst, p :: rest)
  end.

(** [PumpManager::update] *)
Definition manager_update (now : Z) (stepped : pump_id_t -> bool)
  (m : PumpManager) : PumpManager :=
  if _emergency_stop m then m
  else
    let '(hst, ps) := update_pumps now stepped (hand_start_time m) (_pumps m) in
    {| _pumps := ps;
       _initialized := _initialized m;
       _emergency_stop := _emergency_stop m;
       hand_start_time := hst |}.

(** [PumpManager::processFeedModes] *)
Definition processFeedModes (now : Z) (blowdown_active : bool)
  (blowdown_time_ms : Z) (water_contacts : Z) (water_volume : Q)
  (m : PumpManager) : PumpManager :=
  if _emergency_stop m then m
  else
    set_pumps
      (map (processFeedMode now blowdown_active blowdown_time_ms
              water_contacts water_volume) (_pumps m)) m.

(** [PumpManager::getPump] *)
Definition getPump (id : pump_id_t) (m : PumpManager) : option ChemicalPump :=
  nth_error (_pumps m)
    match id with PUMP_H2SO3 => 0%nat | PUMP_NAOH => 1%nat | PUMP_AMINE => 2%nat end.

(** [pumpManager.getPump(id)->setHOA(mode)] *)
Definition manager_setHOA (id : pump_id_t) (mode : hoa_mode_t) (m : PumpManager)
  : PumpManager :=
  set_pumps
    (map (fun p => if match _id p, id with
                      | PUMP_H2SO3, PUMP_H2SO3
                      | PUMP_NAOH, PUMP_NAOH
                      | PUMP_AMINE, PUMP_AMINE => true
                      | _, _ => false
                      end then setHOA mode p else p) (_pumps m)) m.

(** [PumpManager::setAllEnabled] *)
Definition setAllEnabled (enable : bool) (m : PumpManager) : PumpManager :=
  set_pumps (map (setEnabled enable) (_pumps m)) m.

(** ** Example configurations *)

(** A pump in PercentOfBlowdown mode with the given percentage and cap,
    enabled and in Auto, with a 600 s time limit. *)
Definition mode_b_config (percent max_seconds : Z) : pump_config_t :=
  {| cfg_enabled := true;
     cfg_name := "NaOH"%string;
     feed_mode := FEED_MODE_B_PERCENT_BLOWDOWN;
     cfg_hoa_mode := HOA_AUTO;
     lockout_seconds := 0;
     percent_of_blowdown := percent;
     max_time_seconds := max_seconds;
     percent_of_time := 0;
     cycle_time_seconds := 600;
     time_per_contact_ms := 0;
     contact_divider := 1;
     assigned_meter := 0;
     time_per_volume_ms := 0;
     volume_to_initiate := 1;
     time_limit_seconds := 600;
     steps_per_ml := 200;
     max_speed := PUMP_DEFAULT_MAX_SPEED;
     acceleration := PUMP_DEFAULT_ACCELERATION;
     cfg_total_steps := 0;
     total_runtime_sec := 0 |}.

Definition mode_b_pump (percent max_seconds : Z) : ChemicalPump :=
  configure (Some (mode_b_config percent max_seconds)) (init_pump PUMP_NAOH).

(** A manager whose three pumps are enabled, with feed disabled so that
    only the operator mode drives them. *)
Definition manual_config : pump_config_t :=
  {| cfg_enabled := true;
     cfg_name := "pump"%string;
     feed_mode := FEED_MODE_DISABLED;
     cfg_hoa_mode := HOA_AUTO;
     lockout_seconds := 0;
     percent_of_blowdown := 0;
     max_time_seconds := 0;
     percent_of_time := 0;
     cycle_time_seconds := 600;
     time_per_contact_ms := 0;
     contact_divider := 1;
     assigned_meter := 0;
     time_per_volume_ms := 0;
     volume_to_initiate := 1;
     time_limit_seconds := 0;
     steps_per_ml := 200;
     max_speed := PUMP_DEFAULT_MAX_SPEED;
     acceleration := PUMP_DEFAULT_ACCELERATION;
     cfg_total_steps := 0;
     total_runtime_sec := 0 |}.

Definition manual_manager : PumpManager :=
  set_pumps (map (configure (Some manual_config)) (_pumps init_manager))
    init_manager.

(** The stepper makes a step on every call. *)
Definition always_steps (_ : pump_id_t) : bool := true.

(** ** Predicates used in the statements *)

(** [start] is not refused by the lockout check. *)
Definition lockout_expired (now : Z) (p : ChemicalPump) : Prop :=
  state (_status p) <> PUMP_STATE_LOCKED_OUT
  \/ lockout_end_time (_status p) <= now.

(** The run duration mode B gives [start] for an accumulated blowdown
    time [a] (integer division), when the product does not wrap. *)
Definition mode_b_feed_time (cfg : pump_config_t) (a : Z) : Z :=
  let feed_time := a * percent_of_blowdown cfg / 100 in
  if 0 <? max_time_seconds cfg
  then Z.min feed_time (max_time_seconds cfg * 1000)
  else feed_time.

(** ** Statistics and the manager's stop operations *)

(** [ChemicalPump::resetStats] *)
Definition resetStats (p : ChemicalPump) : ChemicalPump :=
  let p := upd_status (set_total_runtime_ms 0) p in
  let p := upd_status (set_total_steps 0) p in
  upd_status (set_volume_dispensed_ml 0%Q) p.

(** [ChemicalPump::getTotalRuntimeSec] *)
Definition getTotalRuntimeSec (p : ChemicalPump) : Z :=
  total_runtime_ms (_status p) / 1000.

(** [PumpManager::stopAll] *)
Definition stopAll (m : PumpManager) : PumpManager :=
  set_pumps (map stop (_pumps m)) m.

(** [PumpManager::emergencyStop] *)
Definition emergencyStop (m : PumpManager) : PumpManager :=
  stopAll
    {| _pumps := _pumps m;
       _initialized := _initialized m;
       _emergency_stop := true;
       hand_start_time := hand_start_time m |}.

(** [PumpManager::anyPumpRunning], [PumpManager::anyPumpError] *)
Definition anyPumpRunning (m : PumpManager) : bool :=
  existsb isRunning (_pumps m).

Definition anyPumpError (m : PumpManager) : bool :=
  existsb hasError (_pumps m).

(** ** Sequences of calls *)

(** The public operations of one pump that change it, as a caller issues
    them; [configure] is left out.  The clock value read by an operation
    is part of the call. *)
Inductive pump_call : Type :=
| call_update (now : Z) (stepped : bool)
| call_start (now duration_ms : Z) (volume_ml : Q)
| call_stop
| call_setEnabled (enable : bool)
| call_setHOA (mode : hoa_mode_t)
| call_processFeedMode (now : Z) (blowdown_active : bool)
    (blowdown_time_ms water_contacts : Z) (water_volume : Q)
| call_prime (now duration_ms : Z)
| call_startCalibration (now steps : Z)
| call_setCalibration (steps_per_ml : Z)
| call_clearError
| call_resetStats.

(** One call on a pump; the first component is the function-static
    timestamp of [processHOA]. *)
Definition do_call (s : Z * ChemicalPump) (c : pump_call) : Z * ChemicalPump :=
  let '(hst, p) := s in
  match c with
  | call_update now stepped => update now stepped hst p
  | call_start now d v => (hst, start now d v p)
  | call_stop => (hst, stop p)
  | call_setEnabled e => (hst, setEnabled e p)
  | call_setHOA mode => (hst, setHOA mode p)
  | call_processFeedMode now ba bt wc wv =>
      (hst, processFeedMode now ba bt wc wv p)
  | call_prime now d => (hst, prime now d p)
  | call_startCalibration now steps => (hst, startCalibration now steps p)
  | call_setCalibration spm => (hst, setCalibration spm p)
  | call_clearError => (hst, clearError p)
  | call_resetStats => (hst, resetStats p)
  end.

Definition do_calls (calls : list pump_call) (s : Z * ChemicalPump)
  : Z * ChemicalPump :=
  fold_left do_call calls s.

(** A call that can enable the pump. *)
Definition enables (c : pump_call) : bool :=
  match c with
  | call_setEnabled true => true
  | _ => false
  end.

(** The calls of the control loop: [update] and [processFeedMode]. *)
Definition is_loop_call (c : pump_call) : bool :=
  match c with
  | call_update _ _ | call_processFeedMode _ _ _ _ _ => true
  | _ => false
  end.

(** The operations of [PumpManager] that change it, with [setHOA] on one
    pump through the manager. *)
Inductive manager_call : Type :=
| mcall_update (now : Z) (stepped : pump_id_t -> bool)
| mcall_processFeedModes (now : Z) (blowdown_active : bool)
    (blowdown_time_ms water_contacts : Z) (water_volume : Q)
| mcall_setAllEnabled (enable : bool)
| mcall_stopAll
| mcall_emergencyStop
| mcall_setHOA (id : pump_id_t) (mode : hoa_mode_t).

Definition manager_do (m : PumpManager) (c : manager_call) : PumpManager :=
  match c with
  | mcall_update now stepped => manager_update now stepped m
  | mcall_processFeedModes now ba bt wc wv =>
      processFeedModes now ba bt wc wv m
  | mcall_setAllEnabled e => setAllEnabled e m
  | mcall_stopAll => stopAll m
  | mcall_emergencyStop => emergencyStop m
  | mcall_setHOA id mode => manager_setHOA id mode m
  end.

Definition manager_calls (calls : list manager_call) (m : PumpManager)
  : PumpManager :=
  fold_left manager_do calls m.

(** ** More example configurations *)

(** A pump fed by water-meter contacts: 500 ms per [divider] contacts,
    with a 2 s time limit. *)
Definition mode_d_config (divider : Z) : pump_config_t :=
  {| cfg_enabled := true;
     cfg_name := "Amine"%string;
     feed_mode := FEED_MODE_D_WATER_CONTACT;
     cfg_hoa_mode := HOA_AUTO;
     lockout_seconds := 0;
     percent_of_blowdown := 0;
     max_time_seconds := 0;
     percent_of_time := 0;
     cycle_time_seconds := 600;
     time_per_contact_ms := 500;
     contact_divider := divider;
     assigned_meter := 0;
     time_per_volume_ms := 0;
     volume_to_initiate := 1;
     time_limit_seconds := 2;
     steps_per_ml := 200;
     max_speed := PUMP_DEFAULT_MAX_SPEED;
     acceleration := PUMP_DEFAULT_ACCELERATION;
     cfg_total_steps := 0;
     total_runtime_sec := 0 |}.

Definition mode_d_pump (divider : Z) : ChemicalPump :=
  configure (Some (mode_d_config divider)) (init_pump PUMP_AMINE).

(** The manual pump of [manual_manager] on its own. *)
Definition manual_pump : ChemicalPump :=
  configure (Some manual_config) (init_pump PUMP_NAOH).

(** Attempts to run a pump: Hand mode, a start, a prime and water
    contacts in Auto. *)
Definition restart_attempts : list pump_call :=
  [ call_setHOA HOA_HAND; call_update 2000 true;
    call_setHOA HOA_AUTO; call_start 3000 1000 0;
    call_prime 4000 1000;
    call_processFeedMode 5000 false 0 3 0;
    call_update 6000 true ].

(** ** More predicates *)

(** [checkTimeout] will not fire on the runtime recorded so far. *)
Definition time_limit_not_due (p : ChemicalPump) : Prop :=
  match _config p with
  | Some cfg =>
      time_limit_seconds cfg <= 0
      \/ runtime_ms (_status p) < time_limit_seconds cfg * 1000
  | None => True
  end.

(** The feed accumulators of the five modes. *)
Definition same_accumulators (p1 p2 : ChemicalPump) : Prop :=
  contact_count (_status p2) = contact_count (_status p1)
  /\ accumulated_volume (_status p2) = accumulated_volume (_status p1)
  /\ accumulated_feed_time (_status p2) = accumulated_feed_time (_status p1)
  /\ _mode_b_accumulated_blowdown p2 = _mode_b_accumulated_blowdown p1
  /\ _mode_a_was_blowing p2 = _mode_a_was_blowing p1
  /\ _mode_c_cycle_start p2 = _mode_c_cycle_start p1.

(** The states some statement of the pump code assigns and leaves in
    place: every state but Priming and Error. *)
Definition entered_state (s : pump_state_t) : bool :=
  match s with
  | PUMP_STATE_PRIMING | PUMP_STATE_ERROR => false
  | _ => true
  end.

(** A run that reaches the time limit and is locked out. *)
Definition run_into_lockout : list pump_call :=
  [ call_start 0 0 0; call_update 600000 true; call_update 600100 true ].

(** The body of [update] after [checkTimeout], for a running pump. *)
Definition run_block (now : Z) (stepped : bool) (r : ChemicalPump)
  : ChemicalPump :=
  let p0 := set_stepper (stepper_run stepped (_stepper r)) r in
  let p1 :=
    if _steps_limited p0 && (distanceToGo (_stepper p0) =? 0)
    then stop p0 else p0 in
  if _time_limited p1
  then if _target_time_ms p1 <=? sub32 now (start_time (_status p1))
       then stop p1 else p1
  else p1.

(** A run for a volume of 10 ml (2000 steps at 200 steps per ml), and two
    ticks of it. *)
Definition volume_run : ChemicalPump := start 0 0 10 manual_pump.

Definition volume_run_tick1 : ChemicalPump := snd (update 100 true 0 volume_run).

(** A timed run of 5 s started at 1000 ms. *)
Definition timed_run : ChemicalPump := start 1000 5000 0 manual_pump.

(** A pump that follows the blowdown (mode A) with a 10 s limit. *)
Definition mode_a_config : pump_config_t :=
  {| cfg_enabled := true;
     cfg_name := "H2SO3"%string;
     feed_mode := FEED_MODE_A_BLOWDOWN_FEED;
     cfg_hoa_mode := HOA_AUTO;
     lockout_seconds := 10;
     percent_of_blowdown := 0;
     max_time_seconds := 0;
     percent_of_time := 0;
     cycle_time_seconds := 600;
     time_per_contact_ms := 0;
     contact_divider := 1;
     assigned_meter := 0;
     time_per_volume_ms := 0;
     volume_to_initiate := 1;
     time_limit_seconds := 0;
     steps_per_ml := 200;
     max_speed := PUMP_DEFAULT_MAX_SPEED;
     acceleration := PUMP_DEFAULT_ACCELERATION;
     cfg_total_steps := 0;
     total_runtime_sec := 0 |}.

Definition mode_a_pump : ChemicalPump :=
  configure (Some mode_a_config) (init_pump PUMP_H2SO3).

(** A call of [processFeedMode] reaches the handler of [mode]. *)
Definition feeds_in_mode (mode : feed_mode_t) (cfg : pump_config_t)
  (p : ChemicalPump) : Prop :=
  _config p = Some cfg
  /\ feed_mode cfg = mode
  /\ enabled (_status p) = true
  /\ hoa_mode (_status p) = HOA_AUTO.

(** Loop calls while the pump is Off: water contacts and blowdown time
    are reported, and the pump is ticked. *)
Definition off_mode_calls : list pump_call :=
  [ call_processFeedMode 1000 false 0 5 0;
    call_update 1100 true;
    call_processFeedMode 2000 true 30000 7 0;
    call_update 2100 true ].

(** All three pumps running by hand. *)
Definition all_in_hand : PumpManager :=
  manager_update 1000 always_steps
    (manager_setHOA PUMP_AMINE HOA_HAND
       (manager_setHOA PUMP_NAOH HOA_HAND
          (manager_setHOA PUMP_H2SO3 HOA_HAND manual_manager))).

(** Calls after an emergency stop. *)
Definition after_emergency_stop : list manager_call :=
  [ mcall_update 2000 always_steps;
    mcall_setHOA PUMP_NAOH HOA_HAND;
    mcall_update 3000 always_steps;
    mcall_setAllEnabled true;
    mcall_processFeedModes 4000 true 1000 3 0;
    mcall_update 5000 always_steps ].

(** A pump on a duty cycle (mode C): 25.0 percent of a 600 s cycle. *)
Definition mode_c_config : pump_config_t :=
  {| cfg_enabled := true;
     cfg_name := "Amine"%string;
     feed_mode := FEED_MODE_C_PERCENT_TIME;
     cfg_hoa_mode := HOA_AUTO;
     lockout_seconds := 0;
     percent_of_blowdown := 0;
     max_time_seconds := 0;
     percent_of_time := 250;
     cycle_time_seconds := 600;
     time_per_contact_ms := 0;
     contact_divider := 1;
     assigned_meter := 0;
     time_per_volume_ms := 0;
     volume_to_initiate := 1;
     time_limit_seconds := 0;
     steps_per_ml := 200;
     max_speed := PUMP_DEFAULT_MAX_SPEED;
     acceleration := PUMP_DEFAULT_ACCELERATION;
     cfg_total_steps := 0;
     total_runtime_sec := 0 |}.

(** The pump after the call that starts its first cycle at 1000 ms. *)
Definition mode_c_pump : ChemicalPump :=
  processFeedMode 1000 false 0 0 0
    (configure (Some mode_c_config) (init_pump PUMP_AMINE)).

End Pump.

(** * Fuzzy advisory controller (fuzzy_logic.h, fuzzy_logic.cpp) *)

Module Fuzzy.

Local Open Scope string_scope.
Local Open Scope Q_scope.

Definition FUZZY_MAX_RULES : nat := 64.
Definition FUZZY_MAX_INPUTS : nat := 6.
Definition FUZZY_MAX_OUTPUTS : nat := 4.
Definition FUZZY_MAX_SETS : nat := 7.
Definition FUZZY_RESOLUTION : nat := 101.

(** [fuzzy_input_t] and [fuzzy_output_t], as array indices. *)
Definition FUZZY_IN_TDS : nat := 0.
Definition FUZZY_IN_ALKALINITY : nat := 1.
Definition FUZZY_IN_SULFITE : nat := 2.
Definition FUZZY_IN_PH : nat := 3.
Definition FUZZY_IN_TEMPERATURE : nat := 4.
Definition FUZZY_IN_TREND : nat := 5.

Definition FUZZY_OUT_BLOWDOWN : nat := 0.
Definition FUZZY_OUT_CAUSTIC : nat := 1.
Definition FUZZY_OUT_SULFITE : nat := 2.
Definition FUZZY_OUT_ACID : nat := 3.

Inductive mf_type_t : Set :=
| MF_TRIANGULAR
| MF_TRAPEZOIDAL
| MF_GAUSSIAN
| MF_SIGMOID_LEFT
| MF_SIGMOID_RIGHT
| MF_SINGLETON.

(** [linguistic_term_t] and the rule-table shorthands of fuzzy_logic.h. *)
Definition TERM_VERY_LOW : nat := 0.
Definition TERM_LOW : nat := 1.
Definition TERM_MEDIUM_LOW : nat := 2.
Definition TERM_MEDIUM : nat := 3.
Definition TERM_MEDIUM_HIGH : nat := 4.
Definition TERM_HIGH : nat := 5.
Definition TERM_VERY_HIGH : nat := 6.

Definition DONT_CARE : nat := 255.

Definition VL : nat := TERM_VERY_LOW.
Definition LO : nat := TERM_LOW.
Definition ML : nat := TERM_MEDIUM_LOW.
Definition MD : nat := TERM_MEDIUM.
Definition MH : nat := TERM_MEDIUM_HIGH.
Definition HI : nat := TERM_HIGH.
Definition VH : nat := TERM_VERY_HIGH.
Definition DC : nat := DONT_CARE.

(** [float] arithmetic on exact rationals, results kept in lowest terms.
    A division by zero yields 0 here (an infinity or NaN in the
    firmware); the membership functions of the default tables never
    divide by zero. *)
Definition fadd (x y : Q) : Q := Qred (x + y).
Definition fsub (x y : Q) : Q := Qred (x - y).
Definition fmul (x y : Q) : Q := Qred (x * y).
Definition fdiv (x y : Q) : Q := Qred (x / y).

(** Arduino's [min] and [max] macros. *)
Definition fmin (a b : Q) : Q := if Qltb a b then a else b.
Definition fmax (a b : Q) : Q := if Qgtb a b then a else b.

Record membership_func_t : Type := {
  mf_type : mf_type_t;
  params : list Q;
  mf_name : string
}.

Record linguistic_var_t : Type := {
  var_name : string;
  min_value : Q;
  max_value : Q;
  num_sets : nat;
  sets : list membership_func_t
}.

Record fuzzy_rule_t : Type := {
  antecedent : list nat;
  consequent : list nat;
  weight : Q;
  rule_enabled : bool
}.

Record fuzzy_result_t : Type := {
  blowdown_rate : Q;
  caustic_rate : Q;
  sulfite_rate : Q;
  acid_rate : Q;
  max_firing_strength : Q;
  active_rules : nat;
  dominant_rule : nat
}.

Record fuzzy_inputs_t : Type := {
  conductivity : Q;
  alkalinity : Q;
  sulfite : Q;
  ph : Q;
  temperature : Q;
  cond_trend : Q;
  alkalinity_valid : bool;
  sulfite_valid : bool;
  ph_valid : bool
}.

Record fuzzy_config_t : Type := {
  cond_setpoint : Q;
  alk_setpoint : Q;
  sulfite_setpoint : Q;
  ph_setpoint : Q;
  cond_deadband : Q;
  alk_deadband : Q;
  sulfite_deadband : Q;
  ph_deadband : Q;
  blowdown_max : Q;
  caustic_max_ml_min : Q;
  sulfite_max_ml_min : Q;
  acid_max_ml_min : Q;
  aggressive_mode : bool;
  manual_override : bool;
  inference_method : nat;
  defuzz_method : nat
}.

(** The members of [FuzzyController].  Arrays are lists of their declared
    length; [_input_membership] is 6 rows of 7 degrees and persists from
    one evaluation to the next. *)
Record FuzzyController : Type := {
  _config : option fuzzy_config_t;
  _inputs : list linguistic_var_t;
  _outputs : list linguistic_var_t;
  _rules : list fuzzy_rule_t;
  _num_rules : nat;
  _input_membership : list (list Q);
  _manual_values : list Q;
  _manual_valid : list bool
}.

(** [a[i] = v] on an array; an index past the end leaves it as it is. *)
Fixpoint array_set {A : Type} (i : nat) (v : A) (a : list A) : list A :=
  match a, i with
  | [], _ => []
  | _ :: rest, O => v :: rest
  | x :: rest, S j => x :: array_set j v rest
  end.

Definition zero_mf : membership_func_t :=
  {| mf_type := MF_TRIANGULAR; params := [0; 0; 0; 0];
     mf_name := EmptyString |}.

Definition zero_var : linguistic_var_t :=
  {| var_name := EmptyString; min_value := 0; max_value := 0;
     num_sets := 0;
     sets := repeat zero_mf FUZZY_MAX_SETS |}.

Definition zero_rule : fuzzy_rule_t :=
  {| antecedent := repeat 0%nat FUZZY_MAX_INPUTS;
     consequent := repeat 0%nat FUZZY_MAX_OUTPUTS;
     weight := 0;
     rule_enabled := false |}.

Definition zero_result : fuzzy_result_t :=
  {| blowdown_rate := 0; caustic_rate := 0; sulfite_rate := 0; acid_rate := 0;
     max_firing_strength := 0; active_rules := 0; dominant_rule := 0 |}.

(** The controller after its constructor (a zero-initialised global). *)
Definition init_controller : FuzzyController :=
  {| _config := None;
     _inputs := repeat zero_var FUZZY_MAX_INPUTS;
     _outputs := repeat zero_var FUZZY_MAX_OUTPUTS;
     _rules := repeat zero_rule FUZZY_MAX_RULES;
     _num_rules := 0;
     _input_membership := repeat (repeat 0 FUZZY_MAX_SETS) FUZZY_MAX_INPUTS;
     _manual_values := repeat 0 FUZZY_MAX_INPUTS;
     _manual_valid := repeat false FUZZY_MAX_INPUTS |}.

Definition mf (t : mf_type_t) (ps : list Q) (name : string) : membership_func_t :=
  {| mf_type := t; params := ps; mf_name := name |}.

Definition param (k : nat) (f : membership_func_t) : Q := nth k (params f) 0.

(** [var.name = ..; var.min_value = ..; var.max_value = ..;
    var.num_sets = ..] *)
Definition set_var_header (name : string) (lo hi : Q) (n : nat)
  (v : linguistic_var_t) : linguistic_var_t :=
  {| var_name := name; min_value := lo; max_value := hi; num_sets := n;
     sets := sets v |}.

(** [var.sets[0] = ..; var.sets[1] = ..; ...] *)
Definition set_var_sets (fs : list membership_func_t) (v : linguistic_var_t)
  : linguistic_var_t :=
  {| var_name := var_name v; min_value := min_value v;
     max_value := max_value v; num_sets := num_sets v;
     sets := (fs ++ skipn (List.length fs) (sets v))%list |}.

Definition set_inputs (v : list linguistic_var_t) (c : FuzzyController)
  : FuzzyController :=
  {| _config := _config c; _inputs := v; _outputs := _outputs c;
     _rules := _rules c; _num_rules := _num_rules c;
     _input_membership := _input_membership c;
     _manual_values := _manual_values c; _manual_valid := _manual_valid c |}.

Definition set_outputs (v : list linguistic_var_t) (c : FuzzyController)
  : FuzzyController :=
  {| _config := _config c; _inputs := _inputs c; _outputs := v;
     _rules := _rules c; _num_rules := _num_rules c;
     _input_membership := _input_membership c;
     _manual_values := _manual_values c; _manual_valid := _manual_valid c |}.

Definition set_config (v : option fuzzy_config_t) (c : FuzzyController)
  : FuzzyController :=
  {| _config := v; _inputs := _inputs c; _outputs := _outputs c;
     _rules := _rules c; _num_rules := _num_rules c;
     _input_membership := _input_membership c;
     _manual_values := _manual_values c; _manual_valid := _manual_valid c |}.

Definition set_rules (v : list fuzzy_rule_t) (n : nat) (c : FuzzyController)
  : FuzzyController :=
  {| _config := _config c; _inputs := _inputs c; _outputs := _outputs c;
     _rules := v; _num_rules := n;
     _input_membership := _input_membership c;
     _manual_values := _manual_values c; _manual_valid := _manual_valid c |}.

Definition set_input_membership (v : list (list Q)) (c : FuzzyController)
  : FuzzyController :=
  {| _config := _config c; _inputs := _inputs c; _outputs := _outputs c;
     _rules := _rules c; _num_rules := _num_rules c;
     _input_membership := v;
     _manual_values := _manual_values c; _manual_valid := _manual_valid c |}.

Definition set_manual (vals : list Q) (valid : list bool) (c : FuzzyController)
  : FuzzyController :=
  {| _config := _config c; _inputs := _inputs c; _outputs := _outputs c;
     _rules := _rules c; _num_rules := _num_rules c;
     _input_membership := _input_membership c;
     _manual_values := vals; _manual_valid := valid |}.

(** [_inputs[i]] with [f] applied to it. *)
Definition upd_var (i : nat) (f : linguistic_var_t -> linguistic_var_t)
  (vars : list linguistic_var_t) : list linguistic_var_t :=
  array_set i (f (nth i vars zero_var)) vars.

(** [FuzzyController::initInputVariables] *)
Definition initInputVariables (c : FuzzyController) : FuzzyController :=
  let v := _inputs c in
  let v := upd_var FUZZY_IN_TDS (set_var_header "TDS" 0 5000 5) v in
  let v := upd_var FUZZY_IN_ALKALINITY (set_var_header "Alkalinity" 0 1000 5) v in
  let v := upd_var FUZZY_IN_SULFITE (set_var_header "Sulfite" 0 100 5) v in
  let v := upd_var FUZZY_IN_PH (set_var_header "pH" 7 14 5) v in
  let v := upd_var FUZZY_IN_TEMPERATURE (set_var_header "Temperature" 0 100 3) v in
  let v := upd_var FUZZY_IN_TREND (set_var_header "Trend" (-100) 100 5) v in
  set_inputs v c.

(** The five output terms, the same for every output. *)
Definition output_sets : list membership_func_t :=
  [ mf MF_TRIANGULAR [0; 0; 25] "Zero";
    mf MF_TRIANGULAR [0; 25; 50] "Low";
    mf MF_TRIANGULAR [25; 50; 75] "Medium";
    mf MF_TRIANGULAR [50; 75; 100] "High";
    mf MF_TRIANGULAR [75; 100; 100] "VeryHigh" ].

(** [FuzzyController::initOutputVariables] *)
Definition initOutputVariables (c : FuzzyController) : FuzzyController :=
  let out name v := set_var_sets output_sets (set_var_header name 0 100 5 v) in
  let v := _outputs c in
  let v := upd_var FUZZY_OUT_BLOWDOWN (out "Blowdown"%string) v in
  let v := upd_var FUZZY_OUT_CAUSTIC (out "Caustic"%string) v in
  let v := upd_var FUZZY_OUT_SULFITE (out "Sulfite"%string) v in
  let v := upd_var FUZZY_OUT_ACID (out "Acid"%string) v in
  set_outputs v c.

(** [FuzzyController::updateMembershipFunctions] *)
Definition updateMembershipFunctions (c : FuzzyController) : FuzzyController :=
  match _config c with
  | None => c
  | Some cfg =>
      let v := _inputs c in
      let sp := cond_setpoint cfg in
      let db := cond_deadband cfg in
      let v := upd_var FUZZY_IN_TDS (set_var_sets
        [ mf MF_TRAPEZOIDAL [0; 0; fmul sp (1#2); fmul sp (7#10)] "VeryLow";
          mf MF_TRIANGULAR [fmul sp (1#2); fmul sp (3#4); fsub sp db] "Low";
          mf MF_TRIANGULAR [fsub sp (fmul db 2); sp; fadd sp (fmul db 2)] "Normal";
          mf MF_TRIANGULAR [fadd sp db; fmul sp (5#4); fmul sp (3#2)] "High";
          mf MF_TRAPEZOIDAL [fmul sp (13#10); fmul sp (3#2); 5000; 5000] "VeryHigh"
        ]) v in
      let sp := alk_setpoint cfg in
      let db := alk_deadband cfg in
      let v := upd_var FUZZY_IN_ALKALINITY (set_var_sets
        [ mf MF_TRAPEZOIDAL [0; 0; fmul sp (3#10); fmul sp (1#2)] "VeryLow";
          mf MF_TRIANGULAR [fmul sp (2#5); fmul sp (3#5); fsub sp db] "Low";
          mf MF_TRIANGULAR [fsub sp (fmul db 2); sp; fadd sp (fmul db 2)] "Normal";
          mf MF_TRIANGULAR [fadd sp db; fmul sp (7#5); fmul sp (9#5)] "High";
          mf MF_TRAPEZOIDAL [fmul sp (3#2); fmul sp 2; 1000; 1000] "VeryHigh"
        ]) v in
      let sp := sulfite_setpoint cfg in
      let db := sulfite_deadband cfg in
      let v := upd_var FUZZY_IN_SULFITE (set_var_sets
        [ mf MF_TRAPEZOIDAL [0; 0; fmul sp (1#5); fmul sp (2#5)] "VeryLow";
          mf MF_TRIANGULAR [fmul sp (3#10); fmul sp (1#2); fsub sp db] "Low";
          mf MF_TRIANGULAR [fsub sp (fmul db 2); sp; fadd sp (fmul db 2)] "Normal";
          mf MF_TRIANGULAR [fadd sp db; fmul sp (3#2); fmul sp 2] "High";
          mf MF_TRAPEZOIDAL [fmul sp (9#5); fmul sp (5#2); 100; 100] "VeryHigh"
        ]) v in
      let sp := ph_setpoint cfg in
      let db := ph_deadband cfg in
      let v := upd_var FUZZY_IN_PH (set_var_sets
        [ mf MF_TRAPEZOIDAL [7; 7; 9; 10] "Low";
          mf MF_TRIANGULAR [19#2; 21#2; fsub sp db] "SlightlyLow";
          mf MF_TRIANGULAR [fsub sp db; sp; fadd sp db] "Normal";
          mf MF_TRIANGULAR [fadd sp db; 12; 25#2] "SlightlyHigh";
          mf MF_TRAPEZOIDAL [12; 25#2; 14; 14] "High"
        ]) v in
      let v := upd_var FUZZY_IN_TEMPERATURE (set_var_sets
        [ mf MF_TRAPEZOIDAL [0; 0; 20; 40] "Cold";
          mf MF_TRIANGULAR [30; 50; 70] "Warm";
          mf MF_TRAPEZOIDAL [60; 80; 100; 100] "Hot"
        ]) v in
      let v := upd_var FUZZY_IN_TREND (set_var_sets
        [ mf MF_TRAPEZOIDAL [-(100); -(100); -(30); -(10)] "Decreasing";
          mf MF_TRIANGULAR [-(20); -(5); 0] "SlightDecrease";
          mf MF_TRIANGULAR [-(5); 0; 5] "Stable";
          mf MF_TRIANGULAR [0; 5; 20] "SlightIncrease";
          mf MF_TRAPEZOIDAL [10; 30; 100; 100] "Increasing"
        ]) v in
      set_inputs v c
  end.

Definition rule (a c : list nat) (w : Q) (en : bool) : fuzzy_rule_t :=
  {| antecedent := a; consequent := c; weight := w; rule_enabled := en |}.

(** The table written by [loadDefaultRules], rule 1 first.  Antecedent:
    [Cond, Alk, Sulfite, pH, Temp, Trend]; consequent: [Blowdown,
    Caustic, Sulfite, Acid]. *)
Definition default_rules : list fuzzy_rule_t :=
  [ rule [VH; DC; DC; DC; DC; DC] [VH; DC; DC; DC] 1 true;
    rule [HI; DC; DC; DC; DC; DC] [HI; DC; DC; DC] 1 true;
    rule [MD; DC; DC; DC; DC; DC] [VL; DC; DC; DC] 1 true;
    rule [LO; DC; DC; DC; DC; DC] [VL; DC; DC; DC] 1 true;
    rule [HI; DC; DC; DC; DC; VH] [VH; DC; DC; DC] 1 true;
    rule [DC; VL; DC; DC; DC; DC] [DC; VH; DC; DC] 1 true;
    rule [DC; LO; DC; DC; DC; DC] [DC; HI; DC; DC] 1 true;
    rule [DC; MD; DC; DC; DC; DC] [DC; VL; DC; DC] 1 true;
    rule [DC; HI; DC; DC; DC; DC] [MD; VL; DC; DC] (4#5) true;
    rule [DC; VH; DC; DC; DC; DC] [HI; VL; DC; DC] (9#10) true;
    rule [DC; DC; VL; DC; DC; DC] [DC; DC; VH; DC] 1 true;
    rule [DC; DC; LO; DC; DC; DC] [DC; DC; HI; DC] 1 true;
    rule [DC; DC; MD; DC; DC; DC] [DC; DC; LO; DC] 1 true;
    rule [DC; DC; HI; DC; DC; DC] [DC; DC; VL; DC] 1 true;
    rule [DC; DC; VH; DC; DC; DC] [LO; DC; VL; DC] (7#10) true;
    rule [DC; DC; DC; VL; DC; DC] [DC; HI; DC; VL] 1 true;
    rule [DC; DC; DC; LO; DC; DC] [DC; MD; DC; VL] (4#5) true;
    rule [DC; DC; DC; MD; DC; DC] [DC; VL; DC; VL] (1#2) true;
    rule [DC; DC; DC; HI; DC; DC] [DC; VL; DC; LO] (7#10) true;
    rule [DC; DC; DC; VH; DC; DC] [DC; VL; DC; MD] (9#10) true;
    rule [HI; HI; DC; DC; DC; DC] [VH; VL; DC; DC] 1 true;
    rule [LO; LO; DC; DC; DC; DC] [VL; HI; DC; DC] (9#10) true;
    rule [DC; DC; LO; DC; HI; DC] [DC; DC; VH; DC] 1 true;
    rule [MD; MD; MD; DC; DC; DC] [VL; VL; LO; VL] 1 true;
    rule [DC; DC; DC; DC; DC; VH] [MD; DC; DC; DC] (4#5) true ].

(** [FuzzyController::loadDefaultRules] *)
Definition loadDefaultRules (c : FuzzyController) : FuzzyController :=
  set_rules
    (default_rules ++ skipn (List.length default_rules) (_rules c))%list
    (List.length default_rules) c.

(** [FuzzyController::begin]; [None] is the call that returns [false]. *)
Definition begin (config : option fuzzy_config_t) (c : FuzzyController)
  : option FuzzyController :=
  match config with
  | None => None
  | Some _ =>
      let c := set_config config c in
      let c := initInputVariables c in
      let c := initOutputVariables c in
      let c := updateMembershipFunctions c in
      Some (loadDefaultRules c)
  end.

(** [FuzzyController::updateConfig] *)
Definition updateConfig (config : option fuzzy_config_t) (c : FuzzyController)
  : FuzzyController :=
  updateMembershipFunctions (set_config config c).

(** [FuzzyController::setManualInput] *)
Definition setManualInput (param : nat) (value : Q) (valid : bool)
  (c : FuzzyController) : FuzzyController :=
  if (param <? FUZZY_MAX_INPUTS)%nat then
    set_manual (array_set param value (_manual_values c))
               (array_set param valid (_manual_valid c)) c
  else c.

(** [FuzzyController::setRule] *)
Definition setRule (rule_idx : nat) (r : fuzzy_rule_t) (c : FuzzyController)
  : FuzzyController :=
  if (FUZZY_MAX_RULES <=? rule_idx)%nat then c
  else
    set_rules (array_set rule_idx r (_rules c))
      (if (_num_rules c <=? rule_idx)%nat then S rule_idx else _num_rules c) c.

Section Inference.

(** [expf] of the C library, for the Gaussian and sigmoid shapes; it has
    no rational model and is a parameter of the inference. *)
Variable expf : Q -> Q.

(** [FuzzyController::evaluateMF] *)
Definition evaluateMF (f : membership_func_t) (value : Q) (min_val max_val : Q)
  : Q :=
  match mf_type f with
  | MF_TRIANGULAR =>
      let a := param 0 f in
      let b := param 1 f in
      let c := param 2 f in
      if Qle_bool value a || Qle_bool c value then 0
      else if Qle_bool value b then fdiv (fsub value a) (fsub b a)
      else fdiv (fsub c value) (fsub c b)
  | MF_TRAPEZOIDAL =>
      let a := param 0 f in
      let b := param 1 f in
      let c := param 2 f in
      let d := param 3 f in
      if Qle_bool value a || Qle_bool d value then 0
      else if Qle_bool b value && Qle_bool value c then 1
      else if Qltb value b then fdiv (fsub value a) (fsub b a)
      else fdiv (fsub d value) (fsub d c)
  | MF_GAUSSIAN =>
      let a := param 0 f in
      let b := param 1 f in
      let z := fdiv (fsub value a) b in
      expf (fmul (-(1#2)) (fmul z z))
  | MF_SIGMOID_LEFT =>
      let a := param 0 f in
      let b := param 1 f in
      fdiv 1 (fadd 1 (expf (fmul b (fsub value a))))
  | MF_SIGMOID_RIGHT =>
      let a := param 0 f in
      let b := param 1 f in
      fdiv 1 (fadd 1 (expf (fmul (Qred (- b)) (fsub value a))))
  | MF_SINGLETON =>
      let a := param 0 f in
      if Qltb (Qabs (fsub value a)) (1#1000) then 1 else 0
  end.

(** [FuzzyController::getMembership] *)
Definition getMembership (ctl : FuzzyController) (var_idx set_idx : nat)
  (value : Q) : Q :=
  if (FUZZY_MAX_INPUTS <=? var_idx)%nat || (FUZZY_MAX_SETS <=? set_idx)%nat
  then 0
  else
    let var := nth var_idx (_inputs ctl) zero_var in
    if (num_sets var <=? set_idx)%nat then 0
    else evaluateMF (nth set_idx (sets var) zero_mf) value
           (min_value var) (max_value var).

(** [FuzzyController::fuzzify]: the first [num_sets] entries of [degrees]
    are written, the others are left as they were. *)
Definition fuzzify (ctl : FuzzyController) (var_idx : nat) (value : Q)
  (degrees : list Q) : list Q :=
  if (FUZZY_MAX_INPUTS <=? var_idx)%nat then degrees
  else
    let var := nth var_idx (_inputs ctl) zero_var in
    fold_left
      (fun d i =>
         array_set i
           (evaluateMF (nth i (sets var) zero_mf) value
              (min_value var) (max_value var)) d)
      (seq 0 (num_sets var)) degrees.

(** Step 1 of [evaluate] for one manual input: fuzzify the stored value
    when it is valid, otherwise clear the row ([memset]) and set entry 2
    to 1.0. *)
Definition fuzzifyManual (ctl : FuzzyController) (var_idx : nat)
  (m : list (list Q)) : list (list Q) :=
  if nth var_idx (_manual_valid ctl) false then
    array_set var_idx
      (fuzzify ctl var_idx (nth var_idx (_manual_values ctl) 0)
         (nth var_idx m [])) m
  else
    array_set var_idx (array_set 2 1 (repeat 0 FUZZY_MAX_SETS)) m.

(** Step 1 of [evaluate]: the membership table after fuzzification of the
    four manual inputs, the temperature and the trend. *)
Definition fuzzifyInputs (ctl : FuzzyController) (inputs : fuzzy_inputs_t)
  : list (list Q) :=
  let m := _input_membership ctl in
  let m := fuzzifyManual ctl FUZZY_IN_TDS m in
  let m := fuzzifyManual ctl FUZZY_IN_ALKALINITY m in
  let m := fuzzifyManual ctl FUZZY_IN_SULFITE m in
  let m := fuzzifyManual ctl FUZZY_IN_PH m in
  let m := array_set FUZZY_IN_TEMPERATURE
             (fuzzify ctl FUZZY_IN_TEMPERATURE (temperature inputs)
                (nth FUZZY_IN_TEMPERATURE m [])) m in
  array_set FUZZY_IN_TREND
    (fuzzify ctl FUZZY_IN_TREND (cond_trend inputs)
       (nth FUZZY_IN_TREND m [])) m.

(** The antecedent loop of [evaluate]: the minimum of the memberships the
    rule names; a term that is [DONT_CARE] or not below the variable's
    [num_sets] is skipped. *)
Definition firingStrength (ctl : FuzzyController) (m : list (list Q))
  (r : fuzzy_rule_t) : Q :=
  fold_left
    (fun fs i =>
       let term := nth i (antecedent r) 0%nat in
       if (term =? DONT_CARE)%nat
          || (num_sets (nth i (_inputs ctl) zero_var) <=? term)%nat
       then fs
       else fmin fs (nth term (nth i m []) 0))
    (seq 0 FUZZY_MAX_INPUTS) 1.

(** The sample point [x] of an output variable. *)
Definition crisp_x (var : linguistic_var_t) (x : nat) : Q :=
  fadd (min_value var)
    (fdiv (fmul (fsub (max_value var) (min_value var))
             (inject_Z (Z.of_nat x)))
       (inject_Z (Z.of_nat (FUZZY_RESOLUTION - 1)))).

(** The sampling loop of [evaluate] for one consequent: clip the output
    term at the firing strength and take the maximum with the row. *)
Definition clipInto (out_var : linguistic_var_t) (out_mf : membership_func_t)
  (firing_strength : Q) (row : list Q) : list Q :=
  fold_left
    (fun row x =>
       let mf_value :=
         evaluateMF out_mf (crisp_x out_var x)
           (min_value out_var) (max_value out_var) in
       let clipped := fmin mf_value firing_strength in
       array_set x (fmax (nth x row 0) clipped) row)
    (seq 0 FUZZY_RESOLUTION) row.

(** The consequent loop of [evaluate]. *)
Definition aggregate (ctl : FuzzyController) (r : fuzzy_rule_t)
  (firing_strength : Q) (agg : list (list Q)) : list (list Q) :=
  fold_left
    (fun agg o =>
       let term := nth o (consequent r) 0%nat in
       let out_var := nth o (_outputs ctl) zero_var in
       if (term =? DONT_CARE)%nat || (num_sets out_var <=? term)%nat
       then agg
       else
         array_set o
           (clipInto out_var (nth term (sets out_var) zero_mf)
              firing_strength (nth o agg [])) agg)
    (seq 0 FUZZY_MAX_OUTPUTS) agg.

(** The locals of [evaluate] that the rule loop updates. *)
Record infer_t : Type := {
  inf_active_rules : nat;
  inf_max_firing_strength : Q;
  inf_dominant_rule : nat;
  output_aggregation : list (list Q)
}.

Definition infer_init : infer_t :=
  {| inf_active_rules := 0;
     inf_max_firing_strength := 0;
     inf_dominant_rule := 0;
     output_aggregation :=
       repeat (repeat 0 FUZZY_RESOLUTION) FUZZY_MAX_OUTPUTS |}.

(** One iteration of the rule loop of [evaluate]. *)
Definition applyRuleAt (ctl : FuzzyController) (m : list (list Q))
  (st : infer_t) (r : nat) : infer_t :=
  let rl := nth r (_rules ctl) zero_rule in
  if negb (rule_enabled rl) then st
  else
    let firing_strength := fmul (firingStrength ctl m rl) (weight rl) in
    if Qltb firing_strength (1#1000) then st
    else
      let stronger := Qgtb firing_strength (inf_max_firing_strength st) in
      {| inf_active_rules := S (inf_active_rules st);
         inf_max_firing_strength :=
           if stronger then firing_strength else inf_max_firing_strength st;
         inf_dominant_rule := if stronger then r else inf_dominant_rule st;
         output_aggregation :=
           aggregate ctl rl firing_strength (output_aggregation st) |}.

(** Step 2 of [evaluate]: the rule loop. *)
Definition inferRules (ctl : FuzzyController) (m : list (list Q)) : infer_t :=
  fold_left (applyRuleAt ctl m) (seq 0 (_num_rules ctl)) infer_init.

(** [FuzzyController::defuzzify] *)
Definition defuzzify (ctl : FuzzyController) (output_idx : nat)
  (aggregated : list Q) : Q :=
  if (FUZZY_MAX_OUTPUTS <=? output_idx)%nat then 0
  else
    let var := nth output_idx (_outputs ctl) zero_var in
    let '(sum_weighted, sum_membership) :=
      fold_left
        (fun '(sw, sm) x =>
           let a := nth x aggregated 0 in
           (fadd sw (fmul (crisp_x var x) a), fadd sm a))
        (seq 0 FUZZY_RESOLUTION) (0, 0) in
    if Qltb sum_membership (1#1000) then 0
    else fdiv sum_weighted sum_membership.

(** Steps 2 and 3 of [evaluate], from the membership table. *)
Definition inferAndDefuzzify (ctl : FuzzyController) (m : list (list Q))
  : fuzzy_result_t :=
  let st := inferRules ctl m in
  let agg := output_aggregation st in
  {| blowdown_rate :=
       defuzzify ctl FUZZY_OUT_BLOWDOWN (nth FUZZY_OUT_BLOWDOWN agg []);
     caustic_rate :=
       defuzzify ctl FUZZY_OUT_CAUSTIC (nth FUZZY_OUT_CAUSTIC agg []);
     sulfite_rate :=
       defuzzify ctl FUZZY_OUT_SULFITE (nth FUZZY_OUT_SULFITE agg []);
     acid_rate := defuzzify ctl FUZZY_OUT_ACID (nth FUZZY_OUT_ACID agg []);
     max_firing_strength := inf_max_firing_strength st;
     active_rules := inf_active_rules st;
     dominant_rule := inf_dominant_rule st |}.

(** [FuzzyController::evaluate]: the result and the controller with its
    membership table updated. *)
Definition evaluate (inputs : fuzzy_inputs_t) (ctl : FuzzyController)
  : fuzzy_result_t * FuzzyController :=
  match _config ctl with
  | None => (zero_result, ctl)
  | Some _ =>
      let m := fuzzifyInputs ctl inputs in
      (inferAndDefuzzify ctl m, set_input_membership m ctl)
  end.

End Inference.

(** The confidence label of the fuzzy status report
    ([BoilerWebServer::handleGetFuzzy], web_server.cpp): conductivity
    counts as always valid, then one for each valid manual test
    (alkalinity, sulfite, pH). *)
Definition confidence (alk_valid sulfite_valid ph_valid : bool) : string :=
  let valid_inputs :=
    (1 + (if alk_valid then 1 else 0) + (if sulfite_valid then 1 else 0)
     + (if ph_valid then 1 else 0))%nat in
  if (valid_inputs =? 4)%nat then "HIGH"
  else if (2 <=? valid_inputs)%nat then "MEDIUM" else "LOW".

(** ** Example configuration *)

(** Setpoints of a low-pressure boiler (TDS 2500 ppm, alkalinity 300 ppm,
    sulfite 30 ppm, pH 11.0), the targets used by the firmware's fuzzy
    test program, with deadbands of 100, 25, 5 and 0.2. *)
Definition reference_config : fuzzy_config_t :=
  {| cond_setpoint := 2500;
     alk_setpoint := 300;
     sulfite_setpoint := 30;
     ph_setpoint := 11;
     cond_deadband := 100;
     alk_deadband := 25;
     sulfite_deadband := 5;
     ph_deadband := 1 # 5;
     blowdown_max := 100;
     caustic_max_ml_min := 10;
     sulfite_max_ml_min := 10;
     acid_max_ml_min := 10;
     aggressive_mode := false;
     manual_override := false;
     inference_method := 0;
     defuzz_method := 0 |}.

(** The controller after [begin(&reference_config)]. *)
Definition reference_controller : FuzzyController :=
  match begin (Some reference_config) init_controller with
  | Some c => c
  | None => init_controller
  end.

(** The four manual inputs entered valid and equal to their setpoints. *)
Definition at_setpoints_controller : FuzzyController :=
  setManualInput FUZZY_IN_PH (ph_setpoint reference_config) true
    (setManualInput FUZZY_IN_SULFITE (sulfite_setpoint reference_config) true
       (setManualInput FUZZY_IN_ALKALINITY (alk_setpoint reference_config) true
          (setManualInput FUZZY_IN_TDS (cond_setpoint reference_config) true
             reference_controller))).

(** The sensor part of the inputs, as the control loop of main.cpp fills it in. *)
Definition sensor_inputs (temperature trend : Q) : fuzzy_inputs_t :=
  {| conductivity := 2500;
     alkalinity := 0;
     sulfite := 0;
     ph := 0;
     temperature := temperature;
     cond_trend := trend;
     alkalinity_valid := false;
     sulfite_valid := false;
     ph_valid := false |}.

(** ** Predicates used in the statements *)

(** The input membership functions are the ones
    [updateMembershipFunctions] builds from the current configuration, as
    after [begin] or [updateConfig]. *)
Definition membership_functions_built (ctl : FuzzyController) : Prop :=
  exists c0,
    List.length (_inputs c0) = FUZZY_MAX_INPUTS
    /\ _inputs ctl
       = _inputs (updateMembershipFunctions (set_config (_config ctl) c0)).

(** The four manual inputs. *)
Definition manual_input (var_idx : nat) : Prop :=
  var_idx = FUZZY_IN_TDS \/ var_idx = FUZZY_IN_ALKALINITY
  \/ var_idx = FUZZY_IN_SULFITE \/ var_idx = FUZZY_IN_PH.

(** The name of term [set_idx] of input [var_idx]. *)
Definition term_name (ctl : FuzzyController) (var_idx set_idx : nat) : string :=
  mf_name (nth set_idx (sets (nth var_idx (_inputs ctl) zero_var)) zero_mf).

(** ** More predicates *)

(** The shapes [evaluateMF] computes without [expf]. *)
Definition piecewise_linear (f : membership_func_t) : bool :=
  match mf_type f with
  | MF_TRIANGULAR | MF_TRAPEZOIDAL | MF_SINGLETON => true
  | _ => false
  end.

(** The antecedent loop skips input [i] of rule [r]: the term is
    [DONT_CARE] or not below the variable's [num_sets]. *)
Definition antecedent_skipped (ctl : FuzzyController) (r : fuzzy_rule_t)
  (i : nat) : bool :=
  let term := nth i (antecedent r) 0%nat in
  (term =? DONT_CARE)%nat
  || (num_sets (nth i (_inputs ctl) zero_var) <=? term)%nat.

(** One step of the antecedent loop, for input [i]. *)
Definition antecedent_step (ctl : FuzzyController) (m : list (list Q))
  (r : fuzzy_rule_t) (fs : Q) (i : nat) : Q :=
  let term := nth i (antecedent r) 0%nat in
  if (term =? DONT_CARE)%nat
     || (num_sets (nth i (_inputs ctl) zero_var) <=? term)%nat
  then fs
  else fmin fs (nth term (nth i m []) 0).

(** Rule [r] with input [i] taken out of its antecedent. *)
Definition without_input (i : nat) (r : fuzzy_rule_t) : fuzzy_rule_t :=
  {| antecedent := array_set i DONT_CARE (antecedent r);
     consequent := consequent r;
     weight := weight r;
     rule_enabled := rule_enabled r |}.

(** The two tests of the rule loop: the rule is enabled and its weighted
    firing strength on the table [m] is not below 0.001. *)
Definition rule_fires (ctl : FuzzyController) (m : list (list Q))
  (r : fuzzy_rule_t) : bool :=
  rule_enabled r
  && negb (Qltb (fmul (firingStrength ctl m r) (weight r)) (1#1000)).

(** The number of rules of the rule base that fire on the table [m]. *)
Definition firing_rules (ctl : FuzzyController) (m : list (list Q)) : nat :=
  List.length
    (filter (fun r => rule_fires ctl m (nth r (_rules ctl) zero_rule))
       (seq 0 (_num_rules ctl))).

(** No rule of the rule base reads the temperature or the trend row. *)
Definition sensors_unused (ctl : FuzzyController) : bool :=
  forallb
    (fun r =>
       let rl := nth r (_rules ctl) zero_rule in
       antecedent_skipped ctl rl FUZZY_IN_TEMPERATURE
       && antecedent_skipped ctl rl FUZZY_IN_TREND)
    (seq 0 (_num_rules ctl)).

(** Every output variable has 0 inside its range. *)
Definition output_ranges_hold_zero (ctl : FuzzyController) : Prop :=
  forall o,
    (min_value (nth o (_outputs ctl) zero_var) <= 0)%Q
    /\ (0 <= max_value (nth o (_outputs ctl) zero_var))%Q.

(** [lo <= r <= hi] for the four rates of a result, output by output. *)
Definition rates_within (ctl : FuzzyController) (res : fuzzy_result_t) : Prop :=
  let within o r :=
    (min_value (nth o (_outputs ctl) zero_var) <= r)%Q
    /\ (r <= max_value (nth o (_outputs ctl) zero_var))%Q in
  within FUZZY_OUT_BLOWDOWN (blowdown_rate res)
  /\ within FUZZY_OUT_CAUSTIC (caustic_rate res)
  /\ within FUZZY_OUT_SULFITE (sulfite_rate res)
  /\ within FUZZY_OUT_ACID (acid_rate res).

(** Every entry of an aggregation row, and of a table of rows, is at
    least 0. *)
Definition nonneg_row (row : list Q) : Prop :=
  forall x, (0 <= nth x row 0)%Q.

Definition nonneg_table (agg : list (list Q)) : Prop :=
  forall o, nonneg_row (nth o agg []).

End Fuzzy.

(** * Water meters (water_meter.h, water_meter.cpp) *)

Module WaterMeter.

Definition WATER_METER_DEBOUNCE_MS : Z := 50.
Definition METER_TOTALIZER_MAX : Z := 99999999.

Inductive meter_type_t : Set :=
| METER_TYPE_DISABLED
| METER_TYPE_CONTACTOR
| METER_TYPE_PADDLEWHEEL.

(** [water_meter_config_t] (config.h). *)
Record water_meter_config_t : Type := {
  type : meter_type_t;
  units : Z;
  volume_per_contact : Z;
  k_factor : Q;
  totalizer : Z;
  last_reset_time : Z
}.

Definition cfg_set_totalizer (v : Z) (cfg : water_meter_config_t)
  : water_meter_config_t :=
  {| type := type cfg;
     units := units cfg;
     volume_per_contact := volume_per_contact cfg;
     k_factor := k_factor cfg;
     totalizer := v;
     last_reset_time := last_reset_time cfg |}.

Definition cfg_set_last_reset_time (v : Z) (cfg : water_meter_config_t)
  : water_meter_config_t :=
  {| type := type cfg;
     units := units cfg;
     volume_per_contact := volume_per_contact cfg;
     k_factor := k_factor cfg;
     totalizer := totalizer cfg;
     last_reset_time := v |}.

(** A two-element array indexed by the meter id. *)
Definition get2 (id : nat) (a : Z * Z) : Z :=
  match id with
  | O => fst a
  | _ => snd a
  end.

Definition set2 (id : nat) (v : Z) (a : Z * Z) : Z * Z :=
  match id with
  | O => (v, snd a)
  | _ => (fst a, v)
  end.

(** The file-static data shared with the interrupt handler:
    [meter_pulse_counts[2]] and [meter_last_pulse_times[2]]. *)
Record isr_data : Type := {
  meter_pulse_counts : Z * Z;
  meter_last_pulse_times : Z * Z
}.

Definition isr_init : isr_data :=
  {| meter_pulse_counts := (0, 0); meter_last_pulse_times := (0, 0) |}.

(** [WaterMeter::handleInterrupt]: one falling edge on the input of
    meter [meter_id] at clock value [now]. *)
Definition handleInterrupt (meter_id : nat) (now : Z) (d : isr_data)
  : isr_data :=
  if (2 <=? meter_id)%nat then d
  else if WATER_METER_DEBOUNCE_MS
          <=? sub32 now (get2 meter_id (meter_last_pulse_times d)) then
    {| meter_pulse_counts :=
         set2 meter_id (add32 (get2 meter_id (meter_pulse_counts d)) 1)
           (meter_pulse_counts d);
       meter_last_pulse_times :=
         set2 meter_id now (meter_last_pulse_times d) |}
  else d.

(** A sequence of edges on one input. *)
Definition interrupts (meter_id : nat) (times : list Z) (d : isr_data)
  : isr_data :=
  fold_left (fun d t => handleInterrupt meter_id t d) times d.

(** The members of [WaterMeter] (the pin number and [_debounce_time],
    which is not read, are left out). *)
Record WaterMeter : Type := {
  _meter_id : nat;
  _config : option water_meter_config_t;
  _pulse_count : Z;
  _last_pulse_time : Z;
  _last_flow_calc_time : Z;
  _last_flow_pulse_count : Z;
  _flow_rate : Q;
  _last_query_pulse_count : Z;
  _last_query_volume : Q
}.

(** The meter after its constructor. *)
Definition init_meter (id : nat) : WaterMeter :=
  {| _meter_id := id;
     _config := None;
     _pulse_count := 0;
     _last_pulse_time := 0;
     _last_flow_calc_time := 0;
     _last_flow_pulse_count := 0;
     _flow_rate := 0;
     _last_query_pulse_count := 0;
     _last_query_volume := 0 |}.

(** [WaterMeter::configure] *)
Definition configure (config : option water_meter_config_t) (m : WaterMeter)
  : WaterMeter :=
  match config with
  | Some _ =>
      {| _meter_id := _meter_id m;
         _config := config;
         _pulse_count := 0;
         _last_pulse_time := _last_pulse_time m;
         _last_flow_calc_time := _last_flow_calc_time m;
         _last_flow_pulse_count := _last_flow_pulse_count m;
         _flow_rate := _flow_rate m;
         _last_query_pulse_count := 0;
         _last_query_volume := 0 |}
  | None =>
      {| _meter_id := _meter_id m;
         _config := None;
         _pulse_count := _pulse_count m;
         _last_pulse_time := _last_pulse_time m;
         _last_flow_calc_time := _last_flow_calc_time m;
         _last_flow_pulse_count := _last_flow_pulse_count m;
         _flow_rate := _flow_rate m;
         _last_query_pulse_count := _last_query_pulse_count m;
         _last_query_volume := _last_query_volume m |}
  end.

(** [WaterMeter::pulsesToVolume].  For a contactor the product is taken
    on [uint32_t] and converted to [float] on return, which rounds it
    from 2^24 upwards; for a paddlewheel the count is converted to
    [float] and divided in [float]. *)
Definition pulsesToVolume (config : option water_meter_config_t) (pulses : Z)
  : Q :=
  match config with
  | None => 0
  | Some cfg =>
      if pulses =? 0 then 0
      else
        match type cfg with
        | METER_TYPE_CONTACTOR =>
            round32 (inject_Z (mul32 pulses (volume_per_contact cfg)))
        | METER_TYPE_PADDLEWHEEL =>
            if Qgtb (k_factor cfg) 0
            then round32 (round32 (inject_Z pulses) / k_factor cfg)
            else 0
        | METER_TYPE_DISABLED => 0
        end
  end.

(** [WaterMeter::update], with the file-static counters and the clock as
    inputs.  The elapsed time is divided by the [double] 60000.0 and the
    quotient stored in a [float]; the flow rate and the volume difference
    are [float] operations. *)
Definition update (d : isr_data) (now : Z) (m : WaterMeter) : WaterMeter :=
  let current_pulses := get2 (_meter_id m) (meter_pulse_counts d) in
  let last_time := get2 (_meter_id m) (meter_last_pulse_times d) in
  let flow_due := 1000 <=? sub32 now (_last_flow_calc_time m) in
  let delta_pulses := sub32 current_pulses (_last_flow_pulse_count m) in
  let delta_time_min :=
    round32
      (round64 (inject_Z (sub32 now (_last_flow_calc_time m)) / 60000)) in
  let flow_rate :=
    if flow_due then
      match _config m with
      | Some _ =>
          if Qgtb delta_time_min 0
          then round32
                 (pulsesToVolume (_config m) delta_pulses / delta_time_min)
          else _flow_rate m
      | None => _flow_rate m
      end
    else _flow_rate m in
  let config :=
    match _config m with
    | Some cfg =>
        let current_volume := pulsesToVolume (_config m) current_pulses in
        let volume_delta :=
          float_to_uint32
            (round32 (current_volume - _last_query_volume m)) in
        let total := add32 (totalizer cfg) volume_delta in
        Some (cfg_set_totalizer
                (if METER_TOTALIZER_MAX <? total then 0 else total) cfg)
    | None => None
    end in
  {| _meter_id := _meter_id m;
     _config := config;
     _pulse_count := current_pulses;
     _last_pulse_time := last_time;
     _last_flow_calc_time :=
       if flow_due then now else _last_flow_calc_time m;
     _last_flow_pulse_count :=
       if flow_due then current_pulses else _last_flow_pulse_count m;
     _flow_rate := flow_rate;
     _last_query_pulse_count := _last_query_pulse_count m;
     _last_query_volume := _last_query_volume m |}.

(** [WaterMeter::getTotalVolume] *)
Definition getTotalVolume (m : WaterMeter) : Z :=
  match _config m with
  | Some cfg => totalizer cfg
  | None => 0
  end.

(** [WaterMeter::getContactsSinceLast]: the value returned and the meter
    with the query mark moved. *)
Definition getContactsSinceLast (m : WaterMeter) : Z * WaterMeter :=
  (sub32 (_pulse_count m) (_last_query_pulse_count m),
   {| _meter_id := _meter_id m;
      _config := _config m;
      _pulse_count := _pulse_count m;
      _last_pulse_time := _last_pulse_time m;
      _last_flow_calc_time := _last_flow_calc_time m;
      _last_flow_pulse_count := _last_flow_pulse_count m;
      _flow_rate := _flow_rate m;
      _last_query_pulse_count := _pulse_count m;
      _last_query_volume := _last_query_volume m |}).

(** [WaterMeter::getVolumeSinceLast] *)
Definition getVolumeSinceLast (m : WaterMeter) : Q * WaterMeter :=
  let current := pulsesToVolume (_config m) (_pulse_count m) in
  (round32 (current - _last_query_volume m),
   {| _meter_id := _meter_id m;
      _config := _config m;
      _pulse_count := _pulse_count m;
      _last_pulse_time := _last_pulse_time m;
      _last_flow_calc_time := _last_flow_calc_time m;
      _last_flow_pulse_count := _last_flow_pulse_count m;
      _flow_rate := _flow_rate m;
      _last_query_pulse_count := _last_query_pulse_count m;
      _last_query_volume := current |}).

(** [WaterMeter::resetTotal] *)
Definition resetTotal (d : isr_data) (now : Z) (m : WaterMeter)
  : isr_data * WaterMeter :=
  ({| meter_pulse_counts := set2 (_meter_id m) 0 (meter_pulse_counts d);
      meter_last_pulse_times := meter_last_pulse_times d |},
   {| _meter_id := _meter_id m;
      _config :=
        match _config m with
        | Some cfg =>
            Some (cfg_set_last_reset_time now (cfg_set_totalizer 0 cfg))
        | None => None
        end;
      _pulse_count := 0;
      _last_pulse_time := _last_pulse_time m;
      _last_flow_calc_time := _last_flow_calc_time m;
      _last_flow_pulse_count := 0;
      _flow_rate := _flow_rate m;
      _last_query_pulse_count := 0;
      _last_query_volume := 0 |}).

(** ** The polling of the control loop *)

(** One round of the control loop on a meter: [update] with the counters
    and clock of the round, then [getContactsSinceLast]; the contacts
    reported are summed on [uint32_t]. *)
Definition poll_round (s : Z * WaterMeter) (r : isr_data * Z)
  : Z * WaterMeter :=
  let '(sum, m) := s in
  let '(d, now) := r in
  let '(contacts, m) := getContactsSinceLast (update d now m) in
  (add32 sum contacts, m).

Definition poll (rounds : list (isr_data * Z)) (m : WaterMeter)
  : Z * WaterMeter :=
  fold_left poll_round rounds (0, m).

(** ** Example configuration *)

(** A contactor meter, 10 gallons per contact. *)
Definition contactor_config : water_meter_config_t :=
  {| type := METER_TYPE_CONTACTOR;
     units := 0;
     volume_per_contact := 10;
     k_factor := 1;
     totalizer := 0;
     last_reset_time := 0 |}.

Definition contactor_meter : WaterMeter :=
  configure (Some contactor_config) (init_meter 0).

(** Counters after three accepted contacts on meter 0. *)
Definition three_contacts : isr_data :=
  interrupts 0 [1000; 2000; 3000] isr_init.

(** A contact at 1000 ms that bounces until 1040 ms. *)
Definition bounce : list Z := [1003; 1010; 1022; 1040].

End WaterMeter.

(** * Properties *)

(** ** Machine arithmetic *)

Lemma wrap32_range z : 0 <= wrap32 z < 2 ^ 32.
Proof. unfold wrap32. apply Z.mod_pos_bound. lia. Qed.

Lemma wrap32_small z : 0 <= z < 2 ^ 32 -> wrap32 z = z.
Proof. intros H. unfold wrap32. apply Z.mod_small. exact H. Qed.

Lemma Qltb_lt x y : Qltb x y = true <-> (x < y)%Q.
Proof.
  unfold Qltb. rewrite negb_true_iff.
  split; intros H.
  - apply Qnot_le_lt. intros Hle. apply Qle_bool_iff in Hle. congruence.
  - destruct (Qle_bool y x) eqn:E; [|reflexivity].
    apply Qle_bool_iff in E. exfalso. eapply Qlt_not_le; eauto.
Qed.

Lemma Qltb_ge x y : Qltb x y = false <-> (y <= x)%Q.
Proof.
  unfold Qltb. rewrite negb_false_iff. apply Qle_bool_iff.
Qed.

Lemma Qgtb_gt x y : Qgtb x y = true <-> (y < x)%Q.
Proof. unfold Qgtb. apply Qltb_lt. Qed.

Lemma Qgtb_le x y : Qgtb x y = false <-> (x <= y)%Q.
Proof. unfold Qgtb. apply Qltb_ge. Qed.


(** ** Binary floating point *)

Section BinaryFloat.

Local Open Scope Q_scope.

Lemma Qpow2_pos e : 0 < Qpow2 e.
Proof. unfold Qpow2. apply Qpower_0_lt. reflexivity. Qed.

Lemma Qpow2_le e e' : (e <= e')%Z -> Qpow2 e <= Qpow2 e'.
Proof.
  intros H. unfold Qpow2. apply Qpower_le_compat_l; [exact H|].
  discriminate.
Qed.

Lemma Qpow2_lt_inv e e' : Qpow2 e < Qpow2 e' -> (e < e')%Z.
Proof.
  intros H. unfold Qpow2 in H.
  apply (Qpower_lt_compat_l_inv 2); [exact H | reflexivity].
Qed.

Lemma Qpow2_Z e : (0 <= e)%Z -> Qpow2 e == inject_Z (2 ^ e).
Proof. intros H. unfold Qpow2. rewrite Zpower_Qpower by exact H. reflexivity. Qed.

Lemma Qpow2_sub a b : Qpow2 (a - b) == Qpow2 a / Qpow2 b.
Proof. unfold Qpow2. apply Qpower_minus. discriminate. Qed.

Lemma Qpow2_add a b : Qpow2 (a + b) == Qpow2 a * Qpow2 b.
Proof. unfold Qpow2. apply Qpower_plus. discriminate. Qed.

(** *** Rounding to an integer *)

Ltac Qcompare_hyp H :=
  match type of H with
  | (_ ?= _) = Eq => apply Qeq_alt in H
  | (_ ?= _) = Lt => apply Qlt_alt in H
  | (_ ?= _) = Gt => apply Qgt_alt in H
  end.

Lemma rne_floor x : (Qfloor x <= rne x <= Qfloor x + 1)%Z.
Proof.
  unfold rne. destruct (_ ?= _); [destruct (Z.even _)| |]; lia.
Qed.

Lemma rne_comp x y : x == y -> rne x = rne y.
Proof.
  intros H. unfold rne.
  rewrite (Qfloor_comp x y H).
  assert (C : (x - inject_Z (Qfloor y) ?= 1 # 2)
              = (y - inject_Z (Qfloor y) ?= 1 # 2)).
  { apply Qcompare_comp; [rewrite H|]; reflexivity. }
  rewrite C. reflexivity.
Qed.

Lemma rne_Z z : rne (inject_Z z) = z.
Proof.
  unfold rne. rewrite Qfloor_Z.
  assert (E : (inject_Z z - inject_Z z ?= 1 # 2) = Lt).
  { apply Qlt_alt. setoid_replace (inject_Z z - inject_Z z) with 0 by ring.
    reflexivity. }
  rewrite E. reflexivity.
Qed.

Lemma rne_mono x y : x <= y -> (rne x <= rne y)%Z.
Proof.
  intros H.
  pose proof (Qfloor_resp_le x y H) as F.
  pose proof (rne_floor x) as Rx. pose proof (rne_floor y) as Ry.
  destruct (Z.eq_dec (Qfloor x) (Qfloor y)) as [E|E]; [|lia].
  unfold rne. rewrite <- E.
  set (f := inject_Z (Qfloor x)).
  destruct (x - f ?= 1 # 2) eqn:Cx; destruct (y - f ?= 1 # 2) eqn:Cy;
    try (destruct (Z.even (Qfloor x))); try lia;
    exfalso;
    Qcompare_hyp Cx; Qcompare_hyp Cy; clearbody f; lra.
Qed.

Lemma rne_ge_Z z x : inject_Z z <= x -> (z <= rne x)%Z.
Proof. intros H. rewrite <- (rne_Z z). apply rne_mono. exact H. Qed.

Lemma rne_le_Z z x : x <= inject_Z z -> (rne x <= z)%Z.
Proof. intros H. rewrite <- (rne_Z z). apply rne_mono. exact H. Qed.

(** *** The binary exponent *)

Lemma Qpow2_sub_le (x y n : Z) (d : positive) :
  (0 <= x)%Z -> (0 <= y)%Z ->
  (2 ^ x * Zpos d <= n * 2 ^ y)%Z -> Qpow2 (x - y) <= n # d.
Proof.
  intros Hx Hy H. rewrite Qpow2_sub, !Qpow2_Z by assumption.
  assert (P : (0 < 2 ^ y)%Z) by (apply Z.pow_pos_nonneg; lia).
  apply Qle_shift_div_r.
  - change 0 with (inject_Z 0). rewrite <- Zlt_Qlt. exact P.
  - unfold Qle. cbn. lia.
Qed.

Lemma Qpow2_sub_gt (x y n : Z) (d : positive) :
  (0 <= x)%Z -> (0 <= y)%Z ->
  (n * 2 ^ y < 2 ^ x * Zpos d)%Z -> n # d < Qpow2 (x - y).
Proof.
  intros Hx Hy H. rewrite Qpow2_sub, !Qpow2_Z by assumption.
  assert (P : (0 < 2 ^ y)%Z) by (apply Z.pow_pos_nonneg; lia).
  apply Qlt_shift_div_l.
  - change 0 with (inject_Z 0). rewrite <- Zlt_Qlt. exact P.
  - unfold Qlt. cbn. lia.
Qed.

Lemma ilog2_spec q :
  0 < q -> Qpow2 (ilog2 q) <= q /\ q < Qpow2 (ilog2 q + 1).
Proof.
  destruct q as [n d]. intros Hq.
  assert (Hn : (0 < n)%Z) by (unfold Qlt in Hq; cbn in Hq; lia).
  unfold ilog2. cbn [Qnum Qden].
  set (a := Z.log2 n). set (b := Z.log2 (Zpos d)).
  destruct (Z.log2_spec n Hn) as (A1 & A2). fold a in A1, A2.
  destruct (Z.log2_spec (Zpos d) eq_refl) as (B1 & B2). fold b in B1, B2.
  assert (Ha : (0 <= a)%Z) by apply Z.log2_nonneg.
  assert (Hb : (0 <= b)%Z) by apply Z.log2_nonneg.
  assert (Pa : (0 < 2 ^ a)%Z) by (apply Z.pow_pos_nonneg; lia).
  assert (Pb : (0 < 2 ^ b)%Z) by (apply Z.pow_pos_nonneg; lia).
  rewrite Z.pow_succ_r in A2, B2 by assumption.
  assert (Up : n # d < Qpow2 (a - b + 1)).
  { replace (a - b + 1)%Z with (Z.succ a - b)%Z by lia.
    apply Qpow2_sub_gt; [lia | lia |].
    rewrite Z.pow_succ_r by assumption. nia. }
  assert (Lo : Qpow2 (a - b - 1) <= n # d).
  { replace (a - b - 1)%Z with (a - Z.succ b)%Z by lia.
    apply Qpow2_sub_le; [lia | lia |].
    rewrite Z.pow_succ_r by assumption. nia. }
  destruct (Qle_bool (Qpow2 (a - b)) (n # d)) eqn:E.
  - apply Qle_bool_iff in E. split; assumption.
  - split; [exact Lo|].
    replace (a - b - 1 + 1)%Z with (a - b)%Z by lia.
    apply Qnot_le_lt. intros C. apply Qle_bool_iff in C. congruence.
Qed.

Lemma ilog2_mono x y : 0 < x -> x <= y -> (ilog2 x <= ilog2 y)%Z.
Proof.
  intros Hx H.
  destruct (ilog2_spec x Hx) as (X1 & _).
  destruct (ilog2_spec y) as (_ & Y2); [lra|].
  assert (L : Qpow2 (ilog2 x) < Qpow2 (ilog2 y + 1)) by lra.
  apply Qpow2_lt_inv in L. lia.
Qed.

Lemma ilog2_unique q e :
  0 < q -> Qpow2 e <= q -> q < Qpow2 (e + 1) -> ilog2 q = e.
Proof.
  intros Hq L U.
  destruct (ilog2_spec q Hq) as (L' & U').
  assert (A : Qpow2 e < Qpow2 (ilog2 q + 1)) by lra.
  assert (B : Qpow2 (ilog2 q) < Qpow2 (e + 1)) by lra.
  apply Qpow2_lt_inv in A. apply Qpow2_lt_inv in B. lia.
Qed.

Lemma ilog2_comp x y : 0 < x -> x == y -> ilog2 x = ilog2 y.
Proof.
  intros Hx E. symmetry.
  destruct (ilog2_spec x Hx) as (L & U).
  apply ilog2_unique; lra.
Qed.

(** *** Rounding a positive value *)

Section Rounding.

Variables prec emin : Z.
Hypothesis prec_pos : (0 < prec)%Z.

Lemma round_pos_eq q :
  round_pos prec emin q
  == inject_Z (rne (q / Qpow2 (quantum prec emin q))) * Qpow2 (quantum prec emin q).
Proof. unfold round_pos. apply Qred_correct. Qed.

Lemma round_pos_comp x y :
  0 < x -> x == y -> round_pos prec emin x = round_pos prec emin y.
Proof.
  intros Hx E. unfold round_pos, quantum.
  rewrite <- (ilog2_comp x y Hx E).
  apply Qred_complete.
  set (k := Z.max emin (ilog2 x - (prec - 1))).
  pose proof (Qpow2_pos k) as Pk.
  rewrite (rne_comp (x / Qpow2 k) (y / Qpow2 k)); [reflexivity|].
  rewrite E. reflexivity.
Qed.

Lemma scaled_Z (z : Z) k : inject_Z z * Qpow2 k / Qpow2 k == inject_Z z.
Proof. pose proof (Qpow2_pos k). field. lra. Qed.

(** A value at most a power of two on the grid rounds to at most it, and
    a value at least such a power rounds to at least it. *)
Lemma round_pos_le_pow2 q e :
  0 < q -> q <= Qpow2 e -> (quantum prec emin q <= e)%Z ->
  round_pos prec emin q <= Qpow2 e.
Proof.
  intros Hq H Hk. rewrite round_pos_eq.
  set (k := quantum prec emin q) in *.
  pose proof (Qpow2_pos k) as Pk.
  assert (E : Qpow2 e == inject_Z (2 ^ (e - k)) * Qpow2 k).
  { rewrite <- Qpow2_Z by lia. rewrite <- Qpow2_add.
    replace (e - k + k)%Z with e by lia. reflexivity. }
  rewrite E. apply Qmult_le_compat_r; [|lra].
  rewrite <- Zle_Qle. apply rne_le_Z.
  apply Qle_shift_div_r; [exact Pk|]. rewrite <- E. exact H.
Qed.

Lemma round_pos_ge_pow2 q e :
  0 < q -> Qpow2 e <= q -> (quantum prec emin q <= e)%Z ->
  Qpow2 e <= round_pos prec emin q.
Proof.
  intros Hq H Hk. rewrite round_pos_eq.
  set (k := quantum prec emin q) in *.
  pose proof (Qpow2_pos k) as Pk.
  assert (E : Qpow2 e == inject_Z (2 ^ (e - k)) * Qpow2 k).
  { rewrite <- Qpow2_Z by lia. rewrite <- Qpow2_add.
    replace (e - k + k)%Z with e by lia. reflexivity. }
  rewrite E. apply Qmult_le_compat_r; [|lra].
  rewrite <- Zle_Qle. apply rne_ge_Z.
  apply Qle_shift_div_l; [exact Pk|]. rewrite <- E. exact H.
Qed.

Lemma round_pos_nonneg q : 0 < q -> 0 <= round_pos prec emin q.
Proof.
  intros Hq. rewrite round_pos_eq.
  pose proof (Qpow2_pos (quantum prec emin q)) as Pk.
  apply Qmult_le_0_compat; [|lra].
  change 0 with (inject_Z 0). rewrite <- Zle_Qle. apply rne_ge_Z.
  apply Qle_shift_div_l; [exact Pk|]. change (inject_Z 0) with 0. lra.
Qed.

Lemma round_pos_mono x y :
  0 < x -> x <= y -> round_pos prec emin x <= round_pos prec emin y.
Proof.
  intros Hx H.
  assert (Hy : 0 < y) by lra.
  pose proof (ilog2_mono x y Hx H) as He.
  destruct (Z.eq_dec (quantum prec emin x) (quantum prec emin y)) as [E|E].
  - rewrite !round_pos_eq. rewrite E.
    pose proof (Qpow2_pos (quantum prec emin y)) as Pk.
    apply Qmult_le_compat_r; [|lra].
    rewrite <- Zle_Qle. apply rne_mono.
    apply Qle_shift_div_l; [exact Pk|].
    assert (F : x / Qpow2 (quantum prec emin y) * Qpow2 (quantum prec emin y) == x) by (field; lra).
    rewrite F. exact H.
  - assert (Hk : (quantum prec emin x < quantum prec emin y)%Z)
      by (unfold quantum in *; lia).
    assert (Ky : quantum prec emin y = (ilog2 y - (prec - 1))%Z)
      by (unfold quantum in *; lia).
    assert (Lt : (ilog2 x < ilog2 y)%Z) by (unfold quantum in *; lia).
    destruct (ilog2_spec x Hx) as (_ & X2).
    destruct (ilog2_spec y Hy) as (Y1 & _).
    assert (B : x <= Qpow2 (ilog2 y)).
    { apply Qle_trans with (y := Qpow2 (ilog2 x + 1)); [lra|].
      apply Qpow2_le. lia. }
    apply Qle_trans with (y := Qpow2 (ilog2 y)).
    + apply round_pos_le_pow2; [exact Hx | exact B | lia].
    + apply round_pos_ge_pow2; [exact Hy | exact Y1 | lia].
Qed.

(** A value [m * 2^k] with [m] below [2^prec] and [k] at least [emin]
    is a value of the format: rounding leaves it as it is. *)
Lemma round_pos_exact q (m k0 : Z) :
  (0 < m < 2 ^ prec)%Z -> (emin <= k0)%Z ->
  q == inject_Z m * Qpow2 k0 ->
  round_pos prec emin q == q.
Proof.
  intros Hm Hk Hq.
  pose proof (Qpow2_pos k0) as P0.
  assert (Q0 : 0 < q).
  { rewrite Hq. apply Qmult_lt_0_compat; [|exact P0].
    change 0 with (inject_Z 0). rewrite <- Zlt_Qlt. lia. }
  destruct (ilog2_spec q Q0) as (S1 & _).
  assert (U : q < Qpow2 (k0 + prec)).
  { rewrite Hq, Qpow2_add, (Qmult_comm (Qpow2 k0)).
    apply Qmult_lt_r; [exact P0|].
    rewrite Qpow2_Z by lia. rewrite <- Zlt_Qlt. lia. }
  assert (L : Qpow2 (ilog2 q) < Qpow2 (k0 + prec)) by lra.
  apply Qpow2_lt_inv in L.
  rewrite round_pos_eq.
  set (k := quantum prec emin q).
  assert (Kk : (k <= k0)%Z) by (subst k; unfold quantum; lia).
  pose proof (Qpow2_pos k) as Pk.
  assert (E : q / Qpow2 k == inject_Z (m * 2 ^ (k0 - k))).
  { rewrite Hq, inject_Z_mult. rewrite <- (Qpow2_Z (k0 - k)) by lia.
    rewrite Qpow2_sub. field. lra. }
  rewrite (rne_comp _ _ E), rne_Z.
  rewrite <- E. field. lra.
Qed.

(** *** Rounding *)

Lemma round_binary_pos q : 0 < q -> round_binary prec emin q = round_pos prec emin q.
Proof.
  intros H. unfold round_binary.
  destruct (q ?= 0) eqn:E; Qcompare_hyp E; solve [reflexivity | lra].
Qed.

Lemma round_binary_neg q :
  q < 0 -> round_binary prec emin q = - round_pos prec emin (- q).
Proof.
  intros H. unfold round_binary.
  destruct (q ?= 0) eqn:E; Qcompare_hyp E; solve [reflexivity | lra].
Qed.

Lemma round_binary_zero q : q == 0 -> round_binary prec emin q = 0.
Proof.
  intros H. unfold round_binary.
  destruct (q ?= 0) eqn:E; Qcompare_hyp E; solve [reflexivity | lra].
Qed.

Lemma round_binary_nonneg q : 0 <= q -> 0 <= round_binary prec emin q.
Proof.
  intros H. destruct (Qlt_le_dec 0 q) as [P|P].
  - rewrite round_binary_pos by exact P. apply round_pos_nonneg. exact P.
  - rewrite round_binary_zero by lra. lra.
Qed.

Lemma round_binary_nonpos q : q <= 0 -> round_binary prec emin q <= 0.
Proof.
  intros H. destruct (Qlt_le_dec q 0) as [P|P].
  - rewrite round_binary_neg by exact P.
    assert (N : 0 <= round_pos prec emin (- q))
      by (apply round_pos_nonneg; lra).
    lra.
  - rewrite round_binary_zero by lra. lra.
Qed.

(** Rounding is monotone. *)
Lemma round_binary_mono x y :
  x <= y -> round_binary prec emin x <= round_binary prec emin y.
Proof.
  intros H.
  destruct (Qlt_le_dec 0 x) as [Px|Px].
  - rewrite !round_binary_pos by lra. apply round_pos_mono; assumption.
  - destruct (Qlt_le_dec y 0) as [Py|Py].
    + rewrite !round_binary_neg by lra.
      assert (M : round_pos prec emin (- y) <= round_pos prec emin (- x))
        by (apply round_pos_mono; lra).
      lra.
    + apply Qle_trans with (y := 0);
        [apply round_binary_nonpos | apply round_binary_nonneg]; assumption.
Qed.

(** Rounding is exact on the values of the format. *)
Lemma round_binary_exact q (m k0 : Z) :
  (Z.abs m < 2 ^ prec)%Z -> (emin <= k0)%Z ->
  q == inject_Z m * Qpow2 k0 ->
  round_binary prec emin q == q.
Proof.
  intros Hm Hk Hq.
  pose proof (Qpow2_pos k0) as P0.
  destruct (Z.lt_trichotomy m 0) as [N|[Z0|P]].
  - assert (Q0 : q < 0).
    { rewrite Hq.
      assert (I : inject_Z m < 0)
        by (change 0 with (inject_Z 0); rewrite <- Zlt_Qlt; exact N).
      assert (J : 0 < - inject_Z m * Qpow2 k0)
        by (apply Qmult_lt_0_compat; lra).
      lra. }
    rewrite round_binary_neg by exact Q0.
    rewrite (round_pos_exact (- q) (- m) k0); [lra | lia | exact Hk |].
    rewrite Hq, inject_Z_opp. ring.
  - subst m. rewrite round_binary_zero; [|rewrite Hq; ring].
    rewrite Hq. ring.
  - assert (Q0 : 0 < q).
    { rewrite Hq. apply Qmult_lt_0_compat; [|exact P0].
      change 0 with (inject_Z 0). rewrite <- Zlt_Qlt. exact P. }
    rewrite round_binary_pos by exact Q0.
    apply (round_pos_exact q m k0); [lia | exact Hk | exact Hq].
Qed.

(** Rounding depends on the value only, not on the fraction that
    represents it. *)
Lemma round_binary_comp x y :
  x == y -> round_binary prec emin x = round_binary prec emin y.
Proof.
  intros E. unfold round_binary.
  rewrite <- (Qcompare_comp x y E 0 0 (Qeq_refl 0)).
  destruct (x ?= 0) eqn:C; Qcompare_hyp C.
  - reflexivity.
  - f_equal. apply round_pos_comp; lra.
  - apply round_pos_comp; lra.
Qed.

End Rounding.

(** *** binary32 *)

Lemma round32_mono x y : x <= y -> round32 x <= round32 y.
Proof. apply round_binary_mono; reflexivity. Qed.

Lemma round32_nonneg q : 0 <= q -> 0 <= round32 q.
Proof. apply round_binary_nonneg; reflexivity. Qed.

Lemma round32_nonpos q : q <= 0 -> round32 q <= 0.
Proof. apply round_binary_nonpos; reflexivity. Qed.

Lemma round32_comp x y : x == y -> round32 x = round32 y.
Proof. apply round_binary_comp. Qed.

(** An integer below [2^24] in magnitude is a binary32 value. *)
Lemma round32_Z z : (Z.abs z < 2 ^ 24)%Z -> round32 (inject_Z z) == inject_Z z.
Proof.
  intros H. apply (round_binary_exact 24 (-149) eq_refl _ z 0); [exact H|lia|].
  change (Qpow2 0) with 1. ring.
Qed.

(** So is such an integer times a power of two. *)
Lemma round32_Z_shift z (m k : Z) :
  (Z.abs m < 2 ^ 24)%Z -> (0 <= k)%Z -> z = (m * 2 ^ k)%Z ->
  round32 (inject_Z z) == inject_Z z.
Proof.
  intros Hm Hk ->.
  apply (round_binary_exact 24 (-149) eq_refl _ m k); [exact Hm|lia|].
  rewrite inject_Z_mult, Qpow2_Z by exact Hk. reflexivity.
Qed.

(** *** The rounding error *)

Lemma rne_error x :
  x - (1 # 2) <= inject_Z (rne x) <= x + (1 # 2).
Proof.
  unfold rne.
  pose proof (Qfloor_le x) as L. pose proof (Qlt_floor x) as U.
  rewrite inject_Z_plus in U. change (inject_Z 1) with 1 in U.
  set (f := Qfloor x) in *.
  destruct (x - inject_Z f ?= 1 # 2) eqn:C; Qcompare_hyp C.
  - destruct (Z.even f).
    + lra.
    + rewrite inject_Z_plus. change (inject_Z 1) with 1. lra.
  - lra.
  - rewrite inject_Z_plus. change (inject_Z 1) with 1. lra.
Qed.

Lemma round_pos_error prec emin q :
  0 < q ->
  q - Qpow2 (quantum prec emin q) / 2
  <= round_pos prec emin q
  <= q + Qpow2 (quantum prec emin q) / 2.
Proof.
  intros Hq. rewrite round_pos_eq.
  set (k := quantum prec emin q).
  pose proof (Qpow2_pos k) as Pk.
  pose proof (rne_error (q / Qpow2 k)) as (L & U).
  assert (L' : (q / Qpow2 k - (1 # 2)) * Qpow2 k
               <= inject_Z (rne (q / Qpow2 k)) * Qpow2 k)
    by (apply Qmult_le_compat_r; lra).
  assert (U' : inject_Z (rne (q / Qpow2 k)) * Qpow2 k
               <= (q / Qpow2 k + (1 # 2)) * Qpow2 k)
    by (apply Qmult_le_compat_r; lra).
  split.
  - setoid_replace (q - Qpow2 k / 2)
      with ((q / Qpow2 k - (1 # 2)) * Qpow2 k); [exact L'|].
    field. lra.
  - setoid_replace (q + Qpow2 k / 2)
      with ((q / Qpow2 k + (1 # 2)) * Qpow2 k); [exact U'|].
    field. lra.
Qed.

(** In binary32 the error is at most the value times 2^-24, plus 2^-150
    in the subnormal range. *)
Lemma round32_error q :
  0 <= q ->
  q - (q * (1 # 16777216) + Qpow2 (-150))
  <= round32 q
  <= q + (q * (1 # 16777216) + Qpow2 (-150)).
Proof.
  intros H0.
  pose proof (Qpow2_pos (-150)) as Pe.
  destruct (Qlt_le_dec 0 q) as [Hq|Hq].
  - unfold round32. rewrite round_binary_pos by exact Hq.
    pose proof (round_pos_error 24 (-149) q Hq) as (L & U).
    assert (B : Qpow2 (quantum 24 (-149) q) / 2
                <= q * (1 # 16777216) + Qpow2 (-150)).
    { unfold quantum.
      destruct (ilog2_spec q Hq) as (S1 & _).
      destruct (Z.max_spec (-149) (ilog2 q - (24 - 1))) as [(_ & ->)|(_ & ->)].
      - replace (ilog2 q - (24 - 1))%Z with (ilog2 q - 23)%Z by lia.
        rewrite Qpow2_sub.
        assert (E : Qpow2 (ilog2 q) / Qpow2 23 / 2
                    == Qpow2 (ilog2 q) * (1 # 16777216)).
        { change (Qpow2 23) with (8388608 # 1). field. }
        rewrite E. lra.
      - assert (E : Qpow2 (-149) / 2 == Qpow2 (-150))
          by (vm_compute; reflexivity).
        rewrite E. lra. }
    lra.
  - assert (Z0 : q == 0) by lra.
    rewrite (round32_comp q 0 Z0). change (round32 0) with 0. lra.
Qed.

(** *** The cast to an integer *)

Lemma Qtrunc_comp x y : x == y -> Qtrunc x = Qtrunc y.
Proof.
  intros H. unfold Qtrunc.
  rewrite (Qleb_comp 0 0 (Qeq_refl 0) x y H).
  rewrite (Qfloor_comp x y H), (Qceiling_comp x y H). reflexivity.
Qed.

Lemma Qtrunc_Z z : Qtrunc (inject_Z z) = z.
Proof.
  unfold Qtrunc. destruct (Qle_bool 0 (inject_Z z));
    [apply Qfloor_Z | apply Qceiling_Z].
Qed.

Lemma Qtrunc_mono x y : x <= y -> (Qtrunc x <= Qtrunc y)%Z.
Proof.
  intros H. unfold Qtrunc.
  destruct (Qle_bool 0 x) eqn:Ex; destruct (Qle_bool 0 y) eqn:Ey.
  - apply Qfloor_resp_le. exact H.
  - apply Qle_bool_iff in Ex.
    assert (C : Qle_bool 0 y = true) by (apply Qle_bool_iff; lra).
    congruence.
  - apply Qle_bool_iff in Ey.
    assert (Nx : x < 0).
    { apply Qnot_le_lt. intros C. apply Qle_bool_iff in C. congruence. }
    assert (A : (Qceiling x <= 0)%Z).
    { rewrite <- (Qceiling_Z 0). apply Qceiling_resp_le.
      change (inject_Z 0) with 0. lra. }
    assert (B : (0 <= Qfloor y)%Z).
    { rewrite <- (Qfloor_Z 0). apply Qfloor_resp_le. exact Ey. }
    lia.
  - apply Qceiling_resp_le. exact H.
Qed.

Lemma Qtrunc_nonneg x : 0 <= x -> (0 <= Qtrunc x)%Z.
Proof. intros H. rewrite <- (Qtrunc_Z 0). apply Qtrunc_mono. exact H. Qed.

Lemma float_to_uint32_comp x y : x == y -> float_to_uint32 x = float_to_uint32 y.
Proof. intros H. unfold float_to_uint32. rewrite (Qtrunc_comp x y H). reflexivity. Qed.

Lemma float_to_uint32_Z z :
  (0 <= z < 2 ^ 32)%Z -> float_to_uint32 (inject_Z z) = z.
Proof.
  intros H. unfold float_to_uint32. rewrite Qtrunc_Z.
  unfold wrap32. apply Z.mod_small. exact H.
Qed.

End BinaryFloat.

(** ** Blowdown controller *)

Module BlowdownProps.

Import Blowdown.

(** Case analysis on the first condition that blocks evaluation. *)
Ltac case_cond :=
  match goal with
  | |- context [if ?b then _ else _] =>
      let E := fresh "E" in destruct b eqn:E
  | |- context [match ?x with Some _ => _ | None => _ end] =>
      let E := fresh "E" in destruct x eqn:E
  end.

Ltac cases := repeat (cbn in *; try case_cond).

(** *** Frame facts about the valve operations *)

Lemma closeValve_relay now c :
  relay_energized (_status (closeValve now c)) = false.
Proof. unfold closeValve. cases; reflexivity. Qed.

Lemma closeValve_solenoid now c :
  has_ball_valve c = false ->
  valve_open (_status (closeValve now c)) = false
  /\ state (_status (closeValve now c)) = BD_STATE_IDLE.
Proof. intros H. unfold closeValve. rewrite H. cases; split; reflexivity. Qed.

Lemma openValve_relay now c :
  relay_energized (_status (openValve now c)) = true.
Proof. unfold openValve. destruct (has_ball_valve c); reflexivity. Qed.

(** The interlock as [update] implements it: without flow the tick
    touches the valve only when [valve_open] is set. *)
Lemma update_no_flow now v c :
  update now v false c =
  let c0 := upd_status (set_last_conductivity v) c in
  if valve_open (_status c) then closeValve now c0 else c0.
Proof. reflexivity. Qed.

(** Where the interlock does act it de-energises the relay. *)
Lemma update_no_flow_open_valve now v c :
  valve_open (_status c) = true ->
  relay_energized (_status (update now v false c)) = false.
Proof.
  intros H. rewrite update_no_flow. cbn zeta. rewrite H.
  apply closeValve_relay.
Qed.

(** For a solenoid valve the interlock leaves the valve closed. *)
Lemma update_no_flow_solenoid now v c :
  has_ball_valve c = false ->
  valve_open (_status (update now v false c)) = false.
Proof.
  intros H. rewrite update_no_flow. cbn zeta.
  destruct (valve_open (_status c)) eqn:E.
  - apply closeValve_solenoid. exact H.
  - exact E.
Qed.

(** C1 (no-flow interlock).  A tick without flow does not close a ball
    valve that is on its way open: when the tick starts in ValveOpening
    ([valve_open] still false, relay energised) the controller is left in
    ValveOpening with the relay energised, and [isActive] stays true. *)
Theorem update_no_flow_keeps_valve_opening now v c :
  state (_status c) = BD_STATE_VALVE_OPENING ->
  valve_open (_status c) = false ->
  relay_energized (_status c) = true ->
  let c' := update now v false c in
  state (_status c') = BD_STATE_VALVE_OPENING
  /\ relay_energized (_status c') = true
  /\ isActive c' = true.
Proof.
  intros Hs Hv Hr c'. subst c'. rewrite update_no_flow. cbn zeta.
  rewrite Hv. unfold isActive. cbn. rewrite Hs, Hr.
  repeat split. apply orb_true_r.
Qed.

(** The failing run: a ball valve (5 s travel), conductivity 2600 above
    the setpoint 2500.  The tick at 1000 ms starts opening the valve; flow
    is lost at 1100 ms and the valve keeps opening. *)
Lemma update_no_flow_keeps_valve_opening_witness :
  let c1 := update 1000 2600 true ball_valve_controller in
  let c2 := update 1100 2600 false c1 in
  (state (_status c1) = BD_STATE_VALVE_OPENING
   /\ valve_open (_status c1) = false
   /\ relay_energized (_status c1) = true)
  /\ state (_status c2) = BD_STATE_VALVE_OPENING
  /\ relay_energized (_status c2) = true
  /\ isActive c2 = true.
Proof.
  split.
  - repeat split; reflexivity.
  - apply (update_no_flow_keeps_valve_opening 1100 2600
             (update 1000 2600 true ball_valve_controller));
      reflexivity.
Defined.

(** With flow back the opening completes: the valve ends up open although
    the interlock was raised while it travelled. *)
Lemma no_flow_then_valve_opens :
  let c1 := update 1000 2600 true ball_valve_controller in
  let c2 := update 1100 2600 false c1 in
  let c3 := update 6000 2600 true c2 in
  valve_open (_status c3) = true
  /\ state (_status c3) = BD_STATE_BLOWING_DOWN.
Proof. split; reflexivity. Qed.

(** A ball valve that is open when flow is lost is commanded closed but
    [valve_open] stays set for as long as flow is absent: the completion
    check does not run on a tick without flow. *)
Lemma no_flow_ball_valve_stays_flagged_open now v c :
  has_ball_valve c = true ->
  valve_open (_status c) = true ->
  let c' := update now v false c in
  valve_open (_status c') = true
  /\ state (_status c') = BD_STATE_VALVE_CLOSING
  /\ has_ball_valve c' = true.
Proof.
  intros Hb Hv c'. subst c'. rewrite update_no_flow. cbn zeta. rewrite Hv.
  unfold closeValve.
  assert (Hb' : has_ball_valve (upd_status (set_last_conductivity v) c) = true)
    by exact Hb.
  rewrite Hb'. cbn. auto.
Qed.



(** *** The tick with flow present, in Auto *)

Lemma state_eqb_eq a b : state_eqb a b = true <-> a = b.
Proof. destruct a, b; cbn; split; congruence. Qed.

Lemma update_auto_flow now v c :
  hoa_mode (_status c) = HOA_AUTO ->
  in_transition c = false ->
  update now v true c =
  updateBlowdownTimer now
    (checkTimeout now
       (processSamplingMode now v (upd_status (set_last_conductivity v) c))).
Proof.
  intros Hh Ht. unfold update, processHOA. cbn. rewrite Hh.
  unfold in_transition in Ht. cbn. rewrite Hh.
  destruct (state (_status c)); cbn in Ht; try discriminate; reflexivity.
Qed.

Lemma update_auto_transition now v c :
  hoa_mode (_status c) = HOA_AUTO ->
  in_transition c = true ->
  update now v true c =
  checkBallValveComplete now (upd_status (set_last_conductivity v) c).
Proof.
  intros Hh Ht. unfold update, processHOA. cbn. rewrite Hh.
  unfold in_transition in Ht. cbn. rewrite Hh.
  destruct (state (_status c)); cbn in Ht; try discriminate; reflexivity.
Qed.

Lemma processSamplingMode_continuous now v c :
  is_continuous c = true ->
  processSamplingMode now v c = processContinuousMode now v c.
Proof.
  unfold is_continuous, processSamplingMode.
  destruct (_cond_config c) as [cc|]; [|reflexivity].
  destruct (sample_mode cc); intros H; try discriminate; reflexivity.
Qed.

(** [checkTimeout] and the timer refresh leave a controller that is not
    discharging as it is. *)
Lemma checkTimeout_not_discharging now c :
  state (_status c) <> BD_STATE_BLOWING_DOWN ->
  updateBlowdownTimer now (checkTimeout now c) = c.
Proof.
  intros H. unfold checkTimeout, updateBlowdownTimer.
  assert (E : state_eqb (state (_status c)) BD_STATE_BLOWING_DOWN = false).
  { destruct (state_eqb _ _) eqn:E; [|reflexivity].
    apply state_eqb_eq in E. contradiction. }
  destruct (_config c) as [cfg|]; [|rewrite E; reflexivity].
  destruct (time_limit_seconds cfg =? 0); rewrite E; rewrite ?E; reflexivity.
Qed.

(** While the limit is not reached they only refresh the timer. *)
Lemma checkTimeout_not_due now c :
  timeout_not_due c ->
  checkTimeout now c = c.
Proof.
  unfold timeout_not_due, checkTimeout.
  destruct (_config c) as [cfg|]; [|reflexivity].
  intros [H|H].
  - rewrite H. reflexivity.
  - destruct (time_limit_seconds cfg =? 0); [reflexivity|].
    destruct (state_eqb _ _); [|reflexivity].
    destruct (Z.leb_spec (time_limit_seconds cfg * 1000)
                (current_blowdown_time (_status c))); [lia|reflexivity].
Qed.

Lemma updateBlowdownTimer_frame now c :
  state (_status (updateBlowdownTimer now c)) = state (_status c)
  /\ valve_open (_status (updateBlowdownTimer now c)) = valve_open (_status c)
  /\ relay_energized (_status (updateBlowdownTimer now c))
     = relay_energized (_status c).
Proof. unfold updateBlowdownTimer. cases; auto. Qed.

Lemma timeout_not_due_frame c1 c2 :
  _config c2 = _config c1 ->
  current_blowdown_time (_status c2) = current_blowdown_time (_status c1) ->
  timeout_not_due c1 -> timeout_not_due c2.
Proof. unfold timeout_not_due. intros -> ->. auto. Qed.

Lemma openValve_frame now c :
  _config (openValve now c) = _config c
  /\ current_blowdown_time (_status (openValve now c))
     = current_blowdown_time (_status c).
Proof. unfold openValve. cases; auto. Qed.

Lemma closeValve_frame now c :
  _config (closeValve now c) = _config c
  /\ current_blowdown_time (_status (closeValve now c))
     = current_blowdown_time (_status c).
Proof. unfold closeValve. cases; auto. Qed.

Lemma openValve_solenoid now c :
  has_ball_valve c = false ->
  valve_open (_status (openValve now c)) = true
  /\ state (_status (openValve now c)) = BD_STATE_BLOWING_DOWN.
Proof. intros H. unfold openValve. rewrite H. split; reflexivity. Qed.

Lemma openValve_ball now c :
  has_ball_valve c = true ->
  valve_open (_status (openValve now c)) = valve_open (_status c)
  /\ state (_status (openValve now c)) = BD_STATE_VALVE_OPENING.
Proof. intros H. unfold openValve. rewrite H. split; reflexivity. Qed.

Lemma closeValve_ball now c :
  has_ball_valve c = true ->
  valve_open (_status (closeValve now c)) = valve_open (_status c)
  /\ state (_status (closeValve now c)) = BD_STATE_VALVE_CLOSING.
Proof. intros H. unfold closeValve. rewrite H. split; reflexivity. Qed.

Lemma in_transition_false c :
  in_transition c = false ->
  state (_status c) <> BD_STATE_VALVE_OPENING
  /\ state (_status c) <> BD_STATE_VALVE_CLOSING.
Proof.
  unfold in_transition. intros H. apply orb_false_iff in H.
  destruct H as [H1 H2].
  split; intros E; rewrite E in *; discriminate.
Qed.

(** C3 (continuous mode, direction HIGH), as the code has it.  On a tick
    in Auto with flow present that does not start in a ball-valve travel
    state and on which the time limit is not due: above the setpoint the
    valve is open after the tick for a solenoid valve, and open or opening
    (ValveOpening, relay energised) for a ball valve; an open valve is
    closed, or sent closing, only by a reading below setpoint - deadband;
    a reading inside the deadband leaves valve, relay and state as they
    were. *)
Theorem continuous_high_hysteresis now v c cfg :
  _config c = Some cfg ->
  control_direction cfg = 0 ->
  0 <= deadband cfg ->
  is_continuous c = true ->
  hoa_mode (_status c) = HOA_AUTO ->
  waiting_for_reset (_status c) = false ->
  in_transition c = false ->
  timeout_not_due c ->
  let c' := update now v true c in
  ((inject_Z (setpoint cfg) < v)%Q ->
   (ball_valve_delay cfg <= 0 -> valve_open (_status c') = true)
   /\ (valve_open (_status c') = true
       \/ state (_status c') = BD_STATE_VALVE_OPENING
          /\ relay_energized (_status c') = true))
  /\ (valve_open (_status c) = true ->
      valve_open (_status c') = false
      \/ state (_status c') = BD_STATE_VALVE_CLOSING ->
      (v < inject_Z (setpoint cfg - deadband cfg))%Q)
  /\ ((inject_Z (setpoint cfg - deadband cfg) < v)%Q ->
      (v <= inject_Z (setpoint cfg))%Q ->
      valve_open (_status c') = valve_open (_status c)
      /\ relay_energized (_status c') = relay_energized (_status c)
      /\ state (_status c') = state (_status c)).
Proof.
  intros Hcfg Hdir Hdb Hcont Hauto Hwait Htrans Hdue c'. subst c'.
  rewrite update_auto_flow by assumption.
  rewrite processSamplingMode_continuous by exact Hcont.
  unfold processContinuousMode. cbn. rewrite Hcfg, Hwait, Hdir. cbn.
  set (c0 := upd_status (set_last_conductivity v) c).
  assert (Hkeep : forall X,
             _config X = _config c ->
             current_blowdown_time (_status X)
             = current_blowdown_time (_status c) ->
             checkTimeout now X = X).
  { intros X H1 H2. apply checkTimeout_not_due.
    apply (timeout_not_due_frame c X); assumption. }
  assert (Hball : has_ball_valve c0 = (0 <? ball_valve_delay cfg)).
  { unfold has_ball_valve. cbn. rewrite Hcfg. reflexivity. }
  destruct (in_transition_false c Htrans) as [Hno Hnc].
  destruct (Qgtb v (inject_Z (setpoint cfg))) eqn:Egt;
    destruct (valve_open (_status c)) eqn:Ev; cbn [andb negb].
  - (* above the setpoint, valve already open *)
    apply Qgtb_gt in Egt.
    assert (Elt : Qltb v (inject_Z (setpoint cfg - deadband cfg)) = false).
    { apply Qltb_ge. apply Qlt_le_weak.
      apply Qle_lt_trans with (y := inject_Z (setpoint cfg)); [|exact Egt].
      rewrite <- Zle_Qle. lia. }
    rewrite Elt. cbn [andb].
    rewrite (Hkeep c0) by reflexivity.
    destruct (updateBlowdownTimer_frame now c0) as (Hs & Hv & Hr).
    rewrite Hs, Hv, Hr. cbn. rewrite Ev.
    split; [intros _; split; auto|].
    split.
    + intros _ [H|H]; [discriminate|contradiction].
    + intros _ Hle. exfalso. apply (Qlt_not_le _ _ Egt Hle).
  - (* above the setpoint, valve closed: open it *)
    apply Qgtb_gt in Egt.
    destruct (openValve_frame now c0) as (Hc & Ht).
    rewrite (Hkeep (openValve now c0)) by (rewrite ?Hc, ?Ht; reflexivity).
    destruct (updateBlowdownTimer_frame now (openValve now c0))
      as (Hs & Hv & Hr).
    rewrite Hs, Hv, Hr. rewrite openValve_relay.
    split; [|split].
    + intros _.
      destruct (0 <? ball_valve_delay cfg) eqn:Ed.
      * destruct (openValve_ball now c0 Hball) as (_ & Hst).
        split; [intros Hle; apply Z.ltb_lt in Ed; lia|].
        right. auto.
      * destruct (openValve_solenoid now c0 Hball) as (Hvo & _).
        split; auto.
    + discriminate.
    + intros _ Hle. exfalso. apply (Qlt_not_le _ _ Egt Hle).
  - (* not above the setpoint, valve open *)
    apply Qgtb_le in Egt.
    destruct (Qltb v (inject_Z (setpoint cfg - deadband cfg))) eqn:Elt;
      cbn [andb].
    + apply Qltb_lt in Elt.
      split; [intros H; exfalso; apply (Qlt_not_le _ _ H Egt)|].
      split; [intros _ _; exact Elt|].
      intros H. exfalso. apply (Qlt_irrefl v).
      apply Qlt_trans with (y := inject_Z (setpoint cfg - deadband cfg));
        assumption.
    + rewrite (Hkeep c0) by reflexivity.
      destruct (updateBlowdownTimer_frame now c0) as (Hs & Hv & Hr).
      rewrite Hs, Hv, Hr. cbn. rewrite Ev.
      split; [intros H; exfalso; apply (Qlt_not_le _ _ H Egt)|].
      split; [|auto].
      intros _ [H|H]; [discriminate|contradiction].
  - (* not above the setpoint, valve closed *)
    apply Qgtb_le in Egt.
    rewrite andb_false_r.
    rewrite (Hkeep c0) by reflexivity.
    destruct (updateBlowdownTimer_frame now c0) as (Hs & Hv & Hr).
    rewrite Hs, Hv, Hr. cbn. rewrite Ev.
    split; [intros H; exfalso; apply (Qlt_not_le _ _ H Egt)|].
    split; [discriminate|auto].
Qed.

(** C3 as the claim states it fails for a ball valve: above the setpoint
    the tick starts the actuator, and the valve is not open after it. *)
Lemma continuous_ball_valve_not_open_same_tick :
  let c := ball_valve_controller in
  let c' := update 1000 2600 true c in
  (_config c = Some ball_valve_config
   /\ control_direction ball_valve_config = 0
   /\ is_continuous c = true
   /\ hoa_mode (_status c) = HOA_AUTO
   /\ timeout_flag (_status c) = false
   /\ waiting_for_reset (_status c) = false
   /\ (inject_Z (setpoint ball_valve_config) < 2600)%Q)
  /\ valve_open (_status c') = false
  /\ state (_status c') = BD_STATE_VALVE_OPENING.
Proof. cbn. repeat split; reflexivity. Qed.

Lemma continuous_high_hysteresis_witness :
  let c := solenoid_controller in
  let c' := update 1000 2600 true c in
  valve_open (_status c') = true
  /\ state (_status c') = BD_STATE_BLOWING_DOWN.
Proof.
  cbn zeta.
  destruct (continuous_high_hysteresis 1000 2600 solenoid_controller
              solenoid_config) as (H1 & _ & _);
    try reflexivity.
  - cbn. lia.
  - cbn. right. lia.
  - destruct H1 as (Hopen & _); [reflexivity|].
    split; [apply Hopen; cbn; lia | reflexivity].
Defined.

(** The scenario of the specification (setpoint 2500, deadband 50,
    direction HIGH, solenoid valve): 2600 opens the valve on the same
    tick, 2460 (inside the deadband) leaves it open, 2440 closes it. *)
Lemma continuous_scenario :
  let c1 := update 1000 2600 true solenoid_controller in
  let c2 := update 1100 2460 true c1 in
  let c3 := update 1200 2440 true c2 in
  valve_open (_status c1) = true
  /\ valve_open (_status c2) = true
  /\ valve_open (_status c3) = false.
Proof. repeat split; vm_compute; reflexivity. Qed.

(** *** Timeout latch *)

(** Nothing read by the sampling modes changes while the controller
    waits for a reset: all four return at their first statement. *)
Lemma processSamplingMode_waiting now v c :
  waiting_for_reset (_status c) = true ->
  processSamplingMode now v c = c.
Proof.
  intros H.
  unfold processSamplingMode, processContinuousMode, processIntermittentMode,
    processTimedBlowdown, processTimeProportional, processTimedCycle.
  destruct (_cond_config c) as [cc|]; [destruct (sample_mode cc)|];
    destruct (_config c); rewrite ?H; reflexivity.
Qed.

Lemma processSamplingMode_current_time now v c :
  current_blowdown_time (_status (processSamplingMode now v c))
  = current_blowdown_time (_status c)
  /\ _config (processSamplingMode now v c) = _config c.
Proof.
  unfold processSamplingMode, processContinuousMode, processIntermittentMode,
    processTimedBlowdown, processTimeProportional, processTimedCycle,
    startCycleIfDue, closeAndHold, openValve, closeValve.
  destruct (_cond_config c) as [cc|]; [destruct (sample_mode cc)|];
    (destruct (_config c) as [cfg|] eqn:Ec; [|auto]);
    (destruct (waiting_for_reset (_status c)); [auto|]);
    try destruct (state (_status c)); cases; auto.
Qed.

(** [checkTimeout] when the limit is reached while discharging. *)
Lemma checkTimeout_fires now c cfg :
  _config c = Some cfg ->
  0 < time_limit_seconds cfg ->
  state (_status c) = BD_STATE_BLOWING_DOWN ->
  time_limit_seconds cfg * 1000 <= current_blowdown_time (_status c) ->
  let c' := checkTimeout now c in
  state (_status c') = BD_STATE_TIMEOUT
  /\ timeout_flag (_status c') = true
  /\ waiting_for_reset (_status c') = true
  /\ relay_energized (_status c') = false
  /\ hoa_mode (_status c') = hoa_mode (_status c)
  /\ _config c' = Some (cfg_set_timeout_flag true cfg)
  /\ (ball_valve_delay cfg <= 0 -> valve_open (_status c') = false).
Proof.
  intros Hc Hl Hs Ht c'. subst c'. unfold checkTimeout. rewrite Hc, Hs.
  destruct (Z.eqb_spec (time_limit_seconds cfg) 0) as [E|_]; [lia|].
  cbn [state_eqb].
  destruct (Z.leb_spec (time_limit_seconds cfg * 1000)
              (current_blowdown_time (_status c))) as [_|E]; [|lia].
  unfold closeValve, has_ball_valve. rewrite Hc.
  destruct (Z.ltb_spec 0 (ball_valve_delay cfg)) as [Hd|Hd].
  - cbn. rewrite Hc. cbn. repeat split; try reflexivity. lia.
  - cbn. rewrite Hs. cbn. rewrite Hc. cbn. repeat split; reflexivity.
Qed.


Lemma checkBallValveComplete_frame now c :
  let c' := checkBallValveComplete now c in
  hoa_mode (_status c') = hoa_mode (_status c)
  /\ timeout_flag (_status c') = timeout_flag (_status c)
  /\ waiting_for_reset (_status c') = waiting_for_reset (_status c)
  /\ relay_energized (_status c') = relay_energized (_status c).
Proof. unfold checkBallValveComplete. cases; auto. Qed.

Lemma checkTimeout_latched now c :
  latched c -> latched (checkTimeout now c).
Proof.
  unfold latched, checkTimeout, closeValve.
  intros (H1 & H2 & H3 & H4). cases; auto.
Qed.

Lemma updateBlowdownTimer_latched now c :
  latched c -> latched (updateBlowdownTimer now c).
Proof.
  unfold latched, updateBlowdownTimer.
  intros (H1 & H2 & H3 & H4). cases; auto.
Qed.

Lemma update_latched now v flow_ok c :
  latched c -> latched (update now v flow_ok c).
Proof.
  intros L.
  assert (L0 : latched (upd_status (set_last_conductivity v) c)) by exact L.
  destruct flow_ok.
  - destruct (in_transition c) eqn:Et.
    + rewrite update_auto_transition by (apply L || exact Et).
      destruct (checkBallValveComplete_frame now
                  (upd_status (set_last_conductivity v) c))
        as (H1 & H2 & H3 & H4).
      destruct L0 as (L1 & L2 & L3 & L4).
      unfold latched. rewrite H1, H2, H3, H4. auto.
    + rewrite update_auto_flow by (apply L || exact Et).
      rewrite processSamplingMode_waiting by apply L0.
      apply updateBlowdownTimer_latched, checkTimeout_latched, L0.
  - rewrite update_no_flow. cbn zeta.
    destruct (valve_open (_status c)); [|exact L0].
    destruct L0 as (L1 & L2 & L3 & L4).
    unfold latched, closeValve. cases; auto.
Qed.

Lemma update_latched_closed now v flow_ok c :
  latched_closed c ->
  latched_closed (update now v flow_ok c)
  /\ _status (update now v flow_ok c)
     = set_last_conductivity v (_status c).
Proof.
  intros (L & Hb & Hv & Hs).
  assert (Hc : update now v flow_ok c
               = upd_status (set_last_conductivity v) c).
  { destruct flow_ok.
    - rewrite update_auto_flow.
      + rewrite processSamplingMode_waiting by apply L.
        apply checkTimeout_not_discharging. cbn. rewrite Hs. discriminate.
      + apply L.
      + unfold in_transition. rewrite Hs. reflexivity.
    - rewrite update_no_flow. cbn zeta. rewrite Hv. reflexivity. }
  rewrite Hc. split; [|reflexivity].
  split; [exact L|]. auto.
Qed.

Lemma run_latched ticks : forall c, latched c -> latched (run ticks c).
Proof.
  induction ticks as [|t ticks IH]; intros c L; [exact L|].
  cbn. apply IH. apply update_latched. exact L.
Qed.

Lemma run_latched_closed ticks :
  forall c, latched_closed c -> latched_closed (run ticks c).
Proof.
  induction ticks as [|t ticks IH]; intros c L; [exact L|].
  cbn. apply IH. apply update_latched_closed. exact L.
Qed.

(** [resetTimeout] clears the latch. *)
Lemma resetTimeout_clears now c :
  let c' := resetTimeout now c in
  timeout_flag (_status c') = false
  /\ waiting_for_reset (_status c') = false
  /\ state (_status c') = BD_STATE_IDLE
  /\ match _config c' with
     | Some cfg => cfg_timeout_flag cfg = false
     | None => True
     end.
Proof.
  unfold resetTimeout. cbn.
  destruct (_config c) as [cfg|] eqn:E; cbn; rewrite ?E; auto.
Qed.

(** The timeout policy as far as it holds for both valve types, and in
    full for a solenoid valve.  On a tick in Auto with flow present whose
    sampling mode leaves the controller discharging while the recorded
    discharge time has reached a non-zero time limit: the relay is
    de-energised, [timeout_flag] is set and the state is Timeout (and
    [valve_open] is cleared for a solenoid valve).  After any further
    ticks, whatever their readings and flow, the flag is still set, the
    relay is still de-energised and the sampling modes change nothing (for
    a solenoid valve the valve stays closed and the state stays Timeout).
    [resetTimeout] then clears the flag and returns the state to Idle. *)
Theorem timeout_latches_until_reset now v c cfg :
  _config c = Some cfg ->
  0 < time_limit_seconds cfg ->
  hoa_mode (_status c) = HOA_AUTO ->
  in_transition c = false ->
  state (_status (processSamplingMode now v
                    (upd_status (set_last_conductivity v) c)))
  = BD_STATE_BLOWING_DOWN ->
  time_limit_seconds cfg * 1000 <= current_blowdown_time (_status c) ->
  let c1 := update now v true c in
  (relay_energized (_status c1) = false
   /\ timeout_flag (_status c1) = true
   /\ isTimeout c1 = true
   /\ state (_status c1) = BD_STATE_TIMEOUT
   /\ (ball_valve_delay cfg <= 0 -> valve_open (_status c1) = false))
  /\ (forall ticks,
        let cn := run ticks c1 in
        timeout_flag (_status cn) = true
        /\ relay_energized (_status cn) = false
        /\ (forall now' v', processSamplingMode now' v' cn = cn)
        /\ (ball_valve_delay cfg <= 0 ->
            valve_open (_status cn) = false
            /\ state (_status cn) = BD_STATE_TIMEOUT))
  /\ (forall ticks now',
        let cr := resetTimeout now' (run ticks c1) in
        timeout_flag (_status cr) = false
        /\ isTimeout cr = false
        /\ state (_status cr) = BD_STATE_IDLE).
Proof.
  intros Hc Hl Ha Ht Hs Hd c1.
  set (c0 := upd_status (set_last_conductivity v) c) in *.
  destruct (processSamplingMode_current_time now v c0) as (Hcur & Hcfg).
  assert (F := checkTimeout_fires now (processSamplingMode now v c0) cfg).
  cbn zeta in F.
  destruct F as (F1 & F2 & F3 & F4 & F5 & F6 & F7);
    [rewrite Hcfg; exact Hc | exact Hl | exact Hs | rewrite Hcur; exact Hd |].
  assert (E : c1 = checkTimeout now (processSamplingMode now v c0)).
  { subst c1. rewrite update_auto_flow by assumption. fold c0.
    unfold updateBlowdownTimer. rewrite F1. reflexivity. }
  assert (Hhoa : hoa_mode (_status (processSamplingMode now v c0)) = HOA_AUTO).
  { unfold processSamplingMode, processContinuousMode,
      processIntermittentMode, processTimedBlowdown, processTimeProportional,
      processTimedCycle, startCycleIfDue, closeAndHold, openValve,
      closeValve.
    destruct (_cond_config c0) as [cc|]; [destruct (sample_mode cc)|];
      (destruct (_config c0) as [cfg0|] eqn:Ec; [|exact Ha]);
      (destruct (waiting_for_reset (_status c0)); [exact Ha|]);
      try destruct (state (_status c0)); cases; exact Ha. }
  assert (L : latched c1).
  { rewrite E. unfold latched. rewrite F5, F2, F3, F4. auto. }
  assert (LC : ball_valve_delay cfg <= 0 -> latched_closed c1).
  { intros Hb. split; [exact L|]. rewrite E.
    split; [|split; [apply F7; exact Hb | exact F1]].
    unfold has_ball_valve. rewrite F6. cbn. apply Z.ltb_ge. exact Hb. }
  split; [|split].
  - rewrite E. unfold isTimeout. rewrite F2. auto.
  - intros ticks cn. subst cn.
    destruct (run_latched ticks c1 L) as (L1 & L2 & L3 & L4).
    split; [exact L2|]. split; [exact L4|].
    split; [intros; apply processSamplingMode_waiting; exact L3|].
    intros Hb. destruct (run_latched_closed ticks c1 (LC Hb)) as (_ & _ & ? & ?).
    auto.
  - intros ticks now' cr. subst cr.
    destruct (resetTimeout_clears now' (run ticks c1)) as (R1 & R2 & R3 & _).
    unfold isTimeout. auto.
Qed.

(** A solenoid valve that opens at 1000 ms and is still discharging at
    301000 ms with a 300 s limit, conductivity still above the setpoint:
    the tick at 301100 ms times out. *)
Lemma timeout_latches_until_reset_witness :
  let c := update 301000 2600 true
             (update 1000 2600 true solenoid_controller) in
  let c1 := update 301100 2600 true c in
  let cn := run [ {| t_now := 301200; t_conductivity := 2600;
                     t_flow_ok := true |};
                  {| t_now := 301300; t_conductivity := 2700;
                     t_flow_ok := false |} ] c1 in
  state (_status c) = BD_STATE_BLOWING_DOWN
  /\ state (_status c1) = BD_STATE_TIMEOUT
  /\ valve_open (_status cn) = false
  /\ timeout_flag (_status cn) = true
  /\ state (_status (resetTimeout 400000 cn)) = BD_STATE_IDLE.
Proof.
  cbn zeta.
  set (c := update 301000 2600 true
              (update 1000 2600 true solenoid_controller)).
  destruct (timeout_latches_until_reset 301100 2600 c solenoid_config)
    as (H1 & H2 & H3); try reflexivity.
  split; [reflexivity|]. split; [apply H1|].
  specialize (H2 [ {| t_now := 301200; t_conductivity := 2600;
                      t_flow_ok := true |};
                   {| t_now := 301300; t_conductivity := 2700;
                      t_flow_ok := false |} ]).
  cbn zeta in H2. destruct H2 as (T & _ & _ & V).
  split; [apply V; cbn; lia|]. split; [exact T|].
  apply H3.
Defined.

(** The limit is tested against the discharge time recorded at the end of
    the previous tick: on the tick at 301000 ms, 300 s after the valve
    opened, the recorded time becomes 300000 ms and the valve is still
    open; the tick after it times out. *)
Lemma timeout_reads_recorded_time :
  let c := update 301000 2600 true
             (update 1000 2600 true solenoid_controller) in
  current_blowdown_time (_status c) = 300000
  /\ valve_open (_status c) = true
  /\ timeout_flag (_status c) = false
  /\ state (_status (update 301100 2600 true c)) = BD_STATE_TIMEOUT.
Proof. repeat split; vm_compute; reflexivity. Qed.

(** With a ball valve the timeout tick starts the actuator closing and
    then overwrites ValveClosing with Timeout, so the completion check
    never runs: [valve_open] and [isActive] stay true on later ticks
    although the relay is de-energised. *)
Lemma timeout_ball_valve_flag_stays_open :
  let c := run [ {| t_now := 1000; t_conductivity := 2600; t_flow_ok := true |};
                 {| t_now := 6000; t_conductivity := 2600; t_flow_ok := true |};
                 {| t_now := 306000; t_conductivity := 2600;
                    t_flow_ok := true |};
                 {| t_now := 306100; t_conductivity := 2600;
                    t_flow_ok := true |};
                 {| t_now := 400000; t_conductivity := 2000;
                    t_flow_ok := true |} ] ball_valve_controller in
  state (_status c) = BD_STATE_TIMEOUT
  /\ relay_energized (_status c) = false
  /\ valve_open (_status c) = true
  /\ isActive c = true.
Proof. repeat split; reflexivity. Qed.

(** With a ball valve the sampling modes never write [valve_open]: they
    only start the actuator. *)
Lemma processSamplingMode_ball_valve_open now v c :
  has_ball_valve c = true ->
  valve_open (_status (processSamplingMode now v c)) = valve_open (_status c).
Proof.
  intros Hb.
  unfold processSamplingMode, processContinuousMode, processIntermittentMode,
    processTimedBlowdown, processTimeProportional, processTimedCycle,
    startCycleIfDue, closeAndHold, openValve, closeValve.
  unfold has_ball_valve in *.
  destruct (_cond_config c) as [cc|]; [destruct (sample_mode cc)|];
    (destruct (_config c) as [cfg|] eqn:Ec; [|reflexivity]);
    (destruct (waiting_for_reset (_status c)); [reflexivity|]);
    try destruct (state (_status c)); cases; try reflexivity;
    try discriminate;
    match goal with
    | H : _config c = Some _, H' : match _config c with _ => _ end = _ |- _ =>
        rewrite H in H'; congruence
    end.
Qed.

Lemma update_latched_open now v c :
  latched_open c -> latched_open (update now v true c).
Proof.
  intros (L & Hv & Hs).
  assert (Hc : update now v true c
               = upd_status (set_last_conductivity v) c).
  { rewrite update_auto_flow.
    - rewrite processSamplingMode_waiting by apply L.
      apply checkTimeout_not_discharging. cbn. rewrite Hs. discriminate.
    - apply L.
    - unfold in_transition. rewrite Hs. reflexivity. }
  rewrite Hc. split; [exact L|]. split; assumption.
Qed.

Lemma run_latched_open ticks :
  forall c, flow_present ticks -> latched_open c -> latched_open (run ticks c).
Proof.
  induction ticks as [|t ticks IH]; intros c F L; [exact L|].
  inversion F as [|t' ticks' Ft Fr]; subst.
  cbn. apply IH; [exact Fr|].
  unfold tick. rewrite Ft. apply update_latched_open. exact L.
Qed.

(** [resetTimeout] writes neither the valve flag nor the relay. *)
Lemma resetTimeout_frame now c :
  valve_open (_status (resetTimeout now c)) = valve_open (_status c)
  /\ relay_energized (_status (resetTimeout now c))
     = relay_energized (_status c).
Proof.
  unfold resetTimeout. cbn.
  destruct (_config c) as [cfg|] eqn:E; cbn; rewrite ?E; auto.
Qed.

(** C2 (timeout policy), for a motorized ball valve.  On a tick in Auto
    with flow present on which the valve is open and discharging and the
    recorded discharge time has reached a non-zero time limit, the relay
    is de-energised, [timeout_flag] is set and the state is Timeout, but
    [valve_open] stays true: [closeValve] only starts the actuator (state
    ValveClosing), [checkTimeout] then overwrites that state with
    Timeout, and the completion check that clears [valve_open] runs in
    the travel states only.  The controller reports the valve open
    ([isActive]) on the timeout tick, after any further ticks with flow,
    and after [resetTimeout], which returns the state to Idle. *)
Theorem timeout_ball_valve_stays_flagged_open now v c cfg :
  _config c = Some cfg ->
  0 < time_limit_seconds cfg ->
  0 < ball_valve_delay cfg ->
  hoa_mode (_status c) = HOA_AUTO ->
  in_transition c = false ->
  valve_open (_status c) = true ->
  state (_status (processSamplingMode now v
                    (upd_status (set_last_conductivity v) c)))
  = BD_STATE_BLOWING_DOWN ->
  time_limit_seconds cfg * 1000 <= current_blowdown_time (_status c) ->
  let c1 := update now v true c in
  (state (_status c1) = BD_STATE_TIMEOUT
   /\ timeout_flag (_status c1) = true
   /\ relay_energized (_status c1) = false
   /\ valve_open (_status c1) = true
   /\ isActive c1 = true)
  /\ (forall ticks, flow_present ticks ->
        let cn := run ticks c1 in
        state (_status cn) = BD_STATE_TIMEOUT
        /\ timeout_flag (_status cn) = true
        /\ relay_energized (_status cn) = false
        /\ valve_open (_status cn) = true
        /\ isActive cn = true)
  /\ (forall ticks now', flow_present ticks ->
        let cr := resetTimeout now' (run ticks c1) in
        state (_status cr) = BD_STATE_IDLE
        /\ timeout_flag (_status cr) = false
        /\ relay_energized (_status cr) = false
        /\ valve_open (_status cr) = true
        /\ isActive cr = true).
Proof.
  intros Hc Hl Hb Ha Ht Hv Hs Hd c1.
  set (c0 := upd_status (set_last_conductivity v) c) in *.
  destruct (processSamplingMode_current_time now v c0) as (Hcur & Hcfg).
  assert (B0 : has_ball_valve c0 = true).
  { unfold has_ball_valve. change (_config c0) with (_config c).
    rewrite Hc. apply Z.ltb_lt. exact Hb. }
  pose proof (processSamplingMode_ball_valve_open now v c0 B0) as Hv1.
  change (valve_open (_status c0)) with (valve_open (_status c)) in Hv1.
  rewrite Hv in Hv1.
  set (cs := processSamplingMode now v c0) in *.
  assert (F := checkTimeout_fires now cs cfg). cbn zeta in F.
  destruct F as (F1 & F2 & F3 & F4 & F5 & F6 & _);
    [rewrite Hcfg; exact Hc | exact Hl | exact Hs | rewrite Hcur; exact Hd |].
  assert (E : c1 = checkTimeout now cs).
  { subst c1. rewrite update_auto_flow by assumption. fold c0. fold cs.
    unfold updateBlowdownTimer. rewrite F1. reflexivity. }
  assert (Fv : valve_open (_status (checkTimeout now cs)) = true).
  { unfold checkTimeout. rewrite Hcfg.
    change (_config c0) with (_config c). rewrite Hc, Hs.
    destruct (Z.eqb_spec (time_limit_seconds cfg) 0) as [Z0|_]; [lia|].
    cbn [state_eqb]. rewrite Hcur.
    change (current_blowdown_time (_status c0))
      with (current_blowdown_time (_status c)).
    destruct (Z.leb_spec (time_limit_seconds cfg * 1000)
                (current_blowdown_time (_status c))) as [_|Z1]; [|lia].
    assert (Bs : has_ball_valve cs = true).
    { unfold has_ball_valve. rewrite Hcfg.
      change (_config c0) with (_config c). rewrite Hc.
      apply Z.ltb_lt. exact Hb. }
    unfold closeValve. rewrite Bs. cbn. rewrite Hcfg.
    change (_config c0) with (_config c). rewrite Hc. cbn. exact Hv1. }
  assert (Hhoa : hoa_mode (_status cs) = HOA_AUTO).
  { subst cs.
    unfold processSamplingMode, processContinuousMode,
      processIntermittentMode, processTimedBlowdown, processTimeProportional,
      processTimedCycle, startCycleIfDue, closeAndHold, openValve,
      closeValve.
    destruct (_cond_config c0) as [cc|]; [destruct (sample_mode cc)|];
      (destruct (_config c0) as [cfg0|] eqn:Ec; [|exact Ha]);
      (destruct (waiting_for_reset (_status c0)); [exact Ha|]);
      try destruct (state (_status c0)); cases; exact Ha. }
  assert (L : latched_open c1).
  { rewrite E. split; [|split; [exact Fv | exact F1]].
    unfold latched. rewrite F5, F2, F3, F4. auto. }
  assert (A : forall x, latched_open x ->
                state (_status x) = BD_STATE_TIMEOUT
                /\ timeout_flag (_status x) = true
                /\ relay_energized (_status x) = false
                /\ valve_open (_status x) = true
                /\ isActive x = true).
  { intros x ((_ & X2 & _ & X4) & X5 & X6). unfold isActive.
    rewrite X5. auto. }
  split; [apply A; exact L|]. split.
  - intros ticks Fl cn. apply A. apply run_latched_open; assumption.
  - intros ticks now' Fl cr. subst cr.
    destruct (run_latched_open ticks c1 Fl L) as ((_ & _ & _ & R4) & R5 & _).
    destruct (resetTimeout_clears now' (run ticks c1)) as (R1 & _ & R3 & _).
    destruct (resetTimeout_frame now' (run ticks c1)) as (Rv & Rr).
    rewrite R5 in Rv. rewrite R4 in Rr.
    unfold isActive. rewrite Rv. auto.
Qed.

(** A ball valve with 5 s of travel: open command at 1 s, open at 6 s,
    still discharging at 306 s with a 300 s limit.  The tick at 306.1 s
    times out; 94 s later, with the reading well below the deadband, the
    valve is still reported open, and so it is after the reset. *)
Lemma timeout_ball_valve_stays_flagged_open_witness :
  let c := run [ {| t_now := 1000; t_conductivity := 2600; t_flow_ok := true |};
                 {| t_now := 6000; t_conductivity := 2600; t_flow_ok := true |};
                 {| t_now := 306000; t_conductivity := 2600;
                    t_flow_ok := true |} ] ball_valve_controller in
  let c1 := update 306100 2600 true c in
  let cn := run [ {| t_now := 400000; t_conductivity := 2000;
                     t_flow_ok := true |} ] c1 in
  state (_status c) = BD_STATE_BLOWING_DOWN
  /\ state (_status c1) = BD_STATE_TIMEOUT
  /\ valve_open (_status c1) = true
  /\ valve_open (_status cn) = true
  /\ isActive cn = true
  /\ state (_status (resetTimeout 500000 cn)) = BD_STATE_IDLE
  /\ valve_open (_status (resetTimeout 500000 cn)) = true.
Proof.
  cbn zeta.
  set (c := run [ {| t_now := 1000; t_conductivity := 2600;
                     t_flow_ok := true |};
                  {| t_now := 6000; t_conductivity := 2600;
                     t_flow_ok := true |};
                  {| t_now := 306000; t_conductivity := 2600;
                     t_flow_ok := true |} ] ball_valve_controller).
  destruct (timeout_ball_valve_stays_flagged_open 306100 2600 c
              ball_valve_config)
    as (H1 & H2 & H3);
    [reflexivity | cbn; lia | cbn; lia | reflexivity | reflexivity
    | reflexivity | reflexivity | vm_compute; discriminate |].
  assert (Fl : flow_present [ {| t_now := 400000; t_conductivity := 2000;
                                 t_flow_ok := true |} ])
    by (repeat constructor).
  specialize (H2 _ Fl). specialize (H3 _ 500000 Fl).
  cbn zeta in H2, H3.
  destruct H1 as (A1 & _ & _ & A4 & _).
  destruct H2 as (_ & _ & _ & B4 & B5).
  destruct H3 as (C1 & _ & _ & C4 & _).
  split; [reflexivity|]. auto 10.
Defined.

(** After that reset the controller is Idle with the valve reported open
    and the relay de-energised: in continuous mode a reading above the
    setpoint no longer opens the valve, which opens only after a reading
    below the deadband has sent it closing. *)
Lemma timeout_ball_valve_blocks_next_discharge :
  let c := resetTimeout 500000
             (run [ {| t_now := 1000; t_conductivity := 2600;
                       t_flow_ok := true |};
                    {| t_now := 6000; t_conductivity := 2600;
                       t_flow_ok := true |};
                    {| t_now := 306000; t_conductivity := 2600;
                       t_flow_ok := true |};
                    {| t_now := 306100; t_conductivity := 2600;
                       t_flow_ok := true |} ] ball_valve_controller) in
  let c' := update 501000 2700 true c in
  state (_status c) = BD_STATE_IDLE
  /\ valve_open (_status c) = true
  /\ state (_status c') = BD_STATE_IDLE
  /\ relay_energized (_status c') = false.
Proof. repeat split; reflexivity. Qed.

(** *** Interval modes: when the valve is commanded open *)

Lemma checkTimeout_relay now c :
  relay_energized (_status (checkTimeout now c)) = true ->
  relay_energized (_status c) = true.
Proof.
  unfold checkTimeout, closeValve. cases; auto; discriminate.
Qed.

Lemma updateBlowdownTimer_relay now c :
  relay_energized (_status (updateBlowdownTimer now c))
  = relay_energized (_status c).
Proof. apply updateBlowdownTimer_frame. Qed.

Lemma closeAndHold_relay now trap c :
  relay_energized (_status (closeAndHold now trap c)) = false.
Proof.
  unfold closeAndHold, closeValve. destruct trap; cases; reflexivity.
Qed.

Lemma transitionState_relay now st c :
  relay_energized (_status (transitionState now st c))
  = relay_energized (_status c).
Proof. reflexivity. Qed.

Lemma startCycleIfDue_relay now cc c :
  relay_energized (_status c) = false ->
  relay_energized (_status (startCycleIfDue now cc c)) = true ->
  interval_seconds cc * 1000 <= sub32 now (_interval_timer c).
Proof.
  unfold startCycleIfDue. intros H0.
  destruct (Z.leb_spec (interval_seconds cc * 1000)
              (sub32 now (_interval_timer c))); [auto|congruence].
Qed.

Lemma processIntermittentMode_relay now v c cc :
  _cond_config c = Some cc ->
  relay_energized (_status c) = false ->
  relay_energized (_status (processIntermittentMode now v c)) = true ->
  open_is_due now v c cc.
Proof.
  intros Hcc H0. unfold processIntermittentMode, open_is_due. rewrite Hcc.
  destruct (_config c) as [cfg|] eqn:Hc; [|congruence].
  destruct (waiting_for_reset (_status c)); [congruence|].
  destruct (state (_status c)) eqn:Hs; try congruence.
  - intros H. left. split; [auto|]. eapply startCycleIfDue_relay; eauto.
  - destruct (Qltb v _); [rewrite closeAndHold_relay|]; congruence.
  - destruct (_ <=? _); [|congruence].
    destruct (Qgtb v _);
      [rewrite transitionState_relay | rewrite closeAndHold_relay];
      congruence.
  - destruct (Z.leb_spec (hold_time_seconds cc * 1000)
                (sub32 now (_hold_timer c))); [|congruence].
    destruct (Qgtb v (inject_Z (setpoint cfg))) eqn:Eg;
      [|rewrite transitionState_relay; congruence].
    intros _. right. split; [reflexivity|]. split; [assumption|].
    exists cfg. split; [reflexivity|]. apply Qgtb_gt. exact Eg.
  - intros H. left. split; [auto|]. eapply startCycleIfDue_relay; eauto.
Qed.

Lemma processTimedCycle_relay blow_ms now v c cc :
  _cond_config c = Some cc ->
  relay_energized (_status c) = false ->
  relay_energized (_status (processTimedCycle blow_ms now v c)) = true ->
  open_is_due now v c cc.
Proof.
  intros Hcc H0. unfold processTimedCycle, open_is_due. rewrite Hcc.
  destruct (_config c) as [cfg|] eqn:Hc; [|congruence].
  destruct (waiting_for_reset (_status c)); [congruence|].
  destruct (state (_status c)) eqn:Hs; try congruence.
  - intros H. left. split; [auto|]. eapply startCycleIfDue_relay; eauto.
  - destruct (_ <=? _); [rewrite closeAndHold_relay|]; congruence.
  - destruct (_ <=? _); [rewrite closeAndHold_relay|]; congruence.
  - destruct (Z.leb_spec (hold_time_seconds cc * 1000)
                (sub32 now (_hold_timer c))); [|congruence].
    destruct (Qgtb v (inject_Z (setpoint cfg))) eqn:Eg;
      [|rewrite transitionState_relay; congruence].
    intros _. right. split; [reflexivity|]. split; [assumption|].
    exists cfg. split; [reflexivity|]. apply Qgtb_gt. exact Eg.
  - intros H. left. split; [auto|]. eapply startCycleIfDue_relay; eauto.
Qed.

(** C7 (interval modes), as the code has it.  In Auto, a tick of the
    Intermittent, TimedBlowdown or TimeProportional mode energises the
    relay of a closed valve only from Idle or Waiting once
    [interval_seconds] have elapsed on the interval timer, or from Holding
    once [hold_time_seconds] have elapsed on the hold timer with the
    conductivity above the setpoint; the second path does not wait for the
    interval. *)
Theorem interval_modes_open_when_due now v flow_ok c cc :
  _cond_config c = Some cc ->
  sample_mode cc <> SAMPLE_MODE_CONTINUOUS ->
  hoa_mode (_status c) = HOA_AUTO ->
  relay_energized (_status c) = false ->
  relay_energized (_status (update now v flow_ok c)) = true ->
  open_is_due now v c cc.
Proof.
  intros Hcc Hm Ha H0 H1.
  set (c0 := upd_status (set_last_conductivity v) c).
  assert (H00 : relay_energized (_status c0) = false) by exact H0.
  destruct flow_ok.
  - destruct (in_transition c) eqn:Et.
    + rewrite update_auto_transition in H1 by assumption.
      destruct (checkBallValveComplete_frame now c0) as (_ & _ & _ & Hr).
      fold c0 in H1. rewrite Hr in H1. congruence.
    + rewrite update_auto_flow in H1 by assumption. fold c0 in H1.
      rewrite updateBlowdownTimer_relay in H1.
      apply checkTimeout_relay in H1.
      unfold processSamplingMode in H1.
      assert (Hcc0 : _cond_config c0 = Some cc) by exact Hcc.
      rewrite Hcc0 in H1.
      assert (Hsame : forall X, open_is_due now v c0 X -> open_is_due now v c X)
        by (intros X HX; exact HX).
      apply Hsame.
      destruct (sample_mode cc); [contradiction| | |].
      * exact (processIntermittentMode_relay now v c0 cc Hcc0 H00 H1).
      * unfold processTimedBlowdown in H1.
        exact (processTimedCycle_relay _ now v c0 cc Hcc0 H00 H1).
      * unfold processTimeProportional in H1.
        exact (processTimedCycle_relay _ now v c0 cc Hcc0 H00 H1).
  - rewrite update_no_flow in H1. cbn zeta in H1. fold c0 in H1.
    destruct (valve_open (_status c)); [|congruence].
    rewrite closeValve_relay in H1. discriminate.
Qed.

(** The run that C7 as stated excludes happens in each of the three
    modes: the hold has elapsed, the reading is above the setpoint, and the
    valve opens again 60.1 s after the cycle began. *)
Lemma interval_mode_reopens_before_interval :
  reopens_before_interval SAMPLE_MODE_INTERMITTENT
  /\ reopens_before_interval SAMPLE_MODE_TIMED_BLOWDOWN
  /\ reopens_before_interval SAMPLE_MODE_TIME_PROPORTIONAL.
Proof.
  unfold reopens_before_interval. repeat split; vm_compute; reflexivity.
Qed.

Lemma interval_modes_open_when_due_witness :
  let c := interval_controller SAMPLE_MODE_INTERMITTENT in
  relay_energized (_status (update 3600000 2600 true c)) = true
  /\ open_is_due 3600000 2600 c (sampling_config SAMPLE_MODE_INTERMITTENT).
Proof.
  cbn zeta. split; [vm_compute; reflexivity|].
  apply (interval_modes_open_when_due 3600000 2600 true
           (interval_controller SAMPLE_MODE_INTERMITTENT)
           (sampling_config SAMPLE_MODE_INTERMITTENT)).
  - reflexivity.
  - discriminate.
  - reflexivity.
  - reflexivity.
  - vm_compute. reflexivity.
Defined.

(** *** TimeProportional discharge time *)

Section ProportionalTime.

Variables (c : BlowdownController) (cfg : blowdown_config_t)
  (cc : conductivity_config_t).
Hypothesis Hcfg : _config c = Some cfg.
Hypothesis Hcc : _cond_config c = Some cc.

(** [prop_band] and [max_prop_time_seconds] are [uint16_t] fields. *)
Hypothesis Hband : 0 < prop_band cc < 2 ^ 16.
Hypothesis Hmax : 0 <= max_prop_time_seconds cc < 2 ^ 16.

Let max_time_ms : Z := max_prop_time_seconds cc * 1000.

(** The deviation as the firmware holds it, in binary32. *)
Let deviation (v : Q) : Q := round32 (v - inject_Z (setpoint cfg)).

(** The clamped fraction of the proportional band. *)
Let percentage (v : Q) : Q :=
  let p := round32 (deviation v / inject_Z (prop_band cc)) in
  if Qgtb p 1 then 1%Q else p.

Lemma band_pos : (0 < inject_Z (prop_band cc))%Q.
Proof. change 0%Q with (inject_Z 0). rewrite <- Zlt_Qlt. lia. Qed.

Lemma max_time_nonneg : (0 <= inject_Z max_time_ms)%Q.
Proof.
  change 0%Q with (inject_Z 0). rewrite <- Zle_Qle.
  unfold max_time_ms. lia.
Qed.

Lemma max_time_range : 0 <= max_time_ms < 2 ^ 32.
Proof. unfold max_time_ms. lia. Qed.

(** The conversion of [max_time_ms] to [float] is exact: it is 8 times a
    number below 2^23. *)
Lemma max_time_exact :
  (round32 (inject_Z max_time_ms) == inject_Z max_time_ms)%Q.
Proof.
  apply (round32_Z_shift _ (max_prop_time_seconds cc * 125) 3).
  - lia.
  - lia.
  - unfold max_time_ms. lia.
Qed.

Lemma calculateProportionalTime_eq v :
  calculateProportionalTime v c =
  if Qle_bool (deviation v) 0 then 0
  else float_to_uint32 (round32 (percentage v * inject_Z max_time_ms)).
Proof.
  unfold calculateProportionalTime. rewrite Hcfg, Hcc.
  destruct (Z.eqb_spec (prop_band cc) 0) as [E|_]; [lia|].
  fold (deviation v). destruct (Qle_bool (deviation v) 0); [reflexivity|].
  cbn zeta. fold max_time_ms. fold (percentage v).
  f_equal. apply round32_comp. rewrite max_time_exact. reflexivity.
Qed.

Lemma deviation_mono v1 v2 : (v1 <= v2)%Q -> (deviation v1 <= deviation v2)%Q.
Proof. intros H. apply round32_mono. lra. Qed.

Lemma percentage_range v : (0 < deviation v)%Q -> (0 <= percentage v <= 1)%Q.
Proof.
  intros H. unfold percentage. cbn zeta.
  assert (P : (0 <= round32 (deviation v / inject_Z (prop_band cc)))%Q).
  { apply round32_nonneg. apply Qlt_le_weak.
    apply Qlt_shift_div_l; [apply band_pos|]. lra. }
  destruct (Qgtb _ 1) eqn:E.
  - lra.
  - apply Qgtb_le in E. lra.
Qed.

Lemma percentage_mono v1 v2 :
  (v1 <= v2)%Q -> (percentage v1 <= percentage v2)%Q.
Proof.
  intros H. unfold percentage. cbn zeta.
  assert (M : (round32 (deviation v1 / inject_Z (prop_band cc))
               <= round32 (deviation v2 / inject_Z (prop_band cc)))%Q).
  { apply round32_mono. apply Qmult_le_compat_r.
    - apply deviation_mono. exact H.
    - apply Qlt_le_weak. apply Qinv_lt_0_compat. apply band_pos. }
  destruct (Qgtb (round32 (deviation v1 / _)) 1) eqn:E1;
    destruct (Qgtb (round32 (deviation v2 / _)) 1) eqn:E2;
    try apply Qgtb_gt in E1; try apply Qgtb_le in E1;
    try apply Qgtb_gt in E2; try apply Qgtb_le in E2; lra.
Qed.

(** The rounded product stays between 0 and [max_time_ms]. *)
Lemma product_range v :
  (0 < deviation v)%Q ->
  (0 <= round32 (percentage v * inject_Z max_time_ms)
   <= inject_Z max_time_ms)%Q.
Proof.
  intros H. destruct (percentage_range v H) as (P0 & P1).
  pose proof max_time_nonneg as M0.
  split.
  - apply round32_nonneg. apply Qmult_le_0_compat; assumption.
  - rewrite <- max_time_exact at 2. apply round32_mono.
    rewrite <- (Qmult_1_l (inject_Z max_time_ms)) at 2.
    apply Qmult_le_compat_r; assumption.
Qed.

Lemma proportional_time_pos v :
  (0 < deviation v)%Q ->
  calculateProportionalTime v c
  = Qfloor (round32 (percentage v * inject_Z max_time_ms)).
Proof.
  intros H. rewrite calculateProportionalTime_eq.
  destruct (Qle_bool (deviation v) 0) eqn:E.
  { apply Qle_bool_iff in E. lra. }
  destruct (product_range v H) as (R0 & R1).
  unfold float_to_uint32, Qtrunc.
  apply Qle_bool_iff in R0. rewrite R0. apply Qle_bool_iff in R0.
  apply wrap32_small.
  pose proof max_time_range as MR.
  assert (A : 0 <= Qfloor (round32 (percentage v * inject_Z max_time_ms))).
  { rewrite <- (Qfloor_Z 0). apply Qfloor_resp_le. exact R0. }
  assert (B : Qfloor (round32 (percentage v * inject_Z max_time_ms))
              <= max_time_ms).
  { rewrite <- (Qfloor_Z max_time_ms) at 2. apply Qfloor_resp_le. exact R1. }
  lia.
Qed.

Lemma proportional_time_range v :
  0 <= calculateProportionalTime v c <= max_time_ms.
Proof.
  destruct (Qlt_le_dec 0 (deviation v)) as [H|H].
  - rewrite (proportional_time_pos v H).
    destruct (product_range v H) as (R0 & R1). split.
    + rewrite <- (Qfloor_Z 0). apply Qfloor_resp_le. exact R0.
    + rewrite <- (Qfloor_Z max_time_ms) at 2. apply Qfloor_resp_le. exact R1.
  - rewrite calculateProportionalTime_eq.
    apply Qle_bool_iff in H. rewrite H.
    pose proof max_time_range. lia.
Qed.

Lemma proportional_time_zero v :
  (v - inject_Z (setpoint cfg) <= 0)%Q -> calculateProportionalTime v c = 0.
Proof.
  intros H. rewrite calculateProportionalTime_eq.
  assert (D : (deviation v <= 0)%Q) by (apply round32_nonpos; exact H).
  apply Qle_bool_iff in D. rewrite D. reflexivity.
Qed.

Lemma proportional_time_mono v1 v2 :
  (v1 <= v2)%Q ->
  calculateProportionalTime v1 c <= calculateProportionalTime v2 c.
Proof.
  intros H.
  destruct (Qlt_le_dec 0 (deviation v1)) as [H1|H1].
  - assert (H2 : (0 < deviation v2)%Q).
    { apply Qlt_le_trans with (y := deviation v1); [exact H1|].
      apply deviation_mono. exact H. }
    rewrite (proportional_time_pos v1 H1), (proportional_time_pos v2 H2).
    apply Qfloor_resp_le. apply round32_mono.
    apply Qmult_le_compat_r.
    + apply percentage_mono. exact H.
    + apply max_time_nonneg.
  - rewrite (calculateProportionalTime_eq v1).
    apply Qle_bool_iff in H1. rewrite H1.
    apply proportional_time_range.
Qed.

Lemma proportional_time_cap v :
  (inject_Z (prop_band cc) <= v - inject_Z (setpoint cfg))%Q ->
  calculateProportionalTime v c = max_time_ms.
Proof.
  intros H.
  pose proof band_pos as Bp.
  assert (Bx : (round32 (inject_Z (prop_band cc))
                == inject_Z (prop_band cc))%Q)
    by (apply round32_Z; lia).
  assert (Hd : (inject_Z (prop_band cc) <= deviation v)%Q).
  { rewrite <- Bx. apply round32_mono. exact H. }
  assert (Hp : (0 < deviation v)%Q) by lra.
  assert (One : (1 <= round32 (deviation v / inject_Z (prop_band cc)))%Q).
  { assert (R1 : (round32 (inject_Z 1) == inject_Z 1)%Q)
      by (apply round32_Z; lia).
    change (inject_Z 1) with 1%Q in R1. rewrite <- R1.
    apply round32_mono. apply Qle_shift_div_l; [exact Bp|]. lra. }
  assert (P : (percentage v == 1)%Q).
  { unfold percentage. cbn zeta. destruct (Qgtb _ 1) eqn:E.
    - reflexivity.
    - apply Qgtb_le in E. lra. }
  rewrite (proportional_time_pos v Hp).
  rewrite (round32_comp (percentage v * inject_Z max_time_ms)
             (inject_Z max_time_ms)) by (rewrite P; ring).
  rewrite (Qfloor_comp _ _ max_time_exact). apply Qfloor_Z.
Qed.

(** The distance to the exact product.  Each of the three operations is
    off by at most 2^-24 of its result (2^-150 for a subnormal one) and
    the cast drops less than 1 ms. *)
Lemma proportional_time_error v :
  (0 < v - inject_Z (setpoint cfg))%Q ->
  (Qabs (inject_Z (calculateProportionalTime v c)
         - Qmin 1 ((v - inject_Z (setpoint cfg)) / inject_Z (prop_band cc))
           * inject_Z max_time_ms)
   < 1 + inject_Z max_time_ms / 4194304)%Q.
Proof.
  intros Hd.
  pose proof band_pos as Bp.
  pose proof max_time_nonneg as M0.
  set (d := (v - inject_Z (setpoint cfg))%Q) in *.
  set (B := inject_Z (prop_band cc)) in *.
  set (M := inject_Z max_time_ms) in *.
  assert (B1 : (1 <= B)%Q).
  { subst B. change 1%Q with (inject_Z 1). rewrite <- Zle_Qle. lia. }
  assert (Mu : (M <= 65535000)%Q).
  { subst M. change 65535000%Q with (inject_Z 65535000).
    rewrite <- Zle_Qle. unfold max_time_ms. lia. }
  destruct (Qlt_le_dec d B) as [Hlt|Hge].
  2:{ (* at or beyond the band: exact *)
    rewrite (proportional_time_cap v Hge). fold M.
    assert (Q1 : (Qmin 1 (d / B) == 1)%Q).
    { apply Q.min_l. apply Qle_shift_div_l; [exact Bp|]. lra. }
    rewrite Q1.
    setoid_replace (M - 1 * M)%Q with 0%Q by ring.
    change (Qabs 0) with 0%Q.
    assert (0 <= M / 4194304)%Q by (apply Qle_shift_div_l; lra). lra. }
  (* inside the band *)
  set (w := (/ B)%Q).
  assert (W0 : (0 < w)%Q) by (apply Qinv_lt_0_compat; exact Bp).
  assert (W1 : (w <= 1)%Q).
  { subst w. apply Qle_shift_inv_r; [exact Bp|]. lra. }
  assert (Ediv : forall x, (x / B == x * w)%Q) by (intros x; reflexivity).
  set (e := (d * w)%Q).
  assert (E0 : (0 <= e)%Q) by (apply Qmult_le_0_compat; lra).
  assert (E1 : (e < 1)%Q).
  { subst e w. apply Qlt_shift_div_r; [exact Bp|]. lra. }
  assert (Q1 : (Qmin 1 (d / B) == e)%Q).
  { rewrite Ediv. fold e. apply Q.min_r. lra. }
  rewrite Q1.
  assert (EM0 : (0 <= e * M)%Q) by (apply Qmult_le_0_compat; lra).
  assert (EM1 : (e * M <= M)%Q).
  { rewrite <- (Qmult_1_l M) at 2. apply Qmult_le_compat_r; lra. }
  assert (WM : (w * M <= M)%Q).
  { rewrite <- (Qmult_1_l M) at 2. apply Qmult_le_compat_r; lra. }
  assert (WM0 : (0 <= w * M)%Q) by (apply Qmult_le_0_compat; lra).
  assert (Eta : (Qpow2 (-150)
                 == 1 # 1427247692705959881058285969449495136382746624)%Q)
    by (vm_compute; reflexivity).
  (* the rounded deviation *)
  pose proof (round32_error d (Qlt_le_weak _ _ Hd)) as (D1 & D2).
  rewrite Eta in D1, D2.
  set (d' := deviation v) in *.
  change (round32 d) with d' in D1, D2.
  assert (Mint : max_time_ms = 0 \/ 1 <= max_time_ms) by (unfold max_time_ms; lia).
  destruct Mint as [Mz|Mp].
  { (* a zero cap *)
    pose proof (proportional_time_range v) as R. rewrite Mz in R.
    replace (calculateProportionalTime v c) with 0 by lia.
    subst M. rewrite Mz. change (inject_Z 0) with 0%Q.
    setoid_replace (0 - e * 0)%Q with 0%Q by ring.
    setoid_replace (0 / 4194304)%Q with 0%Q by reflexivity.
    change (Qabs 0) with 0%Q. lra. }
  assert (M1 : (1 <= M)%Q).
  { subst M. change 1%Q with (inject_Z 1). rewrite <- Zle_Qle. exact Mp. }
  assert (M4 : (M / 4194304 == M * (1 # 4194304))%Q) by reflexivity.
  rewrite M4.
  destruct (Qlt_le_dec 0 d') as [Hp|Hn].
  2:{ (* the deviation rounds to 0 *)
    rewrite calculateProportionalTime_eq.
    apply Qle_bool_iff in Hn. fold d'. rewrite Hn. apply Qle_bool_iff in Hn.
    change (inject_Z 0) with 0%Q.
    assert (DM : (d * (w * M) <= d * M)%Q).
    { rewrite !(Qmult_comm d). apply Qmult_le_compat_r; lra. }
    assert (DM2 : (d * M
                   <= (1 # 713623846352979940529142984724747568191373312)
                      * M)%Q).
    { apply Qmult_le_compat_r; lra. }
    assert (Ee : (e * M == d * (w * M))%Q) by (subst e; ring).
    apply Qabs_Qlt_condition. split; lra. }
  (* the quotient *)
  assert (DW0 : (0 <= d' * w)%Q) by (apply Qmult_le_0_compat; lra).
  pose proof (round32_error (d' / B)%Q) as (P1 & P2);
    [rewrite Ediv; exact DW0|].
  set (p' := round32 (d' / B)) in *.
  change (d' / B)%Q with (d' * w)%Q in P1, P2. rewrite Eta in P1, P2.
  assert (DW1 : (d' * w <= (d + (d * (1 # 16777216)
                 + (1 # 1427247692705959881058285969449495136382746624)))
                           * w)%Q)
    by (apply Qmult_le_compat_r; lra).
  assert (DW2 : ((d - (d * (1 # 16777216)
                 + (1 # 1427247692705959881058285969449495136382746624)))
                  * w <= d' * w)%Q)
    by (apply Qmult_le_compat_r; lra).
  assert (DWe : forall k1 k2 : Q, ((d + (d * k1 + k2)) * w
                                   == e * (1 + k1) + k2 * w)%Q)
    by (intros; subst e; ring).
  assert (DWe' : forall k1 k2 : Q, ((d - (d * k1 + k2)) * w
                                    == e * (1 - k1) - k2 * w)%Q)
    by (intros; subst e; ring).
  rewrite DWe in DW1. rewrite DWe' in DW2.
  (* the clamp *)
  destruct (percentage_range v Hp) as (C0 & C1).
  assert (Cp : (percentage v <= p')%Q /\ (percentage v == 1 \/ percentage v == p')%Q).
  { unfold percentage. cbn zeta. fold d' B. fold p'.
    destruct (Qgtb p' 1) eqn:G.
    - apply Qgtb_gt in G. split; [lra | left; reflexivity].
    - split; [lra | right; reflexivity]. }
  destruct Cp as (C2 & C3).
  set (pc := percentage v) in *.
  (* the product *)
  assert (PM0 : (0 <= pc * M)%Q) by (apply Qmult_le_0_compat; lra).
  pose proof (round32_error (pc * M)%Q PM0) as (R1 & R2).
  rewrite Eta in R1, R2.
  rewrite (proportional_time_pos v Hp). fold pc M.
  set (r := round32 (pc * M)) in *.
  pose proof (Qfloor_le r) as T2. pose proof (Qlt_floor r) as T1.
  rewrite inject_Z_plus in T1. change (inject_Z 1) with 1%Q in T1.
  set (T := inject_Z (Qfloor r)) in *.
  (* bounds of [pc * M] in terms of [e * M] and [M] *)
  assert (U : (pc * M
               <= (e * (1 + (1 # 16777216)) * (1 + (1 # 16777216))
                   + (3 # 1427247692705959881058285969449495136382746624))
                  * M)%Q).
  { apply Qmult_le_compat_r; [|lra].
    assert (A : (e * (1 + (1 # 16777216)) * (1 # 16777216)
                 == (e * (1 + (1 # 16777216))) * (1 # 16777216))%Q) by ring.
    lra. }
  assert (L : ((e * (1 - (1 # 16777216)) * (1 - (1 # 16777216))
                - (2 # 1427247692705959881058285969449495136382746624))
               * M <= pc * M)%Q).
  { apply Qmult_le_compat_r; [|lra].
    destruct C3 as [C3|C3]; rewrite C3; lra. }
  assert (Ue : forall k1 k2 : Q,
             ((e * k1 * k1 + k2) * M == (e * M) * (k1 * k1) + k2 * M)%Q)
    by (intros; ring).
  assert (Le : forall k1 k2 : Q,
             ((e * k1 * k1 - k2) * M == (e * M) * (k1 * k1) - k2 * M)%Q)
    by (intros; ring).
  rewrite Ue in U. rewrite Le in L.
  set (EM := (e * M)%Q) in *.
  apply Qabs_Qlt_condition. split; lra.
Qed.

(** C6 (TimeProportional).  For a positive proportional band the
    discharge time, computed in single precision and cut to whole
    milliseconds, is 0 for a deviation <= 0, never above max_prop_time,
    non-decreasing in the conductivity, and exactly max_prop_time (in
    milliseconds) for a deviation >= prop_band; for a positive deviation
    it lies within 1 + max_prop_time / 2^22 ms of
    min(1, deviation / prop_band) x max_prop_time. *)
Theorem proportional_time_ramp :
  (forall v, (v - inject_Z (setpoint cfg) <= 0)%Q ->
        calculateProportionalTime v c = 0)
  /\ (forall v, 0 <= calculateProportionalTime v c <= max_time_ms)
  /\ (forall v1 v2, (v1 <= v2)%Q ->
        calculateProportionalTime v1 c <= calculateProportionalTime v2 c)
  /\ (forall v, (inject_Z (prop_band cc) <= v - inject_Z (setpoint cfg))%Q ->
        calculateProportionalTime v c = max_time_ms)
  /\ (forall v, (0 < v - inject_Z (setpoint cfg))%Q ->
        (Qabs (inject_Z (calculateProportionalTime v c)
               - Qmin 1 ((v - inject_Z (setpoint cfg))
                         / inject_Z (prop_band cc))
                 * inject_Z max_time_ms)
         < 1 + inject_Z max_time_ms / 4194304)%Q).
Proof.
  split; [exact proportional_time_zero|].
  split; [exact proportional_time_range|].
  split; [exact proportional_time_mono|].
  split; [exact proportional_time_cap | exact proportional_time_error].
Qed.

End ProportionalTime.

(** Band 200 uS/cm, cap 600 s, setpoint 2500: nothing at or below the
    setpoint, never more than the cap, no less at 2650 than at 2600, the
    cap from 2700 upwards, and within 2 ms of half the cap at 2600. *)
Lemma proportional_time_ramp_witness :
  let c := interval_controller SAMPLE_MODE_TIME_PROPORTIONAL in
  calculateProportionalTime 2500 c = 0
  /\ 0 <= calculateProportionalTime 2600 c <= 600000
  /\ calculateProportionalTime 2600 c <= calculateProportionalTime 2650 c
  /\ calculateProportionalTime 2700 c = 600000
  /\ calculateProportionalTime 9999 c = 600000
  /\ (Qabs (inject_Z (calculateProportionalTime 2600 c) - 300000) < 2)%Q.
Proof.
  cbn zeta.
  destruct (proportional_time_ramp
              (interval_controller SAMPLE_MODE_TIME_PROPORTIONAL)
              solenoid_config
              (sampling_config SAMPLE_MODE_TIME_PROPORTIONAL))
    as (H0 & H1 & H2 & H3 & H4);
    [reflexivity | reflexivity | cbn; lia | cbn; lia |].
  split; [apply H0; vm_compute; discriminate|].
  split; [apply H1|].
  split; [apply H2; vm_compute; discriminate|].
  split; [apply H3; vm_compute; discriminate|].
  split; [apply H3; vm_compute; discriminate|].
  specialize (H4 2600%Q).
  assert (E : (Qmin 1 ((2600 - inject_Z (setpoint solenoid_config))
                       / inject_Z (prop_band
                                     (sampling_config
                                        SAMPLE_MODE_TIME_PROPORTIONAL)))
               * inject_Z (max_prop_time_seconds
                             (sampling_config SAMPLE_MODE_TIME_PROPORTIONAL)
                           * 1000) == 300000)%Q)
    by (vm_compute; reflexivity).
  rewrite E in H4.
  eapply Qlt_trans; [apply H4; vm_compute; reflexivity|].
  vm_compute. reflexivity.
Defined.

(** C6 as the claim states it fails in single precision.  Setpoint 2500,
    band 100, cap 300 s, reading 2521: the quotient 21/100 is not a
    binary32 value and rounds to 14092861/2^26, the product with 300000
    rounds to 62999.9921875, and the cast drops the fraction, where
    min(1, 21/100) x 300000 is 63000. *)
Lemma proportional_time_below_exact_product :
  let cc := {| sample_mode := SAMPLE_MODE_TIME_PROPORTIONAL;
               interval_seconds := 3600; duration_seconds := 300;
               hold_time_seconds := 60; blow_time_seconds := 600;
               prop_band := 100; max_prop_time_seconds := 300 |} in
  let c := setConductivityConfig (Some cc) solenoid_controller in
  let exact :=
    (Qmin 1 ((2521 - inject_Z (setpoint solenoid_config))
             / inject_Z (prop_band cc))
     * inject_Z (max_prop_time_seconds cc * 1000))%Q in
  _config c = Some solenoid_config
  /\ _cond_config c = Some cc
  /\ calculateProportionalTime 2521 c = 62999
  /\ (exact == 63000)%Q
  /\ ~ (inject_Z (calculateProportionalTime 2521 c) == exact)%Q.
Proof.
  cbn zeta. split; [reflexivity|]. split; [reflexivity|].
  split; [vm_compute; reflexivity|]. split; [vm_compute; reflexivity|].
  vm_compute. discriminate.
Qed.

(** The same settings at 2502.625, a reading that is a binary32 value:
    7874 ms, where the exact product is 7875. *)
Lemma proportional_time_at_2502_625 :
  let cc := {| sample_mode := SAMPLE_MODE_TIME_PROPORTIONAL;
               interval_seconds := 3600; duration_seconds := 300;
               hold_time_seconds := 60; blow_time_seconds := 600;
               prop_band := 100; max_prop_time_seconds := 300 |} in
  let c := setConductivityConfig (Some cc) solenoid_controller in
  calculateProportionalTime (20021 # 8) c = 7874.
Proof. vm_compute. reflexivity. Qed.

(** A zero proportional band: the quotient is infinite for any positive
    deviation, so the cap applies just above the setpoint, while a zero
    deviation still gives 0. *)
Lemma proportional_time_zero_band :
  let cc := {| sample_mode := SAMPLE_MODE_TIME_PROPORTIONAL;
               interval_seconds := 3600; duration_seconds := 300;
               hold_time_seconds := 60; blow_time_seconds := 600;
               prop_band := 0; max_prop_time_seconds := 600 |} in
  let c := setConductivityConfig (Some cc) solenoid_controller in
  calculateProportionalTime 2500 c = 0
  /\ calculateProportionalTime (25001 # 10) c = 600000.
Proof. split; vm_compute; reflexivity. Qed.

(** *** What the valve operations leave alone *)

Lemma same_latch_refl c : same_latch c c.
Proof. repeat split. Qed.

Lemma same_latch_trans c1 c2 c3 :
  same_latch c1 c2 -> same_latch c2 c3 -> same_latch c1 c3.
Proof.
  unfold same_latch.
  intros (A1 & A2 & A3 & A4 & A5 & A6) (B1 & B2 & B3 & B4 & B5 & B6).
  repeat split; congruence.
Qed.

Lemma openValve_same_latch now c : same_latch c (openValve now c).
Proof. unfold openValve. cases; repeat split. Qed.

Lemma closeValve_same_latch now c : same_latch c (closeValve now c).
Proof. unfold closeValve. cases; repeat split. Qed.

Lemma closeAndHold_same_latch now trap c :
  same_latch c (closeAndHold now trap c).
Proof.
  unfold closeAndHold.
  apply same_latch_trans with (c2 := closeValve now c);
    [apply closeValve_same_latch|].
  destruct trap; repeat split.
Qed.

Lemma startCycleIfDue_same_latch now cc c :
  same_latch c (startCycleIfDue now cc c).
Proof.
  unfold startCycleIfDue. destruct (_ <=? _); [|apply same_latch_refl].
  eapply same_latch_trans; [|apply openValve_same_latch].
  repeat split.
Qed.

Lemma processContinuousMode_same_latch now v c :
  same_latch c (processContinuousMode now v c).
Proof.
  unfold processContinuousMode.
  destruct (_config c); [|apply same_latch_refl].
  repeat case_cond;
    first [ apply same_latch_refl | apply openValve_same_latch
          | apply closeValve_same_latch ].
Qed.

Lemma processIntermittentMode_same_latch now v c :
  same_latch c (processIntermittentMode now v c).
Proof.
  unfold processIntermittentMode.
  destruct (_config c); [|apply same_latch_refl].
  destruct (_cond_config c); [|apply same_latch_refl].
  destruct (waiting_for_reset (_status c)); [apply same_latch_refl|].
  destruct (state (_status c)); repeat case_cond;
    first [ apply same_latch_refl | apply startCycleIfDue_same_latch
          | apply closeAndHold_same_latch
          | (eapply same_latch_trans; [|apply openValve_same_latch];
             repeat split)
          | repeat split ].
Qed.

Lemma processTimedCycle_same_latch blow_ms now v c :
  same_latch c (processTimedCycle blow_ms now v c).
Proof.
  unfold processTimedCycle.
  destruct (_config c); [|apply same_latch_refl].
  destruct (_cond_config c); [|apply same_latch_refl].
  destruct (waiting_for_reset (_status c)); [apply same_latch_refl|].
  destruct (state (_status c)); repeat case_cond;
    first [ apply same_latch_refl | apply startCycleIfDue_same_latch
          | apply closeAndHold_same_latch
          | (eapply same_latch_trans; [|apply openValve_same_latch];
             repeat split)
          | repeat split ].
Qed.

Lemma processSamplingMode_same_latch now v c :
  same_latch c (processSamplingMode now v c).
Proof.
  unfold processSamplingMode, processTimedBlowdown, processTimeProportional.
  destruct (_cond_config c) as [cc|];
    [destruct (sample_mode cc)|];
    first [ apply processContinuousMode_same_latch
          | apply processIntermittentMode_same_latch
          | apply processTimedCycle_same_latch ].
Qed.

(** *** Flags a tick never clears *)

Lemma checkTimeout_flags now c :
  (timeout_flag (_status c) = true ->
   timeout_flag (_status (checkTimeout now c)) = true)
  /\ (waiting_for_reset (_status c) = true ->
      waiting_for_reset (_status (checkTimeout now c)) = true)
  /\ hoa_mode (_status (checkTimeout now c)) = hoa_mode (_status c).
Proof.
  unfold checkTimeout.
  destruct (_config c) as [cfg|] eqn:Ec; [|auto].
  destruct (time_limit_seconds cfg =? 0); [auto|].
  destruct (state_eqb _ _); [|auto].
  destruct (_ <=? _); [|auto].
  destruct (closeValve_same_latch now c) as (H1 & _ & H3 & _).
  cbn. rewrite H1, Ec. cbn. auto.
Qed.

Lemma updateBlowdownTimer_flags now c :
  timeout_flag (_status (updateBlowdownTimer now c)) = timeout_flag (_status c)
  /\ waiting_for_reset (_status (updateBlowdownTimer now c))
     = waiting_for_reset (_status c)
  /\ hoa_mode (_status (updateBlowdownTimer now c)) = hoa_mode (_status c).
Proof. unfold updateBlowdownTimer. cases; auto. Qed.

Lemma processHOA_flags now c :
  timeout_flag (_status (processHOA now c)) = timeout_flag (_status c)
  /\ waiting_for_reset (_status (processHOA now c))
     = waiting_for_reset (_status c).
Proof.
  unfold processHOA.
  destruct (hoa_mode (_status c)); [auto| |].
  - destruct (valve_open (_status c)); [|auto].
    destruct (closeValve_same_latch now c) as (_ & _ & _ & H4 & H5 & _). auto.
  - destruct (valve_open (_status c)); cbn [negb].
    + destruct (_ <=? _); [|auto].
      destruct (closeValve_same_latch now c) as (_ & _ & _ & H4 & H5 & _).
      cbn. auto.
    + destruct (openValve_same_latch now (set_hand_start_time now c))
        as (_ & _ & _ & H4 & H5 & _). auto.
Qed.

(** X1.  A tick never clears [timeout_flag] or [waiting_for_reset], whatever
    the operator mode, the flow switch and the reading. *)
Theorem update_never_clears_timeout now v flow_ok c :
  (timeout_flag (_status c) = true ->
   timeout_flag (_status (update now v flow_ok c)) = true)
  /\ (waiting_for_reset (_status c) = true ->
      waiting_for_reset (_status (update now v flow_ok c)) = true).
Proof.
  set (c0 := upd_status (set_last_conductivity v) c).
  destruct flow_ok.
  - unfold update. fold c0. cbn [negb].
    destruct (processHOA_flags now c0) as (P1 & P2).
    set (c1 := processHOA now c0) in *.
    assert (T0 : timeout_flag (_status c1) = timeout_flag (_status c))
      by exact P1.
    assert (W0 : waiting_for_reset (_status c1) = waiting_for_reset (_status c))
      by exact P2.
    rewrite <- T0, <- W0. clearbody c1. clear.
    destruct (hoa_mode (_status c1)); [|auto|auto].
    assert (B : (timeout_flag (_status c1) = true ->
                 timeout_flag (_status (checkBallValveComplete now c1)) = true)
                /\ (waiting_for_reset (_status c1) = true ->
                    waiting_for_reset
                      (_status (checkBallValveComplete now c1)) = true)).
    { destruct (checkBallValveComplete_frame now c1) as (_ & H2 & H3 & _).
      rewrite H2, H3. auto. }
    assert (S : (timeout_flag (_status c1) = true ->
                 timeout_flag
                   (_status (updateBlowdownTimer now
                               (checkTimeout now
                                  (processSamplingMode now v c1)))) = true)
                /\ (waiting_for_reset (_status c1) = true ->
                    waiting_for_reset
                      (_status (updateBlowdownTimer now
                                  (checkTimeout now
                                     (processSamplingMode now v c1))))
                    = true)).
    { destruct (processSamplingMode_same_latch now v c1)
        as (_ & _ & _ & S4 & S5 & _).
      destruct (checkTimeout_flags now (processSamplingMode now v c1))
        as (C1 & C2 & _).
      destruct (updateBlowdownTimer_flags now
                  (checkTimeout now (processSamplingMode now v c1)))
        as (U1 & U2 & _).
      rewrite U1, U2. rewrite S4 in C1. rewrite S5 in C2. auto. }
    destruct (state (_status c1)); assumption.
  - rewrite update_no_flow. cbn zeta. fold c0.
    destruct (valve_open (_status c)); [|auto].
    destruct (closeValve_same_latch now c0) as (_ & _ & _ & H4 & H5 & _).
    rewrite H4, H5. auto.
Qed.

Lemma update_never_clears_timeout_witness :
  let c := run [ {| t_now := 1000; t_conductivity := 2600; t_flow_ok := true |};
                 {| t_now := 301000; t_conductivity := 2600;
                    t_flow_ok := true |};
                 {| t_now := 301100; t_conductivity := 2600;
                    t_flow_ok := true |} ] solenoid_controller in
  timeout_flag (_status c) = true
  /\ timeout_flag (_status (update 500000 1000 false
                              (setHOA HOA_HAND c))) = true.
Proof.
  cbn zeta. split; [vm_compute; reflexivity|].
  refine (proj1 (update_never_clears_timeout 500000 1000 false _) _).
  vm_compute. reflexivity.
Defined.

(** *** The Sampling state *)

Lemma openValve_state now c :
  state (_status (openValve now c)) = BD_STATE_VALVE_OPENING
  \/ state (_status (openValve now c)) = BD_STATE_BLOWING_DOWN.
Proof. unfold openValve. destruct (has_ball_valve c); auto. Qed.

Lemma closeValve_state now c :
  state (_status (closeValve now c)) = BD_STATE_VALVE_CLOSING
  \/ state (_status (closeValve now c)) = BD_STATE_IDLE.
Proof. unfold closeValve. destruct (has_ball_valve c); cases; auto. Qed.

Lemma closeAndHold_state now trap c :
  state (_status (closeAndHold now trap c)) = BD_STATE_HOLDING.
Proof. unfold closeAndHold. destruct trap; reflexivity. Qed.

Ltac not_sampling :=
  match goal with
  | |- state (_status (openValve ?n ?c)) <> _ =>
      let E := fresh in
      destruct (openValve_state n c) as [E|E]; rewrite E; discriminate
  | |- state (_status (closeValve ?n ?c)) <> _ =>
      let E := fresh in
      destruct (closeValve_state n c) as [E|E]; rewrite E; discriminate
  | |- state (_status (closeAndHold ?n ?t ?c)) <> _ =>
      rewrite closeAndHold_state; discriminate
  | |- state (_status (transitionState _ _ _)) <> _ => discriminate
  | |- state (_status (upd_status _ _)) <> _ => cbn [state _status upd_status set_status set_hoa_mode]; not_sampling
  | |- _ => congruence
  end.

Lemma processContinuousMode_not_sampling now v c :
  state (_status c) <> BD_STATE_SAMPLING ->
  state (_status (processContinuousMode now v c)) <> BD_STATE_SAMPLING.
Proof.
  intros H. unfold processContinuousMode.
  repeat case_cond; not_sampling.
Qed.

Lemma startCycleIfDue_not_sampling now cc c :
  state (_status c) <> BD_STATE_SAMPLING ->
  state (_status (startCycleIfDue now cc c)) <> BD_STATE_SAMPLING.
Proof.
  intros H. unfold startCycleIfDue. case_cond; not_sampling.
Qed.

Lemma processIntermittentMode_not_sampling now v c :
  state (_status c) <> BD_STATE_SAMPLING ->
  state (_status (processIntermittentMode now v c)) <> BD_STATE_SAMPLING.
Proof.
  intros H. unfold processIntermittentMode.
  destruct (_config c) as [cfg|]; [|exact H].
  destruct (_cond_config c) as [cc|]; [|exact H].
  destruct (waiting_for_reset (_status c)); [exact H|].
  destruct (state (_status c)) eqn:Es; try contradiction; try congruence;
    try (apply startCycleIfDue_not_sampling; congruence);
    repeat case_cond; not_sampling.
Qed.

Lemma processTimedCycle_not_sampling blow_ms now v c :
  state (_status c) <> BD_STATE_SAMPLING ->
  state (_status (processTimedCycle blow_ms now v c)) <> BD_STATE_SAMPLING.
Proof.
  intros H. unfold processTimedCycle.
  destruct (_config c) as [cfg|]; [|exact H].
  destruct (_cond_config c) as [cc|]; [|exact H].
  destruct (waiting_for_reset (_status c)); [exact H|].
  destruct (state (_status c)) eqn:Es; try contradiction; try congruence;
    try (apply startCycleIfDue_not_sampling; congruence);
    repeat case_cond; not_sampling.
Qed.

Lemma processSamplingMode_not_sampling now v c :
  state (_status c) <> BD_STATE_SAMPLING ->
  state (_status (processSamplingMode now v c)) <> BD_STATE_SAMPLING.
Proof.
  intros H.
  unfold processSamplingMode, processTimedBlowdown, processTimeProportional.
  destruct (_cond_config c) as [cc|]; [destruct (sample_mode cc)|];
    first [ apply processContinuousMode_not_sampling
          | apply processIntermittentMode_not_sampling
          | apply processTimedCycle_not_sampling ]; exact H.
Qed.

Lemma processHOA_not_sampling now c :
  state (_status c) <> BD_STATE_SAMPLING ->
  state (_status (processHOA now c)) <> BD_STATE_SAMPLING.
Proof.
  intros H. unfold processHOA.
  destruct (hoa_mode (_status c)); repeat case_cond; not_sampling.
Qed.

Lemma checkTimeout_not_sampling now c :
  state (_status c) <> BD_STATE_SAMPLING ->
  state (_status (checkTimeout now c)) <> BD_STATE_SAMPLING.
Proof.
  intros H. unfold checkTimeout. repeat case_cond; not_sampling.
Qed.

Lemma update_not_sampling now v flow_ok c :
  state (_status c) <> BD_STATE_SAMPLING ->
  state (_status (update now v flow_ok c)) <> BD_STATE_SAMPLING.
Proof.
  intros H.
  set (c0 := upd_status (set_last_conductivity v) c).
  assert (H0 : state (_status c0) <> BD_STATE_SAMPLING) by exact H.
  destruct flow_ok.
  - unfold update. fold c0. cbn [negb].
    pose proof (processHOA_not_sampling now c0 H0) as H1.
    set (c1 := processHOA now c0) in *. clearbody c1.
    destruct (hoa_mode (_status c1)); [|exact H1|exact H1].
    assert (B : state (_status (checkBallValveComplete now c1))
                <> BD_STATE_SAMPLING).
    { unfold checkBallValveComplete. repeat case_cond; not_sampling. }
    assert (S : state (_status (updateBlowdownTimer now
                                  (checkTimeout now
                                     (processSamplingMode now v c1))))
                <> BD_STATE_SAMPLING).
    { destruct (updateBlowdownTimer_frame now
                  (checkTimeout now (processSamplingMode now v c1)))
        as (U & _). rewrite U.
      apply checkTimeout_not_sampling, processSamplingMode_not_sampling, H1. }
    destruct (state (_status c1)); assumption.
  - rewrite update_no_flow. cbn zeta. fold c0.
    destruct (valve_open (_status c)); not_sampling.
Qed.

(** X2.  The Sampling state is never the state after a tick: each place that
    sets it calls [openValve] next, which overwrites it with ValveOpening
    or BlowingDown.  So from any state other than Sampling (the
    constructor gives Idle) no run of ticks reaches Sampling, and the
    Sampling case of the interval modes, the only reader of
    [duration_seconds], is not executed. *)
Theorem sampling_state_never_reached ticks :
  forall c,
    state (_status c) <> BD_STATE_SAMPLING ->
    state (_status (run ticks c)) <> BD_STATE_SAMPLING.
Proof.
  induction ticks as [|t ticks IH]; intros c H; [exact H|].
  cbn. apply IH. apply update_not_sampling. exact H.
Qed.

Lemma sampling_state_never_reached_witness :
  state (_status
           (run [ {| t_now := 3600000; t_conductivity := 2600;
                     t_flow_ok := true |} ]
              (interval_controller SAMPLE_MODE_INTERMITTENT)))
  <> BD_STATE_SAMPLING.
Proof.
  apply sampling_state_never_reached. cbn. discriminate.
Defined.

(** *** Solenoid valves: relay and status flag agree *)

Lemma has_ball_valve_same_latch c1 c2 :
  same_latch c1 c2 -> has_ball_valve c2 = has_ball_valve c1.
Proof. intros (H & _). unfold has_ball_valve. rewrite H. reflexivity. Qed.

Lemma openValve_consistent now c :
  has_ball_valve c = false -> solenoid_consistent (openValve now c).
Proof.
  intros H. unfold solenoid_consistent.
  rewrite (has_ball_valve_same_latch c _ (openValve_same_latch now c)).
  unfold openValve. rewrite H. auto.
Qed.

Lemma closeValve_consistent now c :
  has_ball_valve c = false -> solenoid_consistent (closeValve now c).
Proof.
  intros H. unfold solenoid_consistent.
  rewrite (has_ball_valve_same_latch c _ (closeValve_same_latch now c)).
  unfold closeValve. rewrite H. cases; auto.
Qed.

Lemma closeAndHold_consistent now trap c :
  has_ball_valve c = false -> solenoid_consistent (closeAndHold now trap c).
Proof.
  intros H.
  destruct (closeValve_consistent now c H) as (A & _ & C).
  unfold closeAndHold. destruct trap; repeat split; auto.
Qed.

(** Re-labelling the state, away from the travel states, keeps the
    agreement. *)
Lemma transitionState_consistent now st c :
  solenoid_consistent c ->
  st <> BD_STATE_VALVE_OPENING -> st <> BD_STATE_VALVE_CLOSING ->
  solenoid_consistent (transitionState now st c).
Proof.
  intros (A & _ & C) H1 H2. repeat split; auto.
  unfold in_transition. cbn. destruct st; auto; contradiction.
Qed.

Ltac ball_hyp :=
  match goal with
  | H : has_ball_valve _ = false |- _ => exact H
  end.

Ltac consistent :=
  first
    [ assumption
    | apply openValve_consistent; ball_hyp
    | apply closeValve_consistent; ball_hyp
    | apply closeAndHold_consistent; ball_hyp
    | apply transitionState_consistent; [assumption | discriminate ..] ].

Lemma processSamplingMode_consistent now v c :
  solenoid_consistent c -> solenoid_consistent (processSamplingMode now v c).
Proof.
  intros H. assert (H_sol : has_ball_valve c = false) by apply H.
  unfold processSamplingMode, processContinuousMode, processIntermittentMode,
    processTimedBlowdown, processTimeProportional, processTimedCycle,
    startCycleIfDue.
  destruct (_cond_config c) as [cc|]; [destruct (sample_mode cc)|];
    (destruct (_config c) as [cfg|]; [|exact H]);
    (destruct (waiting_for_reset (_status c)); [exact H|]);
    try destruct (state (_status c));
    repeat case_cond; consistent.
Qed.

Lemma checkTimeout_consistent now c :
  solenoid_consistent c -> solenoid_consistent (checkTimeout now c).
Proof.
  intros H. assert (H_sol : has_ball_valve c = false) by apply H.
  unfold checkTimeout.
  destruct (_config c) as [cfg|] eqn:Ec; [|exact H].
  destruct (time_limit_seconds cfg =? 0); [exact H|].
  destruct (state_eqb _ _); [|exact H].
  destruct (_ <=? _); [|exact H].
  destruct (closeValve_consistent now c H_sol) as (A & _ & C).
  destruct (closeValve_same_latch now c) as (K & _).
  cbn [_config upd_status set_status]. rewrite K, Ec.
  repeat split; auto.
  unfold has_ball_valve in *. cbn. rewrite Ec in H_sol. exact H_sol.
Qed.

Lemma updateBlowdownTimer_consistent now c :
  solenoid_consistent c -> solenoid_consistent (updateBlowdownTimer now c).
Proof.
  intros H. unfold updateBlowdownTimer. case_cond; exact H.
Qed.

Lemma processHOA_consistent now c :
  solenoid_consistent c -> solenoid_consistent (processHOA now c).
Proof.
  intros H. assert (H_sol : has_ball_valve c = false) by apply H.
  unfold processHOA.
  destruct (hoa_mode (_status c)); repeat case_cond; consistent.
Qed.

(** X3.  For a solenoid valve every tick keeps [valve_open] equal to the relay
    command and keeps the controller out of the two travel states,
    whatever the operator mode, the sampling mode and the inputs. *)
Theorem solenoid_relay_matches_valve now v flow_ok c :
  solenoid_consistent c ->
  solenoid_consistent (update now v flow_ok c).
Proof.
  intros H.
  set (c0 := upd_status (set_last_conductivity v) c).
  assert (H0 : solenoid_consistent c0) by exact H.
  destruct flow_ok.
  - unfold update. fold c0. cbn [negb].
    pose proof (processHOA_consistent now c0 H0) as H1.
    set (c1 := processHOA now c0) in *. clearbody c1.
    destruct (hoa_mode (_status c1)); [|exact H1|exact H1].
    destruct H1 as (A & B & C).
    unfold in_transition in B.
    destruct (state (_status c1)) eqn:Es; cbn in B; try discriminate;
      apply updateBlowdownTimer_consistent, checkTimeout_consistent,
        processSamplingMode_consistent;
      repeat split; auto; unfold in_transition; rewrite Es; reflexivity.
  - rewrite update_no_flow. cbn zeta. fold c0.
    destruct (valve_open (_status c)); [|exact H0].
    apply closeValve_consistent. apply H0.
Qed.

Lemma solenoid_relay_matches_valve_witness :
  solenoid_consistent solenoid_controller
  /\ solenoid_consistent (update 1000 2600 true solenoid_controller).
Proof.
  assert (H : solenoid_consistent solenoid_controller)
    by (repeat split; reflexivity).
  split; [exact H|].
  exact (solenoid_relay_matches_valve 1000 2600 true solenoid_controller H).
Defined.

(** *** Operator modes *)

Lemma processSamplingMode_hoa now v c :
  hoa_mode (_status (processSamplingMode now v c)) = hoa_mode (_status c).
Proof. apply processSamplingMode_same_latch. Qed.

(** X4.  In Off, a tick leaves a solenoid valve closed and the relay
    de-energised, with or without flow and whatever the reading; the mode
    stays Off. *)
Theorem off_mode_closes_valve now v flow_ok c :
  solenoid_consistent c ->
  hoa_mode (_status c) = HOA_OFF ->
  let c' := update now v flow_ok c in
  valve_open (_status c') = false
  /\ relay_energized (_status c') = false
  /\ hoa_mode (_status c') = HOA_OFF.
Proof.
  intros H Ho c'. subst c'.
  set (c0 := upd_status (set_last_conductivity v) c).
  assert (E : update now v flow_ok c
              = if valve_open (_status c) then closeValve now c0 else c0).
  { destruct flow_ok; [|apply update_no_flow].
    unfold update, processHOA. fold c0. cbn [negb].
    assert (Ho0 : hoa_mode (_status c0) = HOA_OFF) by exact Ho.
    rewrite Ho0.
    assert (Ev : valve_open (_status c0) = valve_open (_status c))
      by reflexivity.
    rewrite Ev.
    destruct (valve_open (_status c)).
    - destruct (closeValve_same_latch now c0) as (_ & _ & K & _).
      rewrite K, Ho0. reflexivity.
    - rewrite Ho0. reflexivity. }
  rewrite E.
  destruct H as (A & B & C).
  destruct (valve_open (_status c)) eqn:Ev.
  - destruct (closeValve_solenoid now c0 A) as (V & _).
    destruct (closeValve_same_latch now c0) as (_ & _ & K & _).
    rewrite V, closeValve_relay, K. auto.
  - subst c0. repeat split; cbn; congruence.
Qed.

Lemma off_mode_closes_valve_witness :
  let c := setHOA HOA_OFF (update 1000 2600 true solenoid_controller) in
  valve_open (_status c) = true
  /\ valve_open (_status (update 1100 2600 true c)) = false.
Proof.
  cbn zeta. split; [reflexivity|].
  refine (proj1 (off_mode_closes_valve 1100 2600 true _ _ _)).
  - repeat split; reflexivity.
  - reflexivity.
Defined.

(** X5.  In Hand, with flow: a closed valve is commanded open and the Hand
    timestamp is set to the time of the tick; while the valve is open and
    fewer than 600 s have elapsed on the timestamp the tick only stores the
    reading (no sampling mode, no time-limit check); once 600 s have
    elapsed the operator mode is back to Auto after the tick. *)
Theorem hand_mode_tick now v c :
  hoa_mode (_status c) = HOA_HAND ->
  (valve_open (_status c) = false ->
   let c' := update now v true c in
   relay_energized (_status c') = true
   /\ hand_start_time c' = now
   /\ hoa_mode (_status c') = HOA_HAND
   /\ (has_ball_valve c = false -> valve_open (_status c') = true))
  /\ (valve_open (_status c) = true ->
      sub32 now (hand_start_time c) < HOA_HAND_TIMEOUT_SEC * 1000 ->
      update now v true c = upd_status (set_last_conductivity v) c)
  /\ (valve_open (_status c) = true ->
      HOA_HAND_TIMEOUT_SEC * 1000 <= sub32 now (hand_start_time c) ->
      hoa_mode (_status (update now v true c)) = HOA_AUTO).
Proof.
  intros Hh.
  set (c0 := upd_status (set_last_conductivity v) c).
  assert (Hh0 : hoa_mode (_status c0) = HOA_HAND) by exact Hh.
  split; [|split].
  - intros Hv c'. subst c'.
    unfold update, processHOA. fold c0. cbn [negb].
    assert (Hv0 : valve_open (_status c0) = false) by exact Hv.
    rewrite Hh0, Hv0. cbn [negb].
    set (c1 := set_hand_start_time now c0).
    destruct (openValve_same_latch now c1) as (_ & _ & K & _).
    rewrite K. change (hoa_mode (_status c1)) with (hoa_mode (_status c)).
    rewrite Hh.
    split; [apply openValve_relay|].
    split; [unfold openValve; destruct (has_ball_valve c1); reflexivity|].
    split; [rewrite K; exact Hh|].
    intros Hb. apply openValve_solenoid. exact Hb.
  - intros Hv Hlt.
    unfold update, processHOA. fold c0. cbn [negb].
    assert (Hv0 : valve_open (_status c0) = true) by exact Hv.
    rewrite Hh0, Hv0. cbn [negb].
    change (hand_start_time c0) with (hand_start_time c).
    destruct (Z.leb_spec (HOA_HAND_TIMEOUT_SEC * 1000)
                (sub32 now (hand_start_time c))); [lia|].
    rewrite Hh0. reflexivity.
  - intros Hv Hge.
    unfold update, processHOA. fold c0. cbn [negb].
    assert (Hv0 : valve_open (_status c0) = true) by exact Hv.
    rewrite Hh0, Hv0. cbn [negb].
    change (hand_start_time c0) with (hand_start_time c).
    destruct (Z.leb_spec (HOA_HAND_TIMEOUT_SEC * 1000)
                (sub32 now (hand_start_time c))); [|lia].
    set (c1 := upd_status (set_hoa_mode HOA_AUTO) (closeValve now c0)).
    assert (Ha : hoa_mode (_status c1) = HOA_AUTO) by reflexivity.
    rewrite Ha.
    assert (B : hoa_mode (_status (checkBallValveComplete now c1)) = HOA_AUTO).
    { destruct (checkBallValveComplete_frame now c1) as (K & _).
      rewrite K. exact Ha. }
    assert (S : hoa_mode
                  (_status (updateBlowdownTimer now
                              (checkTimeout now
                                 (processSamplingMode now v c1)))) = HOA_AUTO).
    { destruct (updateBlowdownTimer_flags now
                  (checkTimeout now (processSamplingMode now v c1)))
        as (_ & _ & U).
      destruct (checkTimeout_flags now (processSamplingMode now v c1))
        as (_ & _ & T).
      rewrite U, T, processSamplingMode_hoa. exact Ha. }
    destruct (state (_status c1)); assumption.
Qed.

Lemma hand_mode_tick_witness :
  let c := setHOA HOA_HAND solenoid_controller in
  let c1 := update 1000 2000 true c in
  valve_open (_status c1) = true
  /\ update 500000 2000 true c1 = upd_status (set_last_conductivity 2000) c1
  /\ hoa_mode (_status (update 601000 2000 true c1)) = HOA_AUTO.
Proof.
  cbn zeta.
  set (c := setHOA HOA_HAND solenoid_controller).
  pose proof (hand_mode_tick 1000 2000 c eq_refl) as (A & _ & _).
  pose proof (hand_mode_tick 500000 2000 (update 1000 2000 true c) eq_refl)
    as (_ & B & _).
  pose proof (hand_mode_tick 601000 2000 (update 1000 2000 true c) eq_refl)
    as (_ & _ & C).
  split; [apply A; reflexivity|].
  split; [apply B; [reflexivity | vm_compute; reflexivity]|].
  apply C; [reflexivity | vm_compute; discriminate].
Defined.

(** *** Missing configuration *)

Lemma processSamplingMode_no_config now v c :
  _config c = None -> processSamplingMode now v c = c.
Proof.
  intros H.
  unfold processSamplingMode, processContinuousMode, processIntermittentMode,
    processTimedBlowdown, processTimeProportional, processTimedCycle.
  destruct (_cond_config c) as [cc|]; [destruct (sample_mode cc)|];
    rewrite H; reflexivity.
Qed.

(** X6.  Without a blowdown configuration (null pointer) a tick in Auto with
    flow present takes no control action: valve flag, relay, state and
    timeout flag are as before, whatever the reading and the sampling
    mode. *)
Theorem missing_config_no_action now v c :
  _config c = None ->
  hoa_mode (_status c) = HOA_AUTO ->
  let c' := update now v true c in
  valve_open (_status c') = valve_open (_status c)
  /\ relay_energized (_status c') = relay_energized (_status c)
  /\ state (_status c') = state (_status c)
  /\ timeout_flag (_status c') = timeout_flag (_status c).
Proof.
  intros Hc Ha c'. subst c'.
  set (c0 := upd_status (set_last_conductivity v) c).
  assert (Hc0 : _config c0 = None) by exact Hc.
  destruct (in_transition c) eqn:Et.
  - rewrite update_auto_transition by assumption. fold c0.
    unfold checkBallValveComplete. rewrite Hc0. auto.
  - rewrite update_auto_flow by assumption. fold c0.
    rewrite processSamplingMode_no_config by exact Hc0.
    assert (T : checkTimeout now c0 = c0)
      by (unfold checkTimeout; rewrite Hc0; reflexivity).
    rewrite T.
    destruct (updateBlowdownTimer_frame now c0) as (U1 & U2 & U3).
    destruct (updateBlowdownTimer_flags now c0) as (U4 & _).
    rewrite U1, U2, U3, U4. auto.
Qed.

Lemma missing_config_no_action_witness :
  let c' := update 1000 9000 true init_controller in
  valve_open (_status c') = false
  /\ relay_energized (_status c') = false.
Proof.
  cbn zeta.
  destruct (missing_config_no_action 1000 9000 init_controller
              eq_refl eq_refl) as (A & B & _).
  split; [exact A | exact B].
Defined.

(** *** The recorded discharge time after a timeout *)

(** X7.  [current_blowdown_time] is refreshed only at the end of a tick that
    ends in BlowingDown; opening the valve does not clear it.  So when
    the recorded time of an earlier discharge has reached the limit (as
    after a timeout and [resetTimeout]), the tick on which continuous
    control opens a solenoid valve times out on that same tick: the valve
    is closed again and the state is Timeout. *)
Theorem stale_discharge_time_times_out now v c cfg :
  _config c = Some cfg ->
  control_direction cfg = 0 ->
  ball_valve_delay cfg <= 0 ->
  is_continuous c = true ->
  hoa_mode (_status c) = HOA_AUTO ->
  waiting_for_reset (_status c) = false ->
  in_transition c = false ->
  valve_open (_status c) = false ->
  0 < time_limit_seconds cfg ->
  time_limit_seconds cfg * 1000 <= current_blowdown_time (_status c) ->
  (inject_Z (setpoint cfg) < v)%Q ->
  let c' := update now v true c in
  state (_status c') = BD_STATE_TIMEOUT
  /\ timeout_flag (_status c') = true
  /\ valve_open (_status c') = false
  /\ relay_energized (_status c') = false.
Proof.
  intros Hc Hd Hb Hcont Ha Hw Ht Hv Hl Hcur Hgt c'. subst c'.
  rewrite update_auto_flow by assumption.
  rewrite processSamplingMode_continuous by exact Hcont.
  set (c0 := upd_status (set_last_conductivity v) c).
  unfold processContinuousMode.
  assert (Hc0 : _config c0 = Some cfg) by exact Hc.
  assert (Hw0 : waiting_for_reset (_status c0) = false) by exact Hw.
  assert (Hv0 : valve_open (_status c0) = false) by exact Hv.
  rewrite Hc0, Hw0, Hd, Hv0. cbn [Z.eqb negb].
  apply Qgtb_gt in Hgt. rewrite Hgt. cbn [andb].
  assert (Hball : has_ball_valve c0 = false).
  { unfold has_ball_valve. rewrite Hc0. apply Z.ltb_ge. exact Hb. }
  destruct (openValve_solenoid now c0 Hball) as (_ & Hs).
  destruct (openValve_same_latch now c0) as (K1 & _ & _ & _ & _ & K6).
  destruct (checkTimeout_fires now (openValve now c0) cfg)
    as (F1 & F2 & _ & F4 & _ & _ & F7).
  - rewrite K1. exact Hc0.
  - exact Hl.
  - exact Hs.
  - rewrite K6. exact Hcur.
  - destruct (updateBlowdownTimer_frame now (checkTimeout now (openValve now c0)))
      as (U1 & U2 & U3).
    destruct (updateBlowdownTimer_flags now
                (checkTimeout now (openValve now c0))) as (U4 & _).
    rewrite U1, U2, U3, U4, F1, F2, F4, (F7 Hb). auto.
Qed.

(** After a timeout at 301100 ms and a reset at 400000 ms, the reading
    2600 at 500000 ms opens the valve and times out at once. *)
Lemma stale_discharge_time_times_out_witness :
  current_blowdown_time (_status timed_out_and_reset) = 300000
  /\ state (_status timed_out_and_reset) = BD_STATE_IDLE
  /\ timeout_flag (_status timed_out_and_reset) = false
  /\ state (_status (update 500000 2600 true timed_out_and_reset))
     = BD_STATE_TIMEOUT.
Proof.
  split; [vm_compute; reflexivity|].
  split; [vm_compute; reflexivity|].
  split; [vm_compute; reflexivity|].
  refine (proj1 (stale_discharge_time_times_out 500000 2600
                   timed_out_and_reset (cfg_set_timeout_flag false
                                          solenoid_config)
                   _ _ _ _ _ _ _ _ _ _ _));
    try (vm_compute; reflexivity); vm_compute; discriminate.
Defined.

(** *** Ball valves and the discharge totals *)

Lemma same_totals_refl c : same_totals c c.
Proof. repeat split. Qed.

Lemma same_totals_trans c1 c2 c3 :
  same_totals c1 c2 -> same_totals c2 c3 -> same_totals c1 c3.
Proof.
  unfold same_totals. intros (A1 & A2 & A3) (B1 & B2 & B3).
  repeat split; congruence.
Qed.

Lemma openValve_same_totals now c : same_totals c (openValve now c).
Proof.
  split; [apply has_ball_valve_same_latch, openValve_same_latch|].
  unfold openValve. destruct (has_ball_valve c); split; reflexivity.
Qed.

Lemma closeValve_same_totals now c :
  has_ball_valve c = true -> same_totals c (closeValve now c).
Proof.
  intros H.
  split; [apply has_ball_valve_same_latch, closeValve_same_latch|].
  unfold closeValve. rewrite H. split; reflexivity.
Qed.

Lemma closeAndHold_same_totals now trap c :
  has_ball_valve c = true -> same_totals c (closeAndHold now trap c).
Proof.
  intros H. destruct (closeValve_same_totals now c H) as (A & B & C).
  unfold closeAndHold. destruct trap; repeat split; auto.
Qed.

Ltac ball_true :=
  match goal with
  | H : has_ball_valve _ = true |- _ => exact H
  end.

Lemma startCycleIfDue_same_totals now cc c :
  same_totals c (startCycleIfDue now cc c).
Proof.
  unfold startCycleIfDue. destruct (_ <=? _); [|apply same_totals_refl].
  eapply same_totals_trans; [|apply openValve_same_totals].
  repeat split.
Qed.

Ltac totals :=
  first
    [ apply same_totals_refl
    | apply closeValve_same_totals; ball_true
    | apply closeAndHold_same_totals; ball_true
    | apply openValve_same_totals
    | apply startCycleIfDue_same_totals
    | (eapply same_totals_trans; [|apply openValve_same_totals];
       repeat split)
    | repeat split ].

Lemma processContinuousMode_same_totals now v c :
  has_ball_valve c = true -> same_totals c (processContinuousMode now v c).
Proof.
  intros H. unfold processContinuousMode.
  destruct (_config c); [|apply same_totals_refl].
  repeat case_cond; totals.
Qed.

Lemma processIntermittentMode_same_totals now v c :
  has_ball_valve c = true -> same_totals c (processIntermittentMode now v c).
Proof.
  intros H. unfold processIntermittentMode.
  destruct (_config c); [|apply same_totals_refl].
  destruct (_cond_config c); [|apply same_totals_refl].
  destruct (waiting_for_reset (_status c)); [apply same_totals_refl|].
  destruct (state (_status c)); repeat case_cond; totals.
Qed.

Lemma processTimedCycle_same_totals blow_ms now v c :
  has_ball_valve c = true ->
  same_totals c (processTimedCycle blow_ms now v c).
Proof.
  intros H. unfold processTimedCycle.
  destruct (_config c); [|apply same_totals_refl].
  destruct (_cond_config c); [|apply same_totals_refl].
  destruct (waiting_for_reset (_status c)); [apply same_totals_refl|].
  destruct (state (_status c)); repeat case_cond; totals.
Qed.

Lemma processSamplingMode_same_totals now v c :
  has_ball_valve c = true -> same_totals c (processSamplingMode now v c).
Proof.
  intros H.
  unfold processSamplingMode, processTimedBlowdown, processTimeProportional.
  destruct (_cond_config c) as [cc|];
    [destruct (sample_mode cc)|];
    first [ apply processContinuousMode_same_totals
          | apply processIntermittentMode_same_totals
          | apply processTimedCycle_same_totals ]; exact H.
Qed.

Lemma checkTimeout_same_totals now c :
  has_ball_valve c = true -> same_totals c (checkTimeout now c).
Proof.
  intros H. unfold checkTimeout.
  destruct (_config c) as [cfg|] eqn:Ec; [|apply same_totals_refl].
  destruct (time_limit_seconds cfg =? 0); [apply same_totals_refl|].
  destruct (state_eqb _ _); [|apply same_totals_refl].
  destruct (_ <=? _); [|apply same_totals_refl].
  destruct (closeValve_same_totals now c H) as (_ & B & C).
  destruct (closeValve_same_latch now c) as (K & _).
  cbn [_config upd_status set_status]. rewrite K, Ec.
  repeat split; auto.
  unfold has_ball_valve. cbn. rewrite Ec. reflexivity.
Qed.

Lemma updateBlowdownTimer_same_totals now c :
  same_totals c (updateBlowdownTimer now c).
Proof. unfold updateBlowdownTimer. case_cond; repeat split. Qed.

Lemma processHOA_same_totals now c :
  has_ball_valve c = true -> same_totals c (processHOA now c).
Proof.
  intros H. unfold processHOA.
  destruct (hoa_mode (_status c)); repeat case_cond; try totals.
Qed.

Lemma checkBallValveComplete_same_totals now c :
  same_totals c (checkBallValveComplete now c).
Proof. unfold checkBallValveComplete. repeat case_cond; repeat split. Qed.

Lemma update_same_totals now v flow_ok c :
  has_ball_valve c = true -> same_totals c (update now v flow_ok c).
Proof.
  intros H. unfold update.
  set (c0 := upd_status (set_last_conductivity v) c).
  assert (H0 : has_ball_valve c0 = true) by exact H.
  assert (S0 : same_totals c c0) by (repeat split).
  apply same_totals_trans with (c2 := c0); [exact S0|].
  destruct flow_ok; cbn [negb].
  - pose proof (processHOA_same_totals now c0 H0) as S1.
    apply same_totals_trans with (c2 := processHOA now c0); [exact S1|].
    set (c1 := processHOA now c0) in *.
    assert (H1 : has_ball_valve c1 = true)
      by (destruct S1 as (A & _); congruence).
    assert (S2 : same_totals c1
                   (updateBlowdownTimer now
                      (checkTimeout now (processSamplingMode now v c1)))).
    { pose proof (processSamplingMode_same_totals now v c1 H1) as P.
      assert (H2 : has_ball_valve (processSamplingMode now v c1) = true)
        by (destruct P as (A & _); congruence).
      pose proof (checkTimeout_same_totals now _ H2) as T.
      eapply same_totals_trans; [exact P|].
      eapply same_totals_trans; [exact T|].
      apply updateBlowdownTimer_same_totals. }
    destruct (hoa_mode (_status c1)); try apply same_totals_refl.
    destruct (state (_status c1)); try exact S2;
      apply checkBallValveComplete_same_totals.
  - destruct (valve_open (_status c0)); [|apply same_totals_refl].
    apply closeValve_same_totals. exact H0.
Qed.

(** X8.  With a ball valve configured (travel time above zero) no run of the
    control loop changes the accumulated discharge time or the daily
    total: the totals are added only on the solenoid path of
    [closeValve], and the completion of a ball-valve travel does not add
    them. *)
Theorem ball_valve_discharge_never_counted ticks : forall c,
  has_ball_valve c = true ->
  getAccumulatedTime (run ticks c) = getAccumulatedTime c
  /\ getTotalBlowdownTime (run ticks c) = getTotalBlowdownTime c.
Proof.
  unfold getAccumulatedTime, getTotalBlowdownTime, run.
  induction ticks as [|t ticks IH]; intros c H; [split; reflexivity|].
  cbn [fold_left].
  destruct (update_same_totals (t_now t) (t_conductivity t) (t_flow_ok t) c H)
    as (A & B & C).
  destruct (IH (tick c t)) as (D & E).
  - unfold tick. congruence.
  - unfold tick in *. split; congruence.
Qed.

(** A ball valve is opened, discharges and is closed; the totals are
    still zero, while the same ticks on a solenoid valve add the 29 s
    recorded at the last tick before the close. *)
Lemma ball_valve_discharge_never_counted_witness :
  valve_open (_status (run (firstn 3 ball_valve_discharge)
                         ball_valve_controller)) = true
  /\ valve_open (_status (run ball_valve_discharge ball_valve_controller))
     = false
  /\ getAccumulatedTime (run ball_valve_discharge ball_valve_controller) = 0
  /\ getAccumulatedTime (run ball_valve_discharge solenoid_controller)
     = 29000.
Proof.
  split; [vm_compute; reflexivity|].
  split; [vm_compute; reflexivity|].
  split; [|vm_compute; reflexivity].
  exact (proj1 (ball_valve_discharge_never_counted ball_valve_discharge
                  ball_valve_controller eq_refl)).
Defined.

(** *** Ball-valve travel *)

Lemma update_in_travel now v c cfg :
  _config c = Some cfg ->
  hoa_mode (_status c) = HOA_AUTO ->
  in_transition c = true ->
  sub32 now (_valve_action_start c) < ball_valve_delay cfg * 1000 ->
  update now v true c = upd_status (set_last_conductivity v) c.
Proof.
  intros Hc Ha Ht Hlt.
  rewrite update_auto_transition by assumption.
  unfold checkBallValveComplete. cbn [_config upd_status set_status].
  rewrite Hc.
  change (_valve_action_start (upd_status (set_last_conductivity v) c))
    with (_valve_action_start c).
  destruct (Z.leb_spec (ball_valve_delay cfg * 1000)
              (sub32 now (_valve_action_start c))); [lia|reflexivity].
Qed.

Lemma same_but_reading_refl c : same_but_reading c c.
Proof.
  exists (last_conductivity (_status c)).
  destruct c as [cf cc st a b d e f g h]. destruct st. reflexivity.
Qed.

Lemma run_in_travel ticks : forall c cfg,
  _config c = Some cfg ->
  hoa_mode (_status c) = HOA_AUTO ->
  in_transition c = true ->
  travel_ticks (_valve_action_start c) (ball_valve_delay cfg * 1000) ticks ->
  same_but_reading c (run ticks c).
Proof.
  induction ticks as [|t ticks IH]; intros c cfg Hc Ha Ht Hticks.
  - apply same_but_reading_refl.
  - inversion Hticks as [|t' ticks' (Hflow & Hlt) Hrest]; subst.
    unfold run. cbn [fold_left]. unfold tick at 2. rewrite Hflow.
    rewrite (update_in_travel _ _ c cfg Hc Ha Ht Hlt).
    destruct (IH (upd_status (set_last_conductivity (t_conductivity t)) c)
                cfg Hc Ha Ht Hrest) as (q & Hq).
    exists q. unfold run in Hq. rewrite Hq. reflexivity.
Qed.

(** X9.  A ball valve in travel (ValveOpening or ValveClosing, Auto, flow
    present): ticks earlier than the travel time after the command only
    store the reading; the first tick at or after the travel time sets
    [valve_open] to the commanded position and moves to BlowingDown
    (opened) or Idle (closed), leaving the relay as commanded. *)
Theorem ball_valve_travel ticks now v c cfg :
  _config c = Some cfg ->
  hoa_mode (_status c) = HOA_AUTO ->
  in_transition c = true ->
  travel_ticks (_valve_action_start c) (ball_valve_delay cfg * 1000) ticks ->
  ball_valve_delay cfg * 1000 <= sub32 now (_valve_action_start c) ->
  let c1 := run ticks c in
  let c2 := update now v true c1 in
  same_but_reading c c1
  /\ valve_open (_status c2) = _valve_target_state c
  /\ state (_status c2)
     = (if _valve_target_state c then BD_STATE_BLOWING_DOWN
        else BD_STATE_IDLE)
  /\ relay_energized (_status c2) = relay_energized (_status c).
Proof.
  intros Hc Ha Ht Hticks Hge c1 c2.
  pose proof (run_in_travel ticks c cfg Hc Ha Ht Hticks) as S.
  split; [exact S|].
  destruct S as (q & Hq). subst c2. fold c1 in Hq. rewrite Hq.
  rewrite update_auto_transition by assumption.
  unfold checkBallValveComplete. cbn [_config upd_status set_status].
  rewrite Hc.
  change (_valve_action_start
            (upd_status (set_last_conductivity v)
               (upd_status (set_last_conductivity q) c)))
    with (_valve_action_start c).
  destruct (Z.leb_spec (ball_valve_delay cfg * 1000)
              (sub32 now (_valve_action_start c))); [|lia].
  cbn. destruct (_valve_target_state c); auto.
Qed.

(** The open command at 1 s with a 5 s travel: ticks at 2 s and 4 s leave
    the valve in ValveOpening, the tick at 6 s reports it open. *)
Lemma ball_valve_travel_witness :
  let c := update 1000 2600 true ball_valve_controller in
  let ticks :=
    [ {| t_now := 2000; t_conductivity := 2600; t_flow_ok := true |};
      {| t_now := 4000; t_conductivity := 2590; t_flow_ok := true |} ] in
  state (_status c) = BD_STATE_VALVE_OPENING
  /\ valve_open (_status (update 6000 2600 true (run ticks c))) = true
  /\ state (_status (update 6000 2600 true (run ticks c)))
     = BD_STATE_BLOWING_DOWN.
Proof.
  cbn zeta.
  split; [reflexivity|].
  assert (T : travel_ticks 1000 5000
                [ {| t_now := 2000; t_conductivity := 2600;
                     t_flow_ok := true |};
                  {| t_now := 4000; t_conductivity := 2590;
                     t_flow_ok := true |} ])
    by (repeat constructor).
  assert (G : 5 * 1000 <= sub32 6000 1000) by (vm_compute; discriminate).
  destruct (ball_valve_travel _ 6000 2600
              (update 1000 2600 true ball_valve_controller)
              ball_valve_config eq_refl eq_refl eq_refl T G)
    as (_ & A & B & _).
  split; [exact A | exact B].
Defined.

(** *** Continuous control, direction LOW *)

(** X10.  Continuous mode with direction LOW (any non-zero direction value) on
    a solenoid valve, in Auto with flow, outside a timeout: a reading
    below the setpoint leaves the valve open after the tick, a reading
    above setpoint + deadband leaves it closed, and a reading in between
    leaves valve, relay and state as they were. *)
Theorem continuous_low_hysteresis now v c cfg :
  _config c = Some cfg ->
  control_direction cfg <> 0 ->
  0 <= deadband cfg ->
  ball_valve_delay cfg <= 0 ->
  is_continuous c = true ->
  hoa_mode (_status c) = HOA_AUTO ->
  waiting_for_reset (_status c) = false ->
  in_transition c = false ->
  timeout_not_due c ->
  let c' := update now v true c in
  ((v < inject_Z (setpoint cfg))%Q -> valve_open (_status c') = true)
  /\ ((inject_Z (setpoint cfg + deadband cfg) < v)%Q ->
      valve_open (_status c') = false)
  /\ ((inject_Z (setpoint cfg) <= v)%Q ->
      (v <= inject_Z (setpoint cfg + deadband cfg))%Q ->
      valve_open (_status c') = valve_open (_status c)
      /\ relay_energized (_status c') = relay_energized (_status c)
      /\ state (_status c') = state (_status c)).
Proof.
  intros Hcfg Hdir Hdb Hsol Hcont Hauto Hwait Htrans Hdue c'. subst c'.
  rewrite update_auto_flow by assumption.
  rewrite processSamplingMode_continuous by exact Hcont.
  set (c0 := upd_status (set_last_conductivity v) c).
  assert (Hc0 : _config c0 = Some cfg) by exact Hcfg.
  assert (Hw0 : waiting_for_reset (_status c0) = false) by exact Hwait.
  assert (Hv0 : valve_open (_status c0) = valve_open (_status c))
    by reflexivity.
  assert (Hd : (control_direction cfg =? 0) = false)
    by (apply Z.eqb_neq; exact Hdir).
  unfold processContinuousMode. rewrite Hc0, Hw0, Hd, Hv0.
  assert (Hkeep : forall X,
             _config X = _config c ->
             current_blowdown_time (_status X)
             = current_blowdown_time (_status c) ->
             checkTimeout now X = X).
  { intros X H1 H2. apply checkTimeout_not_due.
    apply (timeout_not_due_frame c X); assumption. }
  assert (Hball : has_ball_valve c0 = false).
  { unfold has_ball_valve. rewrite Hc0. apply Z.ltb_ge. exact Hsol. }
  assert (Hord : (inject_Z (setpoint cfg)
                  <= inject_Z (setpoint cfg + deadband cfg))%Q)
    by (rewrite <- Zle_Qle; lia).
  assert (Hsame : forall X,
             checkTimeout now X = X ->
             valve_open (_status (updateBlowdownTimer now (checkTimeout now X)))
             = valve_open (_status X)
             /\ relay_energized
                  (_status (updateBlowdownTimer now (checkTimeout now X)))
                = relay_energized (_status X)
             /\ state (_status (updateBlowdownTimer now (checkTimeout now X)))
                = state (_status X)).
  { intros X HX. rewrite HX.
    destruct (updateBlowdownTimer_frame now X) as (A & B & C). auto. }
  destruct (Qltb v (inject_Z (setpoint cfg))) eqn:Elt;
    destruct (valve_open (_status c)) eqn:Ev; cbn [andb negb].
  - (* below the setpoint, valve already open *)
    apply Qltb_lt in Elt.
    assert (Egt : Qgtb v (inject_Z (setpoint cfg + deadband cfg)) = false).
    { apply Qgtb_le. apply Qlt_le_weak.
      apply Qlt_le_trans with (y := inject_Z (setpoint cfg)); assumption. }
    rewrite Egt. cbn [andb].
    destruct (Hsame c0 (Hkeep c0 eq_refl eq_refl)) as (A & B & C).
    rewrite A, B, C. change (valve_open (_status c0)) with
      (valve_open (_status c)). rewrite Ev.
    split; [auto|]. split; [|auto].
    intros H. exfalso. apply (Qlt_irrefl v).
    apply Qlt_trans with (y := inject_Z (setpoint cfg)); [exact Elt|].
    apply Qle_lt_trans with (y := inject_Z (setpoint cfg + deadband cfg));
      assumption.
  - (* below the setpoint, valve closed: open it *)
    apply Qltb_lt in Elt.
    destruct (openValve_frame now c0) as (Hc & Ht).
    destruct (Hsame (openValve now c0)) as (A & B & C).
    { apply Hkeep; [rewrite Hc|rewrite Ht]; reflexivity. }
    rewrite A, B, C.
    destruct (openValve_solenoid now c0 Hball) as (Hvo & _).
    split; [auto|]. split.
    + intros H. exfalso. apply (Qlt_irrefl v).
      apply Qlt_trans with (y := inject_Z (setpoint cfg)); [exact Elt|].
      apply Qle_lt_trans with (y := inject_Z (setpoint cfg + deadband cfg));
        assumption.
    + intros H. exfalso. apply (Qlt_not_le _ _ Elt H).
  - (* not below the setpoint, valve open *)
    apply Qltb_ge in Elt.
    destruct (Qgtb v (inject_Z (setpoint cfg + deadband cfg))) eqn:Egt;
      cbn [andb].
    + apply Qgtb_gt in Egt.
      destruct (closeValve_frame now c0) as (Hc & Ht).
      destruct (Hsame (closeValve now c0)) as (A & B & C).
      { apply Hkeep; [rewrite Hc|rewrite Ht]; reflexivity. }
      rewrite A, B, C.
      destruct (closeValve_solenoid now c0 Hball) as (Hvc & _).
      split; [intros H; exfalso; apply (Qlt_not_le _ _ H Elt)|].
      split; [auto|].
      intros _ H. exfalso. apply (Qlt_not_le _ _ Egt H).
    + apply Qgtb_le in Egt.
      destruct (Hsame c0 (Hkeep c0 eq_refl eq_refl)) as (A & B & C).
      rewrite A, B, C.
      split; [intros H; exfalso; apply (Qlt_not_le _ _ H Elt)|].
      split; [|auto].
      intros H. exfalso. apply (Qlt_not_le _ _ H Egt).
  - (* not below the setpoint, valve closed *)
    apply Qltb_ge in Elt.
    rewrite andb_false_r.
    destruct (Hsame c0 (Hkeep c0 eq_refl eq_refl)) as (A & B & C).
    rewrite A, B, C.
    change (valve_open (_status c0)) with (valve_open (_status c)).
    rewrite Ev.
    split; [intros H; exfalso; apply (Qlt_not_le _ _ H Elt)|].
    split; auto.
Qed.

(** Setpoint 2500, deadband 50, direction LOW: 2400 opens the valve, 2530
    keeps it open and 2560 closes it. *)
Lemma continuous_low_hysteresis_witness :
  let c1 := update 1000 2400 true low_direction_controller in
  let c2 := update 2000 2530 true c1 in
  let c3 := update 3000 2560 true c2 in
  valve_open (_status c1) = true
  /\ valve_open (_status c2) = true
  /\ valve_open (_status c3) = false.
Proof.
  cbn zeta.
  set (c1 := update 1000 2400 true low_direction_controller).
  set (c2 := update 2000 2530 true c1).
  assert (P : forall now v c,
             _config c = Some low_direction_config ->
             is_continuous c = true ->
             hoa_mode (_status c) = HOA_AUTO ->
             waiting_for_reset (_status c) = false ->
             in_transition c = false ->
             let c' := update now v true c in
             ((v < 2500)%Q -> valve_open (_status c') = true)
             /\ ((2550 < v)%Q -> valve_open (_status c') = false)
             /\ ((2500 <= v)%Q -> (v <= 2550)%Q ->
                 valve_open (_status c') = valve_open (_status c)
                 /\ relay_energized (_status c')
                    = relay_energized (_status c)
                 /\ state (_status c') = state (_status c))).
  { intros now v c Hc H1 H2 H3 H4.
    apply (continuous_low_hysteresis now v c low_direction_config Hc);
      try assumption.
    - discriminate.
    - vm_compute. discriminate.
    - vm_compute. discriminate.
    - unfold timeout_not_due. rewrite Hc. left. reflexivity. }
  assert (A : valve_open (_status c1) = true).
  { apply (P 1000 2400%Q low_direction_controller);
      vm_compute; reflexivity. }
  assert (B : valve_open (_status c2) = true).
  { destruct (P 2000 2530%Q c1) as (_ & _ & B);
      [vm_compute; reflexivity ..|].
    destruct B as (B & _); [vm_compute; discriminate ..|].
    unfold c2. rewrite B. exact A. }
  split; [exact A|]. split; [exact B|].
  apply (P 3000 2560%Q c2); vm_compute; reflexivity.
Defined.

End BlowdownProps.

(** ** Chemical pumps *)

Module PumpProps.

Import Pump.

Ltac case_cond :=
  match goal with
  | |- context [if ?b then _ else _] =>
      let E := fresh "E" in destruct b eqn:E
  | |- context [match ?x with Some _ => _ | None => _ end] =>
      let E := fresh "E" in destruct x eqn:E
  end.

Ltac cases := repeat (cbn in *; try case_cond).

Lemma pump_state_eqb_eq a b : pump_state_eqb a b = true <-> a = b.
Proof. destruct a, b; cbn; split; congruence. Qed.

(** *** [stop] and [start] *)

Lemma stop_running p : running (_status (stop p)) = false.
Proof. unfold stop. cases; reflexivity. Qed.

Lemma stop_hoa p : hoa_mode (_status (stop p)) = hoa_mode (_status p).
Proof. unfold stop. cases; reflexivity. Qed.

(** A refused [start] changes nothing. *)
Lemma start_refused now duration_ms volume_ml p :
  state (_status p) = PUMP_STATE_LOCKED_OUT ->
  now < lockout_end_time (_status p) ->
  start now duration_ms volume_ml p = p.
Proof.
  intros Hs Hl. unfold start. rewrite Hs. cbn [pump_state_eqb andb].
  destruct (Z.ltb_spec now (lockout_end_time (_status p))); [|lia].
  destruct (negb (enabled (_status p))); reflexivity.
Qed.

(** An accepted [start]: the pump runs, timed when a duration is given. *)
Lemma start_accepted now duration_ms volume_ml p :
  enabled (_status p) = true ->
  lockout_expired now p ->
  let p' := start now duration_ms volume_ml p in
  running (_status p') = true
  /\ state (_status p') = PUMP_STATE_RUNNING
  /\ start_time (_status p') = now
  /\ hoa_mode (_status p') = hoa_mode (_status p)
  /\ _mode_b_accumulated_blowdown p' = _mode_b_accumulated_blowdown p
  /\ (0 < duration_ms ->
      _time_limited p' = true /\ _target_time_ms p' = duration_ms).
Proof.
  intros He Hl p'. subst p'. unfold start. rewrite He. cbn [negb].
  assert (E : pump_state_eqb (state (_status p)) PUMP_STATE_LOCKED_OUT
              && (now <? lockout_end_time (_status p)) = false).
  { destruct Hl as [Hl|Hl].
    - destruct (pump_state_eqb _ _) eqn:E; [|reflexivity].
      apply pump_state_eqb_eq in E. contradiction.
    - apply andb_false_iff. right. apply Z.ltb_ge. exact Hl. }
  rewrite E.
  destruct (Z.ltb_spec 0 duration_ms) as [Hd|Hd].
  - cases; repeat split; reflexivity.
  - cases; repeat split; try reflexivity; lia.
Qed.

(** *** Time limit and lockout *)

Lemma checkTimeout_locks_out p cfg :
  _config p = Some cfg ->
  running (_status p) = true ->
  0 < time_limit_seconds cfg ->
  time_limit_seconds cfg * 1000 <= runtime_ms (_status p) ->
  running (_status (checkTimeout p)) = false
  /\ state (_status (checkTimeout p)) = PUMP_STATE_LOCKED_OUT.
Proof.
  intros Hc Hr Hl Ht. unfold checkTimeout. rewrite Hc, Hr. cbn [negb].
  destruct (Z.ltb_spec 0 (time_limit_seconds cfg)); [|lia].
  destruct (Z.leb_spec (time_limit_seconds cfg * 1000)
              (runtime_ms (_status p))); [|lia].
  split; [|reflexivity].
  cbn. apply stop_running.
Qed.

(** Time limit and lockout, for any value of [lockout_end_time].  A
    running pump whose runtime has
    reached a non-zero [time_limit_seconds] is stopped and LockedOut by
    [checkTimeout], and so by a tick in Auto.  From LockedOut, [start]
    before [lockout_end_time] is refused and changes nothing; a [start]
    that leaves LockedOut has [lockout_end_time <= now], and at such a
    time an enabled pump does start running. *)
Theorem time_limit_locks_out p cfg :
  _config p = Some cfg ->
  running (_status p) = true ->
  0 < time_limit_seconds cfg ->
  time_limit_seconds cfg * 1000 <= runtime_ms (_status p) ->
  (running (_status (checkTimeout p)) = false
   /\ state (_status (checkTimeout p)) = PUMP_STATE_LOCKED_OUT)
  /\ (forall now stepped hst,
        hoa_mode (_status p) = HOA_AUTO ->
        let p' := snd (update now stepped hst p) in
        running (_status p') = false
        /\ state (_status p') = PUMP_STATE_LOCKED_OUT)
  /\ (forall q now duration_ms volume_ml,
        state (_status q) = PUMP_STATE_LOCKED_OUT ->
        let q' := start now duration_ms volume_ml q in
        (now < lockout_end_time (_status q) -> q' = q)
        /\ (state (_status q') <> PUMP_STATE_LOCKED_OUT ->
            lockout_end_time (_status q) <= now)
        /\ (enabled (_status q) = true ->
            lockout_end_time (_status q) <= now ->
            running (_status q') = true
            /\ state (_status q') = PUMP_STATE_RUNNING)).
Proof.
  intros Hc Hr Hl Ht.
  pose proof (checkTimeout_locks_out p cfg Hc Hr Hl Ht) as [K1 K2].
  split; [auto|]. split.
  - intros now stepped hst Ha p'. subst p'.
    unfold update, processHOA. rewrite Ha. cbn [snd].
    rewrite K1. cbn [snd]. auto.
  - intros q now duration_ms volume_ml Hs q'. subst q'.
    split; [|split].
    + intros Hlt. apply start_refused; assumption.
    + intros Hne. destruct (Z.lt_ge_cases now (lockout_end_time (_status q)))
        as [Hlt|Hge]; [|exact Hge].
      rewrite (start_refused now duration_ms volume_ml q Hs Hlt) in Hne.
      contradiction.
    + intros He Hge.
      destruct (start_accepted now duration_ms volume_ml q He
                  (or_intror Hge)) as (R1 & R2 & _).
      auto.
Qed.

(** A pump started at 0 ms and still running at 600000 ms with a 600 s
    limit: the next tick locks it out.  Its [lockout_end_time] is 0, so a
    later [start] is accepted. *)
Lemma time_limit_locks_out_witness :
  let p := snd (update 600000 true 0 (start 0 0 0 (mode_b_pump 20 60))) in
  let p' := snd (update 600100 true 0 p) in
  runtime_ms (_status p) = 600000
  /\ running (_status p') = false
  /\ state (_status p') = PUMP_STATE_LOCKED_OUT
  /\ running (_status (start 700000 1000 0 p')) = true.
Proof.
  cbn zeta.
  set (p := snd (update 600000 true 0 (start 0 0 0 (mode_b_pump 20 60)))).
  destruct (time_limit_locks_out p (mode_b_config 20 60))
    as (_ & H2 & H3); try reflexivity.
  specialize (H2 600100 true 0 eq_refl). cbn zeta in H2.
  destruct H2 as [R S].
  split; [reflexivity|]. split; [exact R|]. split; [exact S|].
  apply (H3 (snd (update 600100 true 0 p)) 700000 1000 0%Q S).
  - reflexivity.
  - vm_compute. discriminate.
Defined.

(** No operation of the pump assigns [lockout_end_time]: it keeps the
    value it had (0 after the constructor), so the refusal window of
    [start] is the one the status was given from outside, if any. *)
Lemma start_lockout_end_time now duration_ms volume_ml p :
  lockout_end_time (_status (start now duration_ms volume_ml p))
  = lockout_end_time (_status p).
Proof. unfold start. repeat case_cond; reflexivity. Qed.

Lemma stop_lockout_end_time p :
  lockout_end_time (_status (stop p)) = lockout_end_time (_status p).
Proof. unfold stop. repeat case_cond; reflexivity. Qed.

Lemma processHOA_lockout_end_time now hst p :
  lockout_end_time (_status (snd (processHOA now hst p)))
  = lockout_end_time (_status p).
Proof.
  unfold processHOA.
  destruct (hoa_mode (_status p)); repeat case_cond; cbn [snd];
    try reflexivity.
  - apply stop_lockout_end_time.
  - apply start_lockout_end_time.
  - cbn. apply stop_lockout_end_time.
Qed.

Lemma checkTimeout_lockout_end_time p :
  lockout_end_time (_status (checkTimeout p)) = lockout_end_time (_status p).
Proof.
  unfold checkTimeout. repeat case_cond; try reflexivity.
  cbn. apply stop_lockout_end_time.
Qed.

Lemma updateStats_lockout_end_time now p :
  lockout_end_time (_status (updateStats now p))
  = lockout_end_time (_status p).
Proof. unfold updateStats. repeat case_cond; reflexivity. Qed.

Lemma update_lockout_end_time now stepped hst p :
  lockout_end_time (_status (snd (update now stepped hst p)))
  = lockout_end_time (_status p).
Proof.
  unfold update.
  pose proof (processHOA_lockout_end_time now hst p) as H.
  destruct (processHOA now hst p) as [h q]. cbn [snd] in *.
  rewrite <- H, <- (checkTimeout_lockout_end_time q).
  set (r := checkTimeout q).
  destruct (running (_status r)); [|reflexivity].
  rewrite updateStats_lockout_end_time.
  repeat case_cond; cbn; rewrite ?stop_lockout_end_time; cbn;
    rewrite ?stop_lockout_end_time; reflexivity.
Qed.

(** *** PercentOfBlowdown *)

Lemma processFeedMode_mode_b now active bt wc wv p cfg :
  _config p = Some cfg ->
  feed_mode cfg = FEED_MODE_B_PERCENT_BLOWDOWN ->
  enabled (_status p) = true ->
  hoa_mode (_status p) = HOA_AUTO ->
  processFeedMode now active bt wc wv p = processModeB now cfg active bt p.
Proof.
  intros Hc Hm He Ha. unfold processFeedMode.
  rewrite Hc, He, Ha, Hm. reflexivity.
Qed.

(** C5 (PercentOfBlowdown), as the code has it.  For an enabled pump in
    Auto and Mode B with percent in [1,99], on a tick with blowdown
    inactive, the pump not running nor held by a lockout, and an
    accumulated blowdown time a > 0 whose product a x percent fits 32
    bits: the accumulator is cleared, and when a x percent / 100 (integer
    division, capped at max_time_seconds x 1000 when that is positive) is
    positive the pump is started for exactly that duration; when it is
    zero the pump is not started. *)
Theorem percent_of_blowdown_feed now bt wc wv p cfg :
  _config p = Some cfg ->
  feed_mode cfg = FEED_MODE_B_PERCENT_BLOWDOWN ->
  enabled (_status p) = true ->
  hoa_mode (_status p) = HOA_AUTO ->
  1 <= percent_of_blowdown cfg <= 99 ->
  0 <= max_time_seconds cfg ->
  running (_status p) = false ->
  lockout_expired now p ->
  let a := _mode_b_accumulated_blowdown p in
  0 < a ->
  a * percent_of_blowdown cfg < 2 ^ 32 ->
  let p' := processFeedMode now false bt wc wv p in
  _mode_b_accumulated_blowdown p' = 0
  /\ (0 < mode_b_feed_time cfg a ->
      running (_status p') = true
      /\ state (_status p') = PUMP_STATE_RUNNING
      /\ start_time (_status p') = now
      /\ _time_limited p' = true
      /\ _target_time_ms p' = mode_b_feed_time cfg a)
  /\ (mode_b_feed_time cfg a = 0 ->
      running (_status p') = false /\ _status p' = _status p).
Proof.
  intros Hc Hm He Ha Hp Hmax Hr Hl a Hpos Hfit p'. subst p'.
  rewrite (processFeedMode_mode_b now false bt wc wv p cfg) by assumption.
  unfold processModeB. fold a. rewrite Hr. cbn [negb andb].
  destruct (Z.ltb_spec 0 a) as [_|?]; [|lia].
  assert (Hmul : mul32 a (percent_of_blowdown cfg)
                 = a * percent_of_blowdown cfg).
  { unfold mul32. apply wrap32_small. nia. }
  rewrite Hmul.
  assert (Hfeed :
            (if 0 <? max_time_seconds cfg
             then if max_time_seconds cfg * 1000
                     <? a * percent_of_blowdown cfg / 100
                  then max_time_seconds cfg * 1000
                  else a * percent_of_blowdown cfg / 100
             else a * percent_of_blowdown cfg / 100)
            = mode_b_feed_time cfg a).
  { unfold mode_b_feed_time. cbn zeta.
    destruct (0 <? max_time_seconds cfg); [|reflexivity].
    destruct (Z.ltb_spec (max_time_seconds cfg * 1000)
                (a * percent_of_blowdown cfg / 100)); lia. }
  rewrite Hfeed.
  destruct (Z.ltb_spec 0 (mode_b_feed_time cfg a)) as [Hf|Hf].
  - destruct (start_accepted now (mode_b_feed_time cfg a) 0 p He Hl)
      as (S1 & S2 & S3 & _ & _ & S6).
    destruct (S6 Hf) as [S7 S8].
    split; [reflexivity|]. split; [|lia].
    intros _. cbn. auto.
  - split; [reflexivity|]. split; [lia|].
    intros _. cbn. auto.
Qed.

(** C5 as the claim states it fails on a short blowdown: with 50 ms
    accumulated at 1 percent the feed time is 0 ms and the pump is not
    started. *)
Lemma percent_of_blowdown_zero_feed_not_started :
  let p1 := processFeedMode 1000 true 50 0 0 (mode_b_pump 1 0) in
  let p2 := processFeedMode 2000 false 50 0 0 p1 in
  (option_map feed_mode (_config p1) = Some FEED_MODE_B_PERCENT_BLOWDOWN
   /\ option_map percent_of_blowdown (_config p1) = Some 1
   /\ enabled (_status p1) = true
   /\ hoa_mode (_status p1) = HOA_AUTO
   /\ _mode_b_accumulated_blowdown p1 = 50
   /\ running (_status p1) = false
   /\ state (_status p1) = PUMP_STATE_IDLE)
  /\ running (_status p2) = false
  /\ state (_status p2) = PUMP_STATE_IDLE
  /\ _mode_b_accumulated_blowdown p2 = 0.
Proof. repeat split; reflexivity. Qed.

(** The product is taken on 32 bits: from about 12 hours of accumulated
    blowdown at 99 percent it wraps, and the pump is started for 16.3 s
    where 99 percent of the blowdown time is 42966 s. *)
Lemma percent_of_blowdown_product_wraps :
  let p1 := processFeedMode 1000 true 43400000 0 0 (mode_b_pump 99 0) in
  let p2 := processFeedMode 2000 false 43400000 0 0 p1 in
  running (_status p2) = true
  /\ _target_time_ms p2 = 16327
  /\ 43400000 * 99 / 100 = 42966000.
Proof. repeat split; vm_compute; reflexivity. Qed.

(** 60 s of blowdown at 20 percent gives a 12 s feed; with a 10 s cap it
    gives 10 s. *)
Lemma percent_of_blowdown_feed_witness :
  let p1 := processFeedMode 1000 true 60000 0 0 (mode_b_pump 20 0) in
  let q1 := processFeedMode 1000 true 60000 0 0 (mode_b_pump 20 10) in
  _target_time_ms (processFeedMode 2000 false 60000 0 0 p1) = 12000
  /\ _target_time_ms (processFeedMode 2000 false 60000 0 0 q1) = 10000.
Proof.
  cbn zeta. split.
  - destruct (percent_of_blowdown_feed 2000 60000 0 0%Q
                (processFeedMode 1000 true 60000 0 0 (mode_b_pump 20 0))
                (mode_b_config 20 0))
      as (_ & H & _); [ .. | apply H; reflexivity ]; try reflexivity.
    + cbn. lia.
    + left. discriminate.
  - destruct (percent_of_blowdown_feed 2000 60000 0 0%Q
                (processFeedMode 1000 true 60000 0 0 (mode_b_pump 20 10))
                (mode_b_config 20 10))
      as (_ & H & _); [ .. | apply H; reflexivity ]; try reflexivity.
    + cbn. lia.
    + cbn. lia.
    + left. discriminate.
Defined.

(** *** The Hand-mode timestamp *)

(** A pump in Hand that is not running is started, and the shared
    timestamp is set to the time of the call. *)
Lemma processHOA_hand_start now hst p :
  hoa_mode (_status p) = HOA_HAND ->
  running (_status p) = false ->
  processHOA now hst p = (now, start now (HOA_HAND_TIMEOUT_SEC * 1000) 0 p).
Proof. intros Hh Hr. unfold processHOA. rewrite Hh, Hr. reflexivity. Qed.

(** A pump in Hand that is running reverts to Auto exactly when 600 s
    have elapsed on the shared timestamp. *)
Lemma processHOA_hand_running now hst p :
  hoa_mode (_status p) = HOA_HAND ->
  running (_status p) = true ->
  fst (processHOA now hst p) = hst
  /\ (hoa_mode (_status (snd (processHOA now hst p))) = HOA_AUTO
      <-> HOA_HAND_TIMEOUT_SEC * 1000 <= sub32 now hst).
Proof.
  intros Hh Hr. unfold processHOA. rewrite Hh, Hr. cbn [negb].
  destruct (Z.leb_spec (HOA_HAND_TIMEOUT_SEC * 1000) (sub32 now hst)).
  - split; [reflexivity|]. split; auto.
  - split; [reflexivity|]. cbn [snd]. rewrite Hh.
    split; [discriminate|lia].
Qed.

(** C10 (shared Hand timestamp).  [hand_start_time] is one variable for
    all pumps.  When pump [p1] enters Hand at [t1] and pump [p2] enters
    Hand at [t2], the second call overwrites the timestamp, and a later
    tick of the first pump at [t3] reverts it to Auto exactly when 600 s
    have elapsed since [t2]: the time [t1] plays no part. *)
Theorem hand_timestamp_is_shared t1 t2 t3 hst0 p1 p2 :
  hoa_mode (_status p1) = HOA_HAND ->
  running (_status p1) = false ->
  enabled (_status p1) = true ->
  lockout_expired t1 p1 ->
  hoa_mode (_status p2) = HOA_HAND ->
  running (_status p2) = false ->
  let '(hst1, p1') := processHOA t1 hst0 p1 in
  let '(hst2, p2') := processHOA t2 hst1 p2 in
  let '(hst3, p1'') := processHOA t3 hst2 p1' in
  hst1 = t1
  /\ hst2 = t2
  /\ running (_status p1') = true
  /\ (hoa_mode (_status p1'') = HOA_AUTO
      <-> HOA_HAND_TIMEOUT_SEC * 1000 <= sub32 t3 t2).
Proof.
  intros H1 R1 E1 L1 H2 R2.
  rewrite (processHOA_hand_start t1 hst0 p1 H1 R1).
  rewrite (processHOA_hand_start t2 t1 p2 H2 R2).
  destruct (start_accepted t1 (HOA_HAND_TIMEOUT_SEC * 1000) 0 p1 E1 L1)
    as (S1 & _ & _ & S4 & _).
  rewrite H1 in S4.
  pose proof (processHOA_hand_running t3 t2 _ S4 S1) as [F K].
  destruct (processHOA t3 t2 (start t1 (HOA_HAND_TIMEOUT_SEC * 1000) 0 p1))
    as [hst3 p1''] eqn:E.
  cbn [snd] in K. auto.
Qed.

(** Pump 1 enters Hand at 0 ms and pump 2 at 300000 ms.  At 600000 ms
    pump 1 has been in Hand for 600 s and is not reverted; it reverts
    once 600 s have elapsed since pump 2 started. *)
Lemma hand_timestamp_is_shared_witness :
  let p := setHOA HOA_HAND (configure (Some manual_config)
                              (init_pump PUMP_H2SO3)) in
  let q := setHOA HOA_HAND (configure (Some manual_config)
                              (init_pump PUMP_NAOH)) in
  let '(h1, p') := processHOA 0 0 p in
  let '(h2, q') := processHOA 300000 h1 q in
  hoa_mode (_status (snd (processHOA 600000 h2 p'))) <> HOA_AUTO
  /\ hoa_mode (_status (snd (processHOA 900000 h2 p'))) = HOA_AUTO.
Proof.
  cbn zeta.
  set (p := setHOA HOA_HAND (configure (Some manual_config)
                               (init_pump PUMP_H2SO3))).
  set (q := setHOA HOA_HAND (configure (Some manual_config)
                               (init_pump PUMP_NAOH))).
  assert (L : lockout_expired 0 p) by (left; discriminate).
  pose proof (hand_timestamp_is_shared 0 300000 600000 0 p q
                eq_refl eq_refl eq_refl L eq_refl eq_refl) as A.
  pose proof (hand_timestamp_is_shared 0 300000 900000 0 p q
                eq_refl eq_refl eq_refl L eq_refl eq_refl) as B.
  destruct (processHOA 0 0 p) as [h1 p'].
  destruct (processHOA 300000 h1 q) as [h2 q'].
  destruct (processHOA 600000 h2 p') as [h3 p3].
  destruct (processHOA 900000 h2 p') as [h4 p4].
  destruct A as (_ & _ & _ & A). destruct B as (_ & _ & _ & B).
  cbn [snd]. split.
  - intros C. apply A in C. vm_compute in C. apply C. reflexivity.
  - apply B. vm_compute. discriminate.
Defined.

(** The same through [PumpManager::update]: with pump 2 put in Hand at
    300000 ms, pump 1 is still in Hand after the tick at 600000 ms; on
    its own it is back in Auto. *)
Lemma manager_hand_timeout_follows_last_pump :
  let m0 := manager_setHOA PUMP_H2SO3 HOA_HAND manual_manager in
  let m1 := manager_update 0 always_steps m0 in
  let alone := manager_update 600000 always_steps
                 (manager_update 300000 always_steps m1) in
  let both := manager_update 600000 always_steps
                (manager_update 300000 always_steps
                   (manager_setHOA PUMP_NAOH HOA_HAND m1)) in
  option_map (fun p => hoa_mode (_status p)) (getPump PUMP_H2SO3 alone)
  = Some HOA_AUTO
  /\ option_map (fun p => hoa_mode (_status p)) (getPump PUMP_H2SO3 both)
     = Some HOA_HAND
  /\ hand_start_time both = 300000.
Proof. repeat split; vm_compute; reflexivity. Qed.

(** *** A disabled pump *)

Ltac config_upd :=
  repeat match goal with
         | |- context [_config (upd_status ?f ?p)] =>
             change (_config (upd_status f p)) with (_config p)
         end.

Lemma start_disabled now d v p :
  enabled (_status p) = false -> start now d v p = p.
Proof. intros H. unfold start. rewrite H. reflexivity. Qed.

Lemma stop_enabled p : enabled (_status (stop p)) = enabled (_status p).
Proof. unfold stop. case_cond; reflexivity. Qed.

Lemma update_disabled now stepped hst p :
  enabled (_status p) = false ->
  running (_status p) = false ->
  enabled (_status (snd (update now stepped hst p))) = false
  /\ running (_status (snd (update now stepped hst p))) = false.
Proof.
  intros He Hr. unfold update.
  assert (P : snd (processHOA now hst p) = p).
  { unfold processHOA.
    destruct (hoa_mode (_status p)); rewrite ?Hr; cbn [negb snd];
      try reflexivity.
    apply start_disabled. exact He. }
  destruct (processHOA now hst p) as [h q]. cbn [snd] in P. subst q.
  assert (C : checkTimeout p = p).
  { unfold checkTimeout. destruct (_config p); [rewrite Hr|]; reflexivity. }
  rewrite C, Hr. cbn [snd]. auto.
Qed.

Lemma setEnabled_false_stops p :
  enabled (_status (setEnabled false p)) = false
  /\ running (_status (setEnabled false p)) = false.
Proof.
  unfold setEnabled. cbn [negb andb].
  match goal with |- context [running (_status ?x)] => set (q := x) end.
  assert (Hq : enabled (_status q) = false).
  { subst q. change (_config (upd_status (set_enabled false) p))
      with (_config p).
    destruct (_config p); reflexivity. }
  destruct (running (_status q)) eqn:E;
    [rewrite stop_enabled, stop_running|]; auto.
Qed.

Lemma do_call_disabled c hst p :
  enables c = false ->
  enabled (_status p) = false ->
  running (_status p) = false ->
  enabled (_status (snd (do_call (hst, p) c))) = false
  /\ running (_status (snd (do_call (hst, p) c))) = false.
Proof.
  intros Hc He Hr.
  destruct c; cbn [do_call snd].
  - apply update_disabled; assumption.
  - rewrite start_disabled by exact He. auto.
  - rewrite stop_enabled, stop_running. auto.
  - destruct enable; [discriminate|]. apply setEnabled_false_stops.
  - unfold setHOA. config_upd. destruct (_config p); cbn; auto.
  - unfold processFeedMode. destruct (_config p); [|auto].
    rewrite He. cbn [negb]. auto.
  - unfold prime. rewrite He. cbn [negb]. auto.
  - unfold startCalibration. rewrite He. cbn [negb]. auto.
  - unfold setCalibration. destruct (_config p); cbn; auto.
  - unfold clearError. case_cond; cbn; auto.
  - cbn. auto.
Qed.

(** X11.  A disabled pump that is not running stays stopped over any sequence
    of calls that does not enable it: [start], [prime],
    [startCalibration], Hand mode and the feed modes are all refused.
    [setEnabled(false)] puts any pump in that condition. *)
Theorem disabled_pump_never_runs calls : forall hst p,
  forallb (fun c => negb (enables c)) calls = true ->
  enabled (_status p) = false ->
  running (_status p) = false ->
  isRunning (snd (do_calls calls (hst, p))) = false
  /\ isRunning (setEnabled false p) = false.
Proof.
  unfold isRunning.
  induction calls as [|c calls IH]; intros hst p Hc He Hr.
  - split; [exact Hr | apply setEnabled_false_stops].
  - split; [|apply setEnabled_false_stops].
    cbn [forallb] in Hc. apply andb_true_iff in Hc. destruct Hc as (Hc1 & Hc2).
    apply negb_true_iff in Hc1.
    destruct (do_call_disabled c hst p Hc1 He Hr) as (A & B).
    unfold do_calls. cbn [fold_left].
    destruct (do_call (hst, p) c) as [hst' p'] eqn:E. cbn [snd] in A, B.
    apply (IH hst' p' Hc2 A B).
Qed.

(** A running pump is disabled; Hand mode, a start, a prime and mode-D
    contacts do not restart it. *)
Lemma disabled_pump_never_runs_witness :
  let p := setEnabled false (start 1000 5000 0 (mode_d_pump 1)) in
  isRunning (start 1000 5000 0 (mode_d_pump 1)) = true
  /\ isRunning (snd (do_calls restart_attempts (0, p))) = false.
Proof.
  cbn zeta. split; [vm_compute; reflexivity|].
  refine (proj1 (disabled_pump_never_runs restart_attempts 0 _ eq_refl _ _)).
  - apply setEnabled_false_stops.
  - apply setEnabled_false_stops.
Defined.

(** *** States that are never entered *)

Lemma start_entered now d v p :
  entered_state (state (_status p)) = true ->
  entered_state (state (_status (start now d v p))) = true.
Proof. intros H. unfold start. repeat case_cond; try exact H; reflexivity. Qed.

Lemma stop_entered p :
  entered_state (state (_status p)) = true ->
  entered_state (state (_status (stop p))) = true.
Proof. intros H. unfold stop. case_cond; [reflexivity | exact H]. Qed.

Lemma processHOA_entered now hst p :
  entered_state (state (_status p)) = true ->
  entered_state (state (_status (snd (processHOA now hst p)))) = true.
Proof.
  intros H. unfold processHOA.
  destruct (hoa_mode (_status p)); repeat case_cond; cbn [snd];
    first [ exact H | apply stop_entered; exact H
          | apply start_entered; exact H
          | exact (stop_entered p H) ].
Qed.

Lemma checkTimeout_entered p :
  entered_state (state (_status p)) = true ->
  entered_state (state (_status (checkTimeout p))) = true.
Proof.
  intros H. unfold checkTimeout. repeat case_cond; try exact H; reflexivity.
Qed.

Lemma updateStats_state now p :
  state (_status (updateStats now p)) = state (_status p)
  /\ running (_status (updateStats now p)) = running (_status p).
Proof.
  unfold updateStats.
  repeat case_cond; cbn; split; first [reflexivity | assumption].
Qed.

Lemma update_entered now stepped hst p :
  entered_state (state (_status p)) = true ->
  entered_state (state (_status (snd (update now stepped hst p)))) = true.
Proof.
  intros H. unfold update.
  pose proof (processHOA_entered now hst p H) as H1.
  destruct (processHOA now hst p) as [h q]. cbn [snd] in *.
  pose proof (checkTimeout_entered q H1) as H2.
  set (r := checkTimeout q) in *.
  destruct (running (_status r)); [|exact H2].
  destruct (updateStats_state now
              (let p0 := set_stepper (stepper_run stepped (_stepper r)) r in
               let p1 :=
                 if _steps_limited p0 && (distanceToGo (_stepper p0) =? 0)
                 then stop p0 else p0 in
               if _time_limited p1
               then if _target_time_ms p1 <=? sub32 now (start_time (_status p1))
                    then stop p1 else p1
               else p1)) as (E & _).
  cbn zeta in E. rewrite E.
  repeat case_cond; repeat apply stop_entered; exact H2.
Qed.

Lemma runAccumulated_entered now p :
  entered_state (state (_status p)) = true ->
  entered_state (state (_status (runAccumulated now p))) = true.
Proof.
  intros H. unfold runAccumulated. case_cond; [|exact H].
  apply start_entered. exact H.
Qed.

Lemma capFeedTime_state cfg p :
  state (_status (capFeedTime cfg p)) = state (_status p).
Proof. unfold capFeedTime. repeat case_cond; reflexivity. Qed.

Lemma processFeedMode_entered now ba bt wc wv p :
  entered_state (state (_status p)) = true ->
  entered_state (state (_status (processFeedMode now ba bt wc wv p))) = true.
Proof.
  intros H. unfold processFeedMode.
  destruct (_config p) as [cfg|]; [|exact H].
  destruct (negb (enabled (_status p))); [exact H|].
  destruct (hoa_mode (_status p)); try exact H.
  destruct (feed_mode cfg); try exact H.
  - unfold processModeA. repeat case_cond; cbn;
      first [ exact H | apply start_entered; exact H
            | apply stop_entered; exact H ].
  - unfold processModeB. repeat case_cond; cbn;
      first [ exact H | apply start_entered; exact H
            | apply stop_entered; exact H ].
  - unfold processModeC. repeat case_cond; cbn;
      first [ exact H | apply start_entered; exact H
            | apply stop_entered; exact H ].
  - unfold processModeD. apply runAccumulated_entered.
    case_cond; [|exact H].
    cbn [_status upd_status set_status state set_contact_count].
    rewrite capFeedTime_state. exact H.
  - unfold processModeE. apply runAccumulated_entered.
    case_cond; [|exact H].
    cbn [_status upd_status set_status state set_accumulated_volume].
    rewrite capFeedTime_state. exact H.
Qed.

Lemma prime_entered now d p :
  entered_state (state (_status p)) = true ->
  entered_state (state (_status (prime now d p))) = true.
Proof.
  intros H. unfold prime. destruct (enabled (_status p)) eqn:He; cbn [negb];
    [|exact H].
  destruct (start_accepted now d 0
              (upd_status (set_state PUMP_STATE_PRIMING) p) He)
    as (_ & S & _).
  - left. discriminate.
  - rewrite S. reflexivity.
Qed.

Lemma do_call_entered c hst p :
  entered_state (state (_status p)) = true ->
  entered_state (state (_status (snd (do_call (hst, p) c)))) = true.
Proof.
  intros H. destruct c; cbn [do_call snd].
  - apply update_entered; exact H.
  - apply start_entered; exact H.
  - apply stop_entered; exact H.
  - unfold setEnabled.
    match goal with |- context [running (_status ?x)] => set (q := x) end.
    assert (Hq : entered_state (state (_status q)) = true).
    { subst q. config_upd. destruct (_config p); exact H. }
    destruct (negb enable && running (_status q));
      [apply stop_entered|]; exact Hq.
  - unfold setHOA. config_upd. destruct (_config p); exact H.
  - apply processFeedMode_entered; exact H.
  - apply prime_entered; exact H.
  - unfold startCalibration. case_cond; [exact H | reflexivity].
  - unfold setCalibration. destruct (_config p); exact H.
  - unfold clearError. case_cond; [reflexivity | exact H].
  - exact H.
Qed.

(** X12.  The states Priming and Error are never entered: from a pump in any
    other state, no sequence of calls leaves the pump in Priming or in
    Error.  [prime] assigns Priming and then calls [start], which
    overwrites it with Running; no statement assigns Error, so
    [hasError] stays false. *)
Theorem priming_and_error_never_entered calls : forall hst p,
  entered_state (state (_status p)) = true ->
  let p' := snd (do_calls calls (hst, p)) in
  state (_status p') <> PUMP_STATE_PRIMING
  /\ hasError p' = false.
Proof.
  assert (K : forall hst p,
             entered_state (state (_status p)) = true ->
             entered_state (state (_status (snd (do_calls calls (hst, p)))))
             = true).
  { induction calls as [|c calls IH]; intros hst p H; [exact H|].
    unfold do_calls. cbn [fold_left].
    pose proof (do_call_entered c hst p H) as H1.
    destruct (do_call (hst, p) c) as [hst' p']. apply IH. exact H1. }
  intros hst p H p'. specialize (K hst p H). fold p' in K.
  unfold hasError. destruct (state (_status p')); cbn in *;
    split; congruence.
Qed.

(** An enabled pump is primed: it is Running, not Priming. *)
Lemma priming_and_error_never_entered_witness :
  let p' := snd (do_calls [call_prime 1000 5000] (0, manual_pump)) in
  state (_status p') = PUMP_STATE_RUNNING
  /\ state (_status p') <> PUMP_STATE_PRIMING.
Proof.
  cbn zeta. split; [reflexivity|].
  exact (proj1 (priming_and_error_never_entered [call_prime 1000 5000] 0
                  manual_pump eq_refl)).
Defined.

(** *** The end of a lockout *)

Lemma runAccumulated_lockout_end_time now p :
  lockout_end_time (_status (runAccumulated now p))
  = lockout_end_time (_status p).
Proof.
  unfold runAccumulated. case_cond; [|reflexivity].
  rewrite start_lockout_end_time. reflexivity.
Qed.

Lemma capFeedTime_lockout_end_time cfg p :
  lockout_end_time (_status (capFeedTime cfg p))
  = lockout_end_time (_status p).
Proof. unfold capFeedTime. repeat case_cond; reflexivity. Qed.

Ltac lockout_frame :=
  cbn;
  rewrite ?start_lockout_end_time, ?stop_lockout_end_time; cbn;
  rewrite ?start_lockout_end_time, ?stop_lockout_end_time;
  reflexivity.

Lemma processFeedMode_lockout_end_time now ba bt wc wv p :
  lockout_end_time (_status (processFeedMode now ba bt wc wv p))
  = lockout_end_time (_status p).
Proof.
  unfold processFeedMode.
  destruct (_config p) as [cfg|]; [|reflexivity].
  destruct (negb (enabled (_status p))); [reflexivity|].
  destruct (hoa_mode (_status p)); try reflexivity.
  destruct (feed_mode cfg); try reflexivity.
  - unfold processModeA. repeat case_cond; lockout_frame.
  - unfold processModeB. repeat case_cond; lockout_frame.
  - unfold processModeC. repeat case_cond; lockout_frame.
  - unfold processModeD. rewrite runAccumulated_lockout_end_time.
    case_cond; [|reflexivity].
    cbn [_status upd_status set_status lockout_end_time set_contact_count].
    rewrite capFeedTime_lockout_end_time. reflexivity.
  - unfold processModeE. rewrite runAccumulated_lockout_end_time.
    case_cond; [|reflexivity].
    cbn [_status upd_status set_status lockout_end_time
         set_accumulated_volume].
    rewrite capFeedTime_lockout_end_time. reflexivity.
Qed.

Lemma do_call_lockout_end_time c hst p :
  lockout_end_time (_status (snd (do_call (hst, p) c)))
  = lockout_end_time (_status p).
Proof.
  destruct c; cbn [do_call snd].
  - apply update_lockout_end_time.
  - apply start_lockout_end_time.
  - apply stop_lockout_end_time.
  - unfold setEnabled.
    match goal with |- context [running (_status ?x)] => set (q := x) end.
    assert (Hq : lockout_end_time (_status q) = lockout_end_time (_status p)).
    { subst q. config_upd. destruct (_config p); reflexivity. }
    destruct (negb enable && running (_status q));
      [rewrite stop_lockout_end_time|]; exact Hq.
  - unfold setHOA. config_upd. destruct (_config p); reflexivity.
  - apply processFeedMode_lockout_end_time.
  - unfold prime. case_cond; [reflexivity|].
    rewrite start_lockout_end_time. reflexivity.
  - unfold startCalibration. case_cond; reflexivity.
  - unfold setCalibration. destruct (_config p); reflexivity.
  - unfold clearError. case_cond; reflexivity.
  - reflexivity.
Qed.

(** X13.  No call assigns [lockout_end_time]: after any sequence of calls it
    has the value it started with (0 after the constructor).  So an
    enabled pump, locked out or not, is started by a [start] at any clock
    value that is not below that initial value. *)
Theorem lockout_end_time_never_set calls : forall hst p now d v,
  let p' := snd (do_calls calls (hst, p)) in
  lockout_end_time (_status p') = lockout_end_time (_status p)
  /\ (lockout_end_time (_status p) <= now ->
      enabled (_status p') = true ->
      isRunning (start now d v p') = true).
Proof.
  assert (K : forall hst p,
             lockout_end_time (_status (snd (do_calls calls (hst, p))))
             = lockout_end_time (_status p)).
  { induction calls as [|c calls IH]; intros hst p; [reflexivity|].
    unfold do_calls. cbn [fold_left].
    pose proof (do_call_lockout_end_time c hst p) as H1.
    destruct (do_call (hst, p) c) as [hst' p']. cbn [snd] in H1.
    rewrite <- H1. apply IH. }
  intros hst p now d v p'. split; [apply K|].
  intros Hle He.
  destruct (start_accepted now d v p' He) as (R & _); [|exact R].
  right. subst p'. rewrite K. exact Hle.
Qed.

(** A pump locked out by the time limit at 600100 ms is started again by
    a [start] 100 ms later. *)
Lemma lockout_end_time_never_set_witness :
  let p' := snd (do_calls run_into_lockout (0, mode_b_pump 20 60)) in
  state (_status p') = PUMP_STATE_LOCKED_OUT
  /\ isRunning (start 600200 1000 0 p') = true.
Proof.
  cbn zeta. split; [vm_compute; reflexivity|].
  refine (proj2 (lockout_end_time_never_set run_into_lockout 0
                   (mode_b_pump 20 60) 600200 1000 0) _ _).
  - vm_compute. discriminate.
  - vm_compute. reflexivity.
Defined.

(** C4 (time limit and lockout).  A running pump whose runtime has
    reached a non-zero [time_limit_seconds] is stopped and LockedOut by
    the next tick in Auto.  There is no lockout window after that: no
    operation assigns [lockout_end_time], so on a pump that has only been
    constructed, configured and called it is still 0, the test
    [millis() < lockout_end_time] of [start] is false at every clock
    value, and every [start] on the locked-out pump is accepted at once:
    the pump runs again and its state is Running. *)
Theorem time_limit_lockout_has_no_window id cfg0 calls hst0 cfg now stepped
  hst :
  let p := snd (do_calls calls (hst0, configure (Some cfg0) (init_pump id))) in
  _config p = Some cfg ->
  enabled (_status p) = true ->
  hoa_mode (_status p) = HOA_AUTO ->
  running (_status p) = true ->
  0 < time_limit_seconds cfg ->
  time_limit_seconds cfg * 1000 <= runtime_ms (_status p) ->
  let q := snd (update now stepped hst p) in
  running (_status q) = false
  /\ state (_status q) = PUMP_STATE_LOCKED_OUT
  /\ lockout_end_time (_status q) = 0
  /\ (forall now' duration_ms volume_ml,
        0 <= now' ->
        let q' := start now' duration_ms volume_ml q in
        running (_status q') = true
        /\ state (_status q') = PUMP_STATE_RUNNING).
Proof.
  intros p Hc He Ha Hr Hl Ht q.
  assert (K : forall cs h r,
             lockout_end_time (_status (snd (do_calls cs (h, r))))
             = lockout_end_time (_status r)).
  { induction cs as [|c cs IH]; intros h r; [reflexivity|].
    unfold do_calls. cbn [fold_left].
    pose proof (do_call_lockout_end_time c h r) as H1.
    destruct (do_call (h, r) c) as [h' r']. cbn [snd] in H1.
    rewrite <- H1. apply IH. }
  assert (L0 : lockout_end_time (_status p) = 0).
  { subst p. rewrite K. unfold configure. config_upd.
    destruct cfg0; reflexivity. }
  pose proof (checkTimeout_locks_out p cfg Hc Hr Hl Ht) as [K1 K2].
  assert (Q : q = checkTimeout p).
  { subst q. unfold update, processHOA. rewrite Ha. cbn [snd].
    rewrite K1. reflexivity. }
  assert (Lq : lockout_end_time (_status q) = 0).
  { subst q. rewrite update_lockout_end_time. exact L0. }
  assert (Eq : enabled (_status q) = true).
  { rewrite Q. unfold checkTimeout. rewrite Hc, Hr. cbn [negb].
    destruct (Z.ltb_spec 0 (time_limit_seconds cfg)); [|lia].
    destruct (Z.leb_spec (time_limit_seconds cfg * 1000)
                (runtime_ms (_status p))); [|lia].
    cbn. rewrite stop_enabled. exact He. }
  split; [rewrite Q; exact K1|]. split; [rewrite Q; exact K2|].
  split; [exact Lq|].
  intros now' d v Hn q'.
  destruct (start_accepted now' d v q Eq) as (R1 & R2 & _); [|auto].
  right. rewrite Lq. exact Hn.
Qed.

(** A pump started at 0 ms and still running at 600000 ms with a 600 s
    limit: the tick at 600100 ms locks it out, and a [start] at that same
    instant runs it again. *)
Lemma time_limit_lockout_has_no_window_witness :
  let p := snd (do_calls [call_start 0 0 0; call_update 600000 true]
                  (0, mode_b_pump 20 60)) in
  let q := snd (update 600100 true 0 p) in
  runtime_ms (_status p) = 600000
  /\ state (_status q) = PUMP_STATE_LOCKED_OUT
  /\ running (_status (start 600100 1000 0 q)) = true
  /\ state (_status (start 600100 1000 0 q)) = PUMP_STATE_RUNNING.
Proof.
  cbn zeta.
  destruct (time_limit_lockout_has_no_window PUMP_NAOH (mode_b_config 20 60)
              [call_start 0 0 0; call_update 600000 true] 0
              (mode_b_config 20 60) 600100 true 0)
    as (_ & H2 & _ & H4);
    [reflexivity | reflexivity | reflexivity | reflexivity
    | cbn; lia | vm_compute; discriminate |].
  specialize (H4 600100 1000 0%Q). cbn zeta in H4.
  destruct H4 as (R1 & R2); [lia|].
  split; [reflexivity|]. split; [exact H2|]. split; [exact R1 | exact R2].
Defined.

(** *** The step target of a volume run *)

(** The product of the volume and [steps_per_ml] is rounded to binary32
    before the cast: 0.7f is 11744051/2^24, a little below 7/10, and its
    product with 200 rounds up to 140. *)
Lemma start_volume_target_rounds :
  let p := start 0 0 (round32 (7 # 10)) manual_pump in
  round32 (7 # 10) = 11744051 # 16777216
  /\ _steps_limited p = true
  /\ _target_steps p = 140
  /\ Qfloor ((11744051 # 16777216) * 200) = 139.
Proof. repeat split; vm_compute; reflexivity. Qed.

(** *** Ticks of a running pump *)

Lemma stop_frame p :
  total_runtime_ms (_status (stop p)) = total_runtime_ms (_status p)
  /\ start_time (_status (stop p)) = start_time (_status p)
  /\ _time_limited (stop p) = _time_limited p
  /\ _target_time_ms (stop p) = _target_time_ms p
  /\ _steps_limited (stop p) = _steps_limited p.
Proof. unfold stop. case_cond; repeat split. Qed.

Lemma start_total_runtime now d v p :
  total_runtime_ms (_status (start now d v p)) = total_runtime_ms (_status p).
Proof. unfold start. repeat case_cond; reflexivity. Qed.

Lemma processHOA_total_runtime now hst p :
  total_runtime_ms (_status (snd (processHOA now hst p)))
  = total_runtime_ms (_status p).
Proof.
  unfold processHOA.
  destruct (hoa_mode (_status p)); repeat case_cond; cbn [snd];
    try reflexivity.
  - apply stop_frame.
  - apply start_total_runtime.
  - cbn. apply stop_frame.
Qed.

(** [checkTimeout] either changes nothing or leaves the pump stopped. *)
Lemma checkTimeout_cases p :
  checkTimeout p = p \/ running (_status (checkTimeout p)) = false.
Proof.
  unfold checkTimeout. repeat case_cond; auto.
  right. cbn. apply stop_running.
Qed.

Lemma checkTimeout_total_runtime p :
  total_runtime_ms (_status (checkTimeout p)) = total_runtime_ms (_status p).
Proof.
  unfold checkTimeout. repeat case_cond; try reflexivity.
  cbn. apply stop_frame.
Qed.

Lemma checkTimeout_quiet p :
  time_limit_not_due p -> checkTimeout p = p.
Proof.
  unfold time_limit_not_due, checkTimeout.
  destruct (_config p) as [cfg|]; [|reflexivity].
  intros H. destruct (negb (running (_status p))); [reflexivity|].
  destruct (Z.ltb_spec 0 (time_limit_seconds cfg)); [|reflexivity].
  destruct (Z.leb_spec (time_limit_seconds cfg * 1000)
              (runtime_ms (_status p))); [lia|reflexivity].
Qed.

(** What [updateStats] does to a running pump. *)
Lemma updateStats_running now p :
  running (_status p) = true ->
  let p' := updateStats now p in
  running (_status p') = true
  /\ state (_status p') = state (_status p)
  /\ start_time (_status p') = start_time (_status p)
  /\ runtime_ms (_status p') = sub32 now (start_time (_status p))
  /\ total_runtime_ms (_status p')
     = add32 (total_runtime_ms (_status p)) (sub32 now (start_time (_status p)))
  /\ total_steps (_status p')
     = add32 (total_steps (_status p)) (Z.abs (currentPosition (_stepper p)))
  /\ currentPosition (_stepper p') = 0
  /\ distanceToGo (_stepper p') = 0.
Proof.
  intros H p'. subst p'. unfold updateStats. rewrite H.
  repeat case_cond; cbn; repeat split; assumption.
Qed.

Lemma update_unfold now stepped hst p :
  snd (update now stepped hst p) =
  let r := checkTimeout (snd (processHOA now hst p)) in
  if running (_status r) then updateStats now (run_block now stepped r)
  else r.
Proof.
  unfold update, run_block.
  destruct (processHOA now hst p) as [h q]. cbn [snd].
  destruct (running (_status (checkTimeout q))); reflexivity.
Qed.

Lemma run_block_frame now stepped r :
  total_runtime_ms (_status (run_block now stepped r))
  = total_runtime_ms (_status r)
  /\ start_time (_status (run_block now stepped r)) = start_time (_status r)
  /\ total_steps (_status (run_block now stepped r)) = total_steps (_status r).
Proof.
  unfold run_block. cbn zeta.
  repeat case_cond; unfold stop; repeat case_cond; repeat split.
Qed.

(** X14.  A tick that leaves the pump running has recorded the time since the
    start of the run as [runtime_ms], and has added that whole time, not
    the time since the previous tick, to [total_runtime_ms]. *)
Theorem running_tick_adds_elapsed now stepped hst p :
  let p' := snd (update now stepped hst p) in
  running (_status p') = true ->
  runtime_ms (_status p') = sub32 now (start_time (_status p'))
  /\ total_runtime_ms (_status p')
     = add32 (total_runtime_ms (_status p)) (runtime_ms (_status p')).
Proof.
  intros p'. subst p'. rewrite update_unfold. cbn zeta.
  set (r := checkTimeout (snd (processHOA now hst p))).
  assert (T : total_runtime_ms (_status r) = total_runtime_ms (_status p)).
  { subst r. rewrite checkTimeout_total_runtime.
    apply processHOA_total_runtime. }
  destruct (running (_status r)) eqn:Er; [|congruence].
  intros H.
  destruct (updateStats_state now (run_block now stepped r)) as (_ & R).
  rewrite R in H.
  destruct (updateStats_running now (run_block now stepped r) H)
    as (_ & _ & A & B & C & _).
  destruct (run_block_frame now stepped r) as (F1 & F2 & _).
  rewrite A, B, C, F1, T. auto.
Qed.

(** A 5 s run started at 1000 ms, ticked at 2000, 3000 and 4000 ms: 3 s
    have passed, and [total_runtime_ms] is 1 + 2 + 3 = 6 s. *)
Lemma running_tick_adds_elapsed_witness :
  let p1 := snd (update 2000 true 0 timed_run) in
  let p2 := snd (update 3000 true 0 p1) in
  let p3 := snd (update 4000 true 0 p2) in
  runtime_ms (_status p3) = 3000
  /\ total_runtime_ms (_status p3)
     = add32 (total_runtime_ms (_status p2)) 3000
  /\ total_runtime_ms (_status p3) = 6000.
Proof.
  cbn zeta.
  set (p2 := snd (update 3000 true 0 (snd (update 2000 true 0 timed_run)))).
  assert (R : running (_status (snd (update 4000 true 0 p2))) = true)
    by (vm_compute; reflexivity).
  destruct (running_tick_adds_elapsed 4000 true 0 p2 R) as (A & B).
  assert (S : start_time (_status (snd (update 4000 true 0 p2))) = 1000)
    by (vm_compute; reflexivity).
  rewrite S in A. change (sub32 4000 1000) with 3000 in A.
  split; [exact A|]. split; [rewrite <- A; exact B|].
  vm_compute. reflexivity.
Defined.

(** X15.  A timed run in Auto.  A tick at or after the target time leaves the
    pump stopped.  Before the target time, for a run without a step
    target on which the time limit is not due, the tick leaves the pump
    running in the same state. *)
Theorem timed_run_tick now stepped hst p :
  running (_status p) = true ->
  hoa_mode (_status p) = HOA_AUTO ->
  _time_limited p = true ->
  let p' := snd (update now stepped hst p) in
  (_target_time_ms p <= sub32 now (start_time (_status p)) ->
   running (_status p') = false)
  /\ (sub32 now (start_time (_status p)) < _target_time_ms p ->
      _steps_limited p = false ->
      time_limit_not_due p ->
      running (_status p') = true
      /\ state (_status p') = state (_status p)).
Proof.
  intros Hr Ha Ht p'. subst p'. rewrite update_unfold. cbn zeta.
  assert (P : snd (processHOA now hst p) = p)
    by (unfold processHOA; rewrite Ha; reflexivity).
  rewrite P.
  split.
  - intros Hge.
    destruct (checkTimeout_cases p) as [C|C]; [rewrite C, Hr|rewrite C; exact C].
    destruct (updateStats_state now (run_block now stepped p)) as (_ & R).
    rewrite R. unfold run_block. cbn zeta.
    set (p0 := set_stepper (stepper_run stepped (_stepper p)) p).
    set (p1 := if _steps_limited p0 && (distanceToGo (_stepper p0) =? 0)
               then stop p0 else p0).
    assert (F : _time_limited p1 = true
                /\ _target_time_ms p1 = _target_time_ms p
                /\ start_time (_status p1) = start_time (_status p)).
    { subst p1. destruct (_ && _).
      - destruct (stop_frame p0) as (_ & F2 & F3 & F4 & _).
        rewrite F2, F3, F4. auto.
      - auto. }
    destruct F as (F1 & F2 & F3). rewrite F1, F2, F3.
    destruct (Z.leb_spec (_target_time_ms p)
                (sub32 now (start_time (_status p)))); [|lia].
    apply stop_running.
  - intros Hlt Hs Hd.
    rewrite (checkTimeout_quiet p Hd), Hr.
    assert (B : run_block now stepped p
                = set_stepper (stepper_run stepped (_stepper p)) p).
    { unfold run_block. cbn zeta.
      change (_steps_limited (set_stepper (stepper_run stepped (_stepper p)) p))
        with (_steps_limited p).
      rewrite Hs. cbn [andb].
      change (_time_limited (set_stepper (stepper_run stepped (_stepper p)) p))
        with (_time_limited p).
      rewrite Ht.
      change (_target_time_ms
                (set_stepper (stepper_run stepped (_stepper p)) p))
        with (_target_time_ms p).
      change (start_time
                (_status (set_stepper (stepper_run stepped (_stepper p)) p)))
        with (start_time (_status p)).
      destruct (Z.leb_spec (_target_time_ms p)
                  (sub32 now (start_time (_status p)))); [lia|reflexivity]. }
    rewrite B.
    destruct (updateStats_state now
                (set_stepper (stepper_run stepped (_stepper p)) p))
      as (S & R).
    rewrite S, R. auto.
Qed.

(** The 5 s run started at 1000 ms is running after the tick at 5999 ms
    and stopped by the tick at 6000 ms. *)
Lemma timed_run_tick_witness :
  running (_status (snd (update 5999 true 0 timed_run))) = true
  /\ running (_status (snd (update 6000 true 0 timed_run))) = false.
Proof.
  pose proof (timed_run_tick 5999 true 0 timed_run eq_refl eq_refl eq_refl)
    as (_ & A).
  pose proof (timed_run_tick 6000 true 0 timed_run eq_refl eq_refl eq_refl)
    as (B & _).
  split.
  - apply A; [vm_compute; reflexivity | reflexivity |].
    unfold time_limit_not_due. left. vm_compute. discriminate.
  - apply B. vm_compute. discriminate.
Defined.

(** *** The stepper position and the step target *)

(** X16.  [updateStats] sets the stepper's position to 0 on every tick of a
    running pump, and [setCurrentPosition] sets the target position with
    it: after a tick that leaves the pump running the stepper has no
    distance left to go.  A run with a step target (a volume) is therefore
    stopped by the tick after it, whatever the volume asked for. *)
Theorem volume_run_stops_on_next_tick now1 s1 h1 now2 s2 h2 p :
  let p1 := snd (update now1 s1 h1 p) in
  let p2 := snd (update now2 s2 h2 p1) in
  running (_status p1) = true ->
  distanceToGo (_stepper p1) = 0
  /\ (_steps_limited p1 = true -> running (_status p2) = false).
Proof.
  intros p1 p2 H1.
  assert (D : distanceToGo (_stepper p1) = 0).
  { subst p1. rewrite update_unfold in *. cbn zeta in *.
    set (r := checkTimeout (snd (processHOA now1 h1 p))) in *.
    destruct (running (_status r)) eqn:Er.
    - destruct (updateStats_state now1 (run_block now1 s1 r)) as (_ & R).
      rewrite R in H1.
      apply (updateStats_running now1 (run_block now1 s1 r) H1).
    - congruence. }
  split; [exact D|]. intros Hs.
  subst p2. rewrite update_unfold. cbn zeta.
  assert (Q : snd (processHOA now2 h2 p1) = p1
              \/ running (_status (snd (processHOA now2 h2 p1))) = false).
  { unfold processHOA. rewrite H1. cbn [negb].
    destruct (hoa_mode (_status p1)); cbn [snd]; auto.
    - right. apply stop_running.
    - destruct (_ <=? _); cbn [snd]; auto.
      right. cbn. apply stop_running. }
  set (q := snd (processHOA now2 h2 p1)) in *.
  assert (C : checkTimeout q = p1 \/ running (_status (checkTimeout q)) = false).
  { destruct (checkTimeout_cases q) as [C|C]; [|auto].
    rewrite C. destruct Q as [Q|Q]; [left; exact Q|right; exact Q]. }
  destruct C as [C|C]; [rewrite C, H1|rewrite C; exact C].
  destruct (updateStats_state now2 (run_block now2 s2 p1)) as (_ & R).
  rewrite R. unfold run_block. cbn zeta.
  assert (St : stepper_run s2 (_stepper p1) = _stepper p1).
  { unfold stepper_run. rewrite D. cbn [Z.eqb negb].
    rewrite andb_false_r. reflexivity. }
  rewrite St.
  change (_steps_limited (set_stepper (_stepper p1) p1))
    with (_steps_limited p1).
  change (_stepper (set_stepper (_stepper p1) p1)) with (_stepper p1).
  rewrite Hs, D. cbn [Z.eqb andb].
  set (p0 := stop (set_stepper (_stepper p1) p1)).
  assert (R0 : running (_status p0) = false) by apply stop_running.
  destruct (_time_limited p0); [|exact R0].
  destruct (_ <=? _); [apply stop_running | exact R0].
Qed.

(** A run for 10 ml (2000 steps): the first tick makes one step, the
    second tick stops the pump with one step counted. *)
Lemma volume_run_stops_on_next_tick_witness :
  _target_steps volume_run = 2000
  /\ running (_status volume_run_tick1) = true
  /\ running (_status (snd (update 200 true 0 volume_run_tick1))) = false
  /\ total_steps (_status (snd (update 200 true 0 volume_run_tick1))) = 1.
Proof.
  split; [vm_compute; reflexivity|].
  split; [vm_compute; reflexivity|].
  split; [|vm_compute; reflexivity].
  refine (proj2 (volume_run_stops_on_next_tick 100 true 0 200 true 0
                   volume_run _) _); vm_compute; reflexivity.
Defined.

(** *** Water-contact feed (mode D) *)

Lemma processFeedMode_in_mode mode now ba bt wc wv p cfg :
  feeds_in_mode mode cfg p ->
  processFeedMode now ba bt wc wv p =
  match mode with
  | FEED_MODE_A_BLOWDOWN_FEED => processModeA now cfg ba p
  | FEED_MODE_B_PERCENT_BLOWDOWN => processModeB now cfg ba bt p
  | FEED_MODE_C_PERCENT_TIME => processModeC now cfg p
  | FEED_MODE_D_WATER_CONTACT => processModeD now cfg wc p
  | FEED_MODE_E_PADDLEWHEEL => processModeE now cfg wv p
  | _ => p
  end.
Proof.
  intros (Hc & Hm & He & Ha). unfold processFeedMode.
  rewrite Hc, He, Ha, Hm. reflexivity.
Qed.

(** [start] either changes nothing or starts the run it was asked for. *)
Lemma start_cases now d v p :
  start now d v p = p
  \/ (running (_status (start now d v p)) = true
      /\ (0 < d -> _target_time_ms (start now d v p) = d)).
Proof.
  destruct (enabled (_status p)) eqn:He;
    [|left; apply start_disabled; exact He].
  destruct (pump_state_eqb (state (_status p)) PUMP_STATE_LOCKED_OUT) eqn:Es.
  - apply pump_state_eqb_eq in Es.
    destruct (Z.lt_ge_cases now (lockout_end_time (_status p))) as [Hl|Hl].
    + left. apply start_refused; assumption.
    + right.
      destruct (start_accepted now d v p He (or_intror Hl))
        as (R & _ & _ & _ & _ & T).
      split; [exact R|]. intros Hd. apply T. exact Hd.
  - right.
    destruct (start_accepted now d v p He) as (R & _ & _ & _ & _ & T).
    { left. intros E. apply pump_state_eqb_eq in E. congruence. }
    split; [exact R|]. intros Hd. apply T. exact Hd.
Qed.

Lemma start_feed_frame now d v p :
  contact_count (_status (start now d v p)) = contact_count (_status p)
  /\ accumulated_feed_time (_status (start now d v p))
     = accumulated_feed_time (_status p).
Proof. unfold start. repeat case_cond; split; reflexivity. Qed.

Lemma runAccumulated_contact_count now p :
  contact_count (_status (runAccumulated now p)) = contact_count (_status p).
Proof.
  unfold runAccumulated. case_cond; [|reflexivity].
  destruct (start_feed_frame now (accumulated_feed_time (_status p)) 0
              (upd_status (set_accumulated_feed_time 0) p)) as (A & _).
  rewrite A. reflexivity.
Qed.

Lemma capFeedTime_contact_count cfg p :
  contact_count (_status (capFeedTime cfg p)) = contact_count (_status p).
Proof. unfold capFeedTime. repeat case_cond; reflexivity. Qed.

(** X17.  Mode D counts every contact: a call adds the reported contacts to
    [contact_count] and, when the count has reached the divider, takes
    one divider off for one feed batch.  At most one batch is granted per
    call; contacts beyond it stay in the count for later calls. *)
Theorem mode_d_contact_accounting now ba bt wc wv p cfg :
  feeds_in_mode FEED_MODE_D_WATER_CONTACT cfg p ->
  0 <= contact_count (_status p) ->
  0 <= wc ->
  contact_count (_status p) + wc < 2 ^ 32 ->
  0 <= contact_divider cfg ->
  contact_count (_status (processFeedMode now ba bt wc wv p))
  = if contact_divider cfg <=? contact_count (_status p) + wc
    then contact_count (_status p) + wc - contact_divider cfg
    else contact_count (_status p) + wc.
Proof.
  intros Hm H0 Hw Hlt Hd.
  rewrite (processFeedMode_in_mode _ now ba bt wc wv p cfg Hm).
  unfold processModeD. rewrite runAccumulated_contact_count.
  assert (N : add32 (contact_count (_status p)) wc
              = contact_count (_status p) + wc)
    by (unfold add32; apply wrap32_small; lia).
  cbn [_status upd_status set_status contact_count set_contact_count].
  rewrite N.
  destruct (Z.leb_spec (contact_divider cfg) (contact_count (_status p) + wc)).
  - cbn [_status upd_status set_status contact_count set_contact_count].
    rewrite capFeedTime_contact_count.
    cbn [_status upd_status set_status contact_count
         set_accumulated_feed_time set_contact_count].
    rewrite N. unfold sub32. apply wrap32_small. lia.
  - cbn [_status upd_status set_status contact_count set_contact_count].
    exact N.
Qed.

(** Five contacts with a divider of 2: one batch, three contacts left. *)
Lemma mode_d_contact_accounting_witness :
  contact_count
    (_status (processFeedMode 1000 false 0 5 0 (mode_d_pump 2))) = 3.
Proof.
  rewrite (mode_d_contact_accounting 1000 false 0 5 0 (mode_d_pump 2)
             (mode_d_config 2)).
  - reflexivity.
  - repeat split.
  - vm_compute. discriminate.
  - vm_compute. discriminate.
  - vm_compute. reflexivity.
  - vm_compute. discriminate.
Defined.

(** X18.  With a time limit configured, the feed time pending in mode D never
    exceeds the limit, and a run that mode D starts is never longer than
    the limit. *)
Theorem mode_d_feed_time_capped now ba bt wc wv p cfg :
  feeds_in_mode FEED_MODE_D_WATER_CONTACT cfg p ->
  0 < time_limit_seconds cfg ->
  accumulated_feed_time (_status p) <= time_limit_seconds cfg * 1000 ->
  let p' := processFeedMode now ba bt wc wv p in
  accumulated_feed_time (_status p') <= time_limit_seconds cfg * 1000
  /\ (running (_status p) = false ->
      running (_status p') = true ->
      _target_time_ms p' <= time_limit_seconds cfg * 1000).
Proof.
  intros Hm Hl Ha p'. subst p'.
  rewrite (processFeedMode_in_mode _ now ba bt wc wv p cfg Hm).
  unfold processModeD.
  set (p1 := upd_status
               (fun s => set_contact_count (add32 (contact_count s) wc) s) p).
  set (p2 := if contact_divider cfg <=? contact_count (_status p1)
             then _ else p1).
  assert (B : accumulated_feed_time (_status p2)
              <= time_limit_seconds cfg * 1000
              /\ running (_status p2) = running (_status p)).
  { subst p2. destruct (_ <=? _); [|split; [exact Ha | reflexivity]].
    cbn [_status upd_status set_status accumulated_feed_time running
         set_contact_count].
    unfold capFeedTime.
    destruct (Z.ltb_spec 0 (time_limit_seconds cfg)); [|lia].
    match goal with
    | |- context [if ?a <? ?b then _ else _] =>
        destruct (Z.ltb_spec a b)
    end; cbn in *; split; try reflexivity; lia. }
  destruct B as (B1 & B2).
  unfold runAccumulated. rewrite B2.
  destruct (Z.ltb_spec 0 (accumulated_feed_time (_status p2))) as [Hp|Hp];
    cbn [andb].
  - destruct (running (_status p)) eqn:Er; cbn [negb].
    + split; [exact B1 | discriminate].
    + set (q := upd_status (set_accumulated_feed_time 0) p2).
      destruct (start_feed_frame now (accumulated_feed_time (_status p2)) 0 q)
        as (_ & F).
      rewrite F. split; [cbn; lia|].
      intros _ Hr.
      destruct (start_cases now (accumulated_feed_time (_status p2)) 0 q)
        as [S|(_ & T)].
      * rewrite S in Hr. cbn in Hr. rewrite B2 in Hr. discriminate.
      * rewrite (T Hp). exact B1.
  - split; [exact B1|]. intros E1 E2. rewrite B2 in E2. congruence.
Qed.

(** Ten contacts at 500 ms each against a 2 s limit: the run is 500 ms
    (one batch), well under the limit. *)
Lemma mode_d_feed_time_capped_witness :
  _target_time_ms (processFeedMode 1000 false 0 10 0 (mode_d_pump 1)) <= 2000.
Proof.
  refine (proj2 (mode_d_feed_time_capped 1000 false 0 10 0 (mode_d_pump 1)
                   (mode_d_config 1) _ _ _) _ _).
  - repeat split.
  - vm_compute. reflexivity.
  - vm_compute. discriminate.
  - vm_compute. reflexivity.
  - vm_compute. reflexivity.
Defined.

(** X19.  A contact divider of zero makes every call a feed batch: a stopped
    pump in mode D is started by a call that reports no contacts at
    all. *)
Theorem mode_d_zero_divider_feeds_without_contacts now ba bt wv p cfg :
  feeds_in_mode FEED_MODE_D_WATER_CONTACT cfg p ->
  contact_divider cfg = 0 ->
  0 <= contact_count (_status p) < 2 ^ 32 ->
  0 < time_per_contact_ms cfg ->
  0 <= accumulated_feed_time (_status p) ->
  accumulated_feed_time (_status p) + time_per_contact_ms cfg < 2 ^ 32 ->
  running (_status p) = false ->
  lockout_expired now p ->
  running (_status (processFeedMode now ba bt 0 wv p)) = true.
Proof.
  intros Hm Hd Hc Ht Ha Hs Hr Hl.
  rewrite (processFeedMode_in_mode _ now ba bt 0 wv p cfg Hm).
  destruct Hm as (_ & _ & He & _).
  unfold processModeD.
  cbn [_status upd_status set_status contact_count set_contact_count].
  unfold add32 at 1. rewrite Z.add_0_r, wrap32_small by exact Hc.
  rewrite Hd. destruct (Z.leb_spec 0 (contact_count (_status p))); [|lia].
  match goal with
  | |- running (_status (runAccumulated now ?x)) = true => set (p2 := x)
  end.
  assert (B : 0 < accumulated_feed_time (_status p2)
              /\ running (_status p2) = false
              /\ enabled (_status p2) = true
              /\ state (_status p2) = state (_status p)
              /\ lockout_end_time (_status p2) = lockout_end_time (_status p)).
  { subst p2.
    cbn [_status upd_status set_status accumulated_feed_time running enabled
         state lockout_end_time set_contact_count].
    unfold capFeedTime.
    cbn [_status upd_status set_status accumulated_feed_time running enabled
         state lockout_end_time set_accumulated_feed_time].
    destruct (0 <? time_limit_seconds cfg) eqn:El;
      [apply Z.ltb_lt in El|];
      repeat case_cond; cbn; repeat split; auto;
      try lia; unfold add32; rewrite wrap32_small by lia; lia. }
  destruct B as (B1 & B2 & B3 & B4 & B5).
  unfold runAccumulated. rewrite B2.
  destruct (Z.ltb_spec 0 (accumulated_feed_time (_status p2))); [|lia].
  cbn [andb negb].
  apply start_accepted; [exact B3|].
  unfold lockout_expired in *.
  cbn [_status upd_status set_status state lockout_end_time
       set_accumulated_feed_time].
  rewrite B4, B5. exact Hl.
Qed.

Lemma mode_d_zero_divider_feeds_without_contacts_witness :
  running (_status (processFeedMode 1000 false 0 0 0 (mode_d_pump 0))) = true.
Proof.
  apply (mode_d_zero_divider_feeds_without_contacts 1000 false 0 0
           (mode_d_pump 0) (mode_d_config 0)).
  - repeat split.
  - reflexivity.
  - vm_compute. split; [discriminate | reflexivity].
  - vm_compute. reflexivity.
  - vm_compute. discriminate.
  - vm_compute. reflexivity.
  - reflexivity.
  - left. vm_compute. discriminate.
Defined.

(** *** Feed input while the pump is Off *)

Lemma stop_same_accumulators p : same_accumulators p (stop p).
Proof. unfold stop. case_cond; repeat split. Qed.

Lemma update_off now stepped hst p :
  hoa_mode (_status p) = HOA_OFF ->
  snd (update now stepped hst p)
  = if running (_status p) then stop p else p.
Proof.
  intros H. rewrite update_unfold. cbn zeta.
  unfold processHOA. rewrite H.
  destruct (running (_status p)) eqn:Er; cbn [snd].
  - destruct (checkTimeout_cases (stop p)) as [C|C].
    + rewrite C, stop_running. reflexivity.
    + assert (K : checkTimeout (stop p) = stop p).
      { unfold checkTimeout. destruct (_config (stop p)); [|reflexivity].
        rewrite stop_running. reflexivity. }
      rewrite K, stop_running. reflexivity.
  - assert (K : checkTimeout p = p).
    { unfold checkTimeout. destruct (_config p); [|reflexivity].
      rewrite Er. reflexivity. }
    rewrite K, Er. reflexivity.
Qed.

Lemma processFeedMode_not_auto now ba bt wc wv p :
  hoa_mode (_status p) <> HOA_AUTO ->
  processFeedMode now ba bt wc wv p = p.
Proof.
  intros H. unfold processFeedMode.
  destruct (_config p); [|reflexivity].
  destruct (negb (enabled (_status p))); [reflexivity|].
  destruct (hoa_mode (_status p)); try reflexivity. contradiction.
Qed.

Lemma do_call_off c hst p :
  is_loop_call c = true ->
  hoa_mode (_status p) = HOA_OFF ->
  same_accumulators p (snd (do_call (hst, p) c))
  /\ hoa_mode (_status (snd (do_call (hst, p) c))) = HOA_OFF.
Proof.
  intros Hc Ho. destruct c; try discriminate; cbn [do_call snd].
  - rewrite update_off by exact Ho.
    destruct (running (_status p)).
    + split; [apply stop_same_accumulators | rewrite stop_hoa; exact Ho].
    + split; [repeat split | exact Ho].
  - rewrite processFeedMode_not_auto by (rewrite Ho; discriminate).
    split; [repeat split | exact Ho].
Qed.

(** X20.  While a pump is Off, the control loop changes none of its feed
    accumulators: the water contacts, the water volume and the blowdown
    time passed to [processFeedMode] are dropped, not kept for the return
    to Auto, and the pump stays Off. *)
Theorem off_mode_drops_feed_input calls : forall hst p,
  hoa_mode (_status p) = HOA_OFF ->
  forallb is_loop_call calls = true ->
  let p' := snd (do_calls calls (hst, p)) in
  same_accumulators p p'
  /\ hoa_mode (_status p') = HOA_OFF.
Proof.
  induction calls as [|c calls IH]; intros hst p Ho Hc p'; subst p'.
  - split; [repeat split | exact Ho].
  - cbn [forallb] in Hc. apply andb_true_iff in Hc. destruct Hc as (Hc1 & Hc2).
    destruct (do_call_off c hst p Hc1 Ho) as (A & B).
    unfold do_calls. cbn [fold_left].
    destruct (do_call (hst, p) c) as [hst' q]. cbn [snd] in A, B.
    destruct (IH hst' q B Hc2) as (C & D).
    split; [|exact D].
    unfold same_accumulators in *.
    destruct A as (A1 & A2 & A3 & A4 & A5 & A6).
    destruct C as (C1 & C2 & C3 & C4 & C5 & C6).
    unfold do_calls in *. repeat split; congruence.
Qed.

(** Twelve contacts reported to a mode-D pump that is Off: none is
    counted. *)
Lemma off_mode_drops_feed_input_witness :
  contact_count
    (_status (snd (do_calls off_mode_calls
                     (0, setHOA HOA_OFF (mode_d_pump 4))))) = 0.
Proof.
  destruct (off_mode_drops_feed_input off_mode_calls 0
              (setHOA HOA_OFF (mode_d_pump 4)) eq_refl eq_refl)
    as ((A & _) & _).
  rewrite A. reflexivity.
Defined.

(** *** Emergency stop *)

Lemma existsb_map_stop ps : existsb isRunning (map stop ps) = false.
Proof.
  induction ps as [|p ps IH]; [reflexivity|].
  cbn [map existsb]. unfold isRunning at 1. rewrite stop_running. exact IH.
Qed.

Lemma existsb_map_keeps_stopped (f : ChemicalPump -> ChemicalPump) ps :
  (forall p, isRunning p = false -> isRunning (f p) = false) ->
  existsb isRunning ps = false ->
  existsb isRunning (map f ps) = false.
Proof.
  intros Hf. induction ps as [|p ps IH]; [reflexivity|].
  cbn [map existsb]. intros H. apply orb_false_iff in H.
  destruct H as (H1 & H2). rewrite (Hf p H1). apply IH. exact H2.
Qed.

Lemma setEnabled_keeps_stopped e p :
  isRunning p = false -> isRunning (setEnabled e p) = false.
Proof.
  unfold isRunning. intros H. unfold setEnabled.
  match goal with
  | |- context [negb e && running (_status ?x)] => set (q := x)
  end.
  assert (Hq : running (_status q) = false).
  { subst q. config_upd. destruct (_config p); exact H. }
  rewrite Hq, andb_false_r. exact Hq.
Qed.

Lemma setHOA_keeps_stopped mode p :
  isRunning p = false -> isRunning (setHOA mode p) = false.
Proof.
  unfold isRunning. intros H. unfold setHOA. config_upd.
  destruct (_config p); exact H.
Qed.

Lemma manager_do_stopped c m :
  _emergency_stop m = true ->
  anyPumpRunning m = false ->
  _emergency_stop (manager_do m c) = true
  /\ anyPumpRunning (manager_do m c) = false.
Proof.
  intros He Hr. destruct c; cbn [manager_do].
  - unfold manager_update. rewrite He. auto.
  - unfold processFeedModes. rewrite He. auto.
  - split; [exact He|]. unfold anyPumpRunning, setAllEnabled. cbn.
    apply existsb_map_keeps_stopped; [|exact Hr].
    intros p. apply setEnabled_keeps_stopped.
  - split; [exact He|]. apply existsb_map_stop.
  - split; [reflexivity|]. apply existsb_map_stop.
  - split; [exact He|]. unfold anyPumpRunning, manager_setHOA. cbn.
    apply existsb_map_keeps_stopped; [|exact Hr].
    intros p Hp. destruct (_id p), id;
      first [exact Hp | apply setHOA_keeps_stopped; exact Hp].
Qed.

(** X21.  The emergency stop is final for the manager: after [emergencyStop]
    no pump is running, and no sequence of the manager's operations
    (update, processFeedModes, setAllEnabled, stopAll, setHOA on a pump)
    starts one again; nothing clears the flag. *)
Theorem emergency_stop_is_final calls : forall m,
  let m' := manager_calls calls (emergencyStop m) in
  _emergency_stop m' = true /\ anyPumpRunning m' = false.
Proof.
  assert (K : forall m, _emergency_stop m = true ->
                        anyPumpRunning m = false ->
                        _emergency_stop (manager_calls calls m) = true
                        /\ anyPumpRunning (manager_calls calls m) = false).
  { induction calls as [|c calls IH]; intros m He Hr; [auto|].
    unfold manager_calls. cbn [fold_left].
    destruct (manager_do_stopped c m He Hr) as (A & B).
    apply IH; assumption. }
  intros m m'. apply K; [reflexivity|].
  apply existsb_map_stop.
Qed.

(** Three pumps running by hand are stopped; Hand mode, enabling and
    blowdown feed afterwards start none of them. *)
Lemma emergency_stop_is_final_example :
  anyPumpRunning all_in_hand = true
  /\ anyPumpRunning
       (manager_calls after_emergency_stop (emergencyStop all_in_hand))
     = false.
Proof. split; vm_compute; reflexivity. Qed.

(** *** Feed during blowdown (mode A) *)

(** X22.  Mode A.  While blowdown is active the pump is running after every
    call: a stopped pump is started, with [lockout_seconds] as the length
    of the run when that is above zero, so a run that ended at that
    length is started again by the next call.  When blowdown is not
    active, a pump that was fed by the blowdown is stopped, and any other
    run is left alone. *)
Theorem mode_a_follows_blowdown now bt wc wv p cfg :
  feeds_in_mode FEED_MODE_A_BLOWDOWN_FEED cfg p ->
  (lockout_expired now p ->
   let p' := processFeedMode now true bt wc wv p in
   running (_status p') = true
   /\ (running (_status p) = false ->
       0 < lockout_seconds cfg ->
       _target_time_ms p' = lockout_seconds cfg * 1000))
  /\ (_mode_a_was_blowing p = true ->
      running (_status (processFeedMode now false bt wc wv p)) = false)
  /\ (_mode_a_was_blowing p = false ->
      running (_status (processFeedMode now false bt wc wv p))
      = running (_status p)).
Proof.
  intros Hm.
  rewrite !(processFeedMode_in_mode _ now _ bt wc wv p cfg Hm).
  destruct Hm as (_ & _ & He & _).
  unfold processModeA. split; [|split].
  - intros Hl.
    cbn [_status set_mode_a_was_blowing _target_time_ms].
    destruct (running (_status p)) eqn:Er; cbn [negb].
    + split; [exact Er | discriminate].
    + destruct (Z.ltb_spec 0 (lockout_seconds cfg)) as [Hp|Hp].
      * destruct (start_accepted now (lockout_seconds cfg * 1000) 0 p He Hl)
          as (R & _ & _ & _ & _ & T).
        split; [exact R|]. intros _ _. apply T. lia.
      * destruct (start_accepted now 0 0 p He Hl) as (R & _).
        split; [exact R|]. intros _ Hq. lia.
  - intros Hw. rewrite Hw. cbn [andb].
    cbn [_status set_mode_a_was_blowing].
    destruct (running (_status p)) eqn:Er; [apply stop_running|exact Er].
  - intros Hw. rewrite Hw. reflexivity.
Qed.

(** Blowdown from 0 ms with a 10 s limit: the run is stopped by the tick
    at 10 s and started again by the call at 10.1 s. *)
Lemma mode_a_follows_blowdown_witness :
  let p1 := processFeedMode 0 true 0 0 0 mode_a_pump in
  let p2 := snd (update 10000 true 0 p1) in
  let p3 := processFeedMode 10100 true 10100 0 0 p2 in
  running (_status p1) = true
  /\ running (_status p2) = false
  /\ running (_status p3) = true.
Proof.
  cbn zeta.
  split; [|split; [vm_compute; reflexivity|]].
  - refine (proj1 (proj1 (mode_a_follows_blowdown 0 0 0 0 mode_a_pump
                            mode_a_config _) _)).
    + repeat split.
    + left. vm_compute. discriminate.
  - refine (proj1 (proj1 (mode_a_follows_blowdown 10100 10100 0 0 _
                            mode_a_config _) _)).
    + repeat split.
    + left. vm_compute. discriminate.
Defined.

(** *** Duty cycle (mode C) *)

(** X23.  Mode C with a cycle under way.  The on-time is
    cycle_time_seconds * percent_of_time ms (percent in 0.1 percent
    units, the product taken on 32 bits).  Before the on-time has elapsed
    the pump is running after the call, a stopped pump being started for
    the rest of the on-time; between the on-time and the cycle time it is
    stopped; at the cycle time the next cycle starts from the time of the
    call, the pump being left as it is until the call after. *)
Theorem mode_c_duty_cycle now ba bt wc wv p cfg :
  feeds_in_mode FEED_MODE_C_PERCENT_TIME cfg p ->
  _mode_c_cycle_start p <> 0 ->
  let cycle_ms := cycle_time_seconds cfg * 1000 in
  let on_ms := mul32 cycle_ms (percent_of_time cfg) / 1000 in
  let elapsed := sub32 now (_mode_c_cycle_start p) in
  let p' := processFeedMode now ba bt wc wv p in
  (elapsed < on_ms ->
   lockout_expired now p ->
   running (_status p') = true
   /\ (running (_status p) = false ->
       _target_time_ms p' = on_ms - elapsed))
  /\ (on_ms <= elapsed -> elapsed < cycle_ms ->
      running (_status p') = false)
  /\ (on_ms <= elapsed -> cycle_ms <= elapsed ->
      _mode_c_cycle_start p' = now
      /\ running (_status p') = running (_status p)).
Proof.
  intros Hm Hs cycle_ms on_ms elapsed p'. subst p'.
  rewrite (processFeedMode_in_mode _ now ba bt wc wv p cfg Hm).
  destruct Hm as (_ & _ & He & _).
  unfold processModeC.
  destruct (Z.eqb_spec (_mode_c_cycle_start p) 0) as [E|_]; [contradiction|].
  fold cycle_ms. fold on_ms. fold elapsed.
  assert (R1 : 0 <= elapsed < 2 ^ 32) by apply wrap32_range.
  assert (R2 : 0 <= on_ms < 2 ^ 32).
  { subst on_ms. unfold mul32.
    pose proof (wrap32_range (cycle_ms * percent_of_time cfg)) as W.
    split.
    - apply Z.div_pos; lia.
    - apply Z.le_lt_trans with (m := wrap32 (cycle_ms * percent_of_time cfg));
        [|lia].
      apply Z.div_le_upper_bound; lia. }
  split; [|split].
  - intros Hlt Hl.
    destruct (Z.ltb_spec elapsed on_ms); [|lia].
    destruct (running (_status p)) eqn:Er; cbn [negb].
    + split; [exact Er | discriminate].
    + destruct (start_accepted now (sub32 on_ms elapsed) 0 p He Hl)
        as (R & _ & _ & _ & _ & T).
      split; [exact R|]. intros _.
      assert (S : sub32 on_ms elapsed = on_ms - elapsed)
        by (unfold sub32; apply wrap32_small; lia).
      rewrite <- S. apply T. lia.
  - intros Hge Hlt.
    destruct (Z.ltb_spec elapsed on_ms); [lia|].
    destruct (Z.leb_spec cycle_ms elapsed); [lia|].
    destruct (running (_status p)) eqn:Er; [apply stop_running | exact Er].
  - intros Hge Hc.
    destruct (Z.ltb_spec elapsed on_ms); [lia|].
    destruct (Z.leb_spec cycle_ms elapsed); [|lia].
    split; reflexivity.
Qed.

(** 25 percent of 600 s from 1000 ms: started for 150 s; at 200 s into
    the cycle the pump is stopped; at 600 s the next cycle begins. *)
Lemma mode_c_duty_cycle_witness :
  running (_status mode_c_pump) = true
  /\ _target_time_ms mode_c_pump = 150000
  /\ running (_status (processFeedMode 201000 false 0 0 0 mode_c_pump)) = false
  /\ _mode_c_cycle_start (processFeedMode 601000 false 0 0 0 mode_c_pump)
     = 601000.
Proof.
  split; [reflexivity|]. split; [reflexivity|].
  assert (M : feeds_in_mode FEED_MODE_C_PERCENT_TIME mode_c_config mode_c_pump)
    by (repeat split).
  assert (N : _mode_c_cycle_start mode_c_pump <> 0)
    by (vm_compute; discriminate).
  split.
  - refine (proj1 (proj2 (mode_c_duty_cycle 201000 false 0 0 0 mode_c_pump
                            mode_c_config M N)) _ _);
      vm_compute; congruence.
  - refine (proj1 (proj2 (proj2 (mode_c_duty_cycle 601000 false 0 0 0
                                   mode_c_pump mode_c_config M N)) _ _));
      vm_compute; congruence.
Defined.

End PumpProps.

(** ** Fuzzy advisory controller *)

Module FuzzyProps.

Import Fuzzy.

Local Open Scope string_scope.
Local Open Scope Q_scope.

Lemma fold_left_ext_in {A B : Type} (f g : A -> B -> A) (l : list B) :
  (forall a x, In x l -> f a x = g a x) ->
  forall a, fold_left f l a = fold_left g l a.
Proof.
  induction l as [|x l IH]; intros H a; [reflexivity|].
  cbn [fold_left]. rewrite (H a x (or_introl eq_refl)).
  apply IH. intros a' x' Hx. apply H. right. exact Hx.
Qed.

Lemma array_set_length {A : Type} (i : nat) (v : A) (a : list A) :
  List.length (array_set i v a) = List.length a.
Proof.
  revert i. induction a as [|x a IH]; intros [|i]; cbn; auto.
Qed.

Lemma array_set_nth_same {A : Type} (i : nat) (v d : A) (a : list A) :
  (i < List.length a)%nat -> nth i (array_set i v a) d = v.
Proof.
  revert i. induction a as [|x a IH]; intros [|i] H; cbn in *;
    try lia; auto. apply IH. lia.
Qed.

Lemma array_set_nth_other {A : Type} (i j : nat) (v d : A) (a : list A) :
  i <> j -> nth j (array_set i v a) d = nth j a d.
Proof.
  revert i j. induction a as [|x a IH]; intros [|i] [|j] H; cbn;
    try congruence; auto.
Qed.

(** *** Fuzzification of the manual inputs *)

Lemma fuzzifyManual_length ctl expf i m :
  List.length (fuzzifyManual expf ctl i m) = List.length m.
Proof.
  unfold fuzzifyManual. destruct (nth i (_manual_valid ctl) false);
    apply array_set_length.
Qed.

Lemma fuzzifyManual_other ctl expf i j m :
  i <> j -> nth j (fuzzifyManual expf ctl i m) [] = nth j m [].
Proof.
  intros H. unfold fuzzifyManual.
  destruct (nth i (_manual_valid ctl) false);
    apply array_set_nth_other; exact H.
Qed.

Lemma fuzzifyManual_invalid ctl expf i m :
  (i < List.length m)%nat ->
  nth i (_manual_valid ctl) false = false ->
  nth i (fuzzifyManual expf ctl i m) [] = [0; 0; 1; 0; 0; 0; 0].
Proof.
  intros Hi Hv. unfold fuzzifyManual. rewrite Hv.
  rewrite array_set_nth_same by exact Hi. reflexivity.
Qed.

Lemma fuzzifyInputs_length expf ctl inputs :
  List.length (fuzzifyInputs expf ctl inputs)
  = List.length (_input_membership ctl).
Proof.
  unfold fuzzifyInputs.
  rewrite !array_set_length, !fuzzifyManual_length. reflexivity.
Qed.

Lemma fuzzifyInputs_invalid expf ctl inputs i :
  manual_input i ->
  List.length (_input_membership ctl) = FUZZY_MAX_INPUTS ->
  nth i (_manual_valid ctl) false = false ->
  nth i (fuzzifyInputs expf ctl inputs) [] = [0; 0; 1; 0; 0; 0; 0].
Proof.
  intros Hi Hlen Hv. unfold fuzzifyInputs.
  assert (Hlt : forall m : list (list Q), List.length m = FUZZY_MAX_INPUTS ->
                          (i < List.length m)%nat).
  { intros m ->. unfold FUZZY_MAX_INPUTS.
    destruct Hi as [-> | [-> | [-> | ->]]];
      unfold FUZZY_IN_TDS, FUZZY_IN_ALKALINITY, FUZZY_IN_SULFITE,
        FUZZY_IN_PH; lia. }
  assert (H45 : i <> FUZZY_IN_TEMPERATURE /\ i <> FUZZY_IN_TREND).
  { destruct Hi as [-> | [-> | [-> | ->]]]; split; discriminate. }
  destruct H45 as [H4 H5].
  rewrite array_set_nth_other by auto.
  rewrite array_set_nth_other by auto.
  destruct Hi as [-> | [-> | [-> | ->]]].
  - rewrite !fuzzifyManual_other by discriminate.
    apply fuzzifyManual_invalid; [apply Hlt; exact Hlen | exact Hv].
  - rewrite !fuzzifyManual_other by discriminate.
    apply fuzzifyManual_invalid; [|exact Hv].
    apply Hlt. rewrite fuzzifyManual_length. exact Hlen.
  - rewrite !fuzzifyManual_other by discriminate.
    apply fuzzifyManual_invalid; [|exact Hv].
    apply Hlt. rewrite !fuzzifyManual_length. exact Hlen.
  - apply fuzzifyManual_invalid; [|exact Hv].
    apply Hlt. rewrite !fuzzifyManual_length. exact Hlen.
Qed.

(** Entry 2 of each manual input is the term named "Normal". *)
Lemma normal_term_name ctl i :
  manual_input i ->
  _config ctl <> None ->
  membership_functions_built ctl ->
  term_name ctl i 2 = "Normal".
Proof.
  intros Hi Hc (c0 & Hlen & Hin). unfold term_name. rewrite Hin.
  unfold updateMembershipFunctions. cbn [_config set_config].
  destruct (_config ctl) as [cfg|]; [|contradiction].
  cbn [_inputs set_config set_inputs].
  destruct (_inputs c0) as [|v0 [|v1 [|v2 [|v3 [|v4 [|v5 [|]]]]]]];
    try discriminate.
  destruct Hi as [-> | [-> | [-> | ->]]]; reflexivity.
Qed.

Lemma begin_builds cfg c0 ctl :
  List.length (_inputs c0) = FUZZY_MAX_INPUTS ->
  begin (Some cfg) c0 = Some ctl ->
  _config ctl = Some cfg /\ membership_functions_built ctl.
Proof.
  intros Hlen H. unfold begin in H. injection H as <-.
  split; [reflexivity|].
  exists (initOutputVariables (initInputVariables (set_config (Some cfg) c0))).
  split; [|reflexivity].
  cbn [_inputs initOutputVariables initInputVariables set_outputs set_inputs
         set_config].
  unfold upd_var. rewrite !array_set_length. exact Hlen.
Qed.

(** A valid manual input is fuzzified from its stored value, whatever the
    validity of the others. *)
Lemma fuzzifyManual_valid ctl expf i m :
  (i < List.length m)%nat ->
  nth i (_manual_valid ctl) false = true ->
  nth i (fuzzifyManual expf ctl i m) []
  = fuzzify expf ctl i (nth i (_manual_values ctl) 0) (nth i m []).
Proof.
  intros Hi Hv. unfold fuzzifyManual. rewrite Hv.
  rewrite array_set_nth_same by exact Hi. reflexivity.
Qed.

Lemma fuzzifyInputs_valid expf ctl inputs j :
  manual_input j ->
  List.length (_input_membership ctl) = FUZZY_MAX_INPUTS ->
  nth j (_manual_valid ctl) false = true ->
  nth j (fuzzifyInputs expf ctl inputs) []
  = fuzzify expf ctl j (nth j (_manual_values ctl) 0)
      (nth j (_input_membership ctl) []).
Proof.
  intros Hj Hlen Hv. unfold fuzzifyInputs.
  assert (Hlt : forall m : list (list Q), List.length m = FUZZY_MAX_INPUTS ->
                          (j < List.length m)%nat).
  { intros m ->. unfold FUZZY_MAX_INPUTS.
    destruct Hj as [-> | [-> | [-> | ->]]];
      unfold FUZZY_IN_TDS, FUZZY_IN_ALKALINITY, FUZZY_IN_SULFITE,
        FUZZY_IN_PH; lia. }
  assert (H45 : j <> FUZZY_IN_TEMPERATURE /\ j <> FUZZY_IN_TREND).
  { destruct Hj as [-> | [-> | [-> | ->]]]; split; discriminate. }
  destruct H45 as [H4 H5].
  rewrite array_set_nth_other by auto.
  rewrite array_set_nth_other by auto.
  destruct Hj as [-> | [-> | [-> | ->]]].
  - rewrite !fuzzifyManual_other by discriminate.
    apply fuzzifyManual_valid; [apply Hlt; exact Hlen | exact Hv].
  - rewrite !fuzzifyManual_other by discriminate.
    rewrite fuzzifyManual_valid; [|apply Hlt; rewrite fuzzifyManual_length;
                                   exact Hlen | exact Hv].
    rewrite fuzzifyManual_other by discriminate. reflexivity.
  - rewrite !fuzzifyManual_other by discriminate.
    rewrite fuzzifyManual_valid; [|apply Hlt; rewrite !fuzzifyManual_length;
                                   exact Hlen | exact Hv].
    rewrite !fuzzifyManual_other by discriminate. reflexivity.
  - rewrite fuzzifyManual_valid; [|apply Hlt; rewrite !fuzzifyManual_length;
                                   exact Hlen | exact Hv].
    rewrite !fuzzifyManual_other by discriminate. reflexivity.
Qed.

(** *** The antecedent loop on a forced row *)

Lemma fmin_le_l a b : fmin a b <= a.
Proof.
  unfold fmin. destruct (Qltb a b) eqn:E; [lra|].
  apply Qltb_ge in E. exact E.
Qed.

Lemma fmin_le_r a b : fmin a b <= b.
Proof.
  unfold fmin. destruct (Qltb a b) eqn:E; [|lra].
  apply Qltb_lt in E. lra.
Qed.

Lemma fmin_compat a a' b : a == a' -> fmin a b == fmin a' b.
Proof.
  intros H. unfold fmin.
  destruct (Qltb a b) eqn:E; destruct (Qltb a' b) eqn:E';
    try apply Qltb_lt in E; try apply Qltb_ge in E;
    try apply Qltb_lt in E'; try apply Qltb_ge in E'; lra.
Qed.

Lemma fmin_one a : a <= 1 -> fmin a 1 == a.
Proof.
  intros H. unfold fmin. destruct (Qltb a 1) eqn:E; [reflexivity|].
  apply Qltb_ge in E. lra.
Qed.

Lemma firingStrength_steps ctl m r :
  firingStrength ctl m r
  = fold_left (antecedent_step ctl m r) (seq 0 FUZZY_MAX_INPUTS) 1.
Proof. reflexivity. Qed.

(** The loop only lowers the strength. *)
Lemma antecedent_step_le ctl m r fs i : antecedent_step ctl m r fs i <= fs.
Proof.
  unfold antecedent_step. cbn zeta.
  destruct (_ || _); [lra | apply fmin_le_l].
Qed.

Lemma antecedent_steps_le ctl m r l :
  forall fs, fold_left (antecedent_step ctl m r) l fs <= fs.
Proof.
  induction l as [|i l IH]; intros fs; [cbn; lra|].
  cbn [fold_left].
  apply Qle_trans with (y := antecedent_step ctl m r fs i);
    [apply IH | apply antecedent_step_le].
Qed.

Lemma antecedent_step_compat ctl m r a b i :
  a == b -> antecedent_step ctl m r a i == antecedent_step ctl m r b i.
Proof.
  intros H. unfold antecedent_step. cbn zeta.
  destruct (_ || _); [exact H | apply fmin_compat; exact H].
Qed.

Lemma antecedent_steps_compat ctl m r l :
  forall a b, a == b ->
  fold_left (antecedent_step ctl m r) l a
  == fold_left (antecedent_step ctl m r) l b.
Proof.
  induction l as [|i l IH]; intros a b H; [exact H|].
  cbn [fold_left]. apply IH. apply antecedent_step_compat. exact H.
Qed.

(** Taking input [i] out of a rule changes the step for [i] only. *)
Lemma without_input_step_other ctl m r i fs j :
  j <> i ->
  antecedent_step ctl m (without_input i r) fs j
  = antecedent_step ctl m r fs j.
Proof.
  intros H. unfold antecedent_step, without_input. cbn [antecedent].
  rewrite array_set_nth_other by auto. reflexivity.
Qed.

Lemma without_input_steps ctl m r i l :
  ~ In i l ->
  forall fs,
    fold_left (antecedent_step ctl m (without_input i r)) l fs
    = fold_left (antecedent_step ctl m r) l fs.
Proof.
  intros H. apply fold_left_ext_in.
  intros a j Hj. apply without_input_step_other.
  intros ->. contradiction.
Qed.

Lemma without_input_step_same ctl m r i fs :
  (i < List.length (antecedent r))%nat ->
  antecedent_step ctl m (without_input i r) fs i = fs.
Proof.
  intros H. unfold antecedent_step, without_input. cbn [antecedent].
  rewrite array_set_nth_same by exact H. reflexivity.
Qed.

(** The inputs before and after input [i] in the order of the loop. *)
Lemma inputs_split i :
  (i < FUZZY_MAX_INPUTS)%nat ->
  seq 0 FUZZY_MAX_INPUTS
  = (seq 0 i ++ i :: seq (S i) (FUZZY_MAX_INPUTS - S i))%list
  /\ ~ In i (seq 0 i)
  /\ ~ In i (seq (S i) (FUZZY_MAX_INPUTS - S i)).
Proof.
  intros H. split; [|split].
  - replace FUZZY_MAX_INPUTS with (i + S (FUZZY_MAX_INPUTS - S i))%nat at 1
      by lia.
    rewrite seq_app. reflexivity.
  - rewrite in_seq. lia.
  - rewrite in_seq. lia.
Qed.

(** A rule that names a term of a forced row: any term but Normal keeps
    the rule from firing above 0, and Normal leaves the strength to the
    other inputs. *)
Lemma firingStrength_forced_row ctl m r i :
  (i < FUZZY_MAX_INPUTS)%nat ->
  nth i m [] = [0; 0; 1; 0; 0; 0; 0] ->
  antecedent_skipped ctl r i = false ->
  (nth i (antecedent r) 0%nat <> 2%nat -> firingStrength ctl m r <= 0)
  /\ (nth i (antecedent r) 0%nat = 2%nat ->
      firingStrength ctl m r == firingStrength ctl m (without_input i r)).
Proof.
  intros Hi Hrow Hs.
  destruct (inputs_split i Hi) as (Sp & N1 & N2).
  rewrite !firingStrength_steps, Sp, !fold_left_app. cbn [fold_left].
  set (fs0 := fold_left (antecedent_step ctl m r) (seq 0 i) 1).
  assert (Step : antecedent_step ctl m r fs0 i
                 = fmin fs0 (nth (nth i (antecedent r) 0%nat)
                               [0; 0; 1; 0; 0; 0; 0] 0)).
  { unfold antecedent_step. cbn zeta.
    unfold antecedent_skipped in Hs. cbn zeta in Hs. rewrite Hs, Hrow.
    reflexivity. }
  split.
  - intros Ht.
    apply Qle_trans with (y := antecedent_step ctl m r fs0 i);
      [apply antecedent_steps_le|].
    rewrite Step.
    apply Qle_trans with (y := nth (nth i (antecedent r) 0%nat)
                                 [0; 0; 1; 0; 0; 0; 0] 0);
      [apply fmin_le_r|].
    destruct (nth i (antecedent r) 0%nat) as [|[|[|[|[|[|[|[|t]]]]]]]];
      cbn; try lra; try contradiction.
  - intros Ht.
    assert (Hlen : (i < List.length (antecedent r))%nat).
    { destruct (Nat.lt_ge_cases i (List.length (antecedent r))) as [L|L];
        [exact L|].
      rewrite nth_overflow in Ht by exact L. discriminate. }
    rewrite (without_input_steps ctl m r i _ N1 1). fold fs0.
    rewrite (without_input_step_same ctl m r i fs0 Hlen).
    rewrite (without_input_steps ctl m r i _ N2 fs0).
    apply antecedent_steps_compat.
    rewrite Step, Ht. cbn [nth].
    apply fmin_one. subst fs0. apply antecedent_steps_le.
Qed.

(** The rule loop counts the rules that pass its two tests. *)
Lemma inferRules_counts expf ctl m l :
  forall st,
    inf_active_rules (fold_left (applyRuleAt expf ctl m) l st)
    = (inf_active_rules st
       + List.length
           (filter (fun r => rule_fires ctl m (nth r (_rules ctl) zero_rule))
              l))%nat.
Proof.
  induction l as [|r l IH]; intros st; [cbn; lia|].
  cbn [fold_left filter]. rewrite IH.
  unfold applyRuleAt, rule_fires.
  destruct (rule_enabled (nth r (_rules ctl) zero_rule)); cbn [negb andb];
    [|lia].
  destruct (Qltb _ (1 # 1000)); cbn [negb inf_active_rules List.length]; lia.
Qed.

(** C8 (invalid manual inputs).  For a configured controller, every
    manual input (TDS, alkalinity, sulfite, pH) whose validity flag is
    false gets the membership row (0, 0, 1, 0, 0, 0, 0): degree 1.0 at
    entry 2, the term named "Normal", and 0 elsewhere, while each valid
    manual input is fuzzified from its stored value.  [evaluate] returns
    the result of the rule base and the defuzzification applied to the
    whole six-row table, and the forced row takes part in the antecedent
    minimum of every rule like a fuzzified one: a rule that names
    another term than Normal for the input has a firing strength of at
    most 0 and, with a weight that is not negative, does not fire; a rule
    that names Normal has the firing strength its other antecedents give
    it; and the number of active rules reported is the number of enabled
    rules whose weighted strength on the table reaches 0.001. *)
Theorem invalid_manual_input_is_normal expf inputs ctl i :
  manual_input i ->
  _config ctl <> None ->
  membership_functions_built ctl ->
  List.length (_input_membership ctl) = FUZZY_MAX_INPUTS ->
  nth i (_manual_valid ctl) false = false ->
  let '(result, ctl') := evaluate expf inputs ctl in
  let m := _input_membership ctl' in
  nth i m [] = [0; 0; 1; 0; 0; 0; 0]
  /\ term_name ctl' i 2 = "Normal"
  /\ List.length m = FUZZY_MAX_INPUTS
  /\ result = inferAndDefuzzify expf ctl m
  /\ (forall j, manual_input j ->
        nth j (_manual_valid ctl) false = true ->
        nth j m []
        = fuzzify expf ctl j (nth j (_manual_values ctl) 0)
            (nth j (_input_membership ctl) []))
  /\ (forall r, antecedent_skipped ctl r i = false ->
        (nth i (antecedent r) 0%nat <> 2%nat ->
         firingStrength ctl m r <= 0
         /\ (0 <= weight r -> rule_fires ctl m r = false))
        /\ (nth i (antecedent r) 0%nat = 2%nat ->
            firingStrength ctl m r
            == firingStrength ctl m (without_input i r)))
  /\ active_rules result = firing_rules ctl m.
Proof.
  intros Hi Hc Hb Hlen Hv. unfold evaluate.
  destruct (_config ctl) as [cfg|] eqn:Ec; [|contradiction].
  cbn [_input_membership set_input_membership]. cbn zeta.
  assert (Hrow : nth i (fuzzifyInputs expf ctl inputs) []
                 = [0; 0; 1; 0; 0; 0; 0])
    by (apply fuzzifyInputs_invalid; assumption).
  assert (Hlt : (i < FUZZY_MAX_INPUTS)%nat).
  { unfold FUZZY_MAX_INPUTS.
    destruct Hi as [-> | [-> | [-> | ->]]];
      unfold FUZZY_IN_TDS, FUZZY_IN_ALKALINITY, FUZZY_IN_SULFITE,
        FUZZY_IN_PH; lia. }
  split; [exact Hrow|].
  split.
  { change (term_name ctl i 2 = "Normal").
    apply normal_term_name; [assumption | congruence | assumption]. }
  split; [rewrite fuzzifyInputs_length; exact Hlen|].
  split; [reflexivity|].
  split; [intros j Hj Hvj; apply fuzzifyInputs_valid; assumption|].
  split.
  - intros r Hs.
    destruct (firingStrength_forced_row ctl (fuzzifyInputs expf ctl inputs)
                r i Hlt Hrow Hs) as (F1 & F2).
    split; [|exact F2].
    intros Ht. specialize (F1 Ht). split; [exact F1|].
    intros Hw. unfold rule_fires.
    assert (P : fmul (firingStrength ctl (fuzzifyInputs expf ctl inputs) r)
                  (weight r) <= 0).
    { unfold fmul. rewrite Qred_correct.
      set (f := firingStrength ctl (fuzzifyInputs expf ctl inputs) r) in *.
      assert (Q0 : 0 <= (- f) * weight r)
        by (apply Qmult_le_0_compat; lra).
      lra. }
    assert (L : Qltb (fmul (firingStrength ctl
                              (fuzzifyInputs expf ctl inputs) r)
                        (weight r)) (1 # 1000) = true)
      by (apply Qltb_lt; lra).
    rewrite L. apply andb_false_r.
  - cbn [active_rules inferAndDefuzzify]. unfold inferRules, firing_rules.
    rewrite inferRules_counts. reflexivity.
Qed.

(** The reference controller with no manual test entered: each manual row
    is the Normal row.  Rule 7 ("alkalinity Low") names another term of
    the alkalinity row and does not fire; eleven rules fire, the ones
    whose antecedents the loop skips. *)
Lemma invalid_manual_input_is_normal_witness :
  let '(result, ctl') :=
    evaluate (fun _ => 1) (sensor_inputs 50 0) reference_controller in
  nth FUZZY_IN_ALKALINITY (_input_membership ctl') []
  = [0; 0; 1; 0; 0; 0; 0]
  /\ term_name ctl' FUZZY_IN_ALKALINITY 2 = "Normal"
  /\ rule_fires reference_controller (_input_membership ctl')
       (nth 6 default_rules zero_rule) = false
  /\ active_rules result
     = firing_rules reference_controller (_input_membership ctl')
  /\ firing_rules reference_controller (_input_membership ctl') = 11%nat.
Proof.
  pose proof (invalid_manual_input_is_normal (fun _ => 1) (sensor_inputs 50 0)
                reference_controller FUZZY_IN_ALKALINITY) as H.
  destruct (evaluate (fun _ => 1) (sensor_inputs 50 0) reference_controller)
    as [result ctl'] eqn:E.
  destruct H as (H1 & H2 & _ & _ & _ & H6 & H7).
  - right. left. reflexivity.
  - discriminate.
  - apply (begin_builds reference_config init_controller); reflexivity.
  - reflexivity.
  - reflexivity.
  - split; [exact H1|]. split; [exact H2|].
    split; [|split; [exact H7|]].
    + refine (proj2 (proj1 (H6 (nth 6 default_rules zero_rule) _) _) _).
      * reflexivity.
      * cbn. discriminate.
      * cbn. discriminate.
    + assert (C : ctl' = snd (evaluate (fun _ => 1) (sensor_inputs 50 0)
                               reference_controller))
        by (rewrite E; reflexivity).
      rewrite C. vm_compute. reflexivity.
Defined.

(** *** Evaluation at the setpoints *)

(** The rule table names its terms with [linguistic_term_t] (seven
    values, MD = 3, HI = 5, VH = 6) while every variable has five sets,
    Normal at index 2.  MD selects the set named "High", and HI and VH
    are not below [num_sets], so the rule loop skips them like
    [DONT_CARE]. *)
Lemma rule_terms_against_sets :
  term_name reference_controller FUZZY_IN_TDS MD = "High"
  /\ term_name reference_controller FUZZY_IN_TDS 2 = "Normal"
  /\ (num_sets (nth FUZZY_IN_TDS (_inputs reference_controller) zero_var)
      <=? HI)%nat = true
  /\ (num_sets (nth FUZZY_IN_TDS (_inputs reference_controller) zero_var)
      <=? VH)%nat = true.
Proof. repeat split; reflexivity. Qed.

(** C9 (evaluation at the setpoints).  With the four manual inputs valid
    and equal to the configured setpoints, whatever the temperature and the
    trend, eleven rules fire, the strongest being rule 1 ("conductivity
    VeryHigh") at strength 1.0, and the recommendations are blowdown
    50.67 percent, caustic 8.67 percent, sulfite 8.67 percent and acid
    51.05 percent: blowdown lies outside the support [0, 25) of the Zero
    term and [0, 50) of the Low term.  The status report's confidence
    label for three valid manual tests is "HIGH". *)
Theorem evaluate_at_setpoints expf temperature trend :
  let result :=
    fst (evaluate expf (sensor_inputs temperature trend)
           at_setpoints_controller) in
  blowdown_rate result = 39475 # 779
  /\ caustic_rate result = 26 # 3
  /\ sulfite_rate result = 26 # 3
  /\ acid_rate result = 60600 # 1187
  /\ active_rules result = 11%nat
  /\ max_firing_strength result = 1
  /\ dominant_rule result = 0%nat
  /\ 50 < blowdown_rate result
  /\ confidence true true true = "HIGH".
Proof.
  cbn zeta. repeat split; vm_compute; reflexivity.
Qed.

(** The membership rows at the setpoints: each manual input is fully
    Normal and nothing else. *)
Lemma membership_at_setpoints :
  firstn 4 (_input_membership
              (snd (evaluate (fun _ => 1) (sensor_inputs 50 0)
                      at_setpoints_controller)))
  = repeat [0; 0; 1; 0; 0; 0; 0] 4.
Proof. vm_compute. reflexivity. Qed.

(** *** Membership degrees *)

Lemma Qle_bool_false x y : Qle_bool x y = false -> y < x.
Proof.
  intros H. apply Qnot_le_lt. intros Hle.
  apply Qle_bool_iff in Hle. congruence.
Qed.

Lemma ratio_unit x a b :
  a < x -> x <= b -> 0 <= fdiv (fsub x a) (fsub b a) <= 1.
Proof.
  intros H1 H2. unfold fdiv, fsub. rewrite !Qred_correct.
  split.
  - apply Qle_shift_div_l; lra.
  - apply Qle_shift_div_r; lra.
Qed.

Lemma ratio_unit_down x c d :
  c < x -> x < d -> 0 <= fdiv (fsub d x) (fsub d c) <= 1.
Proof.
  intros H1 H2. unfold fdiv, fsub. rewrite !Qred_correct.
  split.
  - apply Qle_shift_div_l; lra.
  - apply Qle_shift_div_r; lra.
Qed.

(** X24.  A triangular, trapezoidal or singleton membership degree lies in
    [0, 1] for every value and every parameter list: each quotient is
    taken only where its divisor is positive.  A triangular set whose
    peak is not strictly inside its feet has degree 0 at its peak, as the
    output sets Zero (at 0) and VeryHigh (at 100) have. *)
Theorem piecewise_linear_degree_in_unit_interval expf f value lo hi :
  piecewise_linear f = true ->
  0 <= evaluateMF expf f value lo hi <= 1
  /\ (mf_type f = MF_TRIANGULAR ->
      param 1 f <= param 0 f \/ param 2 f <= param 1 f ->
      evaluateMF expf f (param 1 f) lo hi = 0).
Proof.
  intros Hp. unfold piecewise_linear in Hp. unfold evaluateMF.
  destruct (mf_type f); try discriminate.
  - split.
    + destruct (Qle_bool value (param 0 f)) eqn:E1; cbn [orb];
        [split; lra|].
      destruct (Qle_bool (param 2 f) value) eqn:E2; [split; lra|].
      apply Qle_bool_false in E1. apply Qle_bool_false in E2.
      destruct (Qle_bool value (param 1 f)) eqn:E3.
      * apply Qle_bool_iff in E3. apply ratio_unit; assumption.
      * apply Qle_bool_false in E3. apply ratio_unit_down; assumption.
    + intros _ [H|H].
      * apply Qle_bool_iff in H. rewrite H. reflexivity.
      * apply Qle_bool_iff in H. rewrite H, orb_true_r. reflexivity.
  - split; [|discriminate].
    destruct (Qle_bool value (param 0 f)) eqn:E1; cbn [orb]; [split; lra|].
    destruct (Qle_bool (param 3 f) value) eqn:E2; [split; lra|].
    apply Qle_bool_false in E1. apply Qle_bool_false in E2.
    destruct (Qle_bool (param 1 f) value) eqn:E3; cbn [andb].
    + destruct (Qle_bool value (param 2 f)) eqn:E4; [split; lra|].
      apply Qle_bool_false in E4.
      assert (L : Qltb value (param 1 f) = false)
        by (unfold Qltb; rewrite E3; reflexivity).
      rewrite L. apply ratio_unit_down; assumption.
    + apply Qle_bool_false in E3.
      assert (L : Qltb value (param 1 f) = true)
        by (apply Qltb_lt; exact E3).
      rewrite L. apply ratio_unit; [assumption|lra].
  - split; [|discriminate].
    destruct (Qltb _ _); split; lra.
Qed.

(** The output set Medium (25, 50, 75) at 40 has degree 3/5; the set
    Zero (0, 0, 25) has degree 0 at 0. *)
Lemma piecewise_linear_degree_in_unit_interval_witness :
  let medium := nth 2 output_sets zero_mf in
  let zero := nth 0 output_sets zero_mf in
  evaluateMF (fun _ => 0) medium 40 0 100 = 3 # 5
  /\ 0 <= evaluateMF (fun _ => 0) medium 40 0 100 <= 1
  /\ evaluateMF (fun _ => 0) zero 0 0 100 = 0.
Proof.
  cbn zeta. split; [reflexivity|].
  pose proof (piecewise_linear_degree_in_unit_interval (fun _ => 0)
                (nth 2 output_sets zero_mf) 40 0 100 eq_refl) as (A & _).
  pose proof (piecewise_linear_degree_in_unit_interval (fun _ => 0)
                (nth 0 output_sets zero_mf) 0 0 100 eq_refl) as (_ & B).
  split; [exact A|].
  apply B; [reflexivity|]. left. cbn. lra.
Defined.

(** *** What the inference reads of the sensor inputs *)

(** The firing strength of a rule reads a row of the membership table
    only for an antecedent it does not skip. *)
Lemma firingStrength_rows ctl m1 m2 r :
  (forall i, (i < FUZZY_MAX_INPUTS)%nat ->
             antecedent_skipped ctl r i = true
             \/ nth i m1 [] = nth i m2 []) ->
  firingStrength ctl m1 r = firingStrength ctl m2 r.
Proof.
  intros H. unfold firingStrength. apply fold_left_ext_in.
  intros fs i Hi. apply in_seq in Hi.
  destruct (H i) as [S|S]; [lia| |].
  - unfold antecedent_skipped in S. cbn zeta in S. rewrite S. reflexivity.
  - rewrite S. reflexivity.
Qed.

Lemma inferRules_rows expf ctl m1 m2 :
  (forall r, (r < _num_rules ctl)%nat ->
             firingStrength ctl m1 (nth r (_rules ctl) zero_rule)
             = firingStrength ctl m2 (nth r (_rules ctl) zero_rule)) ->
  inferRules expf ctl m1 = inferRules expf ctl m2.
Proof.
  intros H. unfold inferRules. apply fold_left_ext_in.
  intros st r Hr. apply in_seq in Hr.
  unfold applyRuleAt. rewrite (H r) by lia. reflexivity.
Qed.

Lemma fuzzifyInputs_manual_rows expf ctl i1 i2 k :
  (k < FUZZY_IN_TEMPERATURE)%nat ->
  nth k (fuzzifyInputs expf ctl i1) [] = nth k (fuzzifyInputs expf ctl i2) [].
Proof.
  intros Hk. unfold FUZZY_IN_TEMPERATURE in Hk. unfold fuzzifyInputs.
  rewrite !(array_set_nth_other FUZZY_IN_TREND k)
    by (unfold FUZZY_IN_TREND; lia).
  rewrite !(array_set_nth_other FUZZY_IN_TEMPERATURE k)
    by (unfold FUZZY_IN_TEMPERATURE; lia).
  reflexivity.
Qed.

(** X25.  [evaluate] takes nothing from its argument but the temperature and
    the trend, and reads those rows of the membership table only through
    rules with a temperature or trend term below the variable's number
    of sets.  When the rule base has no such rule, as after [begin], the
    result is the same for every argument: only the stored manual values
    count. *)
Theorem evaluate_ignores_sensor_inputs expf ctl i1 i2 :
  sensors_unused ctl = true ->
  fst (evaluate expf i1 ctl) = fst (evaluate expf i2 ctl).
Proof.
  intros H. unfold evaluate.
  destruct (_config ctl); [|reflexivity]. cbn [fst].
  unfold inferAndDefuzzify.
  assert (E : inferRules expf ctl (fuzzifyInputs expf ctl i1)
              = inferRules expf ctl (fuzzifyInputs expf ctl i2)).
  { apply inferRules_rows. intros r Hr.
    apply firingStrength_rows. intros i Hi.
    unfold sensors_unused in H. rewrite forallb_forall in H.
    specialize (H r). cbn zeta in H.
    assert (Hin : In r (seq 0 (_num_rules ctl))) by (apply in_seq; lia).
    apply H in Hin. apply andb_true_iff in Hin. destruct Hin as (H4 & H5).
    destruct (Nat.lt_ge_cases i FUZZY_IN_TEMPERATURE) as [Hlt|Hge].
    - right. apply fuzzifyInputs_manual_rows. exact Hlt.
    - left. unfold FUZZY_MAX_INPUTS in Hi. unfold FUZZY_IN_TEMPERATURE in Hge.
      assert (Hc : i = FUZZY_IN_TEMPERATURE \/ i = FUZZY_IN_TREND)
        by (unfold FUZZY_IN_TEMPERATURE, FUZZY_IN_TREND; lia).
      destruct Hc as [-> | ->]; assumption. }
  rewrite E. reflexivity.
Qed.

(** After [begin] the rule base reads neither row, whatever the
    configuration: the temperature and trend terms of the default rules
    (High, VeryHigh) are not below the 3 and 5 sets of the variables. *)
Lemma begin_sensors_unused cfg :
  match begin (Some cfg) init_controller with
  | Some c => sensors_unused c = true
  | None => False
  end.
Proof. reflexivity. Qed.

(** A boiler at 20 degrees with a flat trend and one at 95 degrees with a
    steep trend get the same result. *)
Lemma evaluate_ignores_sensor_inputs_witness :
  fst (evaluate (fun _ => 1) (sensor_inputs 20 0) at_setpoints_controller)
  = fst (evaluate (fun _ => 1) (sensor_inputs 95 100) at_setpoints_controller).
Proof.
  apply evaluate_ignores_sensor_inputs. vm_compute. reflexivity.
Defined.

(** *** The range of the recommended rates *)

Lemma fold_left_invariant {A B : Type} (P : A -> Prop) (f : A -> B -> A)
  (l : list B) :
  (forall a x, In x l -> P a -> P (f a x)) ->
  forall a, P a -> P (fold_left f l a).
Proof.
  induction l as [|x l IH]; intros H a Ha; [exact Ha|].
  cbn [fold_left]. apply IH.
  - intros a' x' Hx. apply H. right. exact Hx.
  - apply H; [left; reflexivity | exact Ha].
Qed.

Lemma fmax_ge_l a b : a <= fmax a b.
Proof.
  unfold fmax. destruct (Qgtb a b) eqn:E; [lra|].
  apply Qgtb_le in E. exact E.
Qed.

Lemma array_set_nonneg x v row :
  0 <= v -> nonneg_row row -> nonneg_row (array_set x v row).
Proof.
  intros Hv. revert x.
  induction row as [|y row IH]; intros x H k;
    [destruct x; exact (H k)|].
  destruct x as [|x]; destruct k as [|k]; cbn.
  - exact Hv.
  - exact (H (S k)).
  - exact (H 0%nat).
  - apply IH. intros j. exact (H (S j)).
Qed.

Lemma array_set_nonneg_table o row agg :
  nonneg_row row -> nonneg_table agg -> nonneg_table (array_set o row agg).
Proof.
  intros Hr. revert o.
  induction agg as [|y agg IH]; intros o H k;
    [destruct o; exact (H k)|].
  destruct o as [|o]; destruct k as [|k]; cbn.
  - exact Hr.
  - exact (H (S k)).
  - exact (H 0%nat).
  - apply IH. intros j. exact (H (S j)).
Qed.

Lemma clipInto_nonneg expf var f fs row :
  nonneg_row row -> nonneg_row (clipInto expf var f fs row).
Proof.
  unfold clipInto. apply fold_left_invariant.
  intros r x _ Hr. apply array_set_nonneg; [|exact Hr].
  apply Qle_trans with (y := nth x r 0); [apply Hr | apply fmax_ge_l].
Qed.

Lemma aggregate_nonneg expf ctl r fs agg :
  nonneg_table agg -> nonneg_table (aggregate expf ctl r fs agg).
Proof.
  unfold aggregate. apply fold_left_invariant.
  intros a o _ Ha. destruct (_ || _); [exact Ha|].
  apply array_set_nonneg_table; [|exact Ha].
  apply clipInto_nonneg. apply Ha.
Qed.

Lemma nonneg_row_repeat n : nonneg_row (repeat 0 n).
Proof.
  induction n as [|n IH]; intros [|x]; cbn; try lra. apply IH.
Qed.

Lemma nonneg_table_repeat n k : nonneg_table (repeat (repeat 0 n) k).
Proof.
  induction k as [|k IH]; intros [|o]; cbn.
  - intros [|x]; cbn; lra.
  - intros [|x]; cbn; lra.
  - apply nonneg_row_repeat.
  - apply IH.
Qed.

Lemma inferRules_nonneg expf ctl m :
  nonneg_table (output_aggregation (inferRules expf ctl m)).
Proof.
  unfold inferRules.
  apply (fold_left_invariant (fun st => nonneg_table (output_aggregation st))).
  - intros st r _ H. unfold applyRuleAt.
    destruct (negb _); [exact H|].
    destruct (Qltb _ _); [exact H|].
    cbn [output_aggregation]. apply aggregate_nonneg. exact H.
  - apply nonneg_table_repeat.
Qed.

Lemma crisp_x_within var x :
  min_value var <= max_value var ->
  (x < FUZZY_RESOLUTION)%nat ->
  min_value var <= crisp_x var x <= max_value var.
Proof.
  intros Hr Hx. unfold crisp_x, fadd, fdiv, fmul, fsub.
  rewrite !Qred_correct.
  change (inject_Z (Z.of_nat (FUZZY_RESOLUTION - 1))) with (100 # 1).
  set (X := inject_Z (Z.of_nat x)).
  assert (HX : 0 <= X <= 100).
  { subst X. unfold FUZZY_RESOLUTION in Hx. split.
    - change 0 with (inject_Z 0). rewrite <- Zle_Qle. lia.
    - change 100 with (inject_Z 100). rewrite <- Zle_Qle. lia. }
  set (d := max_value var - min_value var).
  assert (Hd : 0 <= d) by (subst d; lra).
  assert (P1 : 0 <= d * X) by (apply Qmult_le_0_compat; lra).
  assert (P2 : d * X <= d * 100).
  { rewrite !(Qmult_comm d). apply Qmult_le_compat_r; lra. }
  assert (Q1 : 0 <= d * X / 100) by (apply Qle_shift_div_l; lra).
  assert (Q2 : d * X / 100 <= d) by (apply Qle_shift_div_r; lra).
  subst d. split; lra.
Qed.

Lemma defuzzify_within ctl o agg :
  min_value (nth o (_outputs ctl) zero_var) <= 0 ->
  0 <= max_value (nth o (_outputs ctl) zero_var) ->
  nonneg_row agg ->
  min_value (nth o (_outputs ctl) zero_var) <= defuzzify ctl o agg
  /\ defuzzify ctl o agg <= max_value (nth o (_outputs ctl) zero_var).
Proof.
  intros Hlo Hhi Hagg. unfold defuzzify.
  destruct (FUZZY_MAX_OUTPUTS <=? o)%nat; [split; assumption|].
  set (var := nth o (_outputs ctl) zero_var) in *.
  set (step := fun '(sw, sm) x =>
                 (fadd sw (fmul (crisp_x var x) (nth x agg 0)),
                  fadd sm (nth x agg 0))).
  assert (I : let '(sw, sm) := fold_left step (seq 0 FUZZY_RESOLUTION) (0, 0) in
              0 <= sm
              /\ min_value var * sm <= sw
              /\ sw <= max_value var * sm).
  { apply (fold_left_invariant
             (fun p : Q * Q =>
                let '(sw, sm) := p in
                0 <= sm
                /\ min_value var * sm <= sw /\ sw <= max_value var * sm)).
    - intros [sw sm] x Hx (H1 & H2 & H3). apply in_seq in Hx.
      unfold step, fadd, fmul. rewrite !Qred_correct.
      pose proof (Hagg x) as Ha.
      destruct (crisp_x_within var x) as (C1 & C2); [lra | lia |].
      set (a := nth x agg 0) in *. set (c := crisp_x var x) in *.
      assert (M1 : min_value var * a <= c * a)
        by (apply Qmult_le_compat_r; assumption).
      assert (M2 : c * a <= max_value var * a)
        by (apply Qmult_le_compat_r; assumption).
      split; [lra|]. split; lra.
    - split; [lra|]. split; lra. }
  destruct (fold_left step (seq 0 FUZZY_RESOLUTION) (0, 0)) as [sw sm].
  destruct I as (I1 & I2 & I3).
  destruct (Qltb sm (1 # 1000)) eqn:E; [split; assumption|].
  apply Qltb_ge in E.
  assert (Hp : 0 < sm) by lra.
  unfold fdiv. rewrite Qred_correct. split.
  - apply Qle_shift_div_l; assumption.
  - apply Qle_shift_div_r; assumption.
Qed.

(** X26.  Every rate of a result lies inside the range of its output variable
    (0 to 100 as [begin] sets the ranges), for all inputs, rule bases,
    weights and membership shapes: the aggregated degrees are never
    negative, and the centroid of non-negative degrees over sample points
    of the range is in the range. *)
Theorem rates_within_output_ranges expf inputs ctl :
  output_ranges_hold_zero ctl ->
  rates_within ctl (fst (evaluate expf inputs ctl)).
Proof.
  intros H. unfold evaluate.
  destruct (_config ctl); cbn [fst].
  - unfold inferAndDefuzzify, rates_within.
    cbn [blowdown_rate caustic_rate sulfite_rate acid_rate].
    pose proof (inferRules_nonneg expf ctl (fuzzifyInputs expf ctl inputs))
      as N.
    repeat split;
      apply defuzzify_within; first [apply H | apply N].
  - unfold rates_within, zero_result.
    cbn [blowdown_rate caustic_rate sulfite_rate acid_rate].
    repeat split; apply H.
Qed.

Lemma reference_output_ranges : output_ranges_hold_zero at_setpoints_controller.
Proof.
  intros o.
  do 4 (destruct o as [|o]; [vm_compute; split; discriminate|]).
  destruct o; vm_compute; split; discriminate.
Qed.

(** At the setpoints the blowdown rate of the reference controller is
    between 0 and 100. *)
Lemma rates_within_output_ranges_witness :
  let r := fst (evaluate (fun _ => 1) (sensor_inputs 50 0)
                  at_setpoints_controller) in
  0 <= blowdown_rate r /\ blowdown_rate r <= 100.
Proof.
  cbn zeta.
  exact (proj1 (rates_within_output_ranges (fun _ => 1) (sensor_inputs 50 0)
                  at_setpoints_controller reference_output_ranges)).
Defined.

End FuzzyProps.

(** ** Water meters *)

Module WaterMeterProps.

Import WaterMeter.

Lemma get2_set2 id v a : get2 id (set2 id v a) = v.
Proof. destruct id; reflexivity. Qed.

(** *** Debounce *)

Lemma handleInterrupt_dropped id now d :
  sub32 now (get2 id (meter_last_pulse_times d)) < WATER_METER_DEBOUNCE_MS ->
  handleInterrupt id now d = d.
Proof.
  intros H. unfold handleInterrupt.
  destruct (2 <=? id)%nat; [reflexivity|].
  destruct (Z.leb_spec WATER_METER_DEBOUNCE_MS
              (sub32 now (get2 id (meter_last_pulse_times d))));
    [lia | reflexivity].
Qed.

(** X27.  The interrupt handler counts an edge only when at least 50 ms have
    passed, on the 32-bit clock, since the last counted edge of that
    meter: such an edge adds one to the count and becomes the reference;
    any run of edges that all fall within 50 ms of the reference leaves
    the counters as they were. *)
Theorem debounce_counts_one_per_contact id now times d :
  (id < 2)%nat ->
  let t0 := get2 id (meter_last_pulse_times d) in
  (WATER_METER_DEBOUNCE_MS <= sub32 now t0 ->
   let d' := handleInterrupt id now d in
   get2 id (meter_pulse_counts d') = add32 (get2 id (meter_pulse_counts d)) 1
   /\ get2 id (meter_last_pulse_times d') = now)
  /\ (Forall (fun t => sub32 t t0 < WATER_METER_DEBOUNCE_MS) times ->
      interrupts id times d = d).
Proof.
  intros Hid t0. split.
  - intros Hge d'. subst d'. unfold handleInterrupt.
    destruct (Nat.leb_spec 2 id); [lia|].
    fold t0.
    destruct (Z.leb_spec WATER_METER_DEBOUNCE_MS (sub32 now t0)); [|lia].
    cbn [meter_pulse_counts meter_last_pulse_times].
    rewrite !get2_set2. auto.
  - intros H. unfold interrupts. subst t0.
    induction H as [|t times Ht _ IH]; [reflexivity|].
    cbn [fold_left]. rewrite handleInterrupt_dropped by exact Ht.
    exact IH.
Qed.

(** A contact at 1000 ms is counted; its bounces up to 1040 ms are
    not. *)
Lemma debounce_counts_one_per_contact_witness :
  let d := handleInterrupt 0 1000 isr_init in
  get2 0 (meter_pulse_counts d) = 1
  /\ interrupts 0 bounce d = d.
Proof.
  cbn zeta. split; [reflexivity|].
  refine (proj2 (debounce_counts_one_per_contact 0 0 bounce
                   (handleInterrupt 0 1000 isr_init) _) _).
  - lia.
  - repeat constructor.
Defined.

(** *** Contacts reported to the feed modes *)

Lemma add32_sub32_chain a b c :
  add32 (sub32 a b) (sub32 c a) = sub32 c b.
Proof.
  unfold add32, sub32, wrap32.
  rewrite <- Z.add_mod by lia. f_equal. lia.
Qed.

Lemma add32_wrap_l a b : add32 (wrap32 a) b = wrap32 (a + b).
Proof. unfold add32, wrap32. rewrite Z.add_mod_idemp_l by lia. reflexivity. Qed.

Lemma poll_from sum rounds : forall m,
  let '(total, m') := fold_left poll_round rounds (wrap32 sum, m) in
  total = wrap32 (sum + (_pulse_count m' - _last_query_pulse_count m))
  /\ _last_query_pulse_count m' = _pulse_count m'
  \/ rounds = [] /\ total = wrap32 sum /\ m' = m.
Proof.
  revert sum.
  induction rounds as [|[d now] rounds IH]; intros sum m.
  - cbn. right. auto.
  - cbn [fold_left poll_round]. unfold getContactsSinceLast.
    set (m1 := {| _meter_id := _meter_id (update d now m);
                  _last_query_pulse_count := _pulse_count (update d now m) |}).
    set (c := sub32 (_pulse_count (update d now m))
                (_last_query_pulse_count (update d now m))).
    assert (E : add32 (wrap32 sum) c
                = wrap32 (sum + (_pulse_count m1 - _last_query_pulse_count m))).
    { rewrite add32_wrap_l. subst c m1. cbn [_pulse_count].
      unfold sub32, wrap32. rewrite Z.add_mod_idemp_r by lia.
      reflexivity. }
    rewrite E.
    specialize (IH (sum + (_pulse_count m1 - _last_query_pulse_count m)) m1).
    destruct (fold_left poll_round rounds _) as [total m'].
    left. destruct IH as [(T & L)|(R & T & M)].
    + split; [|exact L]. rewrite T. f_equal.
      change (_last_query_pulse_count m1) with (_pulse_count m1). lia.
    + subst m'. split; [exact T | reflexivity].
Qed.

(** X28.  Polling loses no contact and counts none twice: over any number of
    rounds of [update] and [getContactsSinceLast], the contacts reported
    add up, on 32 bits, to the pulse count at the last round minus the
    query mark at the start, across a wrap of the counter as well. *)
Theorem polling_reports_every_contact rounds m :
  rounds <> [] ->
  let '(total, m') := poll rounds m in
  total = sub32 (_pulse_count m') (_last_query_pulse_count m)
  /\ _last_query_pulse_count m' = _pulse_count m'.
Proof.
  intros Hne. unfold poll.
  pose proof (poll_from 0 rounds m) as H.
  change (wrap32 0) with 0 in H.
  destruct (fold_left poll_round rounds (0, m)) as [total m'].
  destruct H as [(T & L)|(R & _)]; [|contradiction].
  split; [|exact L]. rewrite T. reflexivity.
Qed.

(** Three contacts, polled in two rounds (one contact, then two more):
    three are reported. *)
Lemma polling_reports_every_contact_witness :
  fst (poll [ (interrupts 0 [1000] isr_init, 1500); (three_contacts, 3500) ]
         contactor_meter) = 3.
Proof.
  pose proof (polling_reports_every_contact
                [ (interrupts 0 [1000] isr_init, 1500);
                  (three_contacts, 3500) ] contactor_meter) as H.
  destruct (poll _ contactor_meter) as [total m'] eqn:E.
  destruct H as (T & _); [discriminate|].
  cbn [fst]. rewrite T.
  assert (P : _pulse_count m' = 3).
  { change m' with (snd (total, m')). rewrite <- E. reflexivity. }
  rewrite P. reflexivity.
Defined.

(** *** The volume of a pulse count *)

(** A contactor volume is exact up to 2^24 and rounded to even above:
    16777217 contacts of one unit read as 16777216. *)
Lemma pulsesToVolume_rounds :
  let cfg := {| type := METER_TYPE_CONTACTOR; units := 0;
                volume_per_contact := 1; k_factor := 1; totalizer := 0;
                last_reset_time := 0 |} in
  pulsesToVolume (Some cfg) 16777216 = 16777216%Q
  /\ pulsesToVolume (Some cfg) 16777217 = 16777216%Q
  /\ pulsesToVolume (Some cfg) 16777219 = 16777220%Q.
Proof. repeat split; vm_compute; reflexivity. Qed.

(** Below 2^24 the volume of a contactor is the exact product. *)
Lemma pulsesToVolume_contactor_exact cfg pulses :
  type cfg = METER_TYPE_CONTACTOR ->
  0 < pulses ->
  0 <= pulses * volume_per_contact cfg < 2 ^ 24 ->
  (pulsesToVolume (Some cfg) pulses
   == inject_Z (pulses * volume_per_contact cfg))%Q.
Proof.
  intros Ht Hp Hv. unfold pulsesToVolume. rewrite Ht.
  destruct (Z.eqb_spec pulses 0); [lia|].
  unfold mul32. rewrite wrap32_small by lia.
  apply round32_Z. lia.
Qed.

(** *** The totalizer *)

(** X29.  [update] adds to the totalizer the whole volume counted since the
    last [getVolumeSinceLast], not the volume since the previous
    [update].  For a contactor meter whose volume was never queried: one
    [update] adds the volume of all pulses, a second [update] with no new
    pulse adds it again, and with a query in between the second adds
    nothing.  The volume stays below 2^24, where its [float] is exact. *)
Theorem totalizer_adds_volume_since_last_query d now1 now2 m cfg :
  _config m = Some cfg ->
  type cfg = METER_TYPE_CONTACTOR ->
  _last_query_volume m = 0%Q ->
  let pulses := get2 (_meter_id m) (meter_pulse_counts d) in
  let volume := pulses * volume_per_contact cfg in
  0 < pulses ->
  0 <= volume < 2 ^ 24 ->
  0 <= totalizer cfg ->
  totalizer cfg + 2 * volume <= METER_TOTALIZER_MAX ->
  let m1 := update d now1 m in
  getTotalVolume m1 = totalizer cfg + volume
  /\ getTotalVolume (update d now2 m1) = totalizer cfg + 2 * volume
  /\ getTotalVolume (update d now2 (snd (getVolumeSinceLast m1)))
     = totalizer cfg + volume.
Proof.
  intros Hc Ht Hq pulses volume Hp Hv H0 Hmax m1.
  assert (M : METER_TOTALIZER_MAX < 2 ^ 32) by (vm_compute; reflexivity).
  assert (V : forall c, type c = METER_TYPE_CONTACTOR ->
                        volume_per_contact c = volume_per_contact cfg ->
                        pulsesToVolume (Some c) pulses
                        = round32 (inject_Z volume)).
  { intros c Hc1 Hc2. unfold pulsesToVolume. rewrite Hc1, Hc2.
    destruct (Z.eqb_spec pulses 0); [lia|].
    unfold mul32. fold volume. rewrite wrap32_small by lia.
    reflexivity. }
  assert (R : (round32 (inject_Z volume) == inject_Z volume)%Q)
    by (apply round32_Z; lia).
  assert (D0 : float_to_uint32 (round32 (round32 (inject_Z volume) - 0))
               = volume).
  { rewrite (round32_comp (round32 (inject_Z volume) - 0)
               (inject_Z volume)) by (rewrite R; ring).
    rewrite (float_to_uint32_comp _ _ R).
    apply float_to_uint32_Z. lia. }
  assert (D1 : float_to_uint32
                 (round32 (round32 (inject_Z volume)
                           - round32 (inject_Z volume))) = 0).
  { rewrite (round32_comp (round32 (inject_Z volume)
                           - round32 (inject_Z volume)) 0) by ring.
    reflexivity. }
  assert (C1 : _config m1
               = Some (cfg_set_totalizer (totalizer cfg + volume) cfg)).
  { subst m1. unfold update. cbn [_config]. rewrite Hc.
    fold pulses. rewrite Hq, (V cfg Ht eq_refl), D0.
    unfold add32. rewrite wrap32_small by lia.
    destruct (Z.ltb_spec METER_TOTALIZER_MAX (totalizer cfg + volume));
      [lia | reflexivity]. }
  split; [unfold getTotalVolume; rewrite C1; reflexivity|].
  split.
  - unfold getTotalVolume, update. cbn [_config]. rewrite C1.
    change (_meter_id m1) with (_meter_id m). fold pulses.
    change (_last_query_volume m1) with (_last_query_volume m).
    rewrite Hq, (V (cfg_set_totalizer (totalizer cfg + volume) cfg)
                   Ht eq_refl), D0.
    cbn [totalizer cfg_set_totalizer].
    unfold add32. rewrite wrap32_small by lia.
    destruct (Z.ltb_spec METER_TOTALIZER_MAX (totalizer cfg + volume + volume));
      [lia|]. cbn [totalizer]. lia.
  - unfold getTotalVolume, update, getVolumeSinceLast.
    cbn [snd _config _meter_id _last_query_volume _pulse_count].
    rewrite C1.
    change (_meter_id m1) with (_meter_id m). fold pulses.
    change (_pulse_count m1) with pulses.
    rewrite (V (cfg_set_totalizer (totalizer cfg + volume) cfg) Ht eq_refl),
      D1.
    cbn [totalizer cfg_set_totalizer].
    unfold add32. rewrite Z.add_0_r, wrap32_small by lia.
    destruct (Z.ltb_spec METER_TOTALIZER_MAX (totalizer cfg + volume));
      [lia|]. reflexivity.
Qed.

(** Three contacts of 10 gallons: 30 after one [update], 60 after
    two. *)
Lemma totalizer_adds_volume_since_last_query_witness :
  getTotalVolume (update three_contacts 4000 contactor_meter) = 30
  /\ getTotalVolume
       (update three_contacts 5000 (update three_contacts 4000 contactor_meter))
     = 60.
Proof.
  destruct (totalizer_adds_volume_since_last_query three_contacts 4000 5000
              contactor_meter contactor_config eq_refl eq_refl eq_refl)
    as (A & B & _).
  - reflexivity.
  - vm_compute. split; [discriminate | reflexivity].
  - vm_compute. discriminate.
  - vm_compute. discriminate.
  - split; [exact A | exact B].
Defined.

End WaterMeterProps.
